(* ===== verification/_CoqProject ===== *)
-Q . S2P
Prelude.v
Arith.v
Async.v
Bitmap.v
Mem.v
Pmm.v
Heap.v
HeapInv.v
HeapSpec.v
HeapResize.v
HeapAligned.v
Strings.v
Vector.v
KString.v
LinkedList.v
HashMap.v
Paging.v
PagingArea.v
Sched.v
Input.v
Pci.v
Arena.v
Cmdline.v
Fs.v
Printf.v
PrintfSpec.v
Msd.v
MsdSpec.v
Fat.v
Ustar.v
Elf.v
Module.v
ModuleSpec.v
Loader.v
Descriptors.v
Interrupts.v
Apic.v
Acpi.v
Console.v
Machine.v
Trace.v
Ata.v
Dma.v
Ahci.v
AhciSpec.v
AhciPort.v
Usb.v
UsbSpec.v
Ehci.v
EhciSpec.v
Containers.v
Guarded.v
Selftest.v
Boot.v
Layouts.v
Smp.v
AhciDisk.v
Switch.v
