(* ===== verification/Prelude.v ===== *)
(** * NeptunOS: a verification library of the kernel

    The library models the kernel under [src/kernel] as executable Rocq functions and proves what
    its components promise.  Names follow the source; a definition's comment says where it departs
    from the letter of the code.

    ** The program and the files

    The kernel boots from the loader's memory map, hands out physical pages, maps them, runs a heap
    on top and builds its data structures, drivers and shell from these.

    - [Prelude]: outcomes of kernel code ([res]: a value, [fatal()], undefined behaviour, a loop
      that is never left, spent fuel), fixed-width integers ([uN], [iN]), shared lemmas, tactics.
    - [Arith] ([util/bits/*.hh]): alignment, the direct map [VIRTUAL]/[PHYSICAL], characters.
    - [Async] ([util/async.hh]): the spin lock, sequentially and as an interleaving step relation.
    - [Bitmap] ([util/bitmap.hh]) and [Mem] ([util/mem.cc]): bit sets with first-fit search; the
      block routines over a byte memory.
    - [Pmm] ([mm/pmm.cc], [mm/vmm.cc]): the page allocator and the watermark allocator.
    - [Heap] ([util/mm.cc]): the heap [MemoryMgr], a doubly linked list of blocks in a pool of
      links; [HeapInv] has its invariant and step lemmas, [HeapSpec] the abstract block list and
      the refinement, [HeapResize] set-up and reallocation, [HeapAligned] aligned allocation.
    - [Strings] ([util/string.cc], [string.hh]), [Vector], [KString], [LinkedList], [HashMap]
      ([util/storage.hh]): C strings and the containers.  [HashMap] uses its buckets through a
      type class that [LinkedList] implements.
    - [Paging] ([arch/amd64/paging.cc]): the four-level page tables, fed by [Pmm].
    - [Sched] ([scheduler/scheduler.cc]): the round-robin scheduler over [LinkedList].
    - [Input] ([devmgr/input/input.cc], [modules/ps2]): keyboard state, line editing, PS/2.
    - [Pci] ([pci/pci.cc]): configuration space over an interface for the hardware.
    - [Arena] ([util/arena.hh]) and [Cmdline] ([cmdline/cmdline.cc]): handles; the command line.
    - [Fs] ([fs/fs.cc], [fs/vfs.cc]): paths, mounts and the in-memory file system, whose directories
      are the tables [HashMap] is shown to implement.
    - [Printf] ([util/printf.cc]): formatted output over any output function; [PrintfSpec] its
      theorems.
    - [Msd] ([devmgr/msd/msd.cc], [util/guid.hh]): byte reads over a sector driver (class [Disk]),
      GPT, GUIDs; [MsdSpec] its theorems.
    - [Fat] ([modules/fat/src/fat.cc]): the FAT32 driver over [Msd].
    - [Ustar] ([util/ustar.cc]): the archive the modules come in.
    - [PagingArea]: mapping many pages one after the other, over [Paging] and [Pmm].
    - [Elf] ([util/elf.hh], [util/ksyms.cc], [modules_link]): images, symbols and the linker;
      [Module] ([devmgr/module.cc], [devmgr/devmgr.cc]): the module and device managers, with their
      theorems in [ModuleSpec]; [Loader] ([loader/loader.cc]): programs.
    - [Descriptors] ([arch/amd64/gdt.cc], [tss.cc], [idt.cc]), [Interrupts] ([onInterrupt]) and [Apic]
      ([arch/amd64/apic.cc]): descriptor tables, interrupt handling, interrupt controllers.
    - [Acpi] ([acpi/acpi.cc], [aml.cc]): the firmware's tables.
    - [Console] ([gfx/console.cc]): the text console and the log, over [Printf].
    - [Machine] ([arch/amd64/amd64.cc], [pit.cc], [cpuid.hh], [arch/arch.cc]): waiting for hardware with and
      without a deadline, the timer, the serial line, boot information; [Trace] ([util/stacktrace.cc],
      [syscalls.cc]): stack traces and system calls.
    - [Ata] ([util/ata.hh]): packed structures; [Dma]: memory shared with a controller.  [Ahci]
      ([modules/ahci]) is the disk driver, with the controller as an argument; [AhciSpec] shows what a read
      returns on a controller that serves well-formed commands and only those, [AhciPort] how a port is set up.
    - [Usb] ([devmgr/usb]): descriptors, addresses, hubs over an interface for the host controller, with
      theorems in [UsbSpec]; [Ehci] ([modules/ehci]) implements it, with theorems in [EhciSpec].
    - [Containers] ([util/storage.hh], [variant.hh], [smartptrs.hh]): arrays, optional values, spans,
      variants, owning pointers; [Guarded] ([util/async.hh]): data behind a lock, and atomic numbers.
    - [AhciDisk]: reads through a port one after the other, and the driver as the [Disk] of [Msd] and [Fat].
    - [Smp] ([arch/amd64/smp.cc], [apic.cc]): the start of the other processors, interleaved with the boot
      processor and the timer.  [Switch] ([arch/amd64/int.s], [amd64.s]): interrupt stubs and context
      switches, instruction by instruction, over [Sched].
    - [Boot] ([main.cc], [amd64.cc]): the first calls of [kmain] composed; [Selftest] ([test.cc]): the
      kernel's own tests, run on the definitions; [Layouts]: the packed structures of the headers and the
      offsets the other files read them at.

    State is passed explicitly: a record per component, pointers as indices or addresses, [None]
    for the null pointer; every dereference is checked, so an access outside an object is [Fault]
    and not a made-up value.  Hardware and drivers behind function pointers are type classes with
    the laws the code relies on, and have concrete instances.

    ** What the theorems show

    - Heap: allocation is first fit with splitting and freeing joins neighbours on the abstract
      block list; a pointer that is freed successfully was live and unharmed; freeing undoes
      allocating; resizing gives a live block of the new size with the user's bytes; aligned blocks are
      aligned, and when none fits an address past the heap is returned.
    - Pages: after [pmm_init] exactly the usable pages outside the reserved window are free, pages
      are handed out lowest first and never twice; a mapped address translates to its page.
    - Lock: mutual exclusion in every interleaving, and availability after every unlock; updates of
      the data behind a lock take effect one after the other.
    - Start: on every memory map that is [bootable] and has pages for the interrupt stack the first
      calls of [kmain] succeed, with the page allocator and the heap in their invariants, the segments and
      gates in the tables and the stack in pages of its own; however the processors
      interleave, each comes up with tables of its own or is reported.
    - Containers: vector, list and hash map refine lists and tables, call by call; a list only as long
      as the last of several elements is not removed.
    - Scheduler: every timer interrupt continues the next task of the ring, with its registers as they
      were when it was interrupted, but for the data segments, if the handler takes no exception before
      the context is copied; a task that exits leaves the ring if a tick comes before [pause()].
    - Text: comparisons and copies; numbers printed by [sprintf] are read back by the parsers; a
      bounded buffer is never overrun; a call without floating point that finds its arguments returns.
    - Files: creation and removal of files (a created directory dangles), writing and reading back, longest
      mount point, reading along cluster chains, the partition table against the layout of its entries,
      GUID texts.
    - Modules: relocated places hold the sum of symbol and addend; sections are placed disjointly,
      mapped and filled; a device starts exactly the modules that ask for it; program segments.
    - Interrupts: gates lead to their stubs, redirection entries say what was asked, the MADT is
      read to its end, periodic work runs once per period with one acknowledgement per interrupt, heap pages appear on
      first use in frames nothing else had.
    - Console: no text without backspaces writes outside the buffer, scrolling included.
    - Disks and USB: any sequence of reads through an AHCI port delivers the sectors asked for, and so
      partitions and files are found through the whole stack of drivers; a control transfer is
      queued and completed over EHCI; no two USB devices are given the same address while there are free ones.

    The examples next to the theorems show concrete runs, among them those where the code does not
    do what it means to (a removed last link, growing arenas, long FAT names and others).

    ** Bounds and fuel

    Loops over lists are structural.  Loops whose end depends on the data carry fuel: walks over the
    heap's links (the pool has as many links as fuel is given), list traversals, path walks (one
    unit per character), format strings (one per character), cluster chains (one per cluster).  The
    theorems state success for the fuel they name; running out is the separate outcome [NoFuel].
    [_ftoa] and [_etoa] call each other at most twice.

    ** Not modelled

    Exhaustion of the heap inside the containers and the in-memory file system: [Vector], [LinkedList] and [Fs]
    are models of runs in which their blocks are found, and what the heap does otherwise is in [Heap]; the
    read behind the last bucket that [HashMap::end()] makes and does not use.
    Inline assembly and the assembly that loads descriptor tables and enables SSE; the calls of [kmain]
    after the heap as one composition (their components are modelled one by one); the boot protocol
    header [limine.hh] but for the memory map, framebuffers and files; type traits ([helpers.hh]); the AML
    interpreter of [acpi/util.cc], which is commented out, and the part of [acpi_parse_aml] behind its first
    [return]; the aarch64 stubs and the userland examples. *)
From stdpp Require Export base list numbers strings gmap.
From Stdlib Require Export ZArith Lia.
#[global] Open Scope Z_scope.

(** ** Outcomes of kernel code *)

(** What running a piece of kernel code gives: a value; [fatal()] or a failed
    [assert] (prints and halts, never returns); a use of a null pointer or of
    storage outside its object (undefined in the source); a loop that can never
    be left, such as taking a lock that is held by the same flow; or, for the
    loops that carry fuel, fuel that ran out. *)
Inductive res (A : Type) : Type :=
| Ok (a : A)
| Fatal (msg : string)
| Fault
| Hang
| NoFuel.
Arguments Ok {_} _.
Arguments Fatal {_} _.
Arguments Fault {_}.
Arguments Hang {_}.
Arguments NoFuel {_}.

#[global] Instance res_ret : MRet res := λ A a, Ok a.
#[global] Instance res_bind : MBind res := λ A B k r,
  match r with
  | Ok a => k a
  | Fatal m => Fatal m
  | Fault => Fault
  | Hang => Hang
  | NoFuel => NoFuel
  end.
#[global] Instance res_eq_dec `{EqDecision A} : EqDecision (res A).
Proof. solve_decision. Defined.

(** [assert(c)] *)
Definition assert_ (c : bool) (msg : string) : res unit :=
  if c then Ok tt else Fatal msg.

(** Reading through a pointer or an array cell that may not be there. *)
Definition deref {A} (o : option A) : res A :=
  match o with Some a => Ok a | None => Fault end.

Definition is_Ok {A} (r : res A) : bool := match r with Ok _ => true | _ => false end.

Lemma is_Ok_true {A} (r : res A) : is_Ok r = true → ∃ a, r = Ok a.
Proof. destruct r; cbn; naive_solver. Qed.

Lemma bind_Ok {A B} (r : res A) (k : A → res B) b :
  r ≫= k = Ok b ↔ ∃ a, r = Ok a ∧ k a = Ok b.
Proof. destruct r; cbn; naive_solver. Qed.

Lemma res_bind_assoc {A B C} (r : res A) (f : A → res B) (g : B → res C) : (r ≫= f) ≫= g = r ≫= λ x, f x ≫= g.
Proof. by destruct r. Qed.

Lemma assert_Ok c msg u : assert_ c msg = Ok u ↔ c = true.
Proof. destruct c, u; cbn; naive_solver. Qed.

Lemma deref_Ok {A} (o : option A) a : deref o = Ok a ↔ o = Some a.
Proof. destruct o; cbn; naive_solver. Qed.

Lemma if_decide_ext {A} P Q `{Decision P, Decision Q} (x y y' : A) :
  (P ↔ Q) → y = y' →
  (if bool_decide P then x else y) = (if bool_decide Q then x else y').
Proof. intros HPQ ->. by rewrite (bool_decide_ext P Q HPQ). Qed.

(** Splits every successful run in the context into its successful steps. *)
Ltac inv_step :=
  match goal with
  | H : (_ ≫= _) = Ok _ |- _ => apply bind_Ok in H; destruct H as (?&?&H)
  | H : assert_ _ _ = Ok _ |- _ => apply assert_Ok in H
  | H : deref _ = Ok _ |- _ => apply deref_Ok in H
  | H : Ok _ = Ok _ |- _ => injection H as H
  | H : Fatal _ = Ok _ |- _ => discriminate H
  | H : Fault = Ok _ |- _ => discriminate H
  | H : Hang = Ok _ |- _ => discriminate H
  | H : NoFuel = Ok _ |- _ => discriminate H
  | x : (_ * _)%type |- _ => destruct x
  end.
Ltac inv_res := repeat (inv_step; simpl in *); simplify_eq.

(** ** Machine integers

    A w-bit unsigned integer is a [Z] in [0, 2^w); every operation that can leave
    that range is followed by the wrap-around written out with [uN]. *)
Definition uN (w z : Z) : Z := z `mod` 2 ^ w.
Abbreviation u8 := (uN 8).
Abbreviation u16 := (uN 16).
Abbreviation u32 := (uN 32).
Abbreviation u64 := (uN 64).

(** Two's complement reading of the low w bits ([i8] .. [i64], [int], [char]). *)
Definition iN (w z : Z) : Z :=
  let m := uN w z in if m <? 2 ^ (w - 1) then m else m - 2 ^ w.
Abbreviation i32 := (iN 32).
Abbreviation i64 := (iN 64).

(** [~x] at width w. *)
Definition notN (w z : Z) : Z := uN w (Z.lnot z).

Definition is_uN (w z : Z) : Prop := 0 ≤ z < 2 ^ w.
Abbreviation is_u64 := (is_uN 64).
Abbreviation is_u32 := (is_uN 32).
Abbreviation is_u8 := (is_uN 8).

(** The value [-1] converted to [u64]; the code's "not found" result. *)
Definition NPOS : Z := 2 ^ 64 - 1.

Lemma uN_small w z : is_uN w z → uN w z = z.
Proof. unfold is_uN, uN. intros. by apply Z.mod_small. Qed.

Lemma uN_range w z : 0 ≤ w → is_uN w (uN w z).
Proof. intros. unfold is_uN, uN. apply Z.mod_pos_bound. lia. Qed.

Lemma uN_add_l w a b : uN w (uN w a + b) = uN w (a + b).
Proof. unfold uN. by rewrite Zplus_mod_idemp_l. Qed.
Lemma uN_add_r w a b : uN w (a + uN w b) = uN w (a + b).
Proof. unfold uN. by rewrite Zplus_mod_idemp_r. Qed.
Lemma uN_sub_l w a b : uN w (uN w a - b) = uN w (a - b).
Proof. unfold uN. by rewrite Zminus_mod_idemp_l. Qed.
Lemma uN_sub_r w a b : uN w (a - uN w b) = uN w (a - b).
Proof. unfold uN. by rewrite Zminus_mod_idemp_r. Qed.
Lemma uN_idem w z : uN w (uN w z) = uN w z.
Proof. unfold uN. by rewrite Zmod_mod. Qed.

Create HintDb ints.
Create Rewrite HintDb ints.
#[export] Hint Rewrite uN_add_l uN_add_r uN_sub_l uN_sub_r uN_idem : ints.
#[export] Hint Resolve uN_range : ints.

(** Removes wrap-arounds whose argument [lia] can show to be in range. *)
Ltac pow_norm :=
  repeat match goal with
  | H : context [2 ^ ?n] |- _ =>
      let v := eval vm_compute in (2 ^ n) in progress change (2 ^ n) with v in H
  | |- context [2 ^ ?n] =>
      let v := eval vm_compute in (2 ^ n) in progress change (2 ^ n) with v
  end.
Ltac u_small := rewrite ?uN_small by (unfold is_uN in *; pow_norm; lia).

(** A value and its two's complement reading have the same low bits. *)
Lemma uN_iN w z : uN w (iN w z) = uN w z.
Proof.
  unfold iN. destruct (_ <? _); [by rewrite uN_idem|]. unfold uN. destruct (decide (0 ≤ w)).
  - by rewrite Zminus_mod, Z_mod_same_full, Z.sub_0_r, !Zmod_mod.
  - rewrite (Z.pow_neg_r 2 w) by lia. rewrite !Z.mod_0_r. lia.
Qed.
Lemma iN_uN w a b : uN w a = uN w b → iN w a = iN w b.
Proof. unfold iN. by intros ->. Qed.

Lemma uN_land w z : 0 ≤ w → uN w z = Z.land z (Z.ones w).
Proof. intros. unfold uN. by rewrite Z.land_ones. Qed.

Lemma uN_testbit w z i : 0 ≤ w → 0 ≤ i →
  Z.testbit (uN w z) i = bool_decide (i < w) && Z.testbit z i.
Proof.
  intros. rewrite uN_land by done. rewrite Z.land_spec, Z.testbit_ones_nonneg by lia.
  rewrite andb_comm. f_equal. by case_bool_decide; [apply Z.ltb_lt|apply Z.ltb_ge; lia].
Qed.

Lemma notN_testbit w z i : 0 ≤ w → 0 ≤ i →
  Z.testbit (notN w z) i = bool_decide (i < w) && negb (Z.testbit z i).
Proof. intros. unfold notN. by rewrite uN_testbit, Z.lnot_spec by lia. Qed.

Lemma testbit_eq a b : 0 ≤ a → 0 ≤ b →
  (∀ i, 0 ≤ i → Z.testbit a i = Z.testbit b i) → a = b.
Proof. intros. apply Z.bits_inj'. auto. Qed.

Lemma is_uN_testbit w z : 0 ≤ w → 0 ≤ z →
  (∀ i, w ≤ i → Z.testbit z i = false) → is_uN w z.
Proof.
  intros Hw Hz H. assert (uN w z = z) as <-; [|by apply uN_range].
  apply Z.bits_inj'. intros i Hi. rewrite uN_testbit by done.
  case_bool_decide; [done|]. rewrite H; [done|lia].
Qed.

Lemma is_uN_high w z i : is_uN w z → 0 ≤ w → w ≤ i → Z.testbit z i = false.
Proof.
  intros Hz Hw Hi. rewrite <- (uN_small w z) by done. rewrite uN_testbit by lia.
  by rewrite bool_decide_eq_false_2 by lia.
Qed.

Lemma is_uN_lor w a b : 0 ≤ w → is_uN w a → is_uN w b → is_uN w (Z.lor a b).
Proof.
  intros ? Ha Hb. apply is_uN_testbit; [done| |].
  - apply Z.lor_nonneg. destruct Ha, Hb; lia.
  - intros i ?. rewrite Z.lor_spec.
    by rewrite (is_uN_high w a), (is_uN_high w b) by done.
Qed.

Lemma is_uN_land_l w a b : 0 ≤ w → is_uN w a → is_uN w (Z.land a b).
Proof.
  intros ? Ha. apply is_uN_testbit; [done| |].
  - apply Z.land_nonneg. destruct Ha; lia.
  - intros i ?. rewrite Z.land_spec. by rewrite (is_uN_high w a) by done.
Qed.

(** ** Lists indexed by machine integers *)

Definition zlookup {A} (l : list A) (i : Z) : option A :=
  if 0 <=? i then l !! Z.to_nat i else None.
Definition zinsert {A} (l : list A) (i : Z) (a : A) : list A :=
  if 0 <=? i then <[Z.to_nat i := a]> l else l.
Abbreviation zlen l := (Z.of_nat (length l)).

Section ZList.
Context {A : Type}.
Implicit Types (l : list A) (i j : Z) (a : A).

Lemma zlookup_lt l i a : zlookup l i = Some a → 0 ≤ i < zlen l.
Proof.
  unfold zlookup. destruct (Z.leb_spec 0 i); [|done].
  intros ?%lookup_lt_Some. lia.
Qed.

Lemma zlookup_is_Some l i : is_Some (zlookup l i) ↔ 0 ≤ i < zlen l.
Proof.
  unfold zlookup. destruct (Z.leb_spec 0 i).
  - rewrite lookup_lt_is_Some. lia.
  - split; [by intros [??]|lia].
Qed.

Lemma zlookup_in l i : 0 ≤ i < zlen l → ∃ a, zlookup l i = Some a.
Proof. intros. by apply zlookup_is_Some. Qed.

Lemma zlookup_None l i : ¬ (0 ≤ i < zlen l) → zlookup l i = None.
Proof.
  intros H. destruct (zlookup l i) eqn:E; [|done]. by apply zlookup_lt in E.
Qed.

Lemma zlookup_nat l (n : nat) : zlookup l (Z.of_nat n) = l !! n.
Proof.
  unfold zlookup. destruct (Z.leb_spec 0 (Z.of_nat n)); [|lia]. by rewrite Nat2Z.id.
Qed.

Lemma zlookup_Z l i : 0 ≤ i → zlookup l i = l !! Z.to_nat i.
Proof. intros. unfold zlookup. destruct (Z.leb_spec 0 i); [done|lia]. Qed.

Lemma zinsert_Z l i a : 0 ≤ i → zinsert l i a = <[Z.to_nat i := a]> l.
Proof. intros. unfold zinsert. destruct (Z.leb_spec 0 i); [done|lia]. Qed.

Lemma zinsert_length l i a : length (zinsert l i a) = length l.
Proof. unfold zinsert. destruct (0 <=? i); [by rewrite length_insert|done]. Qed.

Lemma zlookup_zinsert l i j a : 0 ≤ i < zlen l →
  zlookup (zinsert l i a) j = if i =? j then Some a else zlookup l j.
Proof.
  intros. unfold zlookup, zinsert. replace (0 <=? i) with true by lia.
  destruct (Z.leb_spec 0 j), (Z.eqb_spec i j); subst; try lia; try done.
  - rewrite list_lookup_insert_eq; [done|lia].
  - by rewrite list_lookup_insert_ne by lia.
Qed.

Lemma zinsert_Forall (P : A → Prop) l i a :
  Forall P l → P a → Forall P (zinsert l i a).
Proof. intros. unfold zinsert. destruct (0 <=? i); [by apply Forall_insert|done]. Qed.

Lemma zlookup_Forall (P : A → Prop) l i a :
  Forall P l → zlookup l i = Some a → P a.
Proof.
  intros HP. unfold zlookup. destruct (0 <=? i); [|done].
  intros ?. by eapply Forall_lookup_1.
Qed.
End ZList.

(** ** Bounded loops

    [for (i = lo; i < hi; i += step) s = body(i, s)], the number of rounds fixed on entry. *)
Fixpoint for_rounds {S} (body : Z → S → res S) (i step : Z) (k : nat) (s : S) : res S :=
  match k with
  | O => Ok s
  | Datatypes.S k' => s' ← body i s; for_rounds body (i + step) step k' s'
  end.

(** Rounds of [for (i = 0; i < hi; i += step)]. *)
Definition rounds (hi step : Z) : nat := Z.to_nat ((hi + step - 1) / step).

Lemma for_rounds_inv {S} (body : Z → S → res S) step (I : Z → S → Prop) k : ∀ i s s',
  I i s →
  (∀ j t t', I j t → body j t = Ok t' → I (j + step) t') →
  for_rounds body i step k s = Ok s' → I (i + Z.of_nat k * step) s'.
Proof.
  induction k as [|k IH]; intros i s s' Hi Hstep H; cbn [for_rounds] in H.
  - injection H as <-. by replace (i + Z.of_nat 0 * step) with i by lia.
  - apply bind_Ok in H as (t & Ht & H).
    replace (i + Z.of_nat (Datatypes.S k) * step) with (i + step + Z.of_nat k * step) by lia.
    eauto.
Qed.

(** The invariant speaks of the index; the loop is run with a step of [d]. *)
Lemma for_rounds_by {S} (body : Z → S → res S) (I : Z → S → Prop) d k : ∀ i s, I i s →
  (∀ n t, (n < k)%nat → let j := i + Z.of_nat n * d in I j t → ∃ t', body j t = Ok t' ∧ I (j + d) t') →
  ∃ s', for_rounds body i d k s = Ok s' ∧ I (i + Z.of_nat k * d) s'.
Proof.
  induction k as [|k IH]; intros i s Hi Hb; cbn [for_rounds].
  { exists s. split; [done|]. by replace (i + Z.of_nat 0 * d) with i by lia. }
  destruct (Hb 0%nat s ltac:(lia)) as (t & E & Ht); [by replace (i + Z.of_nat 0 * d) with i by lia|].
  replace (i + Z.of_nat 0 * d) with i in * by lia. rewrite E. cbn [mbind res_bind].
  destruct (IH (i + d) t Ht) as (s' & E' & H').
  - intros n u Hn. cbn zeta. intros Hu. replace (i + d + Z.of_nat n * d) with (i + Z.of_nat (Datatypes.S n) * d) in * by lia. apply Hb; [lia|done].
  - exists s'. split; [done|]. by replace (i + Z.of_nat (Datatypes.S k) * d) with (i + d + Z.of_nat k * d) by lia.
Qed.
Lemma for_rounds_at {S} (body : Z → S → res S) (I : Z → S → Prop) k i s : I i s →
  (∀ j t, i ≤ j < i + Z.of_nat k → I j t → ∃ t', body j t = Ok t' ∧ I (j + 1) t') →
  ∃ s', for_rounds body i 1 k s = Ok s' ∧ I (i + Z.of_nat k) s'.
Proof.
  intros Hi Hb. replace (i + Z.of_nat k) with (i + Z.of_nat k * 1) by lia. apply for_rounds_by; [done|].
  intros n t Hn j Hj. apply Hb; [unfold j; lia|done].
Qed.
