(* ===== verification/Arith.v ===== *)
(** The kernel's arithmetic helpers ([util/bits/arithmetic.hh], [util/bits/useful.hh]):
    alignment, the direct-map translation [VIRTUAL]/[PHYSICAL], unit conversions, the
    character classes and the octal reader of the tar headers. *)
From S2P Require Import Prelude.

(** ** Definitions *)

(** [align(x, a)]: [(((x) + ((a)-1)) / (a)) * (a)] with operands of width [w]. *)
Definition alignN (w x a : Z) : Z := uN w (uN w (x + (a - 1)) / a * a).
Abbreviation align64 := (alignN 64).
Abbreviation align32 := (alignN 32).

(** [align_down(x, a)]: [(x) / (a) * (a)]. *)
Definition align_down (x a : Z) : Z := x / a * a.

(** [isaligned(x, a)] *)
Definition isaligned (x a : Z) : bool := x `mod` a =? 0.

(** The higher-half base of the direct map. *)
Definition HHDM : Z := 0xffff800000000000.

Definition VIRTUAL (addr : Z) : Z := Z.lor addr HHDM.
Definition PHYSICAL (addr : Z) : Z := Z.land addr (notN 64 HHDM).

(** [bitset(x, n, b)] on a 64-bit [x]. *)
Definition bitset (x n : Z) (b : bool) : Z :=
  if b then Z.lor x (Z.shiftl 1 n) else Z.land x (notN 64 (Z.shiftl 1 n)).

(** The unit macros shift their argument in the argument's own type; the code
    applies [mibs2bytes] and [gibs2bytes] to [int] literals. *)
Definition bytes2kibs (b : Z) : Z := Z.shiftr b 10.
Definition bytes2mibs (b : Z) : Z := Z.shiftr b 20.
Definition mibs2bytes_int (m : Z) : Z := i32 (Z.shiftl m 20).
Definition gibs2bytes_int (g : Z) : Z := i32 (Z.shiftl g 30).

Definition ISDIGIT (c : Z) : bool := (48 <=? c) && (c <=? 57).
Definition ISLOWERCASE (c : Z) : bool := (97 <=? c) && (c <=? 122).
Definition ISUPPERCASE (c : Z) : bool := (65 <=? c) && (c <=? 90).
Definition ISLETTER (c : Z) : bool := ISLOWERCASE c || ISUPPERCASE c.

(** Page sizes. *)
Definition P4K : Z := 0x1000.
Definition P2M : Z := 0x200000.

(** [oct2bin(str, size)]: reads [size] bytes whatever they are, in [int] arithmetic. *)
Fixpoint oct2bin_loop (str : list Z) (size : nat) (n : Z) : res Z :=
  match size with
  | O => Ok n
  | S size' =>
      match str with
      | [] => Fault
      | c :: str' => oct2bin_loop str' size' (i32 (i32 (n * 8) + (c - 48)))
      end
  end.
Definition oct2bin (str : list Z) (size : nat) : res Z := oct2bin_loop str size 0.

(** ** Facts used by the components *)

Lemma align_down_le x a : 0 < a → align_down x a ≤ x < align_down x a + a.
Proof.
  intros. unfold align_down. pose proof (Z.div_mod x a) as H1.
  pose proof (Z.mod_pos_bound x a). lia.
Qed.

Lemma align_down_mod x a : 0 < a → align_down x a `mod` a = 0.
Proof. intros. unfold align_down. apply Z.mod_mul. lia. Qed.

Lemma align_down_id x a : 0 < a → x `mod` a = 0 → align_down x a = x.
Proof. intros. pose proof (Z.div_mod x a). unfold align_down. lia. Qed.

Lemma alignN_exact w x a : 0 ≤ w → 0 < a → 0 ≤ x → x + (a - 1) < 2 ^ w →
  alignN w x a = (x + (a - 1)) / a * a.
Proof.
  intros. unfold alignN. rewrite (uN_small w (x + (a - 1))) by (unfold is_uN; lia).
  apply uN_small. pose proof (align_down_le (x + (a - 1)) a) as H3.
  unfold align_down in H3. unfold is_uN. split; [|lia].
  apply Z.mul_nonneg_nonneg; [apply Z.div_pos|]; lia.
Qed.

Section Align.
Context (w x a : Z) (Hw : 0 ≤ w) (Ha : 0 < a) (Hx : 0 ≤ x) (Hs : x + (a - 1) < 2 ^ w).

(** Without overflow [align] is the least multiple of [a] not below [x]. *)
Lemma alignN_bounds : x ≤ alignN w x a < x + a.
Proof using All.
  rewrite alignN_exact by done. pose proof (align_down_le (x + (a - 1)) a) as H1.
  unfold align_down in H1. lia.
Qed.

Lemma alignN_mod : alignN w x a `mod` a = 0.
Proof using All. rewrite alignN_exact by done. apply Z.mod_mul. lia. Qed.

Lemma alignN_least y : x ≤ y → y `mod` a = 0 → alignN w x a ≤ y.
Proof using All.
  intros Hy Hm. pose proof alignN_bounds. pose proof alignN_mod as Hm'.
  rewrite (Z.div_mod y a), Hm by lia. rewrite (Z.div_mod (alignN w x a) a), Hm' by lia.
  enough (alignN w x a / a ≤ y / a) by nia.
  assert (alignN w x a < a * (y / a) + a) by (pose proof (Z.div_mod y a); lia).
  pose proof (Z.div_mod (alignN w x a) a). nia.
Qed.

Lemma alignN_id : x `mod` a = 0 → alignN w x a = x.
Proof using All.
  intros. pose proof alignN_bounds. pose proof (alignN_least x). lia.
Qed.
End Align.

Lemma VIRTUAL_add x : 0 ≤ x < 2 ^ 47 → VIRTUAL x = x + HHDM.
Proof.
  intros. unfold VIRTUAL. rewrite Z.add_nocarry_lxor, Z.lxor_lor; [done| |];
  (apply Z.bits_inj'; intros i Hi; rewrite Z.land_spec, Z.bits_0;
   destruct (decide (i < 47));
   [replace HHDM with (Z.shiftl (2 ^ 17 - 1) 47) by reflexivity;
    rewrite (Z.shiftl_spec_low _ _ i), andb_false_r by lia; done
   |rewrite (is_uN_high 47 x i) by (unfold is_uN; lia); done]).
Qed.

Lemma PHYSICAL_mod x : PHYSICAL x = x `mod` 2 ^ 47.
Proof.
  unfold PHYSICAL. replace (notN 64 HHDM) with (Z.ones 47) by reflexivity.
  by rewrite Z.land_ones by lia.
Qed.

Lemma PHYSICAL_VIRTUAL x : 0 ≤ x < 2 ^ 47 → PHYSICAL (VIRTUAL x) = x.
Proof.
  intros. rewrite VIRTUAL_add, PHYSICAL_mod by done.
  replace HHDM with ((2 ^ 17 - 1) * 2 ^ 47) by reflexivity.
  rewrite Z.mod_add by lia. by apply Z.mod_small.
Qed.

Lemma VIRTUAL_mod x a : 0 ≤ x < 2 ^ 47 → 0 < a → HHDM `mod` a = 0 →
  VIRTUAL x `mod` a = x `mod` a.
Proof.
  intros Hx Ha H. rewrite VIRTUAL_add by done.
  by rewrite <- Zplus_mod_idemp_r, H, Z.add_0_r.
Qed.

#[export] Hint Rewrite PHYSICAL_VIRTUAL using lia : ints.
