(* ===== verification/Async.v ===== *)
(** [MutexSimple] and [LockguardSimple] ([util/async.hh]): the spin lock every kernel
    structure is guarded with.  The sequential reading ([lock], [unlock], [guarded]) is what
    the other components use; the interleaving of several processors' lock operations is a
    step relation whose steps are the atomic accesses of [lock] and [unlock]. *)
From S2P Require Import Prelude.

(** ** Sequential reading *)

(** The state of a [MutexSimple] is its [lockvar]. *)
Definition MutexSimple : Type := Z.

(** One flow of control calling [lock()]: with [lockvar] different from 0 the loop is never
    left, since nobody else runs to reset it. *)
Definition lock (lockvar : MutexSimple) : res MutexSimple :=
  if lockvar =? 0 then Ok 1 else Hang.
Definition unlock (lockvar : MutexSimple) : MutexSimple := 0.

(** ** Interleaved reading *)

(** Where a processor is in the code of [lock] and [unlock]. *)
Inductive pc :=
| Outside                       (* not using the mutex *)
| Cmpxchg (expected : Z)        (* about to run the compare-exchange *)
| Retry (expected : Z)          (* the exchange failed and left lockvar in expected *)
| Holding.                      (* lock() has returned *)

Record sys := mkSys { lockvar : Z; cpus : list pc }.

(** [k] is the processor that moves. *)
Inductive step : sys → nat → sys → Prop :=
| step_call v ts k :
    ts !! k = Some Outside →
    step (mkSys v ts) k (mkSys v (<[k := Cmpxchg 0]> ts))
| step_acquire v ts k e :
    ts !! k = Some (Cmpxchg e) → v = e →
    step (mkSys v ts) k (mkSys 1 (<[k := Holding]> ts))
| step_fail v ts k e :
    ts !! k = Some (Cmpxchg e) → v ≠ e →
    step (mkSys v ts) k (mkSys v (<[k := Retry v]> ts))
| step_retry v ts k e :
    ts !! k = Some (Retry e) →
    step (mkSys v ts) k (mkSys v (<[k := Cmpxchg 0]> ts))
| step_unlock v ts k :
    ts !! k = Some Holding →
    step (mkSys v ts) k (mkSys 0 (<[k := Outside]> ts)).

(** Executions: any number of steps by any processors, in any order. *)
Inductive steps : sys → sys → Prop :=
| steps_refl s : steps s s
| steps_cons s k s' s'' : step s k s' → steps s' s'' → steps s s''.

Definition start (n : nat) : sys := mkSys 0 (replicate n Outside).

Definition holding (p : pc) : bool := match p with Holding => true | _ => false end.
Definition holders (ts : list pc) : nat := length (filter (λ p, holding p = true) ts).

(** [lockvar] counts the holders, and no exchange expects anything but 0. *)
Record lock_inv (s : sys) : Prop := {
  inv_count : lockvar s = Z.of_nat (holders (cpus s));
  inv_bit : lockvar s = 0 ∨ lockvar s = 1;
  inv_expect : ∀ k e, cpus s !! k = Some (Cmpxchg e) → e = 0 }.

(** ** Lemmas *)

Lemma lock_Ok v v' : lock v = Ok v' ↔ v = 0 ∧ v' = 1.
Proof. unfold lock. destruct (Z.eqb_spec v 0); naive_solver. Qed.

Lemma holders_insert (ts : list pc) (k : nat) p q : ts !! k = Some p →
  Z.of_nat (holders (<[k := q]> ts)) =
  Z.of_nat (holders ts) + (if holding q then 1 else 0) - (if holding p then 1 else 0).
Proof.
  intros H. unfold holders. rewrite <- (take_drop_middle ts k p H) at 2.
  rewrite insert_take_drop by (by eapply lookup_lt_Some).
  rewrite !filter_app, !filter_cons, !length_app.
  destruct (holding q), (holding p); repeat case_decide; try done; simpl; lia.
Qed.

Lemma holders_start n : holders (replicate n Outside) = 0%nat.
Proof. induction n as [|n IH]; [done|]. unfold holders in *. simpl. done. Qed.

Lemma insert_expect (ts : list pc) (k : nat) p (P : Z → Prop) :
  (∀ (j : nat) e, ts !! j = Some (Cmpxchg e) → P e) →
  (∀ e, p = Cmpxchg e → P e) →
  ∀ (j : nat) e, <[k := p]> ts !! j = Some (Cmpxchg e) → P e.
Proof. intros H1 H2 j e. rewrite list_lookup_insert_Some. naive_solver. Qed.

Lemma lock_inv_start n : lock_inv (start n).
Proof.
  split; simpl; [by rewrite holders_start|by left|].
  intros k e H. apply lookup_replicate_1 in H as [H _]. discriminate.
Qed.

Lemma lock_inv_step s k s' : lock_inv s → step s k s' → lock_inv s'.
Proof.
  intros [Hc Hb He] Hs. destruct Hs as [v ts k H|v ts k e H Hv|v ts k e H Hv|v ts k e H|v ts k H];
    simpl in *; pose proof (holders_insert ts k) as Hh.
  all: split; simpl; [rewrite (Hh _ _ H); simpl|..|apply insert_expect; [done|naive_solver]].
  all: try pose proof (He _ _ H); try lia.
  pose proof (Hh _ Outside H) as Hu. simpl in Hu. lia.
Qed.

Lemma lock_inv_steps s s' : steps s s' → lock_inv s → lock_inv s'.
Proof. induction 1; eauto using lock_inv_step. Qed.

Lemma holders_two (ts : list pc) (i j : nat) : ts !! i = Some Holding → ts !! j = Some Holding → i ≠ j →
  (2 ≤ holders ts)%nat.
Proof.
  intros Hi Hj Hne. pose proof (holders_insert ts i Holding Outside Hi) as H1.
  pose proof (holders_insert (<[i := Outside]> ts) j Holding Outside) as H2.
  rewrite list_lookup_insert_ne in H2 by done. specialize (H2 Hj). simpl in *. lia.
Qed.

Lemma holders_none (ts : list pc) : (∀ k, ts !! k ≠ Some Holding) → holders ts = 0%nat.
Proof.
  induction ts as [|p ts IH]; intros H; [done|]. unfold holders in *. rewrite filter_cons.
  destruct (holding p) eqn:E; case_decide; try done.
  - destruct p; try done. by destruct (H 0%nat).
  - apply IH. intros k. apply (H (S k)).
Qed.

(** ** Properties *)

(** C8: the spin lock gives mutual exclusion: in every interleaving of any number of processors
    calling [lock] and [unlock], two different processors are never both past [lock]. *)
Theorem mutex_exclusion n s (i j : nat) :
  steps (start n) s → cpus s !! i = Some Holding → cpus s !! j = Some Holding → i = j.
Proof.
  intros Hs Hi Hj. destruct (decide (i = j)) as [|Hne]; [done|exfalso].
  pose proof (lock_inv_steps _ _ Hs (lock_inv_start n)) as [Hc Hb _].
  pose proof (holders_two _ _ _ Hi Hj Hne). lia.
Qed.

Lemma mutex_exclusion_witness :
  let s := mkSys 1 [Retry 1; Holding] in
  steps (start 2) s ∧ ∀ i, cpus s !! i = Some Holding → i = 1%nat.
Proof.
  intros s.
  assert (steps (start 2) s) as Hs.
  { eapply steps_cons; [exact (step_call 0 [Outside; Outside] 0 eq_refl)|].
    eapply steps_cons; [exact (step_call 0 [Cmpxchg 0; Outside] 1 eq_refl)|].
    eapply steps_cons; [exact (step_acquire 0 [Cmpxchg 0; Cmpxchg 0] 1 0 eq_refl eq_refl)|].
    eapply steps_cons; [exact (step_fail 1 [Cmpxchg 0; Holding] 0 0 eq_refl ltac:(done))|].
    apply steps_refl. }
  split; [exact Hs|]. intros i Hi.
  exact (mutex_exclusion 2 s i 1 Hs Hi eq_refl).
Defined.

(** The lock is never lost: in every reachable state [lockvar] is 0 exactly when no
    processor is past [lock], and then the next compare-exchange of any waiting processor
    succeeds. *)
Lemma mutex_available n s :
  steps (start n) s →
  (lockvar s = 0 ↔ ∀ k, cpus s !! k ≠ Some Holding) ∧
  ∀ k e, lockvar s = 0 → cpus s !! k = Some (Cmpxchg e) →
    step s k (mkSys 1 (<[k := Holding]> (cpus s))).
Proof.
  intros Hs. pose proof (lock_inv_steps _ _ Hs (lock_inv_start n)) as [Hc Hb He].
  split.
  - rewrite Hc. split.
    + intros H k Hk. pose proof (holders_insert _ _ _ Outside Hk) as H1. simpl in H1. lia.
    + intros H. by rewrite (holders_none _ H).
  - intros k e H0 Hk. pose proof (He _ _ Hk) as ->. destruct s as [v ts]. simpl in *. subst v.
    by eapply step_acquire.
Qed.

Lemma mutex_available_witness :
  step (mkSys 0 [Outside; Cmpxchg 0]) 1 (mkSys 1 [Outside; Holding]).
Proof.
  assert (steps (start 2) (mkSys 0 [Outside; Cmpxchg 0])) as Hs.
  { eapply steps_cons; [exact (step_call 0 [Outside; Outside] 1 eq_refl)|]. apply steps_refl. }
  exact (proj2 (mutex_available 2 _ Hs) 1%nat 0 eq_refl eq_refl).
Defined.
