(* ===== verification/Bitmap.v ===== *)
(** [BitmapSkeleton] and [Bitmap] ([util/bitmap.hh]): a bit set over an array of 64-bit
    words with a bounds check on every access ([DBG] is on), and the first-fit search for a
    run of clear bits that both the page allocator and the heap's link pool allocate from. *)
From S2P Require Import Prelude Arith.

(** ** Definitions *)

(** [buffer] is the array the pointer refers to; reading past it is a [Fault]. *)
Record Bitmap := mkBitmap { buffer : list Z; sz : Z }.

#[global] Instance Bitmap_eq_dec : EqDecision Bitmap.
Proof. solve_decision. Defined.

Definition oob : string := "BitmapSkeleton: out of bounds".

Definition set (bm : Bitmap) (idx : Z) (val : bool) : res Bitmap :=
  let bufidx := idx / 64 in
  let bitidx := idx `mod` 64 in
  if sz bm <=? idx then Fatal oob else
  w ← deref (zlookup (buffer bm) bufidx);
  let w' := if val then Z.lor w (Z.shiftl 1 bitidx)
            else Z.land w (notN 64 (Z.shiftl 1 bitidx)) in
  Ok (mkBitmap (zinsert (buffer bm) bufidx w') (sz bm)).

Definition get (bm : Bitmap) (idx : Z) : res bool :=
  if sz bm <=? idx then Fatal oob else
  let bufidx := idx / 64 in
  let bitidx := idx `mod` 64 in
  w ← deref (zlookup (buffer bm) bufidx);
  Ok (negb (Z.land w (Z.shiftl 1 bitidx) =? 0)).

(** The marking loop: [for (j = current; j <= i; j++) set(j, true)], [k] rounds. *)
Fixpoint set_run (bm : Bitmap) (j : Z) (k : nat) : res Bitmap :=
  match k with
  | O => Ok bm
  | S k' => bm' ← set bm j true; set_run bm' (j + 1) k'
  end.

(** The search loop of [allocate_range], [k = end - i] rounds left. *)
Fixpoint scan (bm : Bitmap) (n current i : Z) (k : nat) : res (Z * Bitmap) :=
  match k with
  | O => Ok (NPOS, bm)
  | S k' =>
      b ← get bm i;
      if negb b then
        if u64 (i - current + 1) =? n
        then bm' ← set_run bm current (Z.to_nat (i - current + 1)); Ok (current, bm')
        else scan bm n current (i + 1) k'
      else scan bm n (i + 1) (i + 1) k'
  end.

Definition allocate_range (bm : Bitmap) (start end_ n : Z) : res (Z * Bitmap) :=
  let end' := Z.min end_ (sz bm) in
  assert_ (0 <? n) "n > 0";;
  scan bm n start start (Z.to_nat (end' - start)).

Definition find_and_set_multiple (bm : Bitmap) (n start_at : Z) : res (Z * Bitmap) :=
  '(first, bm') ← allocate_range bm start_at (sz bm) n;
  if first =? NPOS then allocate_range bm' 0 start_at n else Ok (first, bm').

(** [find_and_set(start_at)] drops its argument: it calls [find_and_set_multiple(1)]. *)
Definition find_and_set (bm : Bitmap) (start_at : Z) : res (Z * Bitmap) :=
  find_and_set_multiple bm 1 0.

(** [init(_buffer, units, def)]; [storage] is the array behind [_buffer]. *)
Definition init (storage : list Z) (units : Z) (def : bool) : res Bitmap :=
  let defa := if def then NPOS else 0 in
  let sz' := align_down units 64 in
  buf ← for_rounds
    (λ i buf, if i <? zlen buf then Ok (zinsert buf i defa) else Fault)
    0 1 (Z.to_nat (sz' / 64)) storage;
  Ok (mkBitmap buf sz').

(** ** The bit set a bitmap stands for *)

Definition bit (bm : Bitmap) (i : Z) : bool :=
  match zlookup (buffer bm) (i / 64) with
  | Some w => Z.testbit w (i `mod` 64)
  | None => false
  end.

(** The words are 64-bit values and the array holds every addressable bit. *)
Record wf (bm : Bitmap) : Prop := {
  wf_words : Forall is_u64 (buffer bm);
  wf_size : 0 ≤ sz bm < NPOS;
  wf_room : sz bm ≤ 64 * zlen (buffer bm) }.

(** [free_run bm a n]: the [n] bits from [a] on are clear. *)
Definition free_run (bm : Bitmap) (a n : Z) : Prop :=
  ∀ j, a ≤ j < a + n → bit bm j = false.

(** [bm'] is [bm] with exactly the [n] bits from [c] on set. *)
Record marks (bm bm' : Bitmap) (c n : Z) : Prop := {
  marks_wf : wf bm';
  marks_sz : sz bm' = sz bm;
  marks_len : length (buffer bm') = length (buffer bm);
  marks_bit : ∀ j, 0 ≤ j → bit bm' j = bool_decide (c ≤ j < c + n) || bit bm j }.

(** ** Single bits *)

Lemma land_bit w b : 0 ≤ b → negb (Z.land w (Z.shiftl 1 b) =? 0) = Z.testbit w b.
Proof.
  intros Hb. rewrite Z.shiftl_1_l.
  destruct (Z.testbit w b) eqn:E; destruct (Z.eqb_spec (Z.land w (2 ^ b)) 0) as [H|H];
    try done; exfalso.
  - assert (Z.testbit (Z.land w (2 ^ b)) b = true) as H1
      by (by rewrite Z.land_spec, E, Z.pow2_bits_true).
    by rewrite H, Z.bits_0 in H1.
  - apply H. apply Z.bits_inj'. intros i Hi. rewrite Z.land_spec, Z.bits_0.
    rewrite Z.pow2_bits_eqb by done. destruct (Z.eqb_spec b i); subst; [by rewrite E|].
    by rewrite andb_false_r.
Qed.

Lemma divmod64 i : 0 ≤ i → 0 ≤ i / 64 ∧ 0 ≤ i `mod` 64 < 64 ∧ i = 64 * (i / 64) + i `mod` 64.
Proof.
  intros. pose proof (Z.div_mod i 64). pose proof (Z.mod_pos_bound i 64).
  pose proof (Z.div_pos i 64). lia.
Qed.

Lemma wf_word bm i : wf bm → 0 ≤ i < sz bm →
  ∃ w, zlookup (buffer bm) (i / 64) = Some w ∧ is_u64 w.
Proof.
  intros [Hw Hs Hr] Hi. pose proof (divmod64 i ltac:(lia)).
  destruct (zlookup_in (buffer bm) (i / 64)) as [w Ew]; [lia|].
  exists w. split; [done|]. by eapply zlookup_Forall.
Qed.

Lemma get_Ok bm i : wf bm → 0 ≤ i < sz bm → get bm i = Ok (bit bm i).
Proof.
  intros Hwf Hi. unfold get, bit. replace (sz bm <=? i) with false by lia.
  destruct (wf_word bm i Hwf Hi) as (w & -> & _). cbn.
  rewrite land_bit; [done|]. pose proof (divmod64 i ltac:(lia)). lia.
Qed.

Lemma get_oob bm i : sz bm ≤ i → get bm i = Fatal oob.
Proof. intros. unfold get. by replace (sz bm <=? i) with true by lia. Qed.

Lemma set_oob bm i v : sz bm ≤ i → set bm i v = Fatal oob.
Proof. intros. unfold set. by replace (sz bm <=? i) with true by lia. Qed.

Lemma set_word_u64 w b v : is_u64 w → 0 ≤ b < 64 →
  is_u64 (if v : bool then Z.lor w (Z.shiftl 1 b) else Z.land w (notN 64 (Z.shiftl 1 b))).
Proof.
  intros Hw Hb. destruct v; [|by apply is_uN_land_l].
  apply is_uN_lor; [done|done|]. rewrite Z.shiftl_1_l. unfold is_uN.
  split; [lia|]. apply Z.pow_lt_mono_r; lia.
Qed.

Lemma set_word_testbit w b v i : is_u64 w → 0 ≤ b < 64 → 0 ≤ i →
  Z.testbit (if v : bool then Z.lor w (Z.shiftl 1 b) else Z.land w (notN 64 (Z.shiftl 1 b))) i
  = if b =? i then v else Z.testbit w i.
Proof.
  intros Hw Hb Hi. rewrite Z.shiftl_1_l. destruct v.
  - rewrite Z.lor_spec, Z.pow2_bits_eqb by lia. destruct (b =? i).
    + apply orb_true_r.
    + apply orb_false_r.
  - rewrite Z.land_spec, notN_testbit, Z.pow2_bits_eqb by lia.
    destruct (Z.eqb_spec b i); subst; [by rewrite !andb_false_r|].
    rewrite andb_true_r. case_bool_decide; [by rewrite andb_true_r|].
    rewrite andb_false_r. symmetry. apply (is_uN_high 64); [done|lia|lia].
Qed.

(** Setting a bit inside the bitmap succeeds and changes that bit only. *)
Lemma set_Ok bm i v : wf bm → 0 ≤ i < sz bm →
  ∃ bm', set bm i v = Ok bm' ∧ wf bm' ∧ sz bm' = sz bm ∧
    length (buffer bm') = length (buffer bm) ∧
    ∀ j, 0 ≤ j → bit bm' j = if i =? j then v else bit bm j.
Proof.
  intros Hwf Hi. unfold set. replace (sz bm <=? i) with false by lia.
  destruct (wf_word bm i Hwf Hi) as (w & Ew & Hw). rewrite Ew. cbn.
  pose proof (divmod64 i ltac:(lia)) as Di. pose proof (zlookup_lt _ _ _ Ew) as Hl.
  eexists. split; [reflexivity|]. destruct Hwf as [H1 H2 H3].
  split; [|split; [done|split; [apply zinsert_length|]]].
  - split; simpl; [|done|by rewrite zinsert_length].
    apply zinsert_Forall; [done|]. apply set_word_u64; [done|lia].
  - intros j Hj. unfold bit. simpl. rewrite zlookup_zinsert by done.
    pose proof (divmod64 j Hj) as Dj.
    destruct (Z.eqb_spec (i / 64) (j / 64)) as [E|E].
    + rewrite set_word_testbit by (done || lia). rewrite <- E, Ew.
      destruct (Z.eqb_spec (i `mod` 64) (j `mod` 64)), (Z.eqb_spec i j); try done; lia.
    + destruct (Z.eqb_spec i j); [congruence|done].
Qed.

(** ** The first-fit search *)

Lemma set_run_Ok k : ∀ bm c, wf bm → 0 ≤ c → c + Z.of_nat k ≤ sz bm →
  ∃ bm', set_run bm c k = Ok bm' ∧ marks bm bm' c (Z.of_nat k).
Proof.
  induction k as [|k IH]; intros bm c Hwf Hc Hs.
  - exists bm. split; [done|]. split; try done. intros j ?.
    by rewrite bool_decide_eq_false_2 by lia.
  - destruct (set_Ok bm c true) as (b1 & E1 & Hw1 & Hs1 & Hl1 & Hb1); [done|lia|].
    destruct (IH b1 (c + 1)) as (b2 & E2 & [Hw2 Hs2 Hl2 Hb2]); [done|lia|rewrite Hs1; lia|].
    exists b2. cbn [set_run]. rewrite E1. split; [done|].
    split; [done|congruence|congruence|]. intros j Hj. rewrite Hb2, Hb1 by done.
    repeat case_bool_decide; destruct (Z.eqb_spec c j); subst; simpl; try done; lia.
Qed.

(** What an allocation from a bitmap promises: the lowest run of [n] clear bits that lies in
    [lo, hi) is returned and marked, or there is none and nothing changes. *)
Definition first_fit (bm : Bitmap) (lo hi n : Z) (r : Z * Bitmap) : Prop :=
  (∃ c bm', r = (c, bm') ∧ lo ≤ c ∧ c + n ≤ hi ∧ free_run bm c n ∧
     (∀ c', lo ≤ c' < c → ¬ free_run bm c' n) ∧ marks bm bm' c n) ∨
  (r = (NPOS, bm) ∧ ∀ c', lo ≤ c' → c' + n ≤ hi → ¬ free_run bm c' n).

Lemma first_fit_weaken bm lo lo' hi n r : lo' ≤ lo →
  (∀ c', lo' ≤ c' < lo → ¬ free_run bm c' n) →
  first_fit bm lo hi n r → first_fit bm lo' hi n r.
Proof.
  intros Hle Hno [(c & bm' & -> & ? & ? & ? & Hmin & ?)|[-> Hnone]].
  - left. exists c, bm'. split_and!; try done; [lia|].
    intros c' ?. destruct (decide (c' < lo)); [apply Hno; lia|apply Hmin; lia].
  - right. split; [done|]. intros c' ??.
    destruct (decide (c' < lo)); [apply Hno; lia|apply Hnone; lia].
Qed.

Lemma scan_first_fit bm n : wf bm → 0 < n → ∀ k current i,
  0 ≤ current ≤ i → i + Z.of_nat k ≤ sz bm → i - current < n →
  free_run bm current (i - current) →
  ∃ r, scan bm n current i k = Ok r ∧ first_fit bm current (i + Z.of_nat k) n r.
Proof.
  intros Hwf Hn. induction k as [|k IH]; intros current i Hc Hs Hlt Hrun; cbn [scan].
  { eexists. split; [done|]. right. split; [done|]. intros c' ??. lia. }
  rewrite get_Ok by (done || lia). cbn.
  replace (i + Z.of_nat (S k)) with (i + 1 + Z.of_nat k) by lia.
  destruct (bit bm i) eqn:Eb; simpl.
  - destruct (IH (i + 1) (i + 1)) as (r & -> & Hr);
      [lia|lia|lia|intros j ?; lia|].
    exists r. split; [done|]. eapply first_fit_weaken; [| |exact Hr]; [lia|].
    intros c' ? Hf. rewrite (Hf i) in Eb; [done|lia].
  - assert (free_run bm current (i - current + 1)) as Hrun'.
    { intros j ?. destruct (decide (j = i)); [by subst|]. apply Hrun. lia. }
    destruct Hwf as [H1 H2 H3]. unfold NPOS in H2. rewrite uN_small by (unfold is_uN; lia).
    destruct (Z.eqb_spec (i - current + 1) n) as [En|En].
    + destruct (set_run_Ok (Z.to_nat (i - current + 1)) bm current) as (bm' & Em & Hm);
        [done|lia|lia|].
      rewrite Em. eexists. split; [done|]. left. exists current, bm'.
      rewrite En in *. replace (Z.of_nat (Z.to_nat n)) with n in Hm by lia.
      split_and!; try done; lia.
    + destruct (IH current (i + 1)) as (r & -> & Hr);
        [lia|lia|lia|by replace (i + 1 - current) with (i - current + 1) by lia|].
      exists r. by split.
Qed.

Lemma allocate_range_Ok bm lo hi n : wf bm → 0 < n → 0 ≤ lo →
  ∃ r, allocate_range bm lo hi n = Ok r ∧ first_fit bm lo (Z.min hi (sz bm)) n r.
Proof.
  intros Hwf Hn Hlo. unfold allocate_range, assert_. replace (0 <? n) with true by lia. cbn.
  destruct (decide (lo ≤ Z.min hi (sz bm))).
  - destruct (scan_first_fit bm n Hwf Hn (Z.to_nat (Z.min hi (sz bm) - lo)) lo lo)
      as (r & -> & Hr); [lia|lia|lia|intros j ?; lia|].
    exists r. split; [done|].
    by replace (lo + Z.of_nat (Z.to_nat (Z.min hi (sz bm) - lo))) with (Z.min hi (sz bm)) in Hr by lia.
  - replace (Z.to_nat (Z.min hi (sz bm) - lo)) with 0%nat by lia.
    eexists. split; [done|]. right. split; [done|]. intros. lia.
Qed.

Lemma allocate_range_0 bm lo hi n : n ≤ 0 → allocate_range bm lo hi n = Fatal "n > 0".
Proof. intros. unfold allocate_range, assert_. by replace (0 <? n) with false by lia. Qed.

Lemma find_and_set_multiple_Ok bm n start : wf bm → 0 < n → 0 ≤ start →
  ∃ r, find_and_set_multiple bm n start = Ok r ∧
    ((r.1 ≠ NPOS ∧ first_fit bm start (sz bm) n r) ∨
     ((∀ c, start ≤ c → c + n ≤ sz bm → ¬ free_run bm c n) ∧
      first_fit bm 0 (Z.min start (sz bm)) n r)).
Proof.
  intros Hwf Hn Hst. unfold find_and_set_multiple.
  destruct (allocate_range_Ok bm start (sz bm) n) as (r & -> & Hr); [done..|].
  rewrite Z.min_id in Hr. cbn. destruct r as [c bm']. simpl.
  destruct (Z.eqb_spec c NPOS) as [->|Hc].
  - destruct Hr as [(c' & b' & [= <- <-] & ? & Hle & _ & _)|[[= ->] Hno]].
    { pose proof (wf_size _ Hwf). lia. }
    destruct (allocate_range_Ok bm 0 start n) as (r & -> & Hr); [done..|].
    exists r. split; [done|]. by right.
  - eexists. split; [done|]. left. by split.
Qed.

Lemma find_and_set_multiple_inv bm n start c bm' : wf bm → 0 < n → 0 ≤ start →
  find_and_set_multiple bm n start = Ok (c, bm') → c ≠ NPOS →
  0 ≤ c ∧ c + n ≤ sz bm ∧ free_run bm c n ∧ marks bm bm' c n.
Proof.
  intros Hwf Hn Hs E Hc.
  destruct (find_and_set_multiple_Ok bm n start) as (r & E' & Hr); [done..|].
  rewrite E in E'. injection E' as <-.
  destruct Hr as [[_ Hr]|[_ Hr]];
    destruct Hr as [(c1 & b1 & [= <- <-] & ? & ? & ? & _ & ?)|[[= ? _] _]]; try done;
    split_and!; try done; lia.
Qed.

Lemma marks_free_run bm bm' c n d m : marks bm bm' c n → 0 ≤ d → 0 < n → 0 < m →
  free_run bm' d m → c + n ≤ d ∨ d + m ≤ c.
Proof.
  intros Hm Hd Hn Hp Hf. destruct (decide (c + n ≤ d)); [by left|].
  destruct (decide (d + m ≤ c)); [by right|]. exfalso.
  specialize (Hf (Z.max c d) ltac:(lia)). rewrite (marks_bit _ _ _ _ Hm) in Hf by lia.
  by rewrite bool_decide_eq_true_2 in Hf by lia.
Qed.

Lemma init_loop k : ∀ i (buf : list Z) defa, 0 ≤ i → i + Z.of_nat k ≤ zlen buf →
  ∃ buf', for_rounds (λ i buf, if i <? zlen buf then Ok (zinsert buf i defa) else Fault)
            i 1 k buf = Ok buf' ∧ length buf' = length buf ∧
    ∀ j, zlookup buf' j = if bool_decide (i ≤ j < i + Z.of_nat k) then Some defa else zlookup buf j.
Proof.
  induction k as [|k IH]; intros i buf defa Hi Hl; cbn [for_rounds].
  { exists buf. split_and!; try done. intros j. by rewrite bool_decide_eq_false_2 by lia. }
  replace (i <? zlen buf) with true by lia. cbn.
  destruct (IH (i + 1) (zinsert buf i defa) defa) as (b & -> & Hb & Hj);
    [lia|rewrite zinsert_length; lia|].
  exists b. split; [done|]. rewrite zinsert_length in Hb. split; [done|].
  intros j. rewrite Hj, zlookup_zinsert by lia.
  repeat case_bool_decide; destruct (Z.eqb_spec i j); try done; lia.
Qed.

(** [init] rounds the capacity down to whole words and gives every bit the default. *)
Lemma init_Ok storage units def : Forall is_u64 storage → 0 ≤ units < NPOS →
  units ≤ 64 * zlen storage + 63 →
  ∃ bm, init storage units def = Ok bm ∧ wf bm ∧ sz bm = align_down units 64 ∧
    ∀ j, 0 ≤ j < sz bm → bit bm j = def.
Proof.
  intros Hu Hn Hl. unfold init. pose proof (align_down_le units 64 ltac:(lia)) as Ha.
  pose proof (align_down_mod units 64 ltac:(lia)) as Hm.
  assert (align_down units 64 / 64 = units / 64) as Hq.
  { unfold align_down. by rewrite Z.div_mul. }
  pose proof (Z.div_pos units 64 ltac:(lia) ltac:(lia)) as Hp.
  assert (align_down units 64 = 64 * (units / 64)) as Hd by (unfold align_down; lia).
  destruct (init_loop (Z.to_nat (align_down units 64 / 64)) 0 storage
    (if def then NPOS else 0)) as (b & -> & Hb & Hj); [lia|lia|].
  cbn. eexists. split; [done|]. rewrite Z.add_0_l in Hj.
  split; [split; simpl|split; [done|]]; [|lia|lia|].
  - apply Forall_lookup. intros j w Hw.
    specialize (Hj (Z.of_nat j)). rewrite (zlookup_nat b), Hw in Hj.
    case_bool_decide; [destruct def; injection Hj as ->; done|].
    eapply zlookup_Forall; [exact Hu|done].
  - simpl. intros j Hjr. unfold bit. simpl. pose proof (divmod64 j ltac:(lia)) as D.
    rewrite Hj, bool_decide_eq_true_2 by lia.
    destruct def; [|by rewrite Z.bits_0].
    replace NPOS with (Z.ones 64) by reflexivity. rewrite Z.ones_spec_low by lia. done.
Qed.

(** ** Properties *)

(** C7: on a well-formed bitmap [find_and_set_multiple(n, start)] always returns.  An index it
    returns starts a run of [n] bits that lies in the bitmap, was entirely clear and is now
    entirely set, with every other bit, the size and the storage unchanged.  The part from [start]
    on has priority: a run there is the lowest one there, and a run below [start], which ends
    at [start] at the latest, is the lowest of all and is returned only if the part from [start] on has
    none.  The result is [-1], with nothing changed, exactly if neither part holds a clear run. *)
Theorem find_and_set_multiple_first_fit bm n start :
  wf bm → 0 < n → 0 ≤ start →
  ∃ c bm', find_and_set_multiple bm n start = Ok (c, bm') ∧
    ((start ≤ c ∧ c + n ≤ sz bm ∧ free_run bm c n ∧ marks bm bm' c n ∧
      (∀ c', start ≤ c' < c → ¬ free_run bm c' n)) ∨
     (0 ≤ c ∧ c + n ≤ start ∧ c + n ≤ sz bm ∧ free_run bm c n ∧ marks bm bm' c n ∧
      (∀ c', 0 ≤ c' < c → ¬ free_run bm c' n) ∧
      (∀ c', start ≤ c' → c' + n ≤ sz bm → ¬ free_run bm c' n)) ∨
     (c = NPOS ∧ bm' = bm ∧
      ∀ c', 0 ≤ c' → c' + n ≤ sz bm → free_run bm c' n → c' < start < c' + n)).
Proof.
  intros Hwf Hn Hs. pose proof (wf_size _ Hwf) as Hz.
  destruct (find_and_set_multiple_Ok bm n start) as ([c bm'] & E & Hr); [done..|].
  exists c, bm'. split; [done|].
  destruct Hr as [[Hc Hr]|[Hno Hr]];
    destruct Hr as [(c1 & b1 & [= <- <-] & ? & ? & Hf & Hmin & ?)|[[= -> ->] Hnone]].
  - left. split_and!; try done; lia.
  - done.
  - right; left. split_and!; try done; try lia.
  - right; right. split_and!; [done..|]. intros c' ?? Hf.
    destruct (decide (start ≤ c')); [by destruct (Hno c')|].
    destruct (decide (c' + n ≤ start)); [|lia]. by destruct (Hnone c'); [lia..|].
Qed.

Definition bm_demo : Bitmap := mkBitmap [0xff0f; 0] 128.

Lemma bm_demo_wf : wf bm_demo.
Proof.
  split; [|unfold NPOS; simpl; lia|simpl; lia].
  repeat constructor; unfold is_uN; lia.
Qed.

Lemma find_and_set_multiple_first_fit_witness :
  find_and_set_multiple bm_demo 4 0 = Ok (4, mkBitmap [0xffff; 0] 128) ∧
  ∃ c bm', find_and_set_multiple bm_demo 70 8 = Ok (c, bm') ∧ c + 70 ≤ 128 ∨ c = NPOS.
Proof.
  split; [by vm_compute|].
  destruct (find_and_set_multiple_first_fit bm_demo 70 8 bm_demo_wf) as (c & bm' & E & [H|[H|H]]);
    [lia|lia| | |].
  - exists c, bm'. left. split; [exact E|apply H].
  - exists c, bm'. left. split; [exact E|apply H].
  - exists c, bm'. right. apply H.
Defined.
