(* ===== verification/Mem.v ===== *)
(** The byte-block routines ([util/mem.cc]) over a byte-addressed memory: [memset] and [memcpy]
    work in a byte loop for [count & 7] bytes followed by [rep stosq] / [rep movsq], [memcmp]
    and [memchk] run from the last byte down. *)
From S2P Require Import Prelude.

(** ** Memory *)

(** The contents of every address. *)
Definition mem := Z → Z.

Definition store8 (m : mem) (a v : Z) : mem := λ x, if x =? a then u8 v else m x.

(** Little-endian 64-bit accesses. *)
Definition store64 (m : mem) (a v : Z) : mem :=
  λ x, if (a <=? x) && (x <? a + 8) then u8 (Z.shiftr v (8 * (x - a))) else m x.
Definition load64 (m : mem) (a : Z) : Z :=
  foldr (λ k acc, m (a + k) + 256 * acc) 0 [0; 1; 2; 3; 4; 5; 6; 7].

(** ** Routines *)

Fixpoint set_bytes (m : mem) (d c : Z) (toalign : nat) : mem * Z :=
  match toalign with
  | O => (m, d)
  | S k => set_bytes (store8 m d c) (d + 1) c k
  end.

(** [rep stosq] *)
Fixpoint stosq (m : mem) (d v : Z) (n : nat) : mem :=
  match n with
  | O => m
  | S n' => stosq (store64 m d v) (d + 8) v n'
  end.

Definition splat (c : Z) : Z :=
  foldr Z.lor 0 (map (λ s, Z.shiftl c s) [0; 8; 16; 24; 32; 40; 48; 56]).

Definition memset (m : mem) (a c count : Z) : mem :=
  let '(m, d) := set_bytes m a c (Z.to_nat (Z.land count 7)) in
  let count := Z.land count (notN 64 7) in
  if count =? 0 then m else
  stosq m d (splat c) (Z.to_nat (Z.shiftr count 3)).

Fixpoint copy_bytes (m : mem) (d s : Z) (toalign : nat) : mem * Z * Z :=
  match toalign with
  | O => (m, d, s)
  | S k => copy_bytes (store8 m d (m s)) (d + 1) (s + 1) k
  end.

(** [rep movsq] *)
Fixpoint movsq (m : mem) (d s : Z) (n : nat) : mem :=
  match n with
  | O => m
  | S n' => movsq (store64 m d (load64 m s)) (d + 8) (s + 8) n'
  end.

Definition memcpy (m : mem) (dest src count : Z) : mem :=
  let '(m, d, s) := copy_bytes m dest src (Z.to_nat (Z.land count 7)) in
  let count := Z.land count (notN 64 7) in
  if count =? 0 then m else
  movsq m d s (Z.to_nat (Z.shiftr count 3)).

(** [while (count--) if (a[count] != b[count]) return true; return false] *)
Fixpoint cmp_loop (m : mem) (a b : Z) (count : nat) : bool :=
  match count with
  | O => false
  | S k => if m (a + Z.of_nat k) =? m (b + Z.of_nat k) then cmp_loop m a b k else true
  end.
Definition memcmp (m : mem) (a b count : Z) : bool := cmp_loop m a b (Z.to_nat count).

Fixpoint chk_loop (m : mem) (a c : Z) (count : nat) : bool :=
  match count with
  | O => false
  | S k => if m (a + Z.of_nat k) =? c then chk_loop m a c k else true
  end.
Definition memchk (m : mem) (a c count : Z) : bool := chk_loop m a c (Z.to_nat count).

(** ** Lemmas *)

(** A memory holds bytes. *)
Definition bytes (m : mem) : Prop := ∀ x, is_u8 (m x).

Lemma count_split count : is_u64 count →
  Z.land count (notN 64 7) = 8 * (count / 8) ∧ Z.land count 7 = count `mod` 8 ∧
  Z.shiftr (Z.land count (notN 64 7)) 3 = count / 8.
Proof.
  intros H. assert (Z.land count (notN 64 7) = 8 * (count / 8)) as E.
  { replace (Z.land count (notN 64 7)) with (Z.ldiff count (Z.ones 3)).
    { rewrite Z.ldiff_ones_r, Z.shiftl_mul_pow2, Z.shiftr_div_pow2 by lia. apply Z.mul_comm. }
    apply Z.bits_inj'. intros i Hi. rewrite Z.ldiff_spec, Z.land_spec, notN_testbit by lia.
    case_bool_decide; [done|]. by rewrite (is_uN_high 64 count i) by (done || lia). }
  split_and!; [done|exact (Z.land_ones count 3 ltac:(lia))|].
  rewrite E, Z.shiftr_div_pow2, Z.mul_comm by lia. by rewrite Z.div_mul.
Qed.

Lemma set_bytes_spec k : ∀ m d c, is_u8 c →
  (set_bytes m d c k).2 = d + Z.of_nat k ∧
  ∀ x, (set_bytes m d c k).1 x = if bool_decide (d ≤ x < d + Z.of_nat k) then c else m x.
Proof.
  induction k as [|k IH]; intros m d c Hc; cbn [set_bytes].
  { simpl. split; [lia|]. intros x. by rewrite bool_decide_eq_false_2 by lia. }
  destruct (IH (store8 m d c) (d + 1) c Hc) as [E1 E2]. split; [lia|]. intros x. rewrite E2.
  unfold store8. rewrite uN_small by done.
  repeat case_bool_decide; destruct (Z.eqb_spec x d); try done; lia.
Qed.

Lemma splat_byte c k : is_u8 c → 0 ≤ k < 8 → u8 (Z.shiftr (splat c) (8 * k)) = c.
Proof.
  intros Hc Hk.
  assert (forallb (λ c, forallb (λ k, u8 (Z.shiftr (splat c) (8 * k)) =? c) (seqZ 0 8))
    (seqZ 0 256) = true) as H by (vm_compute; reflexivity).
  rewrite forallb_forall in H. specialize (H c). rewrite forallb_forall in H.
  apply Z.eqb_eq, H; apply list_elem_of_In, elem_of_seqZ; unfold is_uN in Hc; lia.
Qed.

Lemma stosq_spec n : ∀ m d c, is_u8 c →
  ∀ x, stosq m d (splat c) n x = if bool_decide (d ≤ x < d + 8 * Z.of_nat n) then c else m x.
Proof.
  induction n as [|n IH]; intros m d c Hc x; cbn [stosq].
  { by rewrite bool_decide_eq_false_2 by lia. }
  rewrite IH by done. unfold store64.
  destruct (Z.leb_spec d x), (Z.ltb_spec x (d + 8)); simpl;
    rewrite ?splat_byte by (done || lia);
    repeat case_bool_decide; try done; lia.
Qed.

(** The whole of [memset]. *)
Lemma memset_spec m a c count : is_u8 c → is_u64 count →
  ∀ x, memset m a c count x = if bool_decide (a ≤ x < a + count) then c else m x.
Proof.
  intros Hc Hn x. unfold memset. destruct (count_split count Hn) as (E1 & E2 & E3).
  pose proof (Z.div_mod count 8 ltac:(lia)) as D.
  pose proof (Z.mod_pos_bound count 8 ltac:(lia)) as M. unfold is_uN in Hn.
  assert (0 ≤ count / 8) as Hq by (apply Z.div_pos; lia).
  destruct (set_bytes_spec (Z.to_nat (Z.land count 7)) m a c Hc) as [S1 S2].
  destruct (set_bytes m a c (Z.to_nat (Z.land count 7))) as [m1 d]. simpl in S1, S2.
  rewrite E2 in *. rewrite E3. rewrite E1.
  destruct (Z.eqb_spec (8 * (count / 8)) 0).
  - rewrite S2. repeat case_bool_decide; try done; lia.
  - rewrite stosq_spec, S2 by done. subst d. repeat case_bool_decide; try done; lia.
Qed.

Lemma copy_bytes_spec k : ∀ m d s, bytes m → d ≤ s ∨ s + Z.of_nat k ≤ d →
  (copy_bytes m d s k).1.2 = d + Z.of_nat k ∧ (copy_bytes m d s k).2 = s + Z.of_nat k ∧
  ∀ x, (copy_bytes m d s k).1.1 x =
    if bool_decide (d ≤ x < d + Z.of_nat k) then m (x - d + s) else m x.
Proof.
  induction k as [|k IH]; intros m d s Hm Hd; cbn [copy_bytes].
  { simpl. split_and!; [lia|lia|]. intros x. by rewrite bool_decide_eq_false_2 by lia. }
  destruct (IH (store8 m d (m s)) (d + 1) (s + 1)) as (E1 & E2 & E3).
  { intros x. unfold store8. destruct (x =? d); [by apply uN_range|apply Hm]. }
  { lia. }
  split_and!; [lia|lia|]. intros x. rewrite E3. unfold store8. rewrite uN_small by apply Hm.
  repeat case_bool_decide; try lia.
  - destruct (Z.eqb_spec (x - (d + 1) + (s + 1)) d); [lia|]. f_equal. lia.
  - replace x with d by lia. rewrite Z.eqb_refl. f_equal. lia.
  - destruct (Z.eqb_spec x d); [lia|done].
Qed.

Lemma byte_digit a b k : is_u8 a → 0 ≤ k → u8 (Z.shiftr (a + 256 * b) (8 * (k + 1))) = u8 (Z.shiftr b (8 * k)).
Proof.
  intros Ha Hk. f_equal. replace (8 * (k + 1)) with (8 + 8 * k) by lia.
  rewrite <- Z.shiftr_shiftr by lia. f_equal. rewrite Z.shiftr_div_pow2 by lia.
  change (2 ^ 8) with 256. rewrite Z.mul_comm, Z.div_add, Z.div_small by (unfold is_uN in Ha; lia). lia.
Qed.

Lemma load64_byte m a k : bytes m → 0 ≤ k < 8 → u8 (Z.shiftr (load64 m a) (8 * k)) = m (a + k).
Proof.
  intros Hm Hk. unfold load64. cbn [foldr].
  assert (∀ y b, is_u8 y → u8 (Z.shiftr (y + 256 * b) 0) = y) as H0.
  { intros y b Hy. rewrite Z.shiftr_0_r. unfold uN. rewrite Z.mul_comm, Z.mod_add by lia.
    apply Z.mod_small. apply Hy. }
  assert (k = 0 ∨ k = 1 ∨ k = 2 ∨ k = 3 ∨ k = 4 ∨ k = 5 ∨ k = 6 ∨ k = 7) as Hc by lia.
  destruct Hc as [->|[->|[->|[->|[->|[->|[->| ->]]]]]]].
  all: repeat match goal with
    | |- context [Z.shiftr (_ + 256 * _) (8 * Z.pos ?p)] =>
        let v := eval vm_compute in (Z.pos p - 1) in
        change (8 * Z.pos p) with (8 * (v + 1)); rewrite byte_digit by (apply Hm || lia)
    end; apply H0, Hm.
Qed.

Lemma movsq_spec n : ∀ m d s, bytes m → d ≤ s ∨ s + 8 * Z.of_nat n ≤ d →
  ∀ x, movsq m d s n x =
    if bool_decide (d ≤ x < d + 8 * Z.of_nat n) then m (x - d + s) else m x.
Proof.
  induction n as [|n IH]; intros m d s Hm Hd x; cbn [movsq].
  { by rewrite bool_decide_eq_false_2 by lia. }
  assert (∀ y, store64 m d (load64 m s) y =
    if bool_decide (d ≤ y < d + 8) then m (y - d + s) else m y) as Hst.
  { intros y. unfold store64. destruct (Z.leb_spec d y), (Z.ltb_spec y (d + 8)); simpl;
      case_bool_decide; try lia; try done.
    rewrite load64_byte by (done || lia). f_equal. lia. }
  rewrite IH; [|intros y; rewrite Hst; case_bool_decide; apply Hm|lia].
  rewrite !Hst. repeat case_bool_decide; try lia; try done. f_equal. lia.
Qed.

Lemma memcpy_spec m dest src count : bytes m → is_u64 count →
  dest ≤ src ∨ src + count ≤ dest →
  ∀ x, memcpy m dest src count x =
    if bool_decide (dest ≤ x < dest + count) then m (x - dest + src) else m x.
Proof.
  intros Hm Hn Hd x. unfold memcpy. destruct (count_split count Hn) as (E1 & E2 & E3).
  pose proof (Z.div_mod count 8 ltac:(lia)) as D.
  pose proof (Z.mod_pos_bound count 8 ltac:(lia)) as M. unfold is_uN in Hn.
  assert (0 ≤ count / 8) as Hq by (apply Z.div_pos; lia).
  destruct (copy_bytes_spec (Z.to_nat (Z.land count 7)) m dest src Hm) as (S1 & S2 & S3); [lia|].
  destruct (copy_bytes m dest src (Z.to_nat (Z.land count 7))) as [[m1 d] s].
  simpl in S1, S2, S3. rewrite E2 in *. rewrite E3. rewrite E1.
  destruct (Z.eqb_spec (8 * (count / 8)) 0).
  - rewrite S3. repeat case_bool_decide; try done; lia.
  - subst d s. rewrite movsq_spec; [|intros y; rewrite S3; case_bool_decide; apply Hm|lia].
    rewrite !S3. repeat case_bool_decide; try lia; try done. f_equal. lia.
Qed.

Lemma memchk_false m a c count : 0 ≤ count →
  memchk m a c count = false ↔ ∀ x, a ≤ x < a + count → m x = c.
Proof.
  intros Hc. unfold memchk. remember (Z.to_nat count) as n eqn:En.
  replace count with (Z.of_nat n) by lia. clear En.
  induction n as [|k IH]; cbn [chk_loop]; [split; [lia|done]|].
  destruct (Z.eqb_spec (m (a + Z.of_nat k)) c) as [E|E].
  - rewrite IH. split; [|intros H x ?; apply H; lia]. intros H x ?.
    destruct (decide (x = a + Z.of_nat k)) as [->|]; [done|apply H; lia].
  - split; [done|]. intros H. destruct E. apply H. lia.
Qed.

Lemma memcmp_false m a b count : 0 ≤ count →
  memcmp m a b count = false ↔ ∀ k, 0 ≤ k < count → m (a + k) = m (b + k).
Proof.
  intros Hc. unfold memcmp. remember (Z.to_nat count) as n eqn:En.
  replace count with (Z.of_nat n) by lia. clear En.
  induction n as [|k IH]; cbn [cmp_loop]; [split; [lia|done]|].
  destruct (Z.eqb_spec (m (a + Z.of_nat k)) (m (b + Z.of_nat k))) as [E|E].
  - rewrite IH. split; [|intros H x ?; apply H; lia]. intros H x ?.
    destruct (decide (x = Z.of_nat k)) as [->|]; [done|apply H; lia].
  - split; [done|]. intros H. destruct E. apply H. lia.
Qed.

(** ** Properties *)

(** A call of [memcpy] between ranges that do not overlap, whatever the length modulo 8, copies every
    byte and changes nothing else, so that [memcmp] of the two ranges then reports equality. *)
Lemma memcpy_memcmp m dest src count : bytes m → is_u64 count →
  src + count ≤ dest ∨ dest + count ≤ src →
  let m' := memcpy m dest src count in
  (∀ k, 0 ≤ k < count → m' (dest + k) = m (src + k)) ∧
  (∀ x, ¬ (dest ≤ x < dest + count) → m' x = m x) ∧
  memcmp m' dest src count = false.
Proof.
  intros Hm Hn Hd m'. assert (∀ x, m' x = if bool_decide (dest ≤ x < dest + count)
    then m (x - dest + src) else m x) as H by (apply memcpy_spec; [done|done|unfold is_uN in Hn; lia]).
  split_and!.
  - intros k Hk. rewrite H, bool_decide_eq_true_2 by lia. f_equal. lia.
  - intros x Hx. by rewrite H, bool_decide_eq_false_2 by lia.
  - apply memcmp_false; [unfold is_uN in Hn; lia|]. intros k Hk.
    rewrite !H, bool_decide_eq_true_2, bool_decide_eq_false_2 by lia. f_equal. lia.
Qed.

Lemma memcpy_memcmp_witness :
  let m : mem := λ x, x `mod` 256 in memcmp (memcpy m 0x1000 0x7 21) 0x1000 0x7 21 = false.
Proof.
  intros m. apply (memcpy_memcmp m 0x1000 0x7 21).
  - intros x. apply Z.mod_pos_bound. lia.
  - unfold is_uN. lia.
  - lia.
Defined.

(** [memset] writes the byte to every address of the range and to no other, so that
    [memchk] finds the range intact until one of its bytes differs. *)
Lemma memset_memchk m a c count : is_u8 c → is_u64 count →
  let m' := memset m a c count in
  (∀ x, ¬ (a ≤ x < a + count) → m' x = m x) ∧ memchk m' a c count = false ∧
  ∀ x v, a ≤ x < a + count → is_u8 v → v ≠ c → memchk (store8 m' x v) a c count = true.
Proof.
  intros Hc Hn m'. pose proof (memset_spec m a c count Hc Hn) as H. fold m' in H.
  split_and!.
  - intros x Hx. by rewrite H, bool_decide_eq_false_2 by lia.
  - apply memchk_false; [unfold is_uN in Hn; lia|]. intros x Hx. by rewrite H, bool_decide_eq_true_2.
  - intros x v Hx Hv Hne. apply not_false_iff_true. intros E.
    rewrite memchk_false in E by (unfold is_uN in Hn; lia). specialize (E x Hx).
    unfold store8 in E. rewrite Z.eqb_refl, uN_small in E by done. done.
Qed.

Lemma memset_memchk_witness :
  let m := memset (λ _, 0) 0x1000 0xbc 67 in
  memchk m 0x1000 0xbc 67 = false ∧ memchk (store8 m 0x1042 0) 0x1000 0xbc 67 = true.
Proof.
  assert (is_u8 0xbc) as Hc by (unfold is_uN; lia).
  assert (is_u64 67) as Hn by (unfold is_uN; lia).
  destruct (memset_memchk (λ _, 0) 0x1000 0xbc 67 Hc Hn) as (_ & H1 & H2).
  split; [exact H1|]. apply H2; [lia|unfold is_uN; lia|lia].
Defined.
