(* ===== verification/Pmm.v ===== *)
(** Physical memory: the page allocator ([mm/pmm.cc]) over the boot loader's memory map and
    the watermark allocator ([mm/vmm.cc], [wm_alloc]) that hands out the first 64 MiB of the
    region the page bitmap is placed in. *)
From S2P Require Import Prelude Arith Async Bitmap.
From Stdlib Require Import Sorted.

(** ** Data *)

(** [MMAP_TYPES] of [arch/limine.hh]. *)
Inductive MMAP_TYPES :=
| LIMINE_MEMMAP_USABLE
| LIMINE_MEMMAP_RESERVED
| LIMINE_MEMMAP_ACPI_RECLAIMABLE
| LIMINE_MEMMAP_ACPI_NVS
| LIMINE_MEMMAP_BAD_MEMORY
| LIMINE_MEMMAP_BOOTLOADER_RECLAIMABLE
| LIMINE_MEMMAP_EXECUTABLE_AND_MODULES
| LIMINE_MEMMAP_FRAMEBUFFER.
#[global] Instance MMAP_TYPES_eq_dec : EqDecision MMAP_TYPES.
Proof. solve_decision. Defined.

Record memmap_entry := Entry { base : Z; length_ : Z; type : MMAP_TYPES }.

Definition usable (e : memmap_entry) : bool := bool_decide (type e = LIMINE_MEMMAP_USABLE).

Definition PMM_PAGESIZE : Z := P4K.
Definition WM_SIZE : Z := uN 32 (mibs2bytes_int 64).

(** The globals of [pmm.cc] and the watermark globals of [vmm.cc]; [pmm_buffer] is the
    address stored in [pmm_bm->buffer]. *)
Record pmm := mkPmm {
  pmm_bm : Bitmap;
  pmm_buffer : Z;
  pmm_freemem : Z;
  pmm_usedmem : Z;
  pmm_mutex : MutexSimple;
  wm_cursor : Z;
  wm_free : Z;
  wm_mutex : MutexSimple }.

(** ** pmm_init *)

(** The entry whose end bounds the bitmap: the last one, or the one before a trailing
    reserved entry. *)
Definition last_entry (r : list memmap_entry) : res memmap_entry :=
  l ← deref (zlookup r (zlen r - 1));
  if bool_decide (type l = LIMINE_MEMMAP_RESERVED)
  then deref (zlookup r (zlen r - 2)) else Ok l.

(** The first usable entry with room for the watermark area and the bitmap. *)
Fixpoint candidate (r : list memmap_entry) (bm_bytes : Z) : res memmap_entry :=
  match r with
  | [] => Fatal "No good candidate found for bitmap and WM alloc!"
  | e :: r' =>
      if usable e && (u64 (bm_bytes + WM_SIZE) <=? length_ e) then Ok e
      else candidate r' bm_bytes
  end.

(** [for (j = 0; j < bytes; j += PMM_PAGESIZE) set((from + j) / PMM_PAGESIZE, v)] *)
Definition set_pages (bm : Bitmap) (from bytes : Z) (v : bool) : res Bitmap :=
  for_rounds (λ j bm, set bm (u64 (from + j) / PMM_PAGESIZE) v)
    0 PMM_PAGESIZE (rounds bytes PMM_PAGESIZE) bm.

(** The body of the second loop of [pmm_init] for one entry. *)
Definition free_entry (buf bm_size : Z) (e : memmap_entry) (st : Bitmap * Z) : res (Bitmap * Z) :=
  let '(bm, freemem) := st in
  if negb (usable e) then Ok (bm, freemem) else
  let freemem := u64 (freemem + length_ e) in
  bm ← set_pages bm (align64 (base e) PMM_PAGESIZE) (align_down (length_ e) PMM_PAGESIZE) false;
  bm ← (if u64 (base e + WM_SIZE) =? PHYSICAL buf
        then set_pages bm (base e) (u64 (bm_size + WM_SIZE)) true else Ok bm);
  Ok (bm, freemem).

Fixpoint free_entries (buf bm_size : Z) (r : list memmap_entry) (st : Bitmap * Z)
    : res (Bitmap * Z) :=
  match r with
  | [] => Ok st
  | e :: r' => st ← free_entry buf bm_size e st; free_entries buf bm_size r' st
  end.

Definition pmm_init (r : list memmap_entry) : res pmm :=
  last ← last_entry r;
  let total := u64 (base last + length_ last) in
  let bm_size := align64 total PMM_PAGESIZE / PMM_PAGESIZE in
  let bm_bytes := bm_size / 8 in
  e ← candidate r bm_bytes;
  let buf := VIRTUAL (u64 (base e + WM_SIZE)) in
  bm ← init (replicate (Z.to_nat (bm_size / 64)) 0) bm_size true;
  '(bm, freemem) ← free_entries buf bm_size r (bm, 0);
  bm ← set bm 0 true;
  Ok (mkPmm bm buf freemem 0 0 (VIRTUAL (base e)) WM_SIZE 0).

(** ** Allocation *)

(** The common body of [pmm_alloc] and [pmm_alloc4g]; they differ in where the search starts. *)
Definition alloc_from (start : Z) (s : pmm) (size : Z) : res (Z * pmm) :=
  m ← lock (pmm_mutex s);
  let size := align64 size PMM_PAGESIZE in
  let used := u64 (pmm_usedmem s + size) in
  let free := u64 (pmm_freemem s - size) in
  '(bit, bm) ← find_and_set_multiple (pmm_bm s) (size / PMM_PAGESIZE) start;
  if bit =? NPOS then Fatal "PMM failed to allocate" else
  Ok (VIRTUAL (u64 (bit * PMM_PAGESIZE)),
      mkPmm bm (pmm_buffer s) free used (unlock m) (wm_cursor s) (wm_free s) (wm_mutex s)).

(** The search start is [gibs2bytes(4) / PMM_PAGESIZE]: [4 << 30] in [int]. *)
Definition pmm_alloc (s : pmm) (size : Z) : res (Z * pmm) :=
  alloc_from (uN 32 (gibs2bytes_int 4) / PMM_PAGESIZE) s size.

Definition pmm_alloc4g (s : pmm) (size : Z) : res (Z * pmm) := alloc_from 0 s size.

(** The body of [pmm_free] is commented out. *)
Definition pmm_free (s : pmm) (p : Z) : pmm := s.

Definition wm_alloc (s : pmm) (size align : Z) : res (Z * pmm) :=
  m ← lock (wm_mutex s);
  let size := align64 size 16 in
  let align := Z.max size align in
  let alignfix := u64 (align64 (wm_cursor s) align - wm_cursor s) in
  let p := u64 (wm_cursor s + alignfix) in
  let cursor := u64 (p + size) in
  if wm_free s <? u64 (size + alignfix) then Fatal "Watermark allocator out of memory!" else
  Ok (p, mkPmm (pmm_bm s) (pmm_buffer s) (pmm_freemem s) (pmm_usedmem s) (pmm_mutex s)
           cursor (u64 (wm_free s - u64 (size + alignfix))) (unlock m)).

(** ** The page loops *)

Lemma for_rounds_cons {S} (body : Z → S → res S) i step k s s' :
  body i s = Ok s' → for_rounds body i step (Datatypes.S k) s = for_rounds body (i + step) step k s'.
Proof. intros E. cbn [for_rounds]. by rewrite E. Qed.

Lemma page_index b : 0 ≤ b → b < 2 ^ 64 → u64 b / PMM_PAGESIZE = b / 4096.
Proof. intros. by rewrite uN_small. Qed.

Lemma set_pages_loop v p0 k : ∀ i bm, wf bm → 0 ≤ p0 → 0 ≤ i →
  p0 + i + Z.of_nat k ≤ sz bm → (p0 + i + Z.of_nat k) * 4096 < 2 ^ 64 →
  ∃ bm', for_rounds (λ j bm, set bm (u64 (4096 * p0 + j) / PMM_PAGESIZE) v)
           (4096 * i) PMM_PAGESIZE k bm = Ok bm' ∧ wf bm' ∧ sz bm' = sz bm ∧
    ∀ j, 0 ≤ j → bit bm' j = if bool_decide (p0 + i ≤ j < p0 + i + Z.of_nat k) then v else bit bm j.
Proof.
  induction k as [|k IH]; intros i bm Hwf Hp Hi Hs Hb.
  { exists bm. split_and!; try done. intros j ?. by rewrite bool_decide_eq_false_2 by lia. }
  destruct (set_Ok bm (p0 + i) v) as (b1 & E1 & Hw1 & Hs1 & _ & Hb1); [done|lia|].
  erewrite for_rounds_cons; [|rewrite page_index by lia;
    replace ((4096 * p0 + 4096 * i) / 4096) with (p0 + i) by
      (rewrite <- Z.mul_add_distr_l, Z.mul_comm, Z.div_mul; lia); exact E1].
  replace (4096 * i + PMM_PAGESIZE) with (4096 * (i + 1)) by (unfold PMM_PAGESIZE, P4K; lia).
  destruct (IH (i + 1) b1) as (b2 & -> & Hw2 & Hs2 & Hb2); [done|lia|lia|rewrite Hs1; lia|lia|].
  exists b2. split_and!; [done..|congruence|]. intros j Hj. rewrite Hb2, Hb1 by done.
  repeat case_bool_decide; destruct (Z.eqb_spec (p0 + i) j); try done; lia.
Qed.

Lemma set_pages_Ok bm from bytes v : wf bm → 0 ≤ from → from `mod` 4096 = 0 → 0 ≤ bytes →
  (from + bytes + 4095) / 4096 ≤ sz bm → from + bytes + 4096 < 2 ^ 64 →
  ∃ bm', set_pages bm from bytes v = Ok bm' ∧ wf bm' ∧ sz bm' = sz bm ∧
    ∀ j, 0 ≤ j → bit bm' j =
      if bool_decide (from ≤ 4096 * j < from + bytes) then v else bit bm j.
Proof.
  intros Hwf Hf Hm Hb Hs Hl.
  assert (from = 4096 * (from / 4096)) as Ef by (pose proof (Z.div_mod from 4096); lia).
  set (p0 := from / 4096) in *. set (k := rounds bytes PMM_PAGESIZE).
  assert (Z.of_nat k = (bytes + 4095) / 4096) as Hk.
  { unfold k, rounds, PMM_PAGESIZE, P4K. rewrite Z2Nat.id; [f_equal; lia|].
    apply Z.div_pos; lia. }
  assert ((from + bytes + 4095) / 4096 = p0 + Z.of_nat k) as Hsum.
  { rewrite Hk, Ef. replace (4096 * p0 + bytes + 4095) with (bytes + 4095 + p0 * 4096) by lia.
    rewrite Z.div_add; lia. }
  pose proof (Z.div_mod (bytes + 4095) 4096 ltac:(lia)) as D.
  pose proof (Z.mod_pos_bound (bytes + 4095) 4096 ltac:(lia)) as D'.
  pose proof (Z.div_pos from 4096 ltac:(lia) ltac:(lia)) as Hp0. fold p0 in Hp0.
  destruct (set_pages_loop v p0 k 0 bm) as (b & E & Hw & Hz & Hbit);
    [done|done|done|lia|lia|].
  exists b. unfold set_pages. rewrite Ef, Z.mul_0_r in *. fold k. split; [done|].
  split_and!; [done..|]. intros j Hj. rewrite Hbit by done.
  repeat case_bool_decide; try done; lia.
Qed.

(** ** Memory maps *)

(** Page [p] lies inside entry [e]. *)
Definition owns (e : memmap_entry) (p : Z) : Prop :=
  base e ≤ 4096 * p ∧ 4096 * p + 4096 ≤ base e + length_ e.

Definition disjoint_entries (e e' : memmap_entry) : Prop :=
  base e + length_ e ≤ base e' ∨ base e' + length_ e' ≤ base e.

(** What the Limine protocol promises: entries sorted by their base, and usable entries page aligned and
    not overlapping. *)
Record limine_map (r : list memmap_entry) : Prop := {
  map_geometry : ∀ e, e ∈ r → usable e = true →
    0 ≤ base e ∧ base e `mod` 4096 = 0 ∧ 0 ≤ length_ e ∧ length_ e `mod` 4096 = 0 ∧
    base e + length_ e ≤ 2 ^ 46;
  map_disjoint : ∀ e e', e ∈ r → e' ∈ r → usable e = true → usable e' = true →
    e = e' ∨ disjoint_entries e e';
  map_sorted : StronglySorted (λ e e', base e ≤ base e') r }.

Definition usable_bytes (r : list memmap_entry) : Z :=
  foldr (λ e acc, (if usable e then length_ e else 0) + acc) 0 r.

Lemma limine_map_tail e r : limine_map (e :: r) → limine_map r.
Proof.
  intros [Hg Hd Hs]. split.
  - intros e' He'. apply Hg. by apply elem_of_cons; right.
  - intros a b Ha Hb. apply Hd; by apply elem_of_cons; right.
  - by inversion Hs.
Qed.

Section FreeEntries.
Context (buf bm_size : Z).
Context (Hsize : 0 ≤ bm_size ≤ 2 ^ 40).

(** [e] is the entry the bitmap was placed in. *)
Definition holds_bitmap (e : memmap_entry) : bool :=
  usable e && (u64 (base e + WM_SIZE) =? PHYSICAL buf).

(** The window [pmm_init] reserves in that entry. *)
Definition in_window (e : memmap_entry) (p : Z) : Prop :=
  base e ≤ 4096 * p < base e + bm_size + WM_SIZE.

(** Every page the loops touch is inside the bitmap. *)
Definition entry_fits (size : Z) (e : memmap_entry) : Prop :=
  (usable e = true → base e + length_ e ≤ 4096 * size) ∧
  (holds_bitmap e = true → base e + bm_size + WM_SIZE ≤ 4096 * size).

Lemma div_4096_le x n : x ≤ 4096 * n → (x + 4095) / 4096 ≤ n.
Proof. intros. apply Z.lt_succ_r. apply Z.div_lt_upper_bound; lia. Qed.

Lemma align64_id x : 0 ≤ x < 2 ^ 47 → x `mod` 4096 = 0 → align64 x PMM_PAGESIZE = x.
Proof. intros. apply alignN_id; unfold PMM_PAGESIZE, P4K; lia. Qed.

Lemma free_entry_Ok e bm f r : limine_map (e :: r) → wf bm → entry_fits (sz bm) e →
  ∃ bm', free_entry buf bm_size e (bm, f) =
           Ok (bm', if usable e then u64 (f + length_ e) else f) ∧
    wf bm' ∧ sz bm' = sz bm ∧
    ∀ p, 0 ≤ p → bit bm' p =
      if bool_decide (holds_bitmap e = true ∧ in_window e p) then true
      else if bool_decide (usable e = true ∧ owns e p) then false else bit bm p.
Proof using Hsize.
  intros Hmap Hwf [Hf1 Hf2]. unfold free_entry. destruct (usable e) eqn:Eu; simpl.
  2:{ exists bm. split_and!; try done. intros p ?. unfold holds_bitmap. rewrite Eu.
      rewrite !bool_decide_eq_false_2; naive_solver. }
  destruct (map_geometry _ Hmap e) as (H1 & H2 & H3 & H4 & H5); [by constructor|done|].
  rewrite align64_id by (done || lia).
  rewrite (align_down_id (length_ e) PMM_PAGESIZE) by (done || lia).
  destruct (set_pages_Ok bm (base e) (length_ e) false) as (b1 & -> & Hw1 & Hs1 & Hb1);
    [done|done|done|done|apply div_4096_le; auto|lia|]. cbn.
  assert (∀ p, base e ≤ 4096 * p < base e + length_ e ↔ owns e p) as Hown.
  { intros p. unfold owns. split; [|lia]. intros Hp. split; [lia|].
    pose proof (Z.div_mod (base e) 4096). pose proof (Z.div_mod (length_ e) 4096). lia. }
  unfold holds_bitmap in *. rewrite Eu in *. simpl in *.
  destruct (u64 (base e + WM_SIZE) =? PHYSICAL buf) eqn:Eb.
  - assert (u64 (bm_size + WM_SIZE) = bm_size + WM_SIZE) as -> by
      (apply uN_small; unfold is_uN; change WM_SIZE with 67108864; lia).
    destruct (set_pages_Ok b1 (base e) (bm_size + WM_SIZE) true)
      as (b2 & -> & Hw2 & Hs2 & Hb2); [done|done|done|change WM_SIZE with 67108864; lia
      |rewrite Hs1; apply div_4096_le; specialize (Hf2 eq_refl); lia
      |change WM_SIZE with 67108864; lia|].
    cbn. exists b2. split_and!; [done..|congruence|]. intros p Hp.
    rewrite Hb2, Hb1 by done. apply if_decide_ext; [unfold in_window; lia|].
    apply if_decide_ext; [|done]. rewrite Hown. tauto.
  - cbn. exists b1. split_and!; [done..|]. intros p Hp. rewrite Hb1 by done.
    rewrite (bool_decide_eq_false_2 (false = true ∧ in_window e p)) by (by intros [??]).
    apply if_decide_ext; [|done]. rewrite Hown. tauto.
Qed.

(** What the loop makes of one page's bit. *)
#[local] Instance owns_dec e p : Decision (owns e p).
Proof. unfold owns. apply _. Defined.
#[local] Instance in_window_dec e p : Decision (in_window e p).
Proof. unfold in_window. apply _. Defined.

Fixpoint final_bit (r : list memmap_entry) (p : Z) (b : bool) : bool :=
  match r with
  | [] => b
  | e :: r' => final_bit r' p
      (if bool_decide (holds_bitmap e = true ∧ in_window e p) then true
       else if bool_decide (usable e = true ∧ owns e p) then false else b)
  end.

Lemma free_entries_Ok r : ∀ bm f, limine_map r → wf bm → Forall (entry_fits (sz bm)) r →
  is_u64 f →
  ∃ bm', free_entries buf bm_size r (bm, f) = Ok (bm', u64 (f + usable_bytes r)) ∧
    wf bm' ∧ sz bm' = sz bm ∧ ∀ p, 0 ≤ p → bit bm' p = final_bit r p (bit bm p).
Proof using Hsize.
  induction r as [|e r IH]; intros bm f Hmap Hwf Hfit Hf; cbn [free_entries usable_bytes foldr].
  { exists bm. rewrite Z.add_0_r, uN_small by done. done. }
  apply Forall_cons in Hfit as [Hfe Hfr].
  destruct (free_entry_Ok e bm f r) as (b1 & -> & Hw1 & Hs1 & Hb1); [done..|]. cbn.
  destruct (IH b1 (if usable e then u64 (f + length_ e) else f)) as (b2 & -> & Hw2 & Hs2 & Hb2);
    [by eapply limine_map_tail|done|by rewrite Hs1|
     destruct (usable e); [by apply uN_range|done]|].
  exists b2. split_and!; [|done|congruence|].
  - do 2 f_equal. fold (usable_bytes r). destruct (usable e).
    + rewrite uN_add_l. f_equal. lia.
    + f_equal; lia.
  - intros p Hp. rewrite Hb2 by done. cbn [final_bit]. by rewrite Hb1.
Qed.

(** A clear page was clear before or belongs to a usable entry. *)
Lemma final_bit_usable r p : ∀ b, final_bit r p b = false →
  b = false ∨ ∃ e, e ∈ r ∧ usable e = true ∧ owns e p.
Proof.
  induction r as [|e r IH]; intros b H; [by left|]. cbn [final_bit] in H.
  apply IH in H as [H|(e' & ? & ?)].
  - repeat case_bool_decide; [done| |by left]. right. exists e. by split; [constructor|].
  - right. exists e'. by split; [by apply elem_of_cons; right|].
Qed.

(** A page that no later entry owns keeps its mark. *)
Lemma final_bit_kept r p : ∀ b, b = true →
  (∀ e, e ∈ r → usable e = true → owns e p → holds_bitmap e = true ∧ in_window e p) →
  final_bit r p b = true.
Proof.
  induction r as [|e r IH]; intros b Hb Hr; [done|]. cbn [final_bit]. apply IH.
  - case_bool_decide as H1; [done|]. case_bool_decide as H2; [|done].
    exfalso. apply H1, Hr; [constructor|apply H2..].
  - intros e' He'. apply Hr. by apply elem_of_cons; right.
Qed.

Lemma final_bit_window r p e : ∀ b, e ∈ r → holds_bitmap e = true → in_window e p →
  (∀ e, e ∈ r → usable e = true → owns e p → holds_bitmap e = true ∧ in_window e p) →
  final_bit r p b = true.
Proof.
  induction r as [|e' r IH]; intros b He Hh Hw Hr; [by apply elem_of_nil in He|].
  assert (∀ e, e ∈ r → usable e = true → owns e p → holds_bitmap e = true ∧ in_window e p)
    as Hr' by (intros e1 He1; apply Hr; by apply elem_of_cons; right).
  cbn [final_bit]. apply elem_of_cons in He as [->|He]; [|by apply IH].
  apply final_bit_kept; [|done]. by rewrite bool_decide_eq_true_2.
Qed.

(** A usable page outside the reserved window ends up clear. *)
Lemma final_bit_clear r p : ∀ b, b = false →
  (∀ e, e ∈ r → holds_bitmap e = true → ¬ in_window e p) → final_bit r p b = false.
Proof.
  induction r as [|e' r IH]; intros b Hb Hw; [done|]. cbn [final_bit]. apply IH.
  - rewrite bool_decide_eq_false_2; [by case_bool_decide|].
    intros [??]. by destruct (Hw e'); [constructor|..].
  - intros e1 He1. apply Hw. by apply elem_of_cons; right.
Qed.

Lemma final_bit_free r p e : ∀ b, e ∈ r → usable e = true → owns e p →
  (∀ e, e ∈ r → holds_bitmap e = true → ¬ in_window e p) → final_bit r p b = false.
Proof.
  induction r as [|e' r IH]; intros b He Hu Ho Hw; [by apply elem_of_nil in He|].
  assert (∀ e, e ∈ r → holds_bitmap e = true → ¬ in_window e p) as Hw'
    by (intros e1 He1; apply Hw; by apply elem_of_cons; right).
  cbn [final_bit]. apply elem_of_cons in He as [->|He]; [|by apply IH].
  apply final_bit_clear; [|done]. rewrite bool_decide_eq_false_2.
  - by rewrite bool_decide_eq_true_2.
  - intros [??]. by destruct (Hw e'); [constructor|..].
Qed.

(** A page of an entry behind the one that holds the bitmap ends up clear, even in the window. *)
Lemma final_bit_behind r p e : ∀ b, StronglySorted (λ e e', base e ≤ base e') r → e ∈ r → usable e = true → owns e p →
  (∀ e', e' ∈ r → holds_bitmap e' = true → base e' < base e) → final_bit r p b = false.
Proof.
  induction r as [|e' r IH]; intros b Hs He Hu Ho Hh; [by apply elem_of_nil in He|].
  apply StronglySorted_inv in Hs as [Hs Hall]. cbn [final_bit].
  assert (∀ e1, e1 ∈ r → holds_bitmap e1 = true → base e1 < base e) as Hh'
    by (intros e1 He1; apply Hh; by apply elem_of_cons; right).
  apply elem_of_cons in He as [->|He]; [|by apply IH].
  apply final_bit_clear.
  - rewrite bool_decide_eq_false_2; [by rewrite bool_decide_eq_true_2|].
    intros [H _]. specialize (Hh e' ltac:(by constructor) H). lia.
  - intros e1 He1 H1. pose proof (Hh' e1 He1 H1). rewrite Forall_forall in Hall. pose proof (Hall e1 He1). lia.
Qed.
End FreeEntries.

Lemma candidate_Ok r bm_bytes e : candidate r bm_bytes = Ok e →
  e ∈ r ∧ usable e = true ∧ u64 (bm_bytes + WM_SIZE) ≤ length_ e.
Proof.
  induction r as [|e' r IH]; cbn [candidate]; [done|].
  destruct (usable e') eqn:Eu; simpl.
  - destruct (Z.leb_spec (u64 (bm_bytes + WM_SIZE)) (length_ e')).
    + intros [= <-]. split_and!; [constructor|done|done].
    + intros (?&?&?)%IH. split_and!; [by apply elem_of_cons; right|done|done].
  - intros (?&?&?)%IH. split_and!; [by apply elem_of_cons; right|done|done].
Qed.

(** ** Properties *)

(** A memory map [pmm_init] can work with: [last] bounds it, [c] is the entry chosen for the
    bitmap, and every page it touches has a bit. *)
Record bootable (r : list memmap_entry) (last c : memmap_entry) (bm_size : Z) : Prop := {
  boot_map : limine_map r;
  boot_last : last_entry r = Ok last;
  boot_total : 0 < base last + length_ last ≤ 2 ^ 46;
  boot_pages : bm_size = align64 (base last + length_ last) 4096 / 4096;
  boot_cand : candidate r (bm_size / 8) = Ok c;
  boot_fits : ∀ e, e ∈ r → usable e = true →
    base e + length_ e ≤ 4096 * align_down bm_size 64;
  boot_window : base c + bm_size + WM_SIZE ≤ 4096 * align_down bm_size 64;
  boot_alone : ∀ e, e ∈ r → usable e = true → base e = base c → e = c }.

Lemma boot_size r last c bm_size : bootable r last c bm_size → 0 < bm_size ≤ 2 ^ 34.
Proof.
  intros [_ _ Ht -> _ _ _ _].
  pose proof (alignN_bounds 64 (base last + length_ last) 4096) as Hb.
  pose proof (alignN_mod 64 (base last + length_ last) 4096) as Hm.
  pose proof (Z.div_mod (align64 (base last + length_ last) 4096) 4096). lia.
Qed.

(** The address of the bitmap tells the chosen entry from all others. *)
Lemma boot_holds r last c bm_size : bootable r last c bm_size →
  ∀ e, e ∈ r → holds_bitmap (VIRTUAL (u64 (base c + WM_SIZE))) e = true ↔ e = c.
Proof.
  intros [Hm _ _ _ Hc _ _ Ha] e He. destruct (candidate_Ok _ _ _ Hc) as (Hin & Hu & _).
  destruct (map_geometry _ Hm c Hin Hu) as (G1 & _ & G3 & _ & G5).
  assert (∀ x, 0 ≤ x ≤ 2 ^ 46 → u64 (x + WM_SIZE) = x + WM_SIZE) as Hadd
    by (intros; apply uN_small; unfold is_uN; change WM_SIZE with 67108864; lia).
  unfold holds_bitmap. rewrite (Hadd (base c)) by lia.
  rewrite PHYSICAL_VIRTUAL by (change WM_SIZE with 67108864; lia).
  rewrite andb_true_iff, Z.eqb_eq. split.
  - intros [Hue Heq]. apply Ha; [done|done|].
    destruct (map_geometry _ Hm e He Hue) as (? & _ & ? & _ & ?). rewrite Hadd in Heq by lia. lia.
  - intros ->. split; [done|]. apply Hadd. lia.
Qed.

(** The pages [pmm_init] reserves: those of the entry [c] that lie in its window. *)
Definition reserved (c : memmap_entry) (bm_size p : Z) : Prop :=
  owns c p ∧ base c ≤ 4096 * p < base c + WM_SIZE + bm_size.

(** What the loops leave of a page: clear exactly if it is usable and not reserved. *)
Lemma boot_bit r last c bm_size p : bootable r last c bm_size →
  final_bit (VIRTUAL (u64 (base c + WM_SIZE))) bm_size r p true = false ↔
    (∃ e, e ∈ r ∧ usable e = true ∧ owns e p) ∧ ¬ reserved c bm_size p.
Proof.
  intros B. pose proof (boot_size _ _ _ _ B) as Hbs. pose proof (boot_holds _ _ _ _ B) as Hhold.
  destruct B as [Hm _ _ _ Hc _ _ _]. destruct (candidate_Ok _ _ _ Hc) as (Hin & Hu & Hlen).
  destruct (map_geometry _ Hm c Hin Hu) as (G1 & G2 & G3 & G4 & G5).
  assert (0 ≤ bm_size / 8 ≤ bm_size) as H8 by (split; [apply Z.div_pos|apply Z.div_le_upper_bound]; lia).
  change WM_SIZE with 67108864 in Hlen. rewrite (uN_small 64) in Hlen by (unfold is_uN; lia).
  split.
  - intros Hbit. split; [by apply final_bit_usable in Hbit as [?|?]|]. intros [Ho Hw].
    assert (in_window bm_size c p) as Hwin by (unfold in_window; lia).
    rewrite (final_bit_window _ bm_size r p c) in Hbit; try done; [by apply Hhold|].
    intros e' He' Hue' Ho'. destruct (map_disjoint _ Hm c e' Hin He' Hu Hue') as [<-|Hd].
    { split; [by apply Hhold|done]. }
    exfalso. unfold owns, disjoint_entries in *. lia.
  - intros [(e & He & Hue & Ho) Hres].
    destruct (decide (base c ≤ 4096 * p < base c + WM_SIZE + bm_size)) as [Hw|Hw].
    + eapply final_bit_behind; [apply (map_sorted _ Hm)|exact He|done|done|]. intros e' He' ->%Hhold; [|done].
      destruct (map_disjoint _ Hm c e Hin He Hu Hue) as [<-|Hd]; [by destruct Hres|].
      unfold owns, disjoint_entries in *. lia.
    + eapply final_bit_free; [exact He|done|done|]. intros e' He' ->%Hhold; [|done]. unfold in_window. lia.
Qed.

(** A usable page that is not reserved lies apart from the watermark area and the bitmap. *)
Lemma unreserved_apart r last c bm_size e p : bootable r last c bm_size → e ∈ r → usable e = true → owns e p →
  ¬ reserved c bm_size p → 4096 * p + 4096 ≤ base c ∨ base c + WM_SIZE + bm_size / 8 ≤ 4096 * p.
Proof.
  intros B He Hue Ho Hr. pose proof (boot_size _ _ _ _ B) as Hbs.
  destruct B as [Hm _ _ _ Hc _ _ _]. destruct (candidate_Ok _ _ _ Hc) as (Hin & Hu & Hlen).
  assert (0 ≤ bm_size / 8 ≤ bm_size) as H8 by (split; [apply Z.div_pos|apply Z.div_le_upper_bound]; lia).
  change WM_SIZE with 67108864 in Hlen. rewrite (uN_small 64) in Hlen by (unfold is_uN; lia).
  unfold reserved, owns in *. change WM_SIZE with 67108864 in *.
  destruct (map_disjoint _ Hm c e Hin He Hu Hue) as [<-|Hd]; unfold disjoint_entries in *; lia.
Qed.

Lemma pmm_init_pages r last c bm_size : bootable r last c bm_size →
  ∃ s, pmm_init r = Ok s ∧ wf (pmm_bm s) ∧ sz (pmm_bm s) = align_down bm_size 64 ∧
    pmm_freemem s = u64 (usable_bytes r) ∧ pmm_mutex s = 0 ∧ wm_mutex s = 0 ∧
    wm_cursor s = VIRTUAL (base c) ∧ wm_free s = WM_SIZE ∧
    ∀ p, 0 ≤ p < sz (pmm_bm s) →
      bit (pmm_bm s) p = false ↔
        p ≠ 0 ∧ (∃ e, e ∈ r ∧ usable e = true ∧ owns e p) ∧ ¬ reserved c bm_size p.
Proof.
  intros B. pose proof (boot_size _ _ _ _ B) as Hbs. pose proof (boot_holds _ _ _ _ B) as Hhold.
  pose proof (λ p, boot_bit _ _ _ _ p B) as Hres.
  destruct B as [Hm Hl Ht Hp Hc Hf Hw Ha].
  unfold pmm_init. rewrite Hl. cbn.
  rewrite (uN_small 64 (base last + length_ last)) by (unfold is_uN; lia).
  unfold PMM_PAGESIZE, P4K. rewrite <- Hp, Hc. cbn.
  pose proof (divmod64 bm_size ltac:(lia)) as D.
  destruct (init_Ok (replicate (Z.to_nat (bm_size / 64)) 0) bm_size true)
    as (b0 & -> & Hw0 & Hs0 & Hb0); [by apply Forall_replicate|unfold NPOS; lia
    |rewrite length_replicate; lia|]. cbn.
  set (buf := VIRTUAL (u64 (base c + WM_SIZE))) in *.
  destruct (free_entries_Ok buf bm_size ltac:(lia) r b0 0) as (b1 & -> & Hw1 & Hs1 & Hb1);
    [done|done| |by unfold is_uN|].
  { rewrite Hs0. apply Forall_forall. intros e He. split; [by apply Hf|].
    intros ->%Hhold; done. }
  cbn. destruct (set_Ok b1 0 true) as (b2 & -> & Hw2 & Hs2 & _ & Hb2); [done| |].
  { destruct (candidate_Ok _ _ _ Hc) as (Hin & Hu & _).
    destruct (map_geometry _ Hm c Hin Hu) as (G1 & _).
    rewrite Hs1, Hs0. change WM_SIZE with 67108864 in Hw. lia. }
  cbn. eexists. split; [done|]. simpl. split_and!; try done; try congruence.
  rewrite Hs2, Hs1, Hs0. intros p Hpr. rewrite Hb2, Hb1, Hb0 by lia.
  destruct (Z.eqb_spec 0 p) as [<-|Hne]; [naive_solver|]. rewrite Hres. naive_solver.
Qed.

(** C5: on a page-aligned, sorted, non-overlapping memory map whose pages all have a bit, [pmm_init]
    succeeds, and afterwards the free pages are exactly those of the usable entries but page 0 and
    the pages of the chosen entry in the reserved window: the 64 MiB watermark area and [bm_size] bytes behind it,
    which hold the bitmap.  The free-memory counter is the sum of the usable lengths, and the watermark area
    starts with the chosen entry. *)
Theorem pmm_init_free_pages r last c bm_size : bootable r last c bm_size →
  ∃ s, pmm_init r = Ok s ∧ wf (pmm_bm s) ∧ sz (pmm_bm s) = align_down bm_size 64 ∧
    pmm_freemem s = u64 (usable_bytes r) ∧ pmm_mutex s = 0 ∧
    wm_cursor s = VIRTUAL (base c) ∧ wm_free s = WM_SIZE ∧
    ∀ p, 0 ≤ p < sz (pmm_bm s) →
      bit (pmm_bm s) p = false ↔
        p ≠ 0 ∧ (∃ e, e ∈ r ∧ usable e = true ∧ owns e p) ∧ ¬ reserved c bm_size p.
Proof.
  intros B. destruct (pmm_init_pages r last c bm_size B) as (s & E & Hw & Hs & Hf & Hm & _ & Hc & Hr & Hp).
  by exists s.
Qed.

Lemma set_pages_bits v p0 k : ∀ i bm bm', 0 ≤ i →
  for_rounds (λ j bm, set bm (u64 (4096 * p0 + j) / PMM_PAGESIZE) v) (4096 * i) PMM_PAGESIZE k bm = Ok bm' →
  sz bm' = sz bm ∧ (0 ≤ p0 → (p0 + i + Z.of_nat k) * 4096 < 2 ^ 64 → (0 < k)%nat → p0 + i + Z.of_nat k ≤ sz bm).
Proof.
  induction k as [|k IH]; intros i bm bm' Hi E; cbn [for_rounds] in E; [injection E as <-; split; [done|lia]|].
  apply bind_Ok in E as (b1 & E1 & E). replace (4096 * i + PMM_PAGESIZE) with (4096 * (i + 1)) in E by (unfold PMM_PAGESIZE, P4K; lia).
  destruct (IH (i + 1) b1 bm' ltac:(lia) E) as [Hs Hb].
  assert (sz b1 = sz bm ∧ u64 (4096 * p0 + 4096 * i) / PMM_PAGESIZE < sz bm) as [Hs1 Hlt].
  { unfold set in E1. destruct (Z.leb_spec (sz bm) (u64 (4096 * p0 + 4096 * i) / PMM_PAGESIZE)); [done|].
    apply bind_Ok in E1 as (w & _ & E1). by injection E1 as <-. }
  split; [congruence|]. intros Hp Hl _. rewrite page_index in Hlt by lia.
  replace ((4096 * p0 + 4096 * i) / 4096) with (p0 + i) in Hlt by (rewrite <- Z.mul_add_distr_l, Z.mul_comm, Z.div_mul; lia).
  destruct k; [lia|]. specialize (Hb ltac:(lia) ltac:(lia) ltac:(lia)). lia.
Qed.

Lemma set_pages_sz bm from bytes v bm' : set_pages bm from bytes v = Ok bm' → 0 ≤ from → from `mod` 4096 = 0 → 0 ≤ bytes →
  bytes `mod` 4096 = 0 → from + bytes < 2 ^ 64 → sz bm' = sz bm ∧ (0 < bytes → from + bytes ≤ 4096 * sz bm).
Proof.
  intros E Hf Hm Hb Hbm Hl. unfold set_pages in E. pose proof (Z.div_mod from 4096 ltac:(lia)) as Ef. pose proof (Z.div_mod bytes 4096 ltac:(lia)) as Eb.
  rewrite Hm, Z.add_0_r in Ef. rewrite Hbm, Z.add_0_r in Eb. rewrite Ef in E. change 0 with (4096 * 0) in E at 1.
  apply set_pages_bits in E as [Hs Hk]; [|lia]. split; [done|]. intros Hp.
  assert (rounds bytes PMM_PAGESIZE = Z.to_nat (bytes / 4096)) as Er.
  { unfold rounds, PMM_PAGESIZE, P4K. f_equal. rewrite Eb. replace (4096 * (bytes / 4096) + 4096 - 1) with (4095 + bytes / 4096 * 4096) by lia.
    rewrite Z.div_add by lia. change (4095 / 4096) with 0. rewrite (Z.mul_comm 4096), Z.div_mul by lia. lia. }
  rewrite Er in Hk. assert (0 ≤ from / 4096) by (apply Z.div_pos; lia). assert (0 < bytes / 4096) by lia.
  specialize (Hk ltac:(lia) ltac:(lia) ltac:(lia)). lia.
Qed.

Lemma set_keeps_sz bm i v bm' : set bm i v = Ok bm' → sz bm' = sz bm.
Proof. unfold set. destruct (_ <=? _); [done|]. intros H. apply bind_Ok in H as (w & _ & H). by injection H as <-. Qed.
Lemma set_pages_keeps_sz bm from bytes v bm' : set_pages bm from bytes v = Ok bm' → sz bm' = sz bm.
Proof.
  unfold set_pages. generalize 0 as i. generalize (rounds bytes PMM_PAGESIZE) as k. intros k. revert bm.
  induction k as [|k IH]; intros bm i H; cbn [for_rounds] in H; [by injection H as <-|].
  apply bind_Ok in H as (b & E & H). by rewrite (IH _ _ H), (set_keeps_sz _ _ _ _ E).
Qed.

Lemma free_entries_covered buf bm_size r : ∀ st bm' f', limine_map r → free_entries buf bm_size r st = Ok (bm', f') →
  sz bm' = sz st.1 ∧ ∀ e, e ∈ r → usable e = true → 0 < length_ e → base e + length_ e ≤ 4096 * sz bm'.
Proof.
  induction r as [|e r IH]; intros [bm f] bm' f' Hm H; cbn [free_entries] in H.
  { injection H as <- <-. split; [done|]. intros e He. by apply elem_of_nil in He. }
  apply bind_Ok in H as ([b1 f1] & E & H). destruct (IH _ _ _ (limine_map_tail _ _ Hm) H) as [Hs Hall]. cbn [fst] in *.
  assert (sz b1 = sz bm ∧ (usable e = true → 0 < length_ e → base e + length_ e ≤ 4096 * sz bm)) as [H1 H2].
  { unfold free_entry in E. destruct (usable e) eqn:Eu; cbn [negb] in E; [|by injection E as <- <-].
    destruct (map_geometry _ Hm e) as (G1 & G2 & G3 & G4 & G5); [by constructor|done|].
    rewrite align64_id, (align_down_id (length_ e) PMM_PAGESIZE) in E by (done || lia).
    apply bind_Ok in E as (b2 & E1 & E). apply set_pages_sz in E1 as [S1 C1]; [|done|done|done|done|lia].
    apply bind_Ok in E as (b3 & E2 & E). injection E as <- <-. split; [|done].
    destruct (_ =? _); [by rewrite (set_pages_keeps_sz _ _ _ _ _ E2)|by injection E2 as <-]. }
  split; [congruence|]. intros e' [->|He']%elem_of_cons Hu Hl; [|by apply Hall]. rewrite Hs, H1. by apply H2.
Qed.

(** The bitmap is rounded down to whole words, and a bit outside it is fatal: when [pmm_init] returns, the bits
    cover every usable page.  A map whose last usable page is one of the up to 63 pages behind the last whole
    word stops the kernel. *)
Lemma init_needs_bits r s : limine_map r → pmm_init r = Ok s →
  sz (pmm_bm s) `mod` 64 = 0 ∧ ∀ e, e ∈ r → usable e = true → 0 < length_ e → base e + length_ e ≤ 4096 * sz (pmm_bm s).
Proof.
  intros Hm H. unfold pmm_init in H. apply bind_Ok in H as (l & _ & H). apply bind_Ok in H as (c & _ & H).
  apply bind_Ok in H as (b0 & E0 & H). apply bind_Ok in H as ([b1 f] & E1 & H). apply bind_Ok in H as (b2 & E2 & H).
  injection H as <-. cbn [pmm_bm]. rewrite (set_keeps_sz _ _ _ _ E2).
  destruct (free_entries_covered _ _ _ _ _ _ Hm E1) as [Hs Hall]. split; [|done]. rewrite Hs. cbn [fst].
  unfold init in E0. apply bind_Ok in E0 as (buf & _ & E0). injection E0 as <-. cbn [sz]. unfold align_down. apply Z.mod_mul. lia.
Qed.

(** A 256 MiB machine: low memory, the main region, and a trailing reserved entry. *)
Definition map_demo : list memmap_entry :=
  [Entry 0 0x9f000 LIMINE_MEMMAP_USABLE;
   Entry 0x100000 0xff00000 LIMINE_MEMMAP_USABLE;
   Entry 0xfd00000000 0x300000000 LIMINE_MEMMAP_RESERVED].

Lemma map_demo_bootable :
  bootable map_demo (Entry 0x100000 0xff00000 LIMINE_MEMMAP_USABLE)
    (Entry 0x100000 0xff00000 LIMINE_MEMMAP_USABLE) 65536.
Proof.
  split; try reflexivity.
  - split.
    + intros e He Hu. unfold map_demo in He. repeat (apply elem_of_cons in He as [->|He];
        [try discriminate Hu; simpl; split_and!; (reflexivity || lia)|]). by apply elem_of_nil in He.
    + intros e e' He He' Hu Hu'. unfold map_demo in He, He'.
      repeat (apply elem_of_cons in He as [->|He]; [try discriminate Hu;
        repeat (apply elem_of_cons in He' as [->|He']; [try discriminate Hu';
          first [by left|right; unfold disjoint_entries; simpl; lia]|]);
        by apply elem_of_nil in He'|]).
      by apply elem_of_nil in He.
    + repeat constructor; simpl; lia.
  - simpl. lia.
  - intros e He Hu. unfold map_demo in He. change (align_down 65536 64) with 65536.
    repeat (apply elem_of_cons in He as [->|He]; [try discriminate Hu; simpl; lia|]).
    by apply elem_of_nil in He.
  - vm_compute. discriminate.
  - intros e He Hu. unfold map_demo in He. repeat (apply elem_of_cons in He as [->|He];
      [try discriminate Hu; simpl; done|]). by apply elem_of_nil in He.
Qed.

Lemma pmm_init_free_pages_witness :
  ∃ s, pmm_init map_demo = Ok s ∧ pmm_freemem s = 0xff9f000 ∧ bit (pmm_bm s) 65535 = false.
Proof.
  destruct (pmm_init_free_pages map_demo _ _ _ map_demo_bootable)
    as (s & E & _ & Hs & Hf & _ & _ & _ & Hp).
  exists s. split; [exact E|]. split; [rewrite Hf; reflexivity|].
  apply Hp; [rewrite Hs; change (align_down 65536 64) with 65536; lia|]. split_and!; [lia| |].
  - exists (Entry 0x100000 0xff00000 LIMINE_MEMMAP_USABLE).
    split; [apply elem_of_cons; right; constructor|].
    split; [reflexivity|]. unfold owns. simpl. lia.
  - intros [_ H]. simpl in H. change WM_SIZE with 67108864 in H. lia.
Defined.

(** ** Page allocation *)

(** A page allocator that [pmm_init] has set up and that nobody holds. *)
Record pmm_ok (s : pmm) : Prop := {
  ok_wf : wf (pmm_bm s);
  ok_addr : sz (pmm_bm s) ≤ 2 ^ 34;
  ok_free : pmm_mutex s = 0 }.

(** Pages [size] bytes take. *)
Definition pages (size : Z) : Z := align64 size PMM_PAGESIZE / PMM_PAGESIZE.

Lemma pages_bounds size : 0 < size ≤ 2 ^ 46 →
  0 < pages size ∧ align64 size PMM_PAGESIZE = 4096 * pages size ∧
  4096 * pages size - 4096 < size ≤ 4096 * pages size.
Proof.
  intros. unfold pages, PMM_PAGESIZE, P4K.
  pose proof (alignN_bounds 64 size 4096) as H1. pose proof (alignN_mod 64 size 4096) as H2.
  pose proof (Z.div_mod (align64 size 4096) 4096). lia.
Qed.

(** What a page allocation of [n] pages promises. *)
Definition page_alloc (s : pmm) (size : Z) (r : res (Z * pmm)) : Prop :=
  let n := pages size in
  (∃ p s', r = Ok (VIRTUAL (4096 * p), s') ∧ 0 ≤ p ∧ p + n ≤ sz (pmm_bm s) ∧
     free_run (pmm_bm s) p n ∧ (∀ q, 0 ≤ q < p → ¬ free_run (pmm_bm s) q n) ∧
     marks (pmm_bm s) (pmm_bm s') p n ∧ pmm_ok s' ∧
     pmm_usedmem s' = u64 (pmm_usedmem s + 4096 * n) ∧
     pmm_freemem s' = u64 (pmm_freemem s - 4096 * n)) ∨
  (r = Fatal "PMM failed to allocate" ∧
     ∀ q, 0 ≤ q → q + n ≤ sz (pmm_bm s) → ¬ free_run (pmm_bm s) q n).

Lemma alloc_from_0 s size : pmm_ok s → 0 < size ≤ 2 ^ 46 → page_alloc s size (alloc_from 0 s size).
Proof.
  intros [Hwf Ha Hm] Hs. destruct (pages_bounds size Hs) as (Hn & Ea & Hb).
  unfold alloc_from. rewrite Hm. cbn. fold (pages size).
  destruct (find_and_set_multiple_Ok (pmm_bm s) (pages size) 0) as ([c b] & -> & Hr); [done..|].
  cbn. pose proof (wf_size _ Hwf) as Hz.
  assert (first_fit (pmm_bm s) 0 (sz (pmm_bm s)) (pages size) (c, b) ∨ (c = NPOS ∧
    ∀ q, 0 ≤ q → q + pages size ≤ sz (pmm_bm s) → ¬ free_run (pmm_bm s) q (pages size)))
    as [[(p & b' & [= <- <-] & H1 & H2 & H3 & H4 & H5)|[[= -> ->] Hno]]|[-> Hno]].
  { destruct Hr as [[_ Hr]|[Hno Hr]]; [by left|].
    destruct Hr as [(p & b' & [= <- <-] & ? & ? & _)|[[= -> ->] _]]; [lia|]. by right. }
  - replace (c =? NPOS) with false by lia. left. exists c.
    rewrite (uN_small 64 (c * PMM_PAGESIZE)) by (unfold is_uN, PMM_PAGESIZE, P4K; lia).
    rewrite (Z.mul_comm c). eexists. split; [done|]. simpl. rewrite Ea.
    split_and!; try done. split; simpl; [apply H5|by rewrite (marks_sz _ _ _ _ H5)|done].
  - right. by split.
  - right. by split.
Qed.

(** C6: on an initialised allocator [pmm_alloc] of 1 byte to 64 TiB returns the direct-map
    address of the lowest run of enough free pages, marks exactly those pages used, moves
    their size from the free to the used counter and releases the lock; it stops with a fatal
    error only when no such run exists. *)
Theorem pmm_alloc_lowest s size : pmm_ok s → 0 < size ≤ 2 ^ 46 →
  page_alloc s size (pmm_alloc s size).
Proof. apply alloc_from_0. Qed.

(** A sequence of allocations, with the first page and the page count of each. *)
Inductive alloc_seq : pmm → list (Z * Z) → pmm → Prop :=
| seq_nil s : alloc_seq s [] s
| seq_cons s size p s1 l s2 :
    0 < size ≤ 2 ^ 46 → 0 ≤ p → pmm_alloc s size = Ok (VIRTUAL (4096 * p), s1) →
    p < 2 ^ 34 → alloc_seq s1 l s2 → alloc_seq s ((p, pages size) :: l) s2.

Lemma pmm_alloc_inv s size p s' : pmm_ok s → 0 < size ≤ 2 ^ 46 → 0 ≤ p < 2 ^ 34 →
  pmm_alloc s size = Ok (VIRTUAL (4096 * p), s') →
  0 < pages size ∧ pmm_ok s' ∧ free_run (pmm_bm s) p (pages size) ∧
  marks (pmm_bm s) (pmm_bm s') p (pages size).
Proof.
  intros Hok Hs Hp E. pose proof (pages_bounds size Hs) as (Hn & _).
  destruct (alloc_from_0 s size Hok Hs) as [(q & s1 & E' & H1 & H2 & H3 & _ & H5 & H6 & _)|[E' _]];
    change (alloc_from 0) with pmm_alloc in E'; rewrite E in E'; [|done].
  injection E' as Ev <-.
  pose proof (ok_addr _ Hok). rewrite !VIRTUAL_add in Ev by lia. assert (p = q) as <- by lia. done.
Qed.

Lemma alloc_seq_free s l s' : alloc_seq s l s' → pmm_ok s →
  Forall (λ b, free_run (pmm_bm s) b.1 b.2 ∧ 0 ≤ b.1 ∧ 0 < b.2) l.
Proof.
  induction 1 as [|s size p s1 l s2 Hs Hp E Hp' Hseq IH]; intros Hok; [constructor|].
  destruct (pmm_alloc_inv _ _ _ _ Hok Hs ltac:(done) E) as (Hn & Hok1 & Hf & Hm).
  constructor; [done|]. eapply Forall_impl; [by apply IH|]. simpl.
  intros [q n] (Hq & ? & ?). split_and!; try done. simpl in *.
  intros j Hj. specialize (Hq j Hj). rewrite (marks_bit _ _ _ _ Hm) in Hq by lia.
  by apply orb_false_iff in Hq as [_ ?].
Qed.

(** Blocks that successive calls of [pmm_alloc] hand out never overlap. *)
Lemma pmm_alloc_disjoint s l s' (i j : nat) p n q m : pmm_ok s → alloc_seq s l s' →
  l !! i = Some (p, n) → l !! j = Some (q, m) → (i < j)%nat → p + n ≤ q ∨ q + m ≤ p.
Proof.
  intros Hok Hseq. revert i j Hok.
  induction Hseq as [|s size p' s1 l s2 Hs Hp E Hp' Hseq IH]; intros i j Hok Hi Hj Hij; [done|].
  destruct (pmm_alloc_inv _ _ _ _ Hok Hs ltac:(done) E) as (Hn & Hok1 & Hf & Hm).
  destruct j as [|j]; [lia|]. destruct i as [|i]; [|by eapply (IH i j); [..|lia]].
  injection Hi as <- <-. pose proof (alloc_seq_free _ _ _ Hseq Hok1) as Hall.
  eapply Forall_lookup_1 in Hall as (Hq & ? & ?); [|exact Hj]. simpl in *.
  eapply marks_free_run; [exact Hm|done..].
Qed.

(** Page 0 and page 2 used, four pages used of 64. *)
Definition pmm_demo : pmm := mkPmm (mkBitmap [0x5; 0] 128) 0 0x80000 0 0 (VIRTUAL 0x100000) WM_SIZE 0.

Lemma pmm_demo_ok : pmm_ok pmm_demo.
Proof.
  split; simpl; [|lia|done]. split; simpl; [|unfold NPOS; lia|lia].
  repeat constructor; unfold is_uN; lia.
Qed.

Lemma pmm_alloc_lowest_witness :
  page_alloc pmm_demo 0x2001 (pmm_alloc pmm_demo 0x2001) ∧
  fst <$> (match pmm_alloc pmm_demo 0x2001 with Ok r => Some r | _ => None end)
  = Some (VIRTUAL 0x3000).
Proof.
  split; [apply (pmm_alloc_lowest pmm_demo 0x2001 pmm_demo_ok); lia|vm_compute; reflexivity].
Defined.

Lemma pmm_alloc_disjoint_witness :
  ∃ s', alloc_seq pmm_demo [(3, 3); (1, 1)] s' ∧ (3 + 3 ≤ 1 ∨ 1 + 1 ≤ 3).
Proof.
  assert (∃ s', alloc_seq pmm_demo [(3, 3); (1, 1)] s') as [s' Hseq].
  { eexists. eapply (seq_cons _ 0x2001 3); [lia|lia|vm_compute; reflexivity|lia|].
    eapply (seq_cons _ 0x1000 1); [lia|lia|vm_compute; reflexivity|lia|]. apply seq_nil. }
  exists s'. split; [exact Hseq|].
  exact (pmm_alloc_disjoint _ _ _ 0 1 _ _ _ _ pmm_demo_ok Hseq eq_refl eq_refl ltac:(lia)).
Defined.

(** [pmm_alloc], which means to prefer memory above 4 GiB, behaves exactly as
    [pmm_alloc4g]: its search start [gibs2bytes(4)] is computed in [int] and is 0. *)
Lemma pmm_alloc_is_pmm_alloc4g s size : pmm_alloc s size = pmm_alloc4g s size.
Proof. reflexivity. Qed.

(** ** The watermark allocator *)

(** The area [a, e) that is still unused. *)
Record wm_ok (s : pmm) (e : Z) : Prop := {
  wm_end : wm_cursor s + wm_free s = e;
  wm_range : 0 < wm_cursor s ∧ 0 ≤ wm_free s ∧ e < 2 ^ 64 - 2 ^ 32;
  wm_unlocked : wm_mutex s = 0 }.

Lemma wm_alloc_spec s e size align : wm_ok s e → 0 < size ≤ 2 ^ 31 - 16 → 0 ≤ align ≤ 2 ^ 31 →
  let n := align64 size 16 in let a := Z.max n align in
  (∃ p s', wm_alloc s size align = Ok (p, s') ∧ p `mod` a = 0 ∧
     wm_cursor s ≤ p < wm_cursor s + a ∧ size ≤ n ∧ wm_cursor s' = p + n ∧ p + n ≤ e ∧
     wm_ok s' e ∧ pmm_bm s' = pmm_bm s) ∨
  (wm_alloc s size align = Fatal "Watermark allocator out of memory!" ∧
     e < align64 (wm_cursor s) a + n).
Proof.
  intros [He [Hc [Hf Hlt]] Hm] Hs Ha n a.
  pose proof (alignN_bounds 64 size 16 ltac:(lia) ltac:(lia) ltac:(lia) ltac:(lia)) as Hn.
  fold n in Hn. assert (0 < a ≤ 2 ^ 31) as Hap by lia.
  pose proof (alignN_bounds 64 (wm_cursor s) a ltac:(lia) ltac:(lia) ltac:(lia) ltac:(lia)) as Hp.
  pose proof (alignN_mod 64 (wm_cursor s) a ltac:(lia) ltac:(lia) ltac:(lia) ltac:(lia)) as Hpm.
  unfold wm_alloc. rewrite Hm. cbn. fold n. fold a. set (p := align64 (wm_cursor s) a) in *.
  rewrite !(uN_small 64 (p - wm_cursor s)) by (unfold is_uN; lia).
  replace (wm_cursor s + (p - wm_cursor s)) with p by lia.
  rewrite (uN_small 64 p), (uN_small 64 (n + _)) by (unfold is_uN; lia).
  destruct (Z.ltb_spec (wm_free s) (n + (p - wm_cursor s))).
  - right. split; [done|lia].
  - left. rewrite !uN_small by (unfold is_uN; lia). eexists p, _. split; [done|]. simpl.
    split_and!; try done; try lia. split; simpl; [lia|lia|done].
Qed.

(** A watermark allocation of up to 2 GiB returns a block inside the unused area that is
    aligned to the larger of its rounded size and the requested alignment, and leaves the rest
    of the area (from the block's end on) unused and the lock free; it stops with a fatal error
    only if the padded block does not fit. The bytes it takes are exactly those it deducts. *)
Lemma wm_alloc_block s e size align : wm_ok s e → 0 < size ≤ 2 ^ 31 - 16 → 0 ≤ align ≤ 2 ^ 31 →
  let n := align64 size 16 in let a := Z.max n align in
  (∃ p s', wm_alloc s size align = Ok (p, s') ∧ p `mod` a = 0 ∧
     wm_cursor s ≤ p < wm_cursor s + a ∧ size ≤ n ∧ wm_cursor s' = p + n ∧ p + n ≤ e ∧
     wm_ok s' e ∧ pmm_bm s' = pmm_bm s) ∨
  (wm_alloc s size align = Fatal "Watermark allocator out of memory!" ∧
     e < align64 (wm_cursor s) a + n).
Proof. apply wm_alloc_spec. Qed.

Lemma wm_alloc_block_witness :
  wm_ok pmm_demo (VIRTUAL 0x100000 + WM_SIZE) ∧
  ∃ p s', wm_alloc pmm_demo 100 64 = Ok (p, s') ∧ p `mod` 112 = 0.
Proof.
  assert (wm_ok pmm_demo (VIRTUAL 0x100000 + WM_SIZE)) as Hok
    by (split; [reflexivity|vm_compute; split_and!; (done || discriminate)|reflexivity]).
  split; [exact Hok|].
  destruct (wm_alloc_block pmm_demo _ 100 64 Hok) as [(p & s' & E & Hp & _)|[E _]];
    [lia|lia|exists p, s'; split; [exact E|exact Hp]|].
  vm_compute in E. discriminate E.
Defined.

(** The block of 100 bytes that asked for 64-byte alignment is not 64-byte aligned. *)
Example wm_alloc_misaligned : ∃ p s', wm_alloc pmm_demo 100 64 = Ok (p, s') ∧ p `mod` 64 = 32.
Proof. eexists _, _. split; vm_compute; reflexivity. Qed.
