(* ===== verification/Heap.v ===== *)
(** The kernel heap ([MemoryMgr], [util/mm.hh], [util/mm.cc]): a doubly linked list of blocks
    that partitions the heap, its links taken from a page-sized pool whose use is tracked by a
    [Bitmap], with a redzone of 64 bytes of [0xbc] on each side of every allocation.  Pointers
    to links are indices into the pool ([None] is [nullptr]); every dereference is checked. *)
From S2P Require Import Prelude Arith Async Bitmap Pmm Mem.

(** ** Data *)

Definition VMM_MIN_ALLOC : Z := 16.
Definition VMM_REDZONE_SIZE : Z := 64.
Definition VMM_REDZONE_MAGIC : Z := 0xbc.
(** [sizeof(link_t)] with [VMM_DEBUG]. *)
Definition sizeof_link_t : Z := 48.
Definition VMM_HEAP_BASE : Z := 0xffff900000000000.

(** [file] is the address of the string, 0 for [nullptr]. *)
Record link_t := mkLink {
  next : option nat;
  prev : option nat;
  file : Z;
  line : Z;
  length : Z;
  free : bool }.

Definition set_next (v : option nat) (x : link_t) : link_t :=
  mkLink v (prev x) (file x) (line x) (length x) (free x).
Definition set_prev (v : option nat) (x : link_t) : link_t :=
  mkLink (next x) v (file x) (line x) (length x) (free x).
Definition set_where (f l : Z) (x : link_t) : link_t :=
  mkLink (next x) (prev x) f l (length x) (free x).
Definition set_length (v : Z) (x : link_t) : link_t :=
  mkLink (next x) (prev x) (file x) (line x) v (free x).
Definition set_free (v : bool) (x : link_t) : link_t :=
  mkLink (next x) (prev x) (file x) (line x) (length x) v.

(** [links] is the pool; [ram] is the memory the heap addresses refer to. *)
Record MemoryMgr := mkMgr {
  links : list link_t;
  first : option nat;
  bm : Bitmap;
  capacity : Z;
  usedmem : Z;
  freemem : Z;
  heap_base : Z;
  m : MutexSimple;
  ram : mem }.

Definition with_links (h : MemoryMgr) v :=
  mkMgr v (first h) (bm h) (capacity h) (usedmem h) (freemem h) (heap_base h) (m h) (ram h).
Definition with_first (h : MemoryMgr) v :=
  mkMgr (links h) v (bm h) (capacity h) (usedmem h) (freemem h) (heap_base h) (m h) (ram h).
Definition with_bm (h : MemoryMgr) v :=
  mkMgr (links h) (first h) v (capacity h) (usedmem h) (freemem h) (heap_base h) (m h) (ram h).
Definition with_counts (h : MemoryMgr) u f :=
  mkMgr (links h) (first h) (bm h) (capacity h) u f (heap_base h) (m h) (ram h).
Definition with_m (h : MemoryMgr) v :=
  mkMgr (links h) (first h) (bm h) (capacity h) (usedmem h) (freemem h) (heap_base h) v (ram h).
Definition with_ram (h : MemoryMgr) v :=
  mkMgr (links h) (first h) (bm h) (capacity h) (usedmem h) (freemem h) (heap_base h) (m h) v.

(** [*l] and [l->field = ...] *)
Definition ld (h : MemoryMgr) (l : option nat) : res link_t :=
  match l with Some i => deref (links h !! i) | None => Fault end.
Definition st (h : MemoryMgr) (l : option nat) (f : link_t → link_t) : res MemoryMgr :=
  match l with
  | Some i => x ← deref (links h !! i); Ok (with_links h (<[i := f x]> (links h)))
  | None => Fault
  end.
(** [if (l) l->field = ...] *)
Definition st_opt (h : MemoryMgr) (l : option nat) (f : link_t → link_t) : res MemoryMgr :=
  match l with Some _ => st h l f | None => Ok h end.

(** [LockguardSimple g(m)] around a body. *)
Definition guarded {A} (h : MemoryMgr) (body : MemoryMgr → res (A * MemoryMgr))
    : res (A * MemoryMgr) :=
  v ← lock (m h);
  '(a, h) ← body (with_m h v);
  Ok (a, with_m h (unlock (m h))).

(** ** Construction *)

(** [page] is what the second page holds before [bm->init] overwrites its first word. *)
Definition MemoryMgr_new (pm : pmm) (heap size : Z) (page : list Z) (r : mem)
    : res (MemoryMgr * pmm) :=
  let capacity := PMM_PAGESIZE / sizeof_link_t in
  '(_, pm) ← pmm_alloc pm PMM_PAGESIZE;
  let links := replicate (Z.to_nat capacity) (mkLink None None 0 0 0 false) in
  '(_, pm) ← pmm_alloc pm PMM_PAGESIZE;
  b ← init page capacity false;
  let links := <[0%nat := mkLink None None 1 21 size true]> links in
  b ← set b 0 true;
  Ok (mkMgr links (Some 0%nat) b capacity 0 size heap 0 r, pm).

Definition vmm_init (pm : pmm) (page : list Z) (r : mem) : res (MemoryMgr * pmm) :=
  MemoryMgr_new pm VMM_HEAP_BASE (pmm_freemem pm) page r.

(** ** Walking the list

    [while (l) { if (stop) break; j = l; addr += l->length; l = l->next; }]; the result is
    [l], [j] and [addr].  A list in the pool has at most as many links as the pool. *)
Fixpoint walk (h : MemoryMgr) (stop : link_t → Z → bool) (fuel : nat)
    (l j : option nat) (addr : Z) : res (option nat * option nat * Z) :=
  match l with
  | None => Ok (None, j, addr)
  | Some i =>
      match fuel with
      | O => NoFuel
      | S fuel =>
          x ← ld h (Some i);
          if stop x addr then Ok (Some i, j, addr)
          else walk h stop fuel (next x) (Some i) (u64 (addr + length x))
      end
  end.

Definition walk_first (h : MemoryMgr) (stop : link_t → Z → bool) : res (option nat * option nat * Z) :=
  walk h stop (List.length (links h)) (first h) (first h) (heap_base h).

(** The loop that looks for the block at address [p]. *)
Definition find_addr (h : MemoryMgr) (p : Z) : res (option nat * option nat * Z) :=
  walk_first h (λ _ addr, addr =? p).

Fixpoint count_loop (h : MemoryMgr) (fuel : nat) (l : option nat) (ret : Z) : res Z :=
  match l with
  | None => Ok ret
  | Some i =>
      match fuel with
      | O => NoFuel
      | S fuel => x ← ld h (Some i); count_loop h fuel (next x) (u32 (ret + 1))
      end
  end.
Definition count_allocs (h : MemoryMgr) : res Z :=
  count_loop h (List.length (links h)) (first h) 0.

(** ** Links *)

Definition delete_link (h : MemoryMgr) (l : nat) : res MemoryMgr :=
  x ← ld h (Some l);
  let h := match prev x with None => with_first h (next x) | Some _ => h end in
  b ← set (bm h) (Z.of_nat l) false;
  st (with_bm h b) (Some l) (λ x, set_where 0 0 (set_prev None (set_next None x))).

Definition create_link (h : MemoryMgr) : res (nat * MemoryMgr) :=
  '(idx, b) ← find_and_set (bm h) 0;
  if idx =? NPOS then Fatal "Kifogyott a vmm bitmap!" else
  h ← st (with_bm h b) (Some (Z.to_nat idx)) (set_where 0 0);
  Ok (Z.to_nat idx, h).

(** The first half of [merge]: absorb the following block. *)
Definition merge_next (h : MemoryMgr) (l : nat) : res MemoryMgr :=
  x ← ld h (Some l);
  match next x with
  | None => Ok h
  | Some old =>
      y ← ld h (Some old);
      if free x && free y then
        h ← st h (Some l) (set_length (u64 (length x + length y)));
        h ← st_opt h (next y) (set_prev (Some l));
        h ← st h (Some l) (set_next (next y));
        delete_link h old
      else Ok h
  end.

(** The second half: be absorbed by the preceding block. *)
Definition merge_prev (h : MemoryMgr) (l : nat) : res MemoryMgr :=
  x ← ld h (Some l);
  match prev x with
  | None => Ok h
  | Some p =>
      y ← ld h (Some p);
      if free x && free y then
        h ← st h (Some p) (set_length (u64 (length y + length x)));
        h ← st_opt h (next x) (set_prev (Some p));
        h ← st h (Some p) (set_next (next x));
        delete_link h l
      else Ok h
  end.

Definition merge (h : MemoryMgr) (l : nat) : res MemoryMgr :=
  h ← merge_next h l; merge_prev h l.

Definition allocate_into_free (h : MemoryMgr) (current : option nat) (size additional : Z)
    : res (option nat * MemoryMgr) :=
  x ← ld h current;
  assert_ (free x) "current->free";;
  h ← st h current (set_free false);
  assert_ (size <=? length x) "current->length >= size";;
  assert_ (additional <=? u64 (length x - size)) "current->length - size >= additional";;
  let rem := u64 (u64 (length x - size) - additional) in
  if rem =? 0 then Ok (current, h) else
  '(newlink, h) ← create_link h;
  h ← st h current (set_length size);
  h ← st h (Some newlink) (λ y, mkLink (next x) current (file y) (line y) rem true);
  h ← st_opt h (next x) (set_prev (Some newlink));
  h ← st h current (set_next (Some newlink));
  Ok (Some newlink, h).

(** ** Allocation *)

(** The two redzones of the [size]-byte block at [address]. *)
Definition fill_redzones (r : mem) (address size : Z) : mem :=
  let r := memset r address VMM_REDZONE_MAGIC VMM_REDZONE_SIZE in
  memset r (u64 (u64 (address + size) - VMM_REDZONE_SIZE)) VMM_REDZONE_MAGIC VMM_REDZONE_SIZE.

Definition alloc_nomutex (h : MemoryMgr) (size fil lin : Z) : res (Z * MemoryMgr) :=
  if size =? 0 then Ok (0, h) else
  let size := align64 size VMM_MIN_ALLOC in
  let size := u64 (size + VMM_REDZONE_SIZE * 2) in
  '(l, _, address) ← walk_first h (λ x _, free x && (size <=? length x));
  '(_, h) ← allocate_into_free h l size 0;
  h ← st h l (set_where fil lin);
  let h := with_counts h (u64 (usedmem h + size)) (u64 (freemem h - size)) in
  let h := with_ram h (fill_redzones (ram h) address size) in
  Ok (u64 (address + VMM_REDZONE_SIZE), h).

Definition alloc (h : MemoryMgr) (size fil lin : Z) : res (Z * MemoryMgr) :=
  guarded h (λ h, alloc_nomutex h size fil lin).

(** The branch of [alloc_aligned] that puts a free block of [alignfix] bytes in front. *)
Definition split_aligned (h : MemoryMgr) (l : nat) (size alignfix fil lin : Z) : res MemoryMgr :=
  '(alignfixl, h) ← create_link h;
  x ← ld h (Some l);
  h ← st h (Some alignfixl) (λ y, set_length alignfix (set_free true y));
  h ← st h (Some l) (set_length (u64 (length x - alignfix)));
  assert_ (isaligned alignfix VMM_MIN_ALLOC) "isaligned(alignfixl->length, VMM_MIN_ALLOC)";;
  h ← st h (Some alignfixl) (set_where fil lin);
  h ← st_opt h (prev x) (set_next (Some alignfixl));
  h ← st h (Some alignfixl) (λ y, set_next (Some l) (set_prev (prev x) y));
  h ← st h (Some l) (set_prev (Some alignfixl));
  let h := if decide (first h = Some l) then with_first h (Some alignfixl) else h in
  x ← ld h (Some l);
  let remaining := i64 (length x - size) in
  assert_ (0 <=? remaining) "remaining >= 0ll";;
  h ← st h (Some l) (λ y, set_where fil lin (set_free false (set_length (u64 (length x - remaining)) y)));
  if remaining =? 0 then Ok h else
  '(remainingl, h) ← create_link h;
  h ← st h (Some remainingl) (λ y, set_length (u64 remaining) (set_free true (set_where 1 260 y)));
  assert_ (isaligned (u64 remaining) 16) "isaligned(remainingl->length, 16)";;
  x ← ld h (Some l);
  h ← st_opt h (next x) (set_prev (Some remainingl));
  h ← st h (Some remainingl) (set_next (next x));
  h ← st h (Some l) (set_next (Some remainingl));
  st h (Some remainingl) (set_prev (Some l)).

(** The search loop of [alloc_aligned]; the result is the address and the state at its end. *)
Fixpoint aligned_loop (h : MemoryMgr) (fuel : nat) (l : option nat) (address size align fil lin : Z)
    : res (Z * MemoryMgr) :=
  match l with
  | None => Ok (address, h)
  | Some i =>
      match fuel with
      | O => NoFuel
      | S fuel =>
          x ← ld h (Some i);
          let cont := aligned_loop h fuel (next x) (u64 (address + length x)) size align fil lin in
          if negb (free x) then cont else
          if length x <? size then cont else
          if align =? 0 then Fault else
          let user := u64 (address + VMM_REDZONE_SIZE) in
          if isaligned user align then
            '(_, h) ← allocate_into_free h (Some i) size 0;
            h ← st h (Some i) (set_where fil lin);
            Ok (address, h)
          else if size <? length x then
            let alignfix := u64 (align64 user align - user) in
            assert_ (negb (alignfix =? 0)) "alignfix";;
            if length x <? u64 (size + alignfix) then cont else
            h ← split_aligned h i size alignfix fil lin;
            Ok (u64 (address + alignfix), h)
          else cont
      end
  end.

Definition alloc_aligned (h : MemoryMgr) (size align fil lin : Z) : res (Z * MemoryMgr) :=
  guarded h (λ h,
    let size := align64 size VMM_MIN_ALLOC in
    let align := u32 (align64 align VMM_MIN_ALLOC) in
    let size := u64 (size + VMM_REDZONE_SIZE * 2) in
    '(address, h) ← aligned_loop h (List.length (links h)) (first h) (heap_base h) size align fil lin;
    let h := with_counts h (u64 (usedmem h + size)) (u64 (freemem h - size)) in
    let h := with_ram h (fill_redzones (ram h) address size) in
    Ok (u64 (address + VMM_REDZONE_SIZE), h)).

(** ** Resizing *)

(** The code after the label [allocd]. *)
Definition allocd (h : MemoryMgr) (i : option nat) (ptr fil lin : Z) : res (bool * MemoryMgr) :=
  h ← st h i (set_where fil lin);
  x ← ld h i;
  Ok (true, with_ram h (memset (ram h) (u64 (u64 (ptr + length x) - VMM_REDZONE_SIZE))
                          VMM_REDZONE_MAGIC VMM_REDZONE_SIZE)).

(** The body of the loop of [try_realloc] once the block [i] of [ptr] is found. *)
Definition grow (h : MemoryMgr) (i : nat) (ptr newsize fil lin : Z) : res (bool * MemoryMgr) :=
  x ← ld h (Some i);
  let oldsize := length x in
  if newsize <=? oldsize then allocd h (Some i) ptr fil lin else
  match next x with
  | None => Ok (false, h)
  | Some n =>
      y ← ld h (Some n);
      if negb (free y) then Ok (false, h) else
      let diff := u64 (newsize - length x) in
      if length y <? diff then Ok (false, h) else
      h ← st h (Some n) (set_length (u64 (length y - diff)));
      h ← st h (Some i) (set_length (u64 (length x + diff)));
      let h := with_counts h (u64 (usedmem h + diff)) (u64 (freemem h - diff)) in
      h ← (if length y =? diff then
             h ← st h (Some i) (set_next (next y));
             h ← st_opt h (next y) (set_prev (Some i));
             delete_link h n
           else Ok h);
      allocd h (Some i) ptr fil lin
  end.

Definition try_realloc_nomutex (h : MemoryMgr) (ptr newsize fil lin : Z) : res (bool * MemoryMgr) :=
  if ptr =? 0 then
    '(p, h) ← alloc_nomutex h newsize fil lin;
    Ok (negb (p =? 0), h)
  else
  assert_ (Z.land ptr 15 =? 0) "((u64)ptr & 15) == 0";;
  let newsize := align64 newsize VMM_MIN_ALLOC in
  let ptr := u64 (ptr - VMM_REDZONE_SIZE) in
  let newsize := u64 (newsize + VMM_REDZONE_SIZE * 2) in
  '(i, _, _) ← find_addr h ptr;
  match i with
  | None => Fatal "Elerhetetlen kod! ptr invalid?"
  | Some i => grow h i ptr newsize fil lin
  end.

Definition try_realloc (h : MemoryMgr) (ptr newsize fil lin : Z) : res (bool * MemoryMgr) :=
  guarded h (λ h, try_realloc_nomutex h ptr newsize fil lin).

(** Takes no lock. *)
Definition get_size (h : MemoryMgr) (p : Z) : res Z :=
  '(i, _, _) ← find_addr h (u64 (p - VMM_REDZONE_SIZE));
  match i with
  | None => Fatal "Unreachable code in get_size!"
  | Some _ => x ← ld h i; Ok (u64 (length x - VMM_REDZONE_SIZE * 2))
  end.

(** ** Inspection *)

(** The sum [dump] returns; its output goes to the console. *)
Definition dump (h : MemoryMgr) : res (Z * MemoryMgr) :=
  guarded h (λ h, '(_, _, addr) ← walk_first h (λ _ _, false);
                  Ok (u64 (addr - heap_base h), h)).

Definition info (h : MemoryMgr) (p : Z) : res (link_t * MemoryMgr) :=
  guarded h (λ h, '(i, _, _) ← find_addr h p;
    match i with
    | None => Fatal "Nincs allokacio ilyen cimen"
    | Some _ => x ← ld h i; Ok (x, h)
    end).

(** The links whose origin is printed: the previous, the block itself, the next. *)
Definition print_files (h : MemoryMgr) (around : Z)
    : res (option link_t * link_t * option link_t * MemoryMgr) :=
  guarded h (λ h, '(l, _, _) ← find_addr h around;
    x ← ld h l;
    p ← (match prev x with Some _ => y ← ld h (prev x); Ok (Some y) | None => Ok None end);
    n ← (match next x with Some _ => y ← ld h (next x); Ok (Some y) | None => Ok None end);
    Ok (p, x, n, h)).

(** [check(p, checkbefore, checkafter)]: returns only when the block is intact; a corrupted
    redzone ends in [pause()] after reporting the neighbours. *)
Fixpoint check (fuel : nat) (h : MemoryMgr) (p : Z) (checkbefore checkafter : bool) : res unit :=
  match fuel with
  | O => NoFuel
  | S fuel =>
      let p := u64 (p - VMM_REDZONE_SIZE) in
      '(i, j, _) ← find_addr h p;
      linksize ← (match i with None => Ok NPOS | Some _ => x ← ld h i; Ok (length x) end);
      if linksize =? NPOS then Fatal "No such alloc" else
      x ← ld h i;
      if free x then Fatal "Tried to check a free sector??" else
      if length x <? VMM_MIN_ALLOC + VMM_REDZONE_SIZE * 2
      then (dump h;; Fatal "block too small") else
      (if memchk (ram h) p VMM_REDZONE_MAGIC VMM_REDZONE_SIZE then
         y ← ld h j;
         let p2 := u64 (p - length y) in
         g ← get_size h (u64 (p2 + 64));
         assert_ (length y =? u64 (g + VMM_REDZONE_SIZE * 2)) "j->length == get_size(p2 + 64)";;
         (if checkbefore then check fuel h (u64 (p2 + VMM_REDZONE_SIZE)) true false else Ok tt);;
         Hang
       else Ok tt);;
      let p := u64 (u64 (p + linksize) - VMM_REDZONE_SIZE) in
      if memchk (ram h) p VMM_REDZONE_MAGIC VMM_REDZONE_SIZE then
         let p2 := u64 (p + length x) in
         ld h (next x);;
         (if checkafter then check fuel h (u64 (p2 + VMM_REDZONE_SIZE)) false true else Ok tt);;
         Hang
      else Ok tt
  end.

(** Each nested call moves to a neighbour on one side. *)
Definition check_fuel (h : MemoryMgr) : nat := S (S (List.length (links h))).

Fixpoint check_all_loop (h : MemoryMgr) (fuel : nat) (l : option nat) (a : Z) : res unit :=
  match l with
  | None => Ok tt
  | Some i =>
      match fuel with
      | O => NoFuel
      | S fuel =>
          x ← ld h (Some i);
          (if free x then Ok tt
           else check (check_fuel h) h (u64 (a + VMM_REDZONE_SIZE)) true true);;
          check_all_loop h fuel (next x) (u64 (a + length x))
      end
  end.
Definition check_all (h : MemoryMgr) : res unit :=
  check_all_loop h (List.length (links h)) (first h) (heap_base h).

(** ** Freeing *)

Definition free_nomutex (h : MemoryMgr) (p : Z) : res MemoryMgr :=
  if p =? 0 then Ok h else
  check (check_fuel h) h p true true;;
  let p := u64 (p - VMM_REDZONE_SIZE) in
  '(i, _, addr) ← find_addr h p;
  match i with
  | None => Fatal "turi ipo ip"
  | Some n =>
      x ← ld h i;
      let linksize := length x in
      if linksize =? NPOS then Fatal "turi ipo ip" else
      h ← st h i (set_where 0 0);
      let h := with_counts h (u64 (usedmem h - linksize)) (u64 (freemem h + linksize)) in
      h ← st h i (set_free true);
      merge h n
  end.

Definition free_ (h : MemoryMgr) (p : Z) : res MemoryMgr :=
  '(_, h) ← guarded h (λ h, h ← free_nomutex h p; Ok (tt, h)); Ok h.

Definition realloc (h : MemoryMgr) (ptr newsize fil lin : Z) : res (Z * MemoryMgr) :=
  '(ok, h) ← try_realloc h ptr newsize fil lin;
  if ok : bool then Ok (ptr, h) else
  '(newmem, h) ← alloc h newsize fil lin;
  oldsize ← get_size h ptr;
  let h := with_ram h (memcpy (ram h) newmem ptr oldsize) in
  h ← free_ h ptr;
  Ok (newmem, h).
