(* ===== verification/HeapInv.v ===== *)
(** The heap's invariant and its proof rules: the list segment a heap's links form, the link
    pool, the search loop, and one lemma per list-changing step of [util/mm.cc] ([create_link],
    [delete_link], [merge], [allocate_into_free]). *)
From S2P Require Import Prelude Arith Async Bitmap Pmm Mem Heap.

(** ** Segments *)

(** A block of the list: its link's index, its length and whether it is free. *)
Record node := Node { ix : nat; len : Z; fr : bool }.

Definition hd_or (d : option nat) (ns : list node) : option nat :=
  match ns with [] => d | a :: _ => Some (ix a) end.
Definition last_or (d : option nat) (ns : list node) : option nat :=
  foldl (λ _ a, Some (ix a)) d ns.

(** Link [ix a] holds block [a] and points to [p] and [n]. *)
Definition node_at (ls : list link_t) (p : option nat) (a : node) (n : option nat) : Prop :=
  ∃ x, ls !! ix a = Some x ∧ prev x = p ∧ next x = n ∧ length x = len a ∧ free x = fr a.

Fixpoint dseg (ls : list link_t) (p : option nat) (ns : list node) (n : option nat) : Prop :=
  match ns with
  | [] => True
  | a :: r => node_at ls p a (hd_or n r) ∧ dseg ls (Some (ix a)) r n
  end.

Abbreviation ixs ns := (ix <$> ns).

Definition total (ns : list node) : Z := foldr (λ a t, len a + t) 0 ns.
Definition freebytes (ns : list node) : Z := foldr (λ a t, (if fr a then len a else 0) + t) 0 ns.
Definition usedbytes (ns : list node) : Z := foldr (λ a t, (if fr a then 0 else len a) + t) 0 ns.

Lemma total_app a b : total (a ++ b) = total a + total b.
Proof. induction a as [|x a IH]; simpl in *; [done|]. rewrite IH. lia. Qed.
Lemma freebytes_app a b : freebytes (a ++ b) = freebytes a + freebytes b.
Proof. induction a as [|x a IH]; simpl in *; [done|]. rewrite IH. lia. Qed.
Lemma usedbytes_app a b : usedbytes (a ++ b) = usedbytes a + usedbytes b.
Proof. induction a as [|x a IH]; simpl in *; [done|]. rewrite IH. lia. Qed.
Lemma hd_or_app d a b : hd_or d (a ++ b) = hd_or (hd_or d b) a.
Proof. by destruct a. Qed.
Lemma last_or_app d a b : last_or d (a ++ b) = last_or (last_or d a) b.
Proof. unfold last_or. by rewrite foldl_app. Qed.
Lemma last_or_snoc d a x : last_or d (a ++ [x]) = Some (ix x).
Proof. by rewrite last_or_app. Qed.

Lemma dseg_app ls a : ∀ p b n,
  dseg ls p (a ++ b) n ↔ dseg ls p a (hd_or n b) ∧ dseg ls (last_or p a) b n.
Proof.
  induction a as [|x a IH]; intros p b n; cbn [dseg app]; [tauto|].
  rewrite IH, hd_or_app. cbn. tauto.
Qed.

Lemma dseg_ext ls ls' ns : ∀ p n, (∀ a, a ∈ ns → ls' !! ix a = ls !! ix a) →
  dseg ls p ns n → dseg ls' p ns n.
Proof.
  induction ns as [|a r IH]; intros p n Hext; cbn [dseg]; [done|]. intros [(x & Hx & H) Hr].
  split.
  - exists x. rewrite Hext by constructor. done.
  - apply IH; [|done]. intros b Hb. apply Hext. by apply elem_of_cons; right.
Qed.

Lemma dseg_insert ls i y ns p n : i ∉ ixs ns → dseg ls p ns n → dseg (<[i := y]> ls) p ns n.
Proof.
  intros Hi. apply dseg_ext. intros a Ha. apply list_lookup_insert_ne.
  intros ->. apply Hi. by apply list_elem_of_fmap_2.
Qed.

(** Redirecting the back pointer of a segment's head or the forward pointer of its last. *)
Lemma dseg_set_prev ls p p' a r n x : dseg ls p (a :: r) n → NoDup (ixs (a :: r)) →
  ls !! ix a = Some x → dseg (<[ix a := set_prev p' x]> ls) p' (a :: r) n.
Proof.
  intros [(y & Hy & Hp & Hn & Hl & Hf) Hr] Hd Hx. apply NoDup_cons in Hd as [Hni _].
  rewrite Hx in Hy. injection Hy as <-. split.
  - exists (set_prev p' x). rewrite list_lookup_insert_eq by (by eapply lookup_lt_Some). done.
  - by apply dseg_insert.
Qed.

Lemma dseg_set_next ls p n' a r n x : dseg ls p (r ++ [a]) n → NoDup (ixs (r ++ [a])) →
  ls !! ix a = Some x → dseg (<[ix a := set_next n' x]> ls) p (r ++ [a]) n'.
Proof.
  rewrite !dseg_app, fmap_app, NoDup_app. intros [Hr [(y & Hy & Hp & Hn & Hl & Hf) _]] (Hd1 & Hd2 & _) Hx.
  rewrite Hx in Hy. injection Hy as <-. split.
  - apply dseg_insert; [|done]. intros Hin. apply (Hd2 _ Hin). by constructor.
  - split; [|done]. exists (set_next n' x).
    rewrite list_lookup_insert_eq by (by eapply lookup_lt_Some). done.
Qed.

Lemma ld_Ok h i x : links h !! i = Some x → ld h (Some i) = Ok x.
Proof. intros H. unfold ld. by rewrite H. Qed.

Lemma st_Ok h i x f : links h !! i = Some x →
  st h (Some i) f = Ok (with_links h (<[i := f x]> (links h))).
Proof. intros H. unfold st. by rewrite H. Qed.

(** [if (l) l->prev = p'] on the head of the rest of the list. *)
Lemma st_opt_prev h p p' ns n : dseg (links h) p ns n → NoDup (ixs ns) → n = None →
  ∃ ls, st_opt h (hd_or n ns) (set_prev p') = Ok (with_links h ls) ∧ dseg ls p' ns n ∧
    (∀ j, j ∉ ixs ns → ls !! j = links h !! j) ∧ List.length ls = List.length (links h).
Proof.
  intros Hs Hd ->. destruct ns as [|a r]; cbn [hd_or st_opt].
  { exists (links h). destruct h. done. }
  pose proof Hs as [(x & Hx & _) _]. rewrite (st_Ok _ _ _ _ Hx).
  eexists. split; [done|]. split; [by eapply dseg_set_prev|].
  split; [|by rewrite length_insert]. intros j Hj. apply list_lookup_insert_ne.
  intros <-. apply Hj. by constructor.
Qed.

Lemma st_opt_next h n n' ns p : dseg (links h) p ns n → NoDup (ixs ns) → p = None →
  ∃ ls, st_opt h (last_or p ns) (set_next n') = Ok (with_links h ls) ∧ dseg ls p ns n' ∧
    (∀ j, j ∉ ixs ns → ls !! j = links h !! j) ∧ List.length ls = List.length (links h).
Proof.
  intros Hs Hd ->. destruct ns as [|a r _] using rev_ind.
  { exists (links h). destruct h. done. }
  rewrite last_or_snoc. cbn [st_opt].
  pose proof Hs as Hs'. rewrite dseg_app in Hs'. destruct Hs' as [_ [(x & Hx & _) _]].
  rewrite (st_Ok _ _ _ _ Hx). eexists. split; [done|]. split; [by eapply dseg_set_next|].
  split; [|by rewrite length_insert]. intros j Hj. apply list_lookup_insert_ne.
  intros <-. apply Hj. rewrite fmap_app. apply elem_of_app. right. by constructor.
Qed.

(** ** The link pool *)

(** The bitmap marks exactly the links of [us]. *)
Record pool (b : Bitmap) (us : list nat) : Prop := {
  pool_wf : wf b;
  pool_sz : sz b = 64;
  pool_bit : ∀ i : nat, (i < 64)%nat → bit b (Z.of_nat i) = bool_decide (i ∈ us);
  pool_lt : ∀ i, i ∈ us → (i < 64)%nat }.

Lemma pool_ext b us us' : (∀ i, i ∈ us ↔ i ∈ us') → pool b us → pool b us'.
Proof.
  intros He [H1 H2 H3 H4]. split; [done|done| |].
  - intros i Hi. rewrite H3 by done. by apply bool_decide_ext.
  - intros i Hi. by apply H4, He.
Qed.

Lemma create_link_Ok h us : pool (bm h) us → List.length (links h) = 85%nat →
  (∃ j x b, create_link h =
     Ok (j, with_links (with_bm h b) (<[j := set_where 0 0 x]> (links h))) ∧
     links h !! j = Some x ∧ (j ∉ us) ∧ (j < 64)%nat ∧ pool b (j :: us)) ∨
  (create_link h = Fatal "Kifogyott a vmm bitmap!" ∧ ∀ i, (i < 64)%nat → i ∈ us).
Proof.
  intros [Hw Hs Hb Hlt] Hl. unfold create_link, find_and_set.
  destruct (find_and_set_multiple_Ok (bm h) 1 0) as ([c b] & -> & Hr); [done|lia|lia|]. cbn.
  assert (first_fit (bm h) 0 64 1 (c, b) ∨ (c = NPOS ∧
     ∀ q, 0 ≤ q < 64 → ¬ free_run (bm h) q 1)) as Hr'.
  { rewrite Hs in Hr. destruct Hr as [[_ Hr]|[Hno Hr]]; [by left|].
    destruct Hr as [(p & b' & [= <- <-] & ? & ? & _)|[[= -> ->] _]]; [lia|].
    right. split; [done|]. intros q Hq. apply Hno; lia. }
  clear Hr. assert (∀ i : nat, (i < 64)%nat → free_run (bm h) (Z.of_nat i) 1 ↔ i ∉ us) as Hfree.
  { intros i Hi. split.
    - intros Hf Hin. specialize (Hf (Z.of_nat i) ltac:(lia)).
      rewrite Hb, bool_decide_eq_true_2 in Hf by done. done.
    - intros Hni j Hj. replace j with (Z.of_nat i) by lia.
      by rewrite Hb, bool_decide_eq_false_2. }
  destruct Hr' as [[(p & b' & [= <- <-] & ? & ? & Hf & _ & [M1 M2 M3 M4])|[[= -> ->] Hno]]|[-> Hno]].
  - unfold NPOS. replace (c =? 2 ^ 64 - 1) with false by lia. left.
    destruct (lookup_lt_is_Some_2 (links h) (Z.to_nat c)) as [x Hx]; [lia|].
    rewrite Hx. cbn.
    exists (Z.to_nat c), x, b. split_and!; [done|done|apply Hfree; [lia|by rewrite Z2Nat.id]|lia|].
    split; [done|congruence| |].
    + intros i Hi. rewrite M4, Hb by lia. rewrite <- bool_decide_or. apply bool_decide_ext.
      rewrite elem_of_cons. split; (intros [?|?]; [left; lia|by right]).
    + intros i [->|Hi]%elem_of_cons; [lia|by apply Hlt].
  - right. split; [done|]. intros i Hi. destruct (decide (i ∈ us)); [done|].
    exfalso. by apply (Hno (Z.of_nat i)); [lia|lia|apply Hfree].
  - right. split; [done|]. intros i Hi. destruct (decide (i ∈ us)); [done|].
    exfalso. by apply (Hno (Z.of_nat i)); [lia|apply Hfree].
Qed.

(** A link that is not the first of the list is given back. *)
Lemma delete_link_Ok h l x us us' : pool (bm h) us → links h !! l = Some x → l ∈ us →
  prev x ≠ None → (∀ i, i ∈ us' ↔ i ∈ us ∧ i ≠ l) →
  ∃ y b, delete_link h l = Ok (with_links (with_bm h b) (<[l := y]> (links h))) ∧ pool b us'.
Proof.
  intros [Hw Hs Hb Hlt] Hx Hin Hp Hus. unfold delete_link. rewrite (ld_Ok _ _ _ Hx). cbn.
  pose proof (Hlt l Hin). destruct (prev x) as [q|]; [|done].
  destruct (set_Ok (bm h) (Z.of_nat l) false) as (b & -> & H1 & H2 & _ & H4); [done|lia|]. cbn.
  rewrite Hx. cbn. eexists _, b. split; [done|]. split; [done|congruence| |].
  - intros i Hi. rewrite H4 by lia. rewrite Hb by done.
    destruct (Z.eqb_spec (Z.of_nat l) (Z.of_nat i)).
    + symmetry. apply bool_decide_eq_false_2. rewrite Hus. lia.
    + apply bool_decide_ext. rewrite Hus. split; [intros ?; split; [done|lia]|tauto].
  - intros i Hi. apply Hlt. by apply Hus.
Qed.

(** ** The search loop *)

(** Where the loop stops: at the first block [s] accepts, or past the end. *)
Lemma walk_Ok h stop (s : Z → bool → Z → bool) : (∀ x a, stop x a = s (length x) (free x) a) →
  ∀ ns fuel p j addr, dseg (links h) p ns None → (List.length ns ≤ fuel)%nat →
  0 ≤ addr → addr + total ns < 2 ^ 64 → Forall (λ a, 0 < len a) ns →
  (∃ pre cur post, ns = pre ++ cur :: post ∧
     walk h stop fuel (hd_or None ns) j addr = Ok (Some (ix cur), last_or j pre, addr + total pre) ∧
     s (len cur) (fr cur) (addr + total pre) = true ∧
     ∀ pre' a post', pre = pre' ++ a :: post' → s (len a) (fr a) (addr + total pre') = false) ∨
  (walk h stop fuel (hd_or None ns) j addr = Ok (None, last_or j ns, addr + total ns) ∧
     ∀ pre' a post', ns = pre' ++ a :: post' → s (len a) (fr a) (addr + total pre') = false).
Proof.
  intros Hstop. induction ns as [|a r IH]; intros fuel p j addr Hs Hf Ha Ht Hl.
  { right. cbn. destruct fuel; cbn; rewrite Z.add_0_r; (split; [done|]); by intros [] ???. }
  apply Forall_cons in Hl as [Hla Hl]. cbn [total foldr] in Ht. fold (total r) in Ht.
  destruct Hs as [(x & Hx & Hp & Hn & Hlen & Hfr) Hs].
  destruct fuel as [|fuel]; [simpl in Hf; lia|]. cbn [walk hd_or ld]. rewrite Hx. cbn.
  rewrite Hstop, Hlen, Hfr. destruct (s (len a) (fr a) addr) eqn:Es.
  { left. exists [], a, r. cbn. rewrite Z.add_0_r. split_and!; try done.
    intros [|??] ?? E; simplify_eq. }
  assert (0 ≤ total r) as Htr.
  { clear -Hl. induction r as [|b r IH]; [simpl; lia|].
    apply Forall_cons in Hl as [? Hl]. specialize (IH Hl). unfold total in *. simpl. lia. }
  rewrite Hn, (uN_small 64 (addr + len a)) by (unfold is_uN; lia).
  destruct (IH fuel (Some (ix a)) (Some (ix a)) (addr + len a))
    as [(pre & cur & post & -> & E & Hs1 & Hs2)|[E Hs2]]; try done; try (simpl in Hf; lia).
  - left. exists (a :: pre), cur, post. cbn [total foldr last_or foldl]. fold (total pre).
    rewrite Z.add_assoc. split_and!; try done.
    intros [|b pre'] c post' Ec; simplify_eq/=; [by rewrite Z.add_0_r|].
    rewrite Z.add_assoc. by eapply Hs2.
  - right. cbn [total foldr last_or foldl]. fold (total r). rewrite Z.add_assoc. split; [done|].
    intros [|b pre'] c post' Ec; simplify_eq/=; [by rewrite Z.add_0_r|].
    rewrite Z.add_assoc. by eapply Hs2.
Qed.

(** ** The invariant *)

(** What a client sees of the list: the blocks' lengths and whether they are free. *)
Definition blocks (ns : list node) : list (Z * bool) := map (λ a, (len a, fr a)) ns.

(** No two neighbouring blocks are both free. *)
Fixpoint coalesced (bs : list (Z * bool)) : Prop :=
  match bs with
  | a :: r => (match r with b :: _ => a.2 && b.2 = false | [] => True end) ∧ coalesced r
  | [] => True
  end.

(** A free block has a multiple of 16 bytes; a used one also has its redzones. *)
Definition good_len (a : node) : Prop :=
  0 < len a ∧ len a `mod` 16 = 0 ∧ (fr a = false → 144 ≤ len a).

(** The links in use form the list [ns] and are exactly those the pool has given out. *)
Record shape (h : MemoryMgr) (ns : list node) : Prop := {
  sh_seg : dseg (links h) None ns None;
  sh_first : first h = hd_or None ns;
  sh_nodup : NoDup (ixs ns);
  sh_links : List.length (links h) = 85%nat;
  sh_pool : pool (bm h) (ixs ns) }.

Record heap_inv (h : MemoryMgr) (ns : list node) : Prop := {
  inv_shape : shape h ns;
  inv_len : Forall good_len ns;
  inv_range : 0 < heap_base h ∧ heap_base h `mod` 16 = 0 ∧ heap_base h + total ns < 2 ^ 64;
  inv_used : usedmem h = usedbytes ns;
  inv_free : freemem h = freebytes ns;
  inv_coalesced : coalesced (blocks ns) }.

Lemma good_pos ns : Forall good_len ns → Forall (λ a, 0 < len a) ns.
Proof. intros H. eapply Forall_impl; [exact H|]. by intros a [? _]. Qed.

Lemma total_nonneg ns : Forall good_len ns → 0 ≤ total ns.
Proof.
  induction 1 as [|a r [? _] Hr IH]; [simpl; lia|]. unfold total in *. simpl. lia.
Qed.

Lemma used_free_total ns : usedbytes ns + freebytes ns = total ns.
Proof.
  induction ns as [|a r IH]; [done|]. unfold usedbytes, freebytes, total in *. simpl.
  destruct (fr a); lia.
Qed.

Lemma usedbytes_bounds ns : Forall good_len ns → 0 ≤ usedbytes ns ∧ 0 ≤ freebytes ns.
Proof.
  induction 1 as [|a r [? _] Hr IH]; [simpl; lia|]. unfold usedbytes, freebytes in *. simpl.
  destruct (fr a); lia.
Qed.

Lemma total_mod ns : Forall good_len ns → total ns `mod` 16 = 0.
Proof.
  induction 1 as [|a r (_ & Hm & _) Hr IH]; [done|]. unfold total in *. simpl.
  rewrite Z.add_mod, Hm, IH by lia. done.
Qed.

Lemma ixs_length ns : NoDup (ixs ns) → (∀ i, i ∈ ixs ns → (i < 64)%nat) → (List.length ns ≤ 64)%nat.
Proof.
  intros Hd Hlt. rewrite <- (length_fmap ix). rewrite <- (length_seq 64 0).
  apply NoDup_incl_length; [by apply NoDup_ListNoDup|].
  intros i Hi. apply in_seq. apply list_elem_of_In in Hi. specialize (Hlt i Hi). lia.
Qed.

Lemma ixs_full ns : (∀ i, (i < 64)%nat → i ∈ ixs ns) → (64 ≤ List.length ns)%nat.
Proof.
  intros Hall. rewrite <- (length_fmap ix ns). rewrite <- (length_seq 64 0) at 1.
  apply NoDup_incl_length; [apply List.seq_NoDup|]. intros i Hi. apply in_seq in Hi.
  apply list_elem_of_In, Hall. lia.
Qed.

Lemma inv_length h ns : heap_inv h ns → (List.length ns ≤ 64)%nat.
Proof. intros [[_ _ H _ Hp] _ _ _ _ _]. apply ixs_length; [done|apply Hp]. Qed.

Section Walks.
Context (h : MemoryMgr) (ns : list node) (Hinv : heap_inv h ns).

Lemma walk_first_Ok stop s : (∀ x a, stop x a = s (length x) (free x) a) →
  (∃ pre cur post, ns = pre ++ cur :: post ∧
     walk_first h stop = Ok (Some (ix cur), last_or (first h) pre, heap_base h + total pre) ∧
     s (len cur) (fr cur) (heap_base h + total pre) = true ∧
     ∀ pre' a post', pre = pre' ++ a :: post' →
       s (len a) (fr a) (heap_base h + total pre') = false) ∨
  (walk_first h stop = Ok (None, last_or (first h) ns, heap_base h + total ns) ∧
     ∀ pre' a post', ns = pre' ++ a :: post' →
       s (len a) (fr a) (heap_base h + total pre') = false).
Proof using Hinv.
  intros Hs. unfold walk_first. pose proof (inv_shape _ _ Hinv) as Hsh.
  rewrite !(sh_first _ _ Hsh).
  pose proof (inv_length _ _ Hinv). pose proof (inv_range _ _ Hinv).
  eapply walk_Ok; [exact Hs|apply Hsh|rewrite (sh_links _ _ Hsh); lia|lia|lia|].
  apply good_pos, Hinv.
Qed.

Lemma prefix_unique pre cur post pre' cur' post' :
  ns = pre ++ cur :: post → ns = pre' ++ cur' :: post' → total pre = total pre' →
  pre = pre' ∧ cur = cur' ∧ post = post'.
Proof using Hinv.
  pose proof (good_pos _ (inv_len _ _ Hinv)) as Hp. clear Hinv. revert ns Hp pre'.
  induction pre as [|a pre IH]; intros ns0 Hp pre' -> E Ht.
  - destruct pre' as [|b pre']; simpl in E; simplify_eq; [done|].
    exfalso. apply Forall_cons in Hp as [Hb Hp]. simpl in Ht. fold (total pre') in Ht.
    assert (0 ≤ total pre'); [|lia]. apply Forall_app in Hp as [Hp _].
    clear -Hp. induction Hp; [simpl; lia|]. unfold total in *. simpl. lia.
  - simpl in Hp. apply Forall_cons in Hp as [Ha Hp]. destruct pre' as [|b pre'].
    + exfalso. simpl in Ht. fold (total pre) in Ht.
      assert (0 ≤ total pre); [|lia]. apply Forall_app in Hp as [Hp _].
      clear -Hp. induction Hp; [simpl; lia|]. unfold total in *. simpl. lia.
    + simpl in E. injection E as <- E. simpl in Ht. fold (total pre) (total pre') in Ht.
      destruct (IH _ Hp pre' eq_refl E) as (-> & -> & ->); [lia|done].
Qed.

(** Looking up the address of a block finds that block. *)
Lemma find_addr_Ok pre cur post : ns = pre ++ cur :: post →
  find_addr h (heap_base h + total pre) =
    Ok (Some (ix cur), last_or (first h) pre, heap_base h + total pre).
Proof using Hinv.
  intros E. unfold find_addr.
  destruct (walk_first_Ok (λ _ addr, addr =? heap_base h + total pre)
    (λ _ _ addr, addr =? heap_base h + total pre))
    as [(pre' & cur' & post' & E' & -> & Hs & _)|[_ Hno]]; [done| |].
  - apply Z.eqb_eq in Hs. destruct (prefix_unique _ _ _ _ _ _ E E') as (-> & -> & ->); [lia|done].
  - specialize (Hno _ _ _ E). lia.
Qed.

(** Any other address finds nothing. *)
Lemma find_addr_None p : (∀ pre cur post, ns = pre ++ cur :: post → p ≠ heap_base h + total pre) →
  find_addr h p = Ok (None, last_or (first h) ns, heap_base h + total ns).
Proof using Hinv.
  intros Hp. unfold find_addr.
  destruct (walk_first_Ok (λ _ addr, addr =? p) (λ _ _ addr, addr =? p))
    as [(pre' & cur' & post' & E' & -> & Hs & _)|[-> _]]; [done| |done].
  apply Z.eqb_eq in Hs. by destruct (Hp _ _ _ E').
Qed.

Lemma find_addr_dec p :
  (∃ pre cur post, ns = pre ++ cur :: post ∧ p = heap_base h + total pre) ∨
  (∀ pre cur post, ns = pre ++ cur :: post → p ≠ heap_base h + total pre).
Proof using Hinv.
  destruct (walk_first_Ok (λ _ addr, addr =? p) (λ _ _ addr, addr =? p))
    as [(pre & cur & post & E & _ & Hs & _)|[_ Hno]]; [done|left|right].
  - exists pre, cur, post. split; [done|]. lia.
  - intros pre cur post E. specialize (Hno _ _ _ E). lia.
Qed.
End Walks.

(** ** Steps on the list *)

(** Everything but the links, [first] and the bitmap is unchanged. *)
Definition same (h h' : MemoryMgr) : Prop :=
  capacity h' = capacity h ∧ usedmem h' = usedmem h ∧ freemem h' = freemem h ∧
  heap_base h' = heap_base h ∧ m h' = m h ∧ ram h' = ram h.

Lemma same_refl h : same h h.
Proof. done. Qed.
Lemma same_trans h1 h2 h3 : same h1 h2 → same h2 h3 → same h1 h3.
Proof. unfold same. naive_solver congruence. Qed.
Lemma same_links h ls : same h (with_links h ls).
Proof. done. Qed.

(** Splits the facts about a list with a distinguished block. *)
Lemma nodup_middle pre cur post : NoDup (ixs (pre ++ cur :: post)) →
  NoDup (ixs pre) ∧ NoDup (ixs post) ∧ (ix cur ∉ ixs pre) ∧ (ix cur ∉ ixs post) ∧
  (∀ i, i ∈ ixs pre → i ∉ ixs post).
Proof.
  rewrite fmap_app, fmap_cons, NoDup_app, NoDup_cons. intros (H1 & H2 & H3 & H4).
  split_and!; try done.
  - intros Hin. apply (H2 _ Hin). by constructor.
  - intros i Hi Hi'. apply (H2 _ Hi). by apply elem_of_cons; right.
Qed.

Lemma dseg_middle ls pre cur post : dseg ls None (pre ++ cur :: post) None ↔
  dseg ls None pre (Some (ix cur)) ∧ node_at ls (last_or None pre) cur (hd_or None post) ∧
  dseg ls (Some (ix cur)) post None.
Proof. by rewrite dseg_app. Qed.

Lemma shape_lookup h pre cur post : shape h (pre ++ cur :: post) →
  ∃ x, links h !! ix cur = Some x ∧ prev x = last_or None pre ∧ next x = hd_or None post ∧
    length x = len cur ∧ free x = fr cur.
Proof. intros [Hs _ _ _ _]. apply dseg_middle in Hs as (_ & Hn & _). done. Qed.

(** Changing the payload of a block. *)
Lemma shape_payload h pre cur post x y : shape h (pre ++ cur :: post) →
  links h !! ix cur = Some x → prev y = prev x → next y = next x →
  shape (with_links h (<[ix cur := y]> (links h)))
    (pre ++ Node (ix cur) (length y) (free y) :: post).
Proof.
  intros [Hs Hf Hd Hl Hp] Hx Hpy Hny.
  destruct (nodup_middle _ _ _ Hd) as (D1 & D2 & D3 & D4 & D5).
  apply dseg_middle in Hs as (S1 & (x' & Hx' & P1 & P2 & P3 & P4) & S3).
  rewrite Hx in Hx'. injection Hx' as <-. split; simpl.
  - apply dseg_middle. split_and!; [by apply dseg_insert| |by apply dseg_insert].
    exists y. rewrite list_lookup_insert_eq by (by eapply lookup_lt_Some). simpl.
    split_and!; congruence.
  - rewrite Hf, !hd_or_app. done.
  - by rewrite fmap_app in *.
  - by rewrite length_insert.
  - by rewrite fmap_app in *.
Qed.

(** Lookups in a pool after a few stores. *)
Ltac len_solve :=
  rewrite ?length_insert;
  first [eapply lookup_lt_Some; eassumption
        |match goal with H : _ = Datatypes.length ?l |- (_ < Datatypes.length ?l)%nat =>
           rewrite <- H; len_solve end
        |lia].
Ltac lk := repeat first
  [ rewrite list_lookup_insert_eq by len_solve
  | rewrite list_lookup_insert_ne by congruence ].

Lemma ixs_in (a : node) (ns : list node) : a ∈ ns → ix a ∈ ixs ns.
Proof. apply list_elem_of_fmap_2. Qed.

Lemma ix_ne (a : node) (ns : list node) (i : nat) : i ∉ ixs ns → a ∈ ns → i ≠ ix a.
Proof. intros Hi Ha ->. by apply Hi, ixs_in. Qed.

(** Linking a new block [j] in after [cur], in the order of [allocate_into_free]. *)
Lemma insert_after h pre cur post j z l f : dseg (links h) None (pre ++ cur :: post) None →
  first h = hd_or None (pre ++ cur :: post) → NoDup (ixs (pre ++ cur :: post)) →
  List.length (links h) = 85%nat → pool (bm h) (j :: ixs (pre ++ cur :: post)) →
  (j ∉ ixs (pre ++ cur :: post)) → links h !! j = Some z → ∃ h',
  (h1 ← st h (Some j) (λ y, mkLink (hd_or None post) (Some (ix cur)) (file y) (line y) l f);
   h2 ← st_opt h1 (hd_or None post) (set_prev (Some j));
   st h2 (Some (ix cur)) (set_next (Some j))) = Ok h' ∧
  shape h' (pre ++ cur :: Node j l f :: post) ∧ same h h'.
Proof.
  intros Hs Hf Hd Hl Hp Hj Hz. rewrite (st_Ok _ _ _ _ Hz). cbn.
  destruct (nodup_middle _ _ _ Hd) as (D1 & D2 & D3 & D4 & D5).
  assert ((j ∉ ixs pre) ∧ j ≠ ix cur ∧ (j ∉ ixs post)) as (J1 & J2 & J3).
  { rewrite fmap_app, fmap_cons, elem_of_app, elem_of_cons in Hj. tauto. }
  apply dseg_middle in Hs as (S1 & (x & Hx & P1 & P2 & P3 & P4) & S3).
  set (y := mkLink _ _ _ _ _ _). set (h1 := with_links h _).
  destruct (st_opt_prev h1 (Some (ix cur)) (Some j) post None) as (ls & -> & S4 & Hext & Hlen);
    [by apply dseg_insert|done|done|]. cbn.
  assert (ls !! ix cur = Some x) as Hx' by (rewrite Hext by done; simpl; by lk).
  assert (ls !! j = Some y) as Hj' by (rewrite Hext by done; simpl; by lk).
  rewrite Hx'. cbn. simpl in Hlen. rewrite length_insert in Hlen.
  eexists. split; [done|]. split; [|done]. split; simpl.
  - apply dseg_middle. split_and!.
    + eapply dseg_ext; [|exact S1]. intros a Ha. pose proof (ixs_in _ _ Ha) as Hai.
      assert (ix a ≠ ix cur) by (by intros E; rewrite E in Hai).
      assert (ix a ≠ j) by (by intros E; rewrite E in Hai).
      rewrite list_lookup_insert_ne, Hext by (try congruence; eauto). simpl. by lk.
    + exists (set_next (Some j) x). simpl. lk. done.
    + simpl. split.
      * exists y. simpl. lk. done.
      * by apply dseg_insert.
  - rewrite Hf, !hd_or_app. done.
  - rewrite fmap_app, !fmap_cons in *. simpl. apply NoDup_app. split_and!; [done| |].
    + intros i Hi. rewrite !elem_of_cons. intros [->|[->|Hi']]; [done|done|by eapply D5].
    + rewrite !NoDup_cons. rewrite elem_of_cons. split_and!; [|done|done]. naive_solver.
  - rewrite length_insert. by rewrite Hlen.
  - eapply pool_ext; [|exact Hp]. intros i. rewrite !fmap_app, !fmap_cons. simpl.
    rewrite !elem_of_cons, !elem_of_app, !elem_of_cons. tauto.
Qed.

#[local] Arguments ld : simpl never.
#[local] Arguments st : simpl never.
#[local] Arguments st_opt : simpl never.
#[local] Arguments create_link : simpl never.
#[local] Arguments delete_link : simpl never.

(** The block list after [size] bytes were taken from [cur]. *)
Definition take_block (pre : list node) (cur : node) (post : list node) (size : Z) (j : nat) : list node :=
  pre ++ Node (ix cur) size false ::
    (if len cur =? size then post else Node j (len cur - size) true :: post).

Lemma allocate_into_free_Ok h pre cur post size : shape h (pre ++ cur :: post) →
  fr cur = true → 0 < size ≤ len cur → len cur < 2 ^ 64 →
  (∃ j r h', allocate_into_free h (Some (ix cur)) size 0 = Ok (r, h') ∧
     shape h' (take_block pre cur post size j) ∧ same h h') ∨
  (allocate_into_free h (Some (ix cur)) size 0 = Fatal "Kifogyott a vmm bitmap!" ∧
     List.length (pre ++ cur :: post) = 64%nat ∧ len cur ≠ size).
Proof.
  intros Hsh Hfr Hsz Hlt. destruct (shape_lookup _ _ _ _ Hsh) as (x & Hx & X1 & X2 & X3 & X4).
  unfold allocate_into_free. rewrite (ld_Ok _ _ _ Hx). cbn. rewrite X4, Hfr, (st_Ok _ _ _ _ Hx). cbn. rewrite X3.
  replace (size <=? len cur) with true by lia. cbn.
  rewrite (uN_small 64 (len cur - size)) by (unfold is_uN; lia).
  replace (0 <=? len cur - size) with true by lia. cbn. rewrite Z.sub_0_r, uN_small by (unfold is_uN; lia).
  set (h1 := with_links h _).
  pose proof (shape_payload h pre cur post x (set_free false x) Hsh Hx eq_refl eq_refl) as Hsh1.
  fold h1 in Hsh1. simpl in Hsh1. rewrite X3 in Hsh1.
  assert (links h1 !! ix cur = Some (set_free false x)) as Hx1 by (simpl; by lk).
  unfold take_block. destruct (Z.eqb_spec (len cur - size) 0) as [E|E].
  { left. exists 0%nat, (Some (ix cur)), h1. split; [done|]. split; [|done].
    replace (len cur =? size) with true by lia. by replace size with (len cur) by lia. }
  replace (len cur =? size) with false by lia.
  pose proof (sh_pool _ _ Hsh1) as Hp1. pose proof (sh_links _ _ Hsh1) as Hl1.
  destruct (create_link_Ok h1 _ Hp1 Hl1) as [(j & z & b & -> & Hz & Hj & Hj64 & Hpb)|[-> Hfull]].
  2:{ right. split; [done|]. split; [|lia]. apply Nat.le_antisymm.
      - apply ixs_length; [apply Hsh|apply (sh_pool _ _ Hsh)].
      - apply ixs_full. intros i Hi. specialize (Hfull i Hi). by rewrite fmap_app in *. }
  cbn. assert (j ≠ ix cur) as Hjc.
  { intros ->. apply Hj. rewrite fmap_app, elem_of_app. right. by constructor. }
  set (h2 := with_links (with_bm h1 b) (<[j:=set_where 0 0 z]> (links h1))).
  assert (links h2 !! ix cur = Some (set_free false x)) as Hx2 by (simpl; by lk).
  rewrite (st_Ok h2 _ _ _ Hx2). cbn.
  set (cur' := Node (ix cur) size false).
  set (h3 := with_links h2 _).
  destruct (insert_after h3 pre cur' post j (set_where 0 0 z) (len cur - size) true)
    as (h' & E' & Hsh' & Hsame).
  - pose proof (shape_payload h1 pre (Node (ix cur) (len cur) false) post _
      (set_length size (set_free false x)) Hsh1 Hx1 eq_refl eq_refl) as Hsh2. simpl in Hsh2.
    eapply dseg_ext; [|apply Hsh2]. intros a Ha. simpl.
    assert (ix a ≠ j) as Hne.
    { intros <-. apply Hj. apply ixs_in in Ha. by rewrite fmap_app in *. }
    destruct (decide (ix a = ix cur)) as [E0|]; [rewrite E0|]; by lk.
  - simpl. rewrite (sh_first _ _ Hsh), !hd_or_app. done.
  - pose proof (sh_nodup _ _ Hsh) as Hd. by rewrite fmap_app in *.
  - simpl. rewrite !length_insert. apply Hsh.
  - simpl. by rewrite fmap_app in *.
  - by rewrite fmap_app in *.
  - pose proof (sh_links _ _ Hsh). simpl. by lk.
  - left. exists j. rewrite X2.
    apply bind_Ok in E' as (ha & Ea & E'). apply bind_Ok in E' as (hb & Eb & Ec).
    exists (Some j), h'. split; [|by split; [|eapply same_trans; [|exact Hsame]]].
    change (ix cur') with (ix cur) in *. rewrite Ea. cbn. rewrite Eb. cbn. by rewrite Ec.
Qed.

(** Giving back the link of [b] once [a] and the rest of the list no longer point to it. *)
Lemma shape_unlink h pre a b post ls x : shape h (pre ++ a :: b :: post) →
  dseg ls (Some (ix a)) post None → ls !! ix a = Some x → prev x = last_or None pre →
  next x = hd_or None post → (∀ i, i ∉ ixs post → i ≠ ix a → ls !! i = links h !! i) →
  List.length ls = 85%nat →
  ∃ h', delete_link (with_links h ls) (ix b) = Ok h' ∧
    shape h' (pre ++ Node (ix a) (length x) (free x) :: post) ∧ same h h'.
Proof.
  intros [Hs Hf Hd Hl Hp] Hpost Hx Xp Xn Hext Hlen.
  destruct (nodup_middle _ _ _ Hd) as (D1 & D2 & D3 & D4 & D5).
  apply dseg_middle in Hs as (S1 & _ & [(y & Hy & P1 & _) _]). simpl in P1.
  rewrite fmap_cons in D2, D4. apply NoDup_cons in D2 as [D2 D2'].
  apply not_elem_of_cons in D4 as [D4 D4'].
  assert (ls !! ix b = Some y) as Hy' by (rewrite Hext by (done || congruence); done).
  destruct (delete_link_Ok (with_links h ls) (ix b) y (ixs (pre ++ a :: b :: post))
    (ixs (pre ++ a :: post))) as (z & bb & -> & Hp'); [done|done| |congruence| |].
  { rewrite fmap_app, elem_of_app. right. simpl. by do 2 constructor. }
  { intros i. rewrite !fmap_app, !fmap_cons, !elem_of_app, !elem_of_cons. split.
    - intros Hi. split; [tauto|]. intros ->. destruct Hi as [Hi|[Hi|Hi]]; [|done|done].
      eapply D5; [exact Hi|by constructor].
    - tauto. }
  eexists. split; [done|]. split; [|done]. split; simpl.
  - apply dseg_middle. split_and!.
    + eapply dseg_ext; [|exact S1]. intros c Hc. apply ixs_in in Hc.
      assert (ix c ≠ ix b) by (intros E; eapply D5; [exact Hc|rewrite E; by constructor]).
      rewrite list_lookup_insert_ne by congruence. apply Hext; [|congruence].
      intros Hc'. eapply D5; [exact Hc|by apply elem_of_cons; right].
    + exists x. simpl. lk. done.
    + by apply dseg_insert.
  - rewrite Hf, !hd_or_app. done.
  - rewrite fmap_app in *. apply NoDup_app. split_and!; [done| |by apply NoDup_cons].
    intros i Hi. simpl. rewrite elem_of_cons. intros [->|Hi']; [done|].
    eapply D5; [exact Hi|by apply elem_of_cons; right].
  - by rewrite length_insert.
  - by rewrite fmap_app in *.
Qed.

(** [merge]'s absorption of [b] into [a]. *)
Lemma remove_after h pre a b post L : shape h (pre ++ a :: b :: post) → ∃ h',
  (h1 ← st h (Some (ix a)) (set_length L);
   h2 ← st_opt h1 (hd_or None post) (set_prev (Some (ix a)));
   h3 ← st h2 (Some (ix a)) (set_next (hd_or None post));
   delete_link h3 (ix b)) = Ok h' ∧
  shape h' (pre ++ Node (ix a) L (fr a) :: post) ∧ same h h'.
Proof.
  intros Hsh. pose proof (shape_lookup _ _ _ _ Hsh) as (x & Hx & X1 & X2 & X3 & X4).
  rewrite (st_Ok _ _ _ _ Hx). cbn. set (h1 := with_links h _).
  pose proof (sh_nodup _ _ Hsh) as Hd.
  destruct (nodup_middle _ _ _ Hd) as (D1 & D2 & D3 & D4 & D5).
  rewrite fmap_cons in D2, D4. apply NoDup_cons in D2 as [D2 D2'].
  apply not_elem_of_cons in D4 as [D4 D4'].
  pose proof (sh_seg _ _ Hsh) as Hs. apply dseg_middle in Hs as (S1 & _ & [_ S3]).
  destruct (st_opt_prev h1 (Some (ix b)) (Some (ix a)) post None) as (ls & -> & S4 & Hext & Hlen);
    [by apply dseg_insert|done|done|]. cbn.
  assert (ls !! ix a = Some (set_length L x)) as Hxl by (rewrite Hext by done; simpl; by lk).
  rewrite (st_Ok (with_links h1 ls) _ _ _ Hxl).
  destruct (shape_unlink h pre a b post (<[ix a := set_next (hd_or None post) (set_length L x)]> ls)
    (set_next (hd_or None post) (set_length L x))) as (h' & E & Hsh' & Hsame).
  - done.
  - by apply dseg_insert.
  - by lk.
  - done.
  - done.
  - intros i Hi Hne. rewrite list_lookup_insert_ne, Hext by done. simpl. by lk.
  - rewrite length_insert, Hlen. simpl. rewrite length_insert. apply Hsh.
  - exists h'. cbn. split; [exact E|]. split; [|done]. by rewrite <- X4.
Qed.

(** [try_realloc]'s removal of the exhausted block [b] after [a]. *)
Lemma remove_next h pre a b post : shape h (pre ++ a :: b :: post) → ∃ h',
  (h1 ← st h (Some (ix a)) (set_next (hd_or None post));
   h2 ← st_opt h1 (hd_or None post) (set_prev (Some (ix a)));
   delete_link h2 (ix b)) = Ok h' ∧
  shape h' (pre ++ a :: post) ∧ same h h'.
Proof.
  intros Hsh. pose proof (shape_lookup _ _ _ _ Hsh) as (x & Hx & X1 & X2 & X3 & X4).
  rewrite (st_Ok _ _ _ _ Hx). cbn. set (h1 := with_links h _).
  pose proof (sh_nodup _ _ Hsh) as Hd.
  destruct (nodup_middle _ _ _ Hd) as (D1 & D2 & D3 & D4 & D5).
  rewrite fmap_cons in D2, D4. apply NoDup_cons in D2 as [D2 D2'].
  apply not_elem_of_cons in D4 as [D4 D4'].
  pose proof (sh_seg _ _ Hsh) as Hs. apply dseg_middle in Hs as (S1 & _ & [_ S3]).
  destruct (st_opt_prev h1 (Some (ix b)) (Some (ix a)) post None) as (ls & -> & S4 & Hext & Hlen);
    [by apply dseg_insert|done|done|]. cbn.
  destruct (shape_unlink h pre a b post ls (set_next (hd_or None post) x)) as (h' & E & Hsh' & Hsame);
    try done.
  - rewrite Hext by done. simpl. by lk.
  - intros i Hi Hne. rewrite Hext by done. simpl. by lk.
  - rewrite Hlen. simpl. rewrite length_insert. apply Hsh.
  - exists h'. split; [exact E|]. split; [|done]. simpl in Hsh'.
    rewrite X3, X4 in Hsh'. by destruct a.
Qed.

(** ** [merge] *)

(** The free block [cur] with the block after it absorbed, and what follows. *)
Definition absorb (cur : node) (post : list node) : node * list node :=
  match post with
  | b :: r => if fr b then (Node (ix cur) (len cur + len b) true, r) else (cur, post)
  | [] => (cur, post)
  end.

(** The list with both neighbours of the free block [cur] absorbed. *)
Definition merged (pre : list node) (cur : node) (post : list node) : list node :=
  let '(cur, post) := absorb cur post in
  match last pre with
  | Some a => if fr a then removelast pre ++ Node (ix a) (len a + len cur) true :: post
              else pre ++ cur :: post
  | None => pre ++ cur :: post
  end.

Lemma node_eta a : Node (ix a) (len a) (fr a) = a.
Proof. by destruct a. Qed.

Lemma merge_next_Ok h pre cur post : shape h (pre ++ cur :: post) → fr cur = true →
  0 ≤ len cur → Forall (λ a, 0 < len a) post → len cur + total post < 2 ^ 64 →
  ∃ h', merge_next h (ix cur) = Ok h' ∧
    shape h' (pre ++ (absorb cur post).1 :: (absorb cur post).2) ∧ same h h'.
Proof.
  intros Hsh Hfr Hc Hpos Ht. unfold merge_next.
  destruct (shape_lookup _ _ _ _ Hsh) as (x & Hx & X1 & X2 & X3 & X4).
  rewrite (ld_Ok _ _ _ Hx). cbn. rewrite X2, X3, X4, Hfr.
  destruct post as [|b post]; cbn [hd_or absorb]; [by exists h|].
  assert (shape h ((pre ++ [cur]) ++ b :: post)) as Hsh' by (by rewrite <- app_assoc).
  destruct (shape_lookup _ _ _ _ Hsh') as (y & Hy & Y1 & Y2 & Y3 & Y4).
  rewrite (ld_Ok _ _ _ Hy). cbn. rewrite Y2, Y3, Y4. destruct (fr b); [|by exists h].
  apply Forall_cons in Hpos as [Hb Hpos]. simpl in Ht. fold (total post) in Ht.
  assert (0 ≤ total post) as Htp.
  { clear -Hpos. induction Hpos; [simpl; lia|]. unfold total in *. simpl. lia. }
  rewrite uN_small by (unfold is_uN; lia).
  destruct (remove_after h pre cur b post (len cur + len b) Hsh) as (h' & E & H1 & H2).
  rewrite Hfr in H1. exists h'. split; [exact E|by split].
Qed.

Lemma merge_prev_Ok h pre cur post : shape h (pre ++ cur :: post) → fr cur = true →
  0 ≤ len cur → Forall (λ a, 0 < len a) pre → total pre + len cur < 2 ^ 64 →
  ∃ h', merge_prev h (ix cur) = Ok h' ∧ same h h' ∧
    shape h' (match last pre with
              | Some a => if fr a then removelast pre ++ Node (ix a) (len a + len cur) true :: post
                          else pre ++ cur :: post
              | None => pre ++ cur :: post
              end).
Proof.
  intros Hsh Hfr Hc Hpos Ht. unfold merge_prev.
  destruct (shape_lookup _ _ _ _ Hsh) as (x & Hx & X1 & X2 & X3 & X4).
  rewrite (ld_Ok _ _ _ Hx). cbn. rewrite X1, X2, X3, X4, Hfr.
  destruct pre as [|a pre _] using rev_ind; cbn [last_or foldl]; [by exists h|].
  rewrite last_or_snoc, last_snoc. rewrite <- app_assoc in Hsh. simpl in Hsh.
  destruct (shape_lookup _ _ _ _ Hsh) as (y & Hy & Y1 & Y2 & Y3 & Y4).
  rewrite (ld_Ok _ _ _ Hy). cbn. rewrite Y3, Y4.
  destruct (fr a) eqn:Ea; [|exists h; rewrite <- app_assoc; done].
  apply Forall_app in Hpos as [Hpos [Ha _]%Forall_cons]. rewrite total_app in Ht. simpl in Ht.
  assert (0 ≤ total pre) as Htp.
  { clear -Hpos. induction Hpos; [simpl; lia|]. unfold total in *. simpl. lia. }
  rewrite uN_small by (unfold is_uN; lia). rewrite removelast_last.
  destruct (remove_after h pre a cur post (len a + len cur) Hsh) as (h' & E & H1 & H2).
  rewrite Ea in H1. exists h'. split; [exact E|by split].
Qed.

Lemma merge_Ok h pre cur post : shape h (pre ++ cur :: post) → fr cur = true →
  Forall (λ a, 0 < len a) (pre ++ cur :: post) → total (pre ++ cur :: post) < 2 ^ 64 →
  ∃ h', merge h (ix cur) = Ok h' ∧ shape h' (merged pre cur post) ∧ same h h'.
Proof.
  intros Hsh Hfr Hpos Ht. apply Forall_app in Hpos as [H1 [H2 H3]%Forall_cons].
  rewrite total_app in Ht. simpl in Ht. fold (total post) in Ht.
  assert (∀ l, Forall (λ a, 0 < len a) l → 0 ≤ total l) as Hnn.
  { intros l Hl. induction Hl; [simpl; lia|]. unfold total in *. simpl. lia. }
  pose proof (Hnn _ H1). pose proof (Hnn _ H3).
  destruct (merge_next_Ok h pre cur post) as (h1 & E1 & Hsh1 & S1); try done; try lia.
  unfold merge, merged. rewrite E1. cbn. destruct (absorb cur post) as [c r] eqn:Ea.
  assert (ix c = ix cur ∧ fr c = true ∧ 0 ≤ len c ∧ len c ≤ len cur + total post) as (C1 & C2 & C3 & C4).
  { unfold absorb in Ea. destruct post as [|b post]; simplify_eq; [simpl in *; split_and!; [done|done|lia|lia]|].
    apply Forall_cons in H3 as [Hb H3]. pose proof (Hnn _ H3). simpl. fold (total post).
    destruct (fr b); simplify_eq; simpl; split_and!; (done || lia). }
  simpl in Hsh1. rewrite <- C1.
  destruct (merge_prev_Ok h1 pre c r) as (h2 & E2 & S2 & Hsh2); try done; try lia.
  exists h2. split; [done|]. split; [done|]. by eapply same_trans.
Qed.
