(* ===== verification/HeapSpec.v ===== *)
(** The heap against its specification: a heap is a list of (length, free) blocks; allocation is
    first fit with splitting, freeing marks a block and joins free neighbours.  The theorems
    show that the linked-list code of [Heap] implements these functions, keeps the redzones of
    every live block, and rejects pointers that are not live blocks. *)
From S2P Require Import Prelude Arith Async Bitmap Pmm Mem Heap HeapInv.

#[local] Arguments ld : simpl never.
#[local] Arguments st : simpl never.
#[local] Arguments st_opt : simpl never.
#[local] Arguments walk_first : simpl never.
#[local] Arguments find_addr : simpl never.
#[local] Arguments allocate_into_free : simpl never.
#[local] Arguments merge : simpl never.
#[local] Arguments fill_redzones : simpl never.
#[local] Arguments memset : simpl never.
#[local] Arguments memcpy : simpl never.

(** ** Specification *)

Abbreviation block := (Z * bool)%type.

(** First fit: the offset of the block taken for [n] bytes and the blocks afterwards. *)
Fixpoint fit (bs : list block) (n : Z) : option (Z * list block) :=
  match bs with
  | [] => None
  | (l, f) :: r =>
      if f && (n <=? l)
      then Some (0, (n, false) :: (if l =? n then r else (l - n, true) :: r))
      else '(o, r') ← fit r n; Some (l + o, (l, f) :: r')
  end.

(** Mark the used block at offset [off] free. *)
Fixpoint mark_free (bs : list block) (off : Z) : option (list block) :=
  match bs with
  | [] => None
  | (l, f) :: r =>
      if off =? 0 then (if f then None else Some ((l, true) :: r))
      else r' ← mark_free r (off - l); Some ((l, f) :: r')
  end.

(** Join runs of free blocks. *)
Fixpoint join (bs : list block) : list block :=
  match bs with
  | [] => []
  | (l, f) :: r =>
      match f, join r with
      | true, (l', true) :: r' => (l + l', true) :: r'
      | _, r' => (l, f) :: r'
      end
  end.

(** ** Facts about the specification *)

Lemma join_coalesced bs : coalesced (join bs).
Proof.
  induction bs as [|[l f] r IH]; cbn [join]; [done|].
  destruct f, (join r) as [|[l' f'] r']; try destruct f'; simpl in *; try done; by destruct IH.
Qed.

Lemma join_id bs : coalesced bs → join bs = bs.
Proof.
  induction bs as [|[l f] r IH]; cbn [join coalesced]; [done|]. intros [H1 H2].
  rewrite IH by done. destruct r as [|[l' f'] r']; [by destruct f|].
  simpl in H1. by destruct f, f'.
Qed.

Lemma blocks_app a b : blocks (a ++ b) = blocks a ++ blocks b.
Proof. apply map_app. Qed.

Lemma coalesced_app a b : coalesced (a ++ b) → coalesced a ∧ coalesced b.
Proof.
  induction a as [|x a IH]; [done|]. simpl. intros [H1 H2]. destruct (IH H2) as [H3 H4].
  split; [|done]. split; [|done]. by destruct a.
Qed.

Lemma fit_app pre l f post n : Forall (λ b, b.2 && (n <=? b.1) = false) pre →
  f && (n <=? l) = true →
  fit (pre ++ (l, f) :: post) n = Some (foldr (λ b t, b.1 + t) 0 pre,
    pre ++ (n, false) :: (if l =? n then post else (l - n, true) :: post)).
Proof.
  intros Hp Hf. induction pre as [|[l' f'] pre IH]; cbn [fit app foldr]; [by rewrite Hf|].
  apply Forall_cons in Hp as [H1 H2]. simpl in H1. rewrite H1, IH by done. done.
Qed.

Lemma fit_none bs n : Forall (λ b, b.2 && (n <=? b.1) = false) bs → fit bs n = None.
Proof.
  induction 1 as [|[l f] r H1 H2 IH]; cbn [fit]; [done|]. simpl in H1. by rewrite H1, IH.
Qed.

Lemma total_blocks ns : foldr (λ b t, b.1 + t) 0 (blocks ns) = total ns.
Proof. induction ns as [|a r IH]; [done|]. unfold total in *. simpl. by rewrite IH. Qed.

Lemma merged_join pre cur post : fr cur = true → coalesced (blocks pre) → coalesced (blocks post) →
  blocks (merged pre cur post) = join (blocks (pre ++ cur :: post)).
Proof.
  intros Hfr Hpre Hpost.
  assert (blocks ((absorb cur post).1 :: (absorb cur post).2) = join (blocks (cur :: post))
    ∧ fr (absorb cur post).1 = true) as [Habs Hfa].
  { cbn [blocks map join]. fold (blocks post). rewrite Hfr, (join_id (blocks post)) by done.
    destruct post as [|b post]; simpl; [by rewrite Hfr|]. destruct (fr b) eqn:Eb; simpl; rewrite ?Hfr, ?Eb; done. }
  remember (join (blocks (cur :: post))) as J eqn:EJ.
  unfold merged. destruct (absorb cur post) as [c r]. simpl in Habs, Hfa.
  induction pre as [|a pre IH]; [simpl app; by rewrite <- EJ|]. destruct pre as [|b pre].
  - cbn [app last]. change (blocks (a :: cur :: post)) with ((len a, fr a) :: blocks (cur :: post)).
    cbn [join]. rewrite <- EJ, <- Habs, Hfa. destruct (fr a) eqn:Ea; simpl; [done|].
    by rewrite Ea, Hfa.
  - cbn [blocks map coalesced] in Hpre. destruct Hpre as [Hab Hpre]. simpl in Hab.
    specialize (IH Hpre). cbn [last]. cbn [last] in IH.
    change (blocks ((a :: b :: pre) ++ cur :: post))
      with ((len a, fr a) :: blocks ((b :: pre) ++ cur :: post)).
    cbn [join]. rewrite <- IH. clear IH.
    match goal with |- context [match ?X with Some _ => _ | None => _ end] => destruct X as [z|] eqn:Ez end.
    + destruct (fr z) eqn:Efz.
      * change (removelast (a :: b :: pre)) with (a :: removelast (b :: pre)).
        destruct pre as [|d pre]; simpl in *; simplify_eq/=.
        -- rewrite Efz in Hab. by destruct (fr a).
        -- by destruct (fr a), (fr b).
      * simpl. by destruct (fr a), (fr b).
    + simpl. by destruct (fr a), (fr b).
Qed.

(** ** Redzones *)

(** The block of [l] bytes at [a] has both its redzones intact. *)
Definition intact (r : mem) (a l : Z) : Prop :=
  ∀ x, a ≤ x < a + 64 ∨ a + l - 64 ≤ x < a + l → r x = VMM_REDZONE_MAGIC.

(** Every live block of a list that starts at [a] is intact. *)
Fixpoint redzones (r : mem) (a : Z) (ns : list node) : Prop :=
  match ns with
  | [] => True
  | n :: ns' => (fr n = false → intact r a (len n)) ∧ redzones r (a + len n) ns'
  end.

Lemma redzones_app r ns1 ns2 : ∀ a,
  redzones r a (ns1 ++ ns2) ↔ redzones r a ns1 ∧ redzones r (a + total ns1) ns2.
Proof.
  induction ns1 as [|n ns1 IH]; intros a; cbn [redzones app total foldr].
  { rewrite Z.add_0_r. tauto. }
  rewrite IH. fold (total ns1). rewrite Z.add_assoc. tauto.
Qed.

(** Redzones only depend on the bytes of the blocks. *)
Lemma redzones_ext r r' ns : ∀ a, Forall good_len ns →
  (∀ x, a ≤ x < a + total ns → r' x = r x) → redzones r a ns → redzones r' a ns.
Proof.
  induction ns as [|n ns IH]; intros a Hg Hx; cbn [redzones]; [done|].
  apply Forall_cons in Hg as [[Hl [_ Hu]] Hg]. pose proof (total_nonneg _ Hg).
  cbn [total foldr] in Hx. fold (total ns) in Hx. intros [H1 H2]. split.
  - intros Hf y Hy. rewrite Hx; [by apply H1|]. specialize (Hu Hf). lia.
  - apply IH; [done| |done]. intros y Hy. apply Hx. lia.
Qed.

Lemma fill_redzones_spec r a n x : 0 ≤ a → 128 ≤ n → a + n < 2 ^ 64 →
  fill_redzones r a n x =
  if bool_decide (a ≤ x < a + 64 ∨ a + n - 64 ≤ x < a + n) then VMM_REDZONE_MAGIC else r x.
Proof.
  intros. unfold fill_redzones, VMM_REDZONE_SIZE, VMM_REDZONE_MAGIC.
  rewrite (uN_small 64 (a + n)), uN_small by (unfold is_uN; lia).
  rewrite !memset_spec by (unfold is_uN; lia).
  repeat case_bool_decide; try done; lia.
Qed.

(** A heap whose live blocks are intact and that nobody holds. *)
Record heap_ok (h : MemoryMgr) (ns : list node) : Prop := {
  ok_inv : heap_inv h ns;
  ok_red : redzones (ram h) (heap_base h) ns;
  ok_lock : m h = 0 }.

Lemma intact_memchk r a l : 128 ≤ l → intact r a l ↔
  memchk r a VMM_REDZONE_MAGIC VMM_REDZONE_SIZE = false ∧
  memchk r (a + l - VMM_REDZONE_SIZE) VMM_REDZONE_MAGIC VMM_REDZONE_SIZE = false.
Proof.
  intros. unfold VMM_REDZONE_SIZE. rewrite !memchk_false by lia. unfold intact. split.
  - intros H1. split; intros x ?; apply H1; lia.
  - intros [H1 H2] x [?|?]; [apply H1|apply H2]; lia.
Qed.

Section Check.
Context (h : MemoryMgr) (ns : list node) (Hinv : heap_inv h ns).
Context (pre post : list node) (cur : node) (Hns : ns = pre ++ cur :: post).

Definition user_ptr : Z := heap_base h + total pre + VMM_REDZONE_SIZE.

Lemma block_bounds : 0 ≤ total pre ∧ good_len cur ∧ 0 ≤ total post ∧
  0 < heap_base h ∧ heap_base h + total pre + len cur + total post < 2 ^ 64.
Proof using Hinv Hns.
  destruct Hinv as [_ Hl (Hr1 & Hr2 & Hr3) _ _ _]. rewrite Hns in *.
  apply Forall_app in Hl as [H1 [H2 H3]%Forall_cons].
  rewrite total_app in Hr3. simpl in Hr3. fold (total post) in Hr3.
  pose proof (total_nonneg _ H1). pose proof (total_nonneg _ H3). split_and!; try done; lia.
Qed.

Lemma user_ptr_back : u64 (user_ptr - VMM_REDZONE_SIZE) = heap_base h + total pre.
Proof using Hinv Hns.
  pose proof block_bounds as (? & (? & _) & ? & ? & ?).
  unfold user_ptr, VMM_REDZONE_SIZE. rewrite uN_small by (unfold is_uN; lia). lia.
Qed.

Lemma find_user : find_addr h (u64 (user_ptr - VMM_REDZONE_SIZE)) =
  Ok (Some (ix cur), last_or (first h) pre, heap_base h + total pre).
Proof using Hinv Hns. rewrite user_ptr_back. by eapply find_addr_Ok. Qed.

(** [check] passes exactly on live, intact blocks. *)
Lemma check_live fuel cb ca : fr cur = false →
  intact (ram h) (heap_base h + total pre) (len cur) → check (S fuel) h user_ptr cb ca = Ok tt.
Proof using Hinv Hns.
  intros Hf Hi. cbn [check]. rewrite find_user. cbn.
  pose proof (inv_shape _ _ Hinv) as Hsh. rewrite Hns in Hsh.
  destruct (shape_lookup _ _ _ _ Hsh) as (x & Hx & X1 & X2 & X3 & X4).
  rewrite (ld_Ok _ _ _ Hx). cbn.
  pose proof block_bounds as (? & (? & _ & Hu) & ? & ? & ?). specialize (Hu Hf).
  rewrite X3, X4, Hf. unfold NPOS. replace (len cur =? 2 ^ 64 - 1) with false by lia.
  unfold VMM_MIN_ALLOC. replace (len cur <? _) with false by (unfold VMM_REDZONE_SIZE; lia).
  rewrite user_ptr_back. apply intact_memchk in Hi as [M1 M2]; [|lia]. rewrite M1. cbn.
  rewrite (uN_small 64 (_ + _ + len cur)), (uN_small 64) by (unfold is_uN, VMM_REDZONE_SIZE; lia).
  by rewrite M2.
Qed.

Lemma check_sound fuel cb ca : check fuel h user_ptr cb ca = Ok tt →
  fr cur = false ∧ intact (ram h) (heap_base h + total pre) (len cur).
Proof using Hinv Hns.
  destruct fuel as [|fuel]; [done|]. cbn [check]. rewrite find_user. cbn.
  pose proof (inv_shape _ _ Hinv) as Hsh. rewrite Hns in Hsh.
  destruct (shape_lookup _ _ _ _ Hsh) as (x & Hx & X1 & X2 & X3 & X4).
  rewrite (ld_Ok _ _ _ Hx). cbn.
  pose proof block_bounds as (? & (? & _ & Hu) & ? & ? & ?).
  rewrite X3, X4. unfold NPOS. replace (len cur =? 2 ^ 64 - 1) with false by lia.
  destruct (fr cur) eqn:Hf; [done|]. specialize (Hu eq_refl).
  unfold VMM_MIN_ALLOC. replace (len cur <? _) with false by (unfold VMM_REDZONE_SIZE; lia).
  rewrite user_ptr_back. intros (u & E1 & E2)%bind_Ok.
  destruct (memchk (ram h) (heap_base h + total pre) _ _) eqn:M1.
  { cbv zeta in E1. repeat (apply bind_Ok in E1 as (? & _ & E1)). done. }
  rewrite (uN_small 64 (_ + _ + len cur)), (uN_small 64 (heap_base h + total pre + len cur - VMM_REDZONE_SIZE)) in E2
    by (unfold is_uN, VMM_REDZONE_SIZE; lia).
  destruct (memchk (ram h) (heap_base h + total pre + len cur - VMM_REDZONE_SIZE) _ _) eqn:M2.
  { cbv zeta in E2. repeat (apply bind_Ok in E2 as (? & _ & E2)). done. }
  split; [done|]. apply intact_memchk; [lia|]. rewrite M1, M2. done.
Qed.
End Check.

Lemma check_ptr h p q fuel cb ca : u64 (p - VMM_REDZONE_SIZE) = u64 (q - VMM_REDZONE_SIZE) →
  check fuel h p cb ca = check fuel h q cb ca.
Proof. intros E. destruct fuel as [|fuel]; [done|]. cbn [check]. by rewrite E. Qed.

Lemma check_invalid h ns p fuel cb ca : heap_inv h ns →
  (∀ pre cur post, ns = pre ++ cur :: post → u64 (p - 64) ≠ heap_base h + total pre) →
  check (S fuel) h p cb ca = Fatal "No such alloc".
Proof.
  intros Hinv Hp. cbn [check]. rewrite (find_addr_None h ns Hinv) by done. done.
Qed.

(** ** Allocation *)

Lemma coalesced_used a n b : coalesced (a ++ (n, false) :: b) ↔ coalesced a ∧ coalesced b.
Proof.
  induction a as [|x a IH]; [destruct b; simpl; tauto|]. cbn [app coalesced]. rewrite IH.
  destruct a as [|y a]; simpl; [rewrite andb_false_r|]; tauto.
Qed.

Lemma coalesced_free a n b : coalesced (a ++ (n, true) :: b) →
  coalesced a ∧ coalesced b ∧ ∀ l, coalesced ((l, true) :: b).
Proof.
  intros H. apply coalesced_app in H as [Ha [Hb Hb']]. done.
Qed.

Lemma take_block_blocks pre cur post n j :
  blocks (take_block pre cur post n j) =
  blocks pre ++ (n, false) :: (if len cur =? n then blocks post else (len cur - n, true) :: blocks post).
Proof. unfold take_block. rewrite blocks_app. simpl. by destruct (len cur =? n). Qed.

Section Take.
Context (pre post : list node) (cur : node) (n : Z) (j : nat).
Context (Hfr : fr cur = true) (Hn : 144 ≤ n ≤ len cur) (Hm : n `mod` 16 = 0).

Lemma take_block_total : total (take_block pre cur post n j) = total (pre ++ cur :: post).
Proof using Hn.
  unfold take_block. rewrite !total_app. simpl. fold (total post).
  destruct (Z.eqb_spec (len cur) n); simpl; fold (total post); lia.
Qed.

Lemma take_block_used : usedbytes (take_block pre cur post n j) =
  usedbytes (pre ++ cur :: post) + n.
Proof using Hn Hfr.
  unfold take_block. rewrite !usedbytes_app. simpl. fold (usedbytes post). rewrite Hfr.
  destruct (Z.eqb_spec (len cur) n); simpl; fold (usedbytes post); lia.
Qed.

Lemma take_block_good : Forall good_len (pre ++ cur :: post) →
  Forall good_len (take_block pre cur post n j).
Proof using Hn Hm.
  intros [H1 [H2 H3]%Forall_cons]%Forall_app. unfold take_block. apply Forall_app.
  split; [done|]. constructor; [split_and!; simpl; [lia|done|lia]|].
  destruct (Z.eqb_spec (len cur) n); [done|]. constructor; [|done]. destruct H2 as (H4 & H5 & _).
  split_and!; simpl; [lia| |done]. rewrite Zminus_mod, H5, Hm. done.
Qed.

Lemma take_block_coalesced : coalesced (blocks (pre ++ cur :: post)) →
  coalesced (blocks (take_block pre cur post n j)).
Proof using Hfr.
  rewrite take_block_blocks, blocks_app. simpl. rewrite Hfr. intros (H1 & H2 & H3)%coalesced_free.
  apply coalesced_used. split; [done|]. by destruct (len cur =? n).
Qed.

Lemma take_block_redzones r a : Forall good_len (pre ++ cur :: post) →
  0 ≤ a → a + total (pre ++ cur :: post) < 2 ^ 64 → redzones r a (pre ++ cur :: post) →
  redzones (fill_redzones r (a + total pre) n) a (take_block pre cur post n j).
Proof using Hn Hfr.
  clear Hm. intros [G1 [(G2 & _) G3]%Forall_cons]%Forall_app Ha Ht [R1 R2]%redzones_app.
  rewrite total_app in Ht. simpl in Ht. fold (total post) in Ht. simpl in R2.
  destruct R2 as [_ R3]. pose proof (total_nonneg _ G1). pose proof (total_nonneg _ G3).
  unfold take_block. apply redzones_app. split; [|split].
  - eapply redzones_ext; [done| |exact R1]. intros x Hx. rewrite fill_redzones_spec by lia.
    by rewrite bool_decide_eq_false_2 by lia.
  - simpl. intros _ x Hx. rewrite fill_redzones_spec by lia. by rewrite bool_decide_eq_true_2.
  - cbn [ix len]. assert (redzones (fill_redzones r (a + total pre) n) (a + total pre + len cur) post)
      as Hpost.
    { eapply redzones_ext; [done| |exact R3]. intros x Hx. rewrite fill_redzones_spec by lia.
      by rewrite bool_decide_eq_false_2 by lia. }
    destruct (Z.eqb_spec (len cur) n) as [<-|]; [done|]. simpl. split; [done|].
    by replace (a + total pre + n + (len cur - n)) with (a + total pre + len cur) by lia.
Qed.
End Take.

(** The size of the block that [size] user bytes take. *)
Definition gross (size : Z) : Z := align64 size VMM_MIN_ALLOC + 128.

Lemma gross_bounds size : 0 < size ≤ 2 ^ 62 →
  144 ≤ gross size ∧ gross size `mod` 16 = 0 ∧ size + 128 ≤ gross size < size + 144 ∧
  u64 (align64 size VMM_MIN_ALLOC + VMM_REDZONE_SIZE * 2) = gross size.
Proof.
  intros. unfold gross, VMM_MIN_ALLOC, VMM_REDZONE_SIZE.
  pose proof (alignN_bounds 64 size 16) as H1. pose proof (alignN_mod 64 size 16) as H2.
  assert ((align64 size 16 + 128) `mod` 16 = 0) as H3.
  { rewrite Z.add_mod, H2 by lia. done. }
  split_and!; [|done|lia|lia|apply uN_small; unfold is_uN; lia].
  pose proof (Z.div_mod (align64 size 16) 16). lia.
Qed.

(** What an allocation leaves behind: the specification's blocks, a sound heap, and every byte
    outside the new block untouched. *)
Definition allocated (h : MemoryMgr) (ns : list node) (off n : Z) (bs : list block)
    (h' : MemoryMgr) : Prop :=
  ∃ ns', heap_inv h' ns' ∧ redzones (ram h') (heap_base h') ns' ∧ blocks ns' = bs ∧
    heap_base h' = heap_base h ∧ m h' = m h ∧
    ∀ x, ram h' x = ram h x ∨
      (heap_base h + off ≤ x < heap_base h + off + n ∧ ram h' x = VMM_REDZONE_MAGIC).

Lemma alloc_nomutex_Ok h ns size fil lin : heap_inv h ns → redzones (ram h) (heap_base h) ns →
  0 < size ≤ 2 ^ 62 →
  match fit (blocks ns) (gross size) with
  | Some (off, bs) =>
      0 ≤ off ∧
      ((∃ h', alloc_nomutex h size fil lin = Ok (heap_base h + off + 64, h') ∧
        allocated h ns off (gross size) bs h') ∨
       (alloc_nomutex h size fil lin = Fatal "Kifogyott a vmm bitmap!" ∧ List.length ns = 64%nat))
  | None => alloc_nomutex h size fil lin = Fault
  end.
Proof.
  intros Hinv Hred Hs. destruct (gross_bounds size Hs) as (G1 & G2 & G3 & G4).
  unfold alloc_nomutex. replace (size =? 0) with false by lia. cbv zeta. rewrite G4.
  set (n := gross size) in *.
  destruct (walk_first_Ok h ns Hinv (λ x _, free x && (n <=? length x)) (λ l f _, f && (n <=? l)))
    as [(pre & cur & post & E & -> & Hstop & Hno)|[-> Hno]]; [done| |].
  2:{ cbn. rewrite fit_none; [done|]. apply Forall_forall. intros b Hb.
      apply list_elem_of_fmap in Hb as (a & -> & Ha). simpl.
      apply list_elem_of_split in Ha as (l1 & l2 & El). by apply (Hno _ _ _ El). }
  rewrite E, blocks_app. cbn [blocks map]. fold (blocks post). rewrite fit_app; [|
    apply Forall_forall; intros b Hb; apply list_elem_of_fmap in Hb as (a & -> & Ha); simpl;
    apply list_elem_of_split in Ha as (l1 & l2 & El); by apply (Hno _ _ _ El)|done].
  rewrite total_blocks. pose proof (block_bounds h ns Hinv pre post cur E) as (B1 & (B2 & _) & B3 & B4 & B5).
  split; [done|].
  apply andb_true_iff in Hstop as [Hfr Hle]. apply Z.leb_le in Hle.
  destruct Hinv as [Hsh Hlen Hrange Hused Hfree Hcoal]. rewrite E in *.
  destruct (allocate_into_free_Ok h pre cur post n Hsh Hfr) as [(j & r & h1 & E1 & Hsh1 & Hsame)|(E1 & Hfull & _)];
    [lia|lia| |]; cbn; rewrite E1; cbn; [left|right; done].
  unfold take_block in Hsh1.
  destruct (shape_lookup _ _ _ _ Hsh1) as (x & Hx & X1 & X2 & X3 & X4). simpl in X3, X4, Hx.
  rewrite (st_Ok _ _ _ _ Hx). cbn. destruct Hsame as (Sc & Su & Sf & Sb & Sm & Sr).
  pose proof (shape_payload _ _ _ _ x (set_where fil lin x) Hsh1 Hx eq_refl eq_refl) as Hsh2.
  simpl in Hsh2. rewrite X3, X4 in Hsh2. fold (take_block pre cur post n j) in Hsh2.
  eexists. split.
  { f_equal. f_equal. unfold VMM_REDZONE_SIZE. apply uN_small. unfold is_uN. lia. }
  exists (take_block pre cur post n j). split; [|split; [|split; [|split; [|split]]]]; simpl;
    rewrite ?Su, ?Sf, ?Sb, ?Sm, ?Sr.
  - pose proof (usedbytes_bounds _ Hlen) as [U1 U2].
    pose proof (used_free_total (pre ++ cur :: post)) as U3.
    pose proof (used_free_total (take_block pre cur post n j)) as U4.
    pose proof (usedbytes_bounds _ (take_block_good pre post cur n j ltac:(lia) G2 Hlen)) as [U5 U6].
    rewrite take_block_total, take_block_used in U4 by (done || lia).
    split; simpl; rewrite ?take_block_total, ?take_block_used, ?Su, ?Sf, ?Sb by (done || lia).
    + destruct Hsh2 as [K1 K2 K3 K4 K5]. split; [exact K1|exact K2|exact K3|exact K4|exact K5].
    + by apply take_block_good.
    + done.
    + rewrite Hused. apply uN_small. unfold is_uN. lia.
    + rewrite Hfree, uN_small by (unfold is_uN; lia). lia.
    + by apply take_block_coalesced.
  - by apply take_block_redzones; [done|lia|done|lia|lia|].
  - by rewrite take_block_blocks.
  - done.
  - done.
  - intros y. rewrite fill_redzones_spec by lia. case_bool_decide; [right; split; [lia|done]|by left].
Qed.

(** ** Freeing *)

(** The invariants as functions of the blocks alone, and that joining keeps them. *)
Definition goodb (b : block) : Prop := 0 < b.1 ∧ b.1 `mod` 16 = 0 ∧ (b.2 = false → 144 ≤ b.1).
Definition sumb (bs : list block) : Z := foldr (λ b t, b.1 + t) 0 bs.
Definition usedb (bs : list block) : Z := foldr (λ (b : block) t, (if b.2 then 0 else b.1) + t) 0 bs.
Fixpoint redz (r : mem) (a : Z) (bs : list block) : Prop :=
  match bs with
  | [] => True
  | b :: bs' => (b.2 = false → intact r a b.1) ∧ redz r (a + b.1) bs'
  end.

Lemma goodb_blocks ns : Forall good_len ns ↔ Forall goodb (blocks ns).
Proof. unfold blocks. rewrite Forall_map. done. Qed.
Lemma usedb_blocks ns : usedb (blocks ns) = usedbytes ns.
Proof. induction ns as [|a r IH]; [done|]. unfold usedbytes, usedb in *. simpl. by rewrite IH. Qed.
Lemma usedb_app a b : usedb (a ++ b) = usedb a + usedb b.
Proof. induction a as [|x a IH]; [done|]. unfold usedb in *. simpl. rewrite IH. lia. Qed.
Lemma redz_blocks r ns : ∀ a, redz r a (blocks ns) ↔ redzones r a ns.
Proof. induction ns as [|n ns IH]; intros a; simpl; [done|]. by rewrite IH. Qed.
Lemma redz_app r b1 b2 : ∀ a, redz r a (b1 ++ b2) ↔ redz r a b1 ∧ redz r (a + sumb b1) b2.
Proof.
  induction b1 as [|n b1 IH]; intros a; simpl.
  { rewrite Z.add_0_r. tauto. }
  rewrite IH. fold (sumb b1). rewrite Z.add_assoc. tauto.
Qed.

Lemma join_sumb bs : sumb (join bs) = sumb bs.
Proof.
  induction bs as [|[l f] r IH]; cbn [join]; [done|]. unfold sumb in *. simpl.
  destruct f, (join r) as [|[l' f'] r']; try destruct f'; simpl in *; lia.
Qed.
Lemma join_usedb bs : usedb (join bs) = usedb bs.
Proof.
  induction bs as [|[l f] r IH]; cbn [join]; [done|]. unfold usedb in *. simpl.
  destruct f, (join r) as [|[l' f'] r']; try destruct f'; simpl in *; lia.
Qed.
Lemma join_good bs : Forall goodb bs → Forall goodb (join bs).
Proof.
  induction 1 as [|[l f] r (H1 & H2 & H3) Hr IH]; cbn [join]; [done|].
  destruct f, (join r) as [|[l' f'] r']; try destruct f'; try (constructor; [by split_and!|done]).
  apply Forall_cons in IH as [(H4 & H5 & _) IH]. constructor; [|done]. simpl in *.
  split_and!; [simpl; lia| |done]. simpl. rewrite Z.add_mod, H2, H5 by lia. done.
Qed.
Lemma join_redz r bs : ∀ a, redz r a bs → redz r a (join bs).
Proof.
  induction bs as [|[l f] bs IH]; intros a; cbn [join]; [done|]. intros [H1 H2%IH].
  destruct f, (join bs) as [|[l' f'] r']; try destruct f'; simpl in *; try done.
  destruct H2 as [_ H2]. split; [done|]. by rewrite Z.add_assoc.
Qed.

Lemma mark_free_app pre l post : Forall (λ b : block, 0 < b.1) pre →
  mark_free (pre ++ (l, false) :: post) (sumb pre) = Some (pre ++ (l, true) :: post).
Proof.
  induction pre as [|[l' f] pre IH]; intros Hp; cbn [mark_free app]; [done|].
  apply Forall_cons in Hp as [H1 H2]. simpl in H1. cbn [sumb foldr]. fold (sumb pre).
  assert (0 ≤ sumb pre) by (clear -H2; unfold sumb; induction H2; simpl; lia).
  simpl. replace (l' + sumb pre =? 0) with false by lia. rewrite Z.add_simpl_l, IH by done. done.
Qed.

(** A marked block comes from a used block at that offset. *)
Lemma mark_free_Some ns : ∀ off bs, mark_free (blocks ns) off = Some bs →
  ∃ pre cur post, ns = pre ++ cur :: post ∧ fr cur = false ∧ off = total pre ∧
    bs = blocks pre ++ (len cur, true) :: blocks post.
Proof.
  induction ns as [|a r IH]; intros off bs; cbn [blocks map mark_free]; [done|]. fold (blocks r).
  destruct (Z.eqb_spec off 0) as [->|Hne].
  - destruct (fr a) eqn:Ef; [done|]. intros [= <-]. exists [], a, r. done.
  - destruct (mark_free (blocks r) (off - len a)) as [bs'|] eqn:E; [|done].
    intros [= <-]. destruct (IH _ _ E) as (pre & cur & post & -> & Hf & Ho & ->).
    exists (a :: pre), cur, post. split_and!; try done. unfold total in *. simpl. lia.
Qed.

Lemma freed_good pre cur post : Forall good_len (pre ++ cur :: post) →
  Forall good_len (pre ++ Node (ix cur) (len cur) true :: post).
Proof.
  intros Hlen. apply Forall_app in Hlen as [L1 [(L21 & L22 & _) L3]%Forall_cons]. apply Forall_app. split; [done|].
  constructor; [|done]. by split_and!.
Qed.

(** The list after [cur] is marked free and merged with its neighbours. *)
Lemma freed_merged pre cur post : Forall good_len (pre ++ cur :: post) → fr cur = false →
  coalesced (blocks (pre ++ cur :: post)) →
  let ns := merged pre (Node (ix cur) (len cur) true) post in
  blocks ns = join (blocks pre ++ (len cur, true) :: blocks post) ∧ Forall good_len ns ∧
  total ns = total (pre ++ cur :: post) ∧ usedbytes ns = usedbytes (pre ++ cur :: post) - len cur.
Proof.
  intros Hlen Hfr Hcoal ns. set (cur' := Node (ix cur) (len cur) true) in ns.
  rewrite blocks_app in Hcoal. simpl in Hcoal. rewrite Hfr in Hcoal. apply coalesced_used in Hcoal as [C1 C2].
  assert (blocks ns = join (blocks pre ++ (len cur, true) :: blocks post)) as Eb.
  { unfold ns. rewrite merged_join by done. by rewrite blocks_app. }
  pose proof (freed_good pre cur post Hlen) as Hg. fold cur' in Hg.
  split_and!; [exact Eb|..].
  - apply goodb_blocks. rewrite Eb. apply join_good.
    change ((len cur, true) :: blocks post) with (blocks (cur' :: post)). rewrite <- blocks_app. by apply goodb_blocks.
  - assert (total (pre ++ cur :: post) = total (pre ++ cur' :: post)) as -> by (by rewrite !total_app).
    rewrite <- (total_blocks ns), Eb. fold (sumb (join (blocks pre ++ (len cur, true) :: blocks post))).
    rewrite join_sumb. unfold sumb. change ((len cur, true) :: blocks post) with (blocks (cur' :: post)).
    by rewrite <- blocks_app, total_blocks.
  - rewrite <- !usedb_blocks, Eb, join_usedb, blocks_app, !usedb_app. simpl. rewrite Hfr. fold (usedb (blocks post)). lia.
Qed.

Lemma free_nomutex_Ok h pre cur post : heap_inv h (pre ++ cur :: post) →
  redzones (ram h) (heap_base h) (pre ++ cur :: post) → fr cur = false →
  ∃ h' ns', free_nomutex h (user_ptr h pre) = Ok h' ∧ heap_inv h' ns' ∧
    redzones (ram h') (heap_base h') ns' ∧
    blocks ns' = join (blocks pre ++ (len cur, true) :: blocks post) ∧
    heap_base h' = heap_base h ∧ m h' = m h ∧ ram h' = ram h.
Proof.
  intros Hinv Hred Hfr. pose proof (block_bounds _ _ Hinv _ _ _ eq_refl) as (B1 & B2 & B3 & B4 & B5).
  unfold free_nomutex. replace (user_ptr h pre =? 0) with false
    by (unfold user_ptr, VMM_REDZONE_SIZE; lia).
  pose proof Hred as Hred'. apply redzones_app in Hred' as [_ [Hi _]].
  unfold check_fuel.
  rewrite (check_live _ _ Hinv _ _ _ eq_refl) by (done || auto). cbn.
  rewrite (find_user _ _ Hinv _ _ _ eq_refl). cbn.
  pose proof (inv_shape _ _ Hinv) as Hsh.
  destruct (shape_lookup _ _ _ _ Hsh) as (x & Hx & X1 & X2 & X3 & X4).
  rewrite (ld_Ok _ _ _ Hx). cbn. rewrite X3. destruct B2 as (B2 & B2' & _).
  unfold NPOS. replace (len cur =? 2 ^ 64 - 1) with false by lia.
  rewrite (st_Ok _ _ _ _ Hx). cbn. set (h1 := with_counts _ _ _).
  assert (links h1 !! ix cur = Some (set_where 0 0 x)) as Hx1 by (simpl; by lk).
  rewrite (st_Ok h1 _ _ _ Hx1). cbn. set (h2 := with_links h1 _).
  set (cur' := Node (ix cur) (len cur) true).
  assert (shape h2 (pre ++ cur' :: post)) as Hsh2.
  { pose proof (shape_payload _ _ _ _ x (set_where 0 0 x) Hsh Hx eq_refl eq_refl) as K.
    simpl in K. rewrite X3, X4 in K. rewrite (node_eta cur) in K.
    pose proof (shape_payload _ _ _ _ (set_where 0 0 x) (set_free true (set_where 0 0 x)) K
      ltac:(simpl; by lk) eq_refl eq_refl) as K2. simpl in K2. rewrite X3 in K2.
    destruct K2 as [K21 K22 K23 K24 K25]. by split. }
  destruct Hinv as [_ Hlen Hrange Hused Hfree Hcoal].
  destruct (freed_merged pre cur post Hlen Hfr Hcoal) as (Eb & Gm & Et & Eu). fold cur' in Eb, Gm, Et, Eu.
  assert (total (pre ++ cur' :: post) = total (pre ++ cur :: post)) as Ht by (by rewrite !total_app).
  pose proof (freed_good pre cur post Hlen) as Hg. fold cur' in Hg.
  destruct (merge_Ok h2 pre cur' post Hsh2 eq_refl (good_pos _ Hg)) as (h3 & E3 & Hsh3 & Hs3); [lia|].
  change (ix cur') with (ix cur) in E3. exists h3, (merged pre cur' post).
  destruct Hs3 as (Sc & Su & Sf & Sb & Sm & Sr). simpl in Sc, Su, Sf, Sb, Sm, Sr.
  pose proof (usedbytes_bounds _ Hlen) as [U1 U2]. pose proof (usedbytes_bounds _ Gm) as [U3 U4].
  pose proof (used_free_total (pre ++ cur :: post)) as U5.
  pose proof (used_free_total (merged pre cur' post)) as U6.
  split_and!; [exact E3| | |exact Eb|done|done|done].
  - split; rewrite ?Su, ?Sf, ?Sb, ?Et, ?Eu; try done.
    + rewrite Hused, uN_small by (unfold is_uN; lia). done.
    + rewrite Hfree, uN_small by (unfold is_uN; lia). lia.
    + rewrite Eb. apply join_coalesced.
  - rewrite Sr, Sb. apply redz_blocks. rewrite Eb. apply join_redz, redz_app.
    apply redz_blocks in Hred. rewrite blocks_app in Hred. apply redz_app in Hred as [R1 [_ R2]].
    by split; [|split].
Qed.

(** Running a body under the lock. *)
Lemma guarded_Ok {A} h (body : MemoryMgr → res (A * MemoryMgr)) a h' : m h = 0 →
  body (with_m h 1) = Ok (a, h') → guarded h body = Ok (a, with_m h' 0).
Proof. intros Hm E. unfold guarded. rewrite Hm. cbn. rewrite E. done. Qed.

Lemma guarded_Fatal {A} h (body : MemoryMgr → res (A * MemoryMgr)) msg : m h = 0 →
  body (with_m h 1) = Fatal msg → guarded h body = Fatal msg.
Proof. intros Hm E. unfold guarded. rewrite Hm. cbn. by rewrite E. Qed.

Lemma with_m_inv h v ns : heap_inv h ns → heap_inv (with_m h v) ns.
Proof. intros [[] ? ? ? ? ?]. split; [by split|done..]. Qed.

Lemma sum_app a b : sumb (a ++ b) = sumb a + sumb b.
Proof. induction a as [|x a IH]; [done|]. unfold sumb in *. simpl. rewrite IH. lia. Qed.

(** What first fit does, seen from the block it takes. *)
Lemma fit_Some bs : ∀ n off bs', fit bs n = Some (off, bs') →
  ∃ pre l post, bs = pre ++ (l, true) :: post ∧ n ≤ l ∧ off = sumb pre ∧
    bs' = pre ++ (n, false) :: (if l =? n then post else (l - n, true) :: post).
Proof.
  induction bs as [|[l f] r IH]; intros n off bs'; cbn [fit]; [done|].
  destruct (f && (n <=? l)) eqn:E.
  - intros [= <- <-]. apply andb_true_iff in E as [-> E]. exists [], l, r.
    split_and!; [done|lia|done|done].
  - destruct (fit r n) as [[o r']|] eqn:Ef; [|done]. intros [= <- <-].
    destruct (IH _ _ _ Ef) as (pre & l' & post & -> & Hle & -> & ->).
    exists ((l, f) :: pre), l', post. split_and!; done.
Qed.

(** Freeing what was just taken restores the blocks. *)
Lemma fit_mark_join bs n off bs' : coalesced bs → Forall goodb bs → 0 < n →
  fit bs n = Some (off, bs') → ∃ bs1, mark_free bs' off = Some bs1 ∧ join bs1 = bs.
Proof.
  intros Hc Hg Hn (pre & l & post & -> & Hle & -> & ->)%fit_Some. eexists. split.
  - apply mark_free_app. apply Forall_app in Hg as [Hg _].
    eapply Forall_impl; [exact Hg|]. by intros b [? _].
  - rewrite <- (join_id (pre ++ (l, true) :: post)) by done.
    assert (join ((n, true) :: (if l =? n then post else (l - n, true) :: post))
      = join ((l, true) :: post)) as E.
    { apply coalesced_app in Hc as [_ Hc]. destruct (Z.eqb_spec l n) as [->|Hne]; [done|].
      cbn [join]. destruct Hc as [Hh Hc]. rewrite (join_id post) by done.
      destruct post as [|[l' f'] post]; [do 2 f_equal; lia|]. destruct f'; [done|].
      do 2 f_equal. lia. }
    clear Hc Hg. induction pre as [|[l' f] pre IH]; [exact E|]. cbn [app join]. by rewrite IH.
Qed.

(** ** Properties *)

(** C1: [alloc] implements first fit. On a sound heap, with [n] the rounded size plus two
    redzones: if the specification finds a block, the code returns the address just past its
    front redzone, the block list becomes the specification's (the block split when larger),
    the heap stays sound (list, pool, counters, redzones of all live blocks, lock released) and
    no byte outside the new block changes, unless the pool's 64 links are exhausted, which is
    the fatal error; if no free block fits, the code dereferences a null link. *)
Theorem alloc_first_fit h ns size fil lin : heap_ok h ns → 0 < size ≤ 2 ^ 62 →
  match fit (blocks ns) (gross size) with
  | Some (off, bs) =>
      (∃ h' ns', alloc h size fil lin = Ok (heap_base h + off + 64, h') ∧ heap_ok h' ns' ∧
         blocks ns' = bs ∧ heap_base h' = heap_base h ∧
         ∀ x, ¬ (heap_base h + off ≤ x < heap_base h + off + gross size) → ram h' x = ram h x) ∨
      (alloc h size fil lin = Fatal "Kifogyott a vmm bitmap!" ∧ List.length ns = 64%nat)
  | None => alloc h size fil lin = Fault
  end.
Proof.
  intros [Hinv Hred Hm] Hs. pose proof (alloc_nomutex_Ok (with_m h 1) ns size fil lin
    (with_m_inv _ _ _ Hinv) Hred Hs) as H. unfold alloc.
  destruct (fit (blocks ns) (gross size)) as [[off bs]|].
  - destruct H as [_ [(h' & E & ns' & Hi & Hr & Hb & Hh & Hl & Hx)|[E Hfull]]]; [left|right].
    + rewrite (guarded_Ok h _ _ h' Hm E). eexists _, ns'. split; [done|].
      split; [by split; [apply with_m_inv|..]|]. split_and!; try done.
      intros x Hx'. destruct (Hx x) as [?|[? _]]; done.
    + by rewrite (guarded_Fatal h _ _ Hm E).
  - unfold guarded. rewrite Hm. cbn. by rewrite H.
Qed.

(** C2: [free] of a live block implements mark-and-join: the block list becomes the
    specification's, with no two neighbouring free blocks, the heap stays sound, the lock is
    released and no byte of memory changes. *)
Theorem free_joins h ns off bs : heap_ok h ns → mark_free (blocks ns) off = Some bs →
  ∃ h' ns', free_ h (heap_base h + off + 64) = Ok h' ∧ heap_ok h' ns' ∧ blocks ns' = join bs ∧
    heap_base h' = heap_base h ∧ ram h' = ram h.
Proof.
  intros [Hinv Hred Hm] (pre & cur & post & -> & Hf & -> & ->)%mark_free_Some.
  destruct (free_nomutex_Ok (with_m h 1) pre cur post (with_m_inv _ _ _ Hinv) Hred Hf)
    as (h' & ns' & E & Hi & Hr & Hb & Hh & Hl & Hx).
  unfold user_ptr in E. simpl in E. change VMM_REDZONE_SIZE with 64 in E.
  unfold free_. erewrite guarded_Ok; [|exact Hm|rewrite E; reflexivity]. cbn.
  eexists _, ns'. split; [done|]. split; [by split; [apply with_m_inv|..]|]. done.
Qed.

(** C3: [free] is safe against bad pointers and overruns: a call that returns, with a non-null
    pointer, was given the pointer of a live block whose two redzones are intact. Any other
    pointer (never allocated, inside a block, already freed) or a damaged redzone stops the
    kernel instead. *)
Theorem free_sound h ns p h' : heap_inv h ns → m h = 0 → 0 < p < 2 ^ 64 → free_ h p = Ok h' →
  ∃ pre cur post, ns = pre ++ cur :: post ∧ fr cur = false ∧
    p = u64 (heap_base h + total pre + 64) ∧ intact (ram h) (heap_base h + total pre) (len cur).
Proof.
  intros Hinv Hm Hp E. unfold free_, guarded in E. rewrite Hm in E. cbn in E.
  apply bind_Ok in E as ([[] h1] & E & _). apply bind_Ok in E as ([[] h2] & E & _).
  apply bind_Ok in E as (h3 & E & _). unfold free_nomutex in E.
  replace (p =? 0) with false in E by lia. apply bind_Ok in E as ([] & E & _).
  set (hl := with_m h 1) in *. assert (heap_inv hl ns) as Hinv' by (by apply with_m_inv).
  destruct (find_addr_dec hl ns Hinv' (u64 (p - 64))) as [(pre & cur & post & Hns & Ha)|Hno].
  2:{ unfold check_fuel in E. by rewrite (check_invalid hl ns p _ _ _ Hinv' Hno) in E. }
  rewrite (check_ptr _ _ (user_ptr hl pre)) in E
    by (by rewrite (user_ptr_back _ _ Hinv' _ _ _ Hns)).
  apply (check_sound hl ns Hinv' pre post cur Hns) in E as [Hf Hi].
  exists pre, cur, post. split_and!; [done|done| |done].
  change (heap_base h) with (heap_base hl). rewrite <- Ha, uN_add_l.
  rewrite uN_small; [lia|unfold is_uN; lia].
Qed.

(** C4: [free] undoes [alloc]: freeing the pointer just obtained succeeds and gives back the
    block list there was before, whatever was split. *)
Theorem alloc_free_roundtrip h ns size fil lin p h1 : heap_ok h ns → 0 < size ≤ 2 ^ 62 →
  alloc h size fil lin = Ok (p, h1) →
  ∃ h2 ns2, free_ h1 p = Ok h2 ∧ heap_ok h2 ns2 ∧ blocks ns2 = blocks ns.
Proof.
  intros [Hinv Hred Hm] Hs E.
  pose proof (alloc_nomutex_Ok (with_m h 1) ns size fil lin (with_m_inv _ _ _ Hinv) Hred Hs) as H.
  destruct (gross_bounds size Hs) as (G1 & G2 & G3 & G4).
  unfold alloc, guarded in E. rewrite Hm in E. cbn in E.
  destruct (fit (blocks ns) (gross size)) as [[off bs]|] eqn:Ef; [|by rewrite H in E].
  destruct H as [_ [(h' & E' & ns' & Hi & Hr & Hb & Hh & Hl & Hx)|[E' _]]]; rewrite E' in E; [|done].
  cbn in E. injection E as <- <-.
  destruct (fit_mark_join (blocks ns) (gross size) off bs) as (bs1 & Hmark & Hj);
    [apply Hinv|apply goodb_blocks, Hinv|lia|done|].
  rewrite <- Hb in Hmark. apply mark_free_Some in Hmark as (pre & cur & post & -> & Hf & -> & ->).
  destruct (free_nomutex_Ok (with_m h' 1) pre cur post (with_m_inv _ _ _ Hi) Hr Hf)
    as (h2 & ns2 & E2 & Hi2 & Hr2 & Hb2 & Hh2 & Hl2 & Hx2).
  unfold user_ptr in E2. simpl in E2, Hh. rewrite Hh in E2. change VMM_REDZONE_SIZE with 64 in E2.
  unfold free_. change (unlock (m h')) with 0. erewrite (guarded_Ok (with_m h' 0) _ tt h2); [|done|
    change (with_m (with_m h' 0) 1) with (with_m h' 1); rewrite E2; reflexivity].
  eexists _, ns2. split; [done|]. split; [by split; [apply with_m_inv|..]|]. by rewrite Hb2.
Qed.

(** ** Witness heaps *)

Definition no_link : link_t := mkLink None None 0 0 0 false.

(** One free block of 4 KiB. *)
Definition heap0 : MemoryMgr :=
  mkMgr (mkLink None None 1 21 4096 true :: replicate 84 no_link) (Some 0%nat)
    (mkBitmap [1] 64) 85 0 4096 0x10000 0 (λ _, 0).

(** A live block of 176 bytes (48 for the user), then a free one. *)
Definition heap1 : MemoryMgr :=
  mkMgr (mkLink (Some 1%nat) None 1 7 176 false :: mkLink None (Some 0%nat) 0 0 3920 true
         :: replicate 83 no_link) (Some 0%nat)
    (mkBitmap [3] 64) 85 176 3920 0x10000 0 (fill_redzones (λ _, 0) 0x10000 176).

Ltac pool_bits :=
  let i := fresh "i" in let Hi := fresh "Hi" in intros i Hi;
  do 64 (destruct i as [|i]; [vm_compute; reflexivity|]); lia.

Lemma heap0_ok : heap_ok heap0 [Node 0 4096 true].
Proof.
  split; [split|done|done]; simpl; try done; try lia.
  - split; simpl; try done.
    + split; [|done]. eexists. split; [done|]. done.
    + apply NoDup_singleton.
    + split; [split; simpl; [repeat constructor; unfold is_uN; lia|unfold NPOS; lia|lia]
        |done|pool_bits|].
      intros i Hi. apply list_elem_of_singleton in Hi. lia.
  - repeat constructor; simpl; done.
Qed.

Lemma heap1_ok : heap_ok heap1 [Node 0 176 false; Node 1 3920 true].
Proof.
  split; [split| |done]; simpl; try done; try lia.
  - split; simpl; try done.
    + split; [|split; [|done]]; eexists; (split; [done|]); done.
    + apply NoDup_cons. split; [|apply NoDup_singleton]. by intros ?%list_elem_of_singleton.
    + split; [split; simpl; [repeat constructor; unfold is_uN; lia|unfold NPOS; lia|lia]
        |done|pool_bits|].
      intros i [->|Hi]%elem_of_cons; [lia|]. apply list_elem_of_singleton in Hi. lia.
  - repeat constructor; simpl; (done || lia).
  - split; [|done]. intros _ x Hx. rewrite fill_redzones_spec by lia.
    by rewrite bool_decide_eq_true_2.
Qed.

Lemma alloc_first_fit_witness :
  ∃ h' ns', alloc heap0 40 1 7 = Ok (0x10040, h') ∧ heap_ok h' ns' ∧
    blocks ns' = [(176, false); (3920, true)].
Proof.
  pose proof (alloc_first_fit heap0 _ 40 1 7 heap0_ok ltac:(lia)) as H.
  replace (fit (blocks [Node 0 4096 true]) (gross 40))
    with (Some (0, [(176, false); (3920, true)])) in H by (vm_compute; reflexivity).
  destruct H as [(h' & ns' & E & Hok & Hb & _)|[_ Hfull]]; [|discriminate Hfull].
  exists h', ns'. split; [exact E|]. split; [exact Hok|exact Hb].
Defined.

Lemma free_joins_witness :
  ∃ h' ns', free_ heap1 0x10040 = Ok h' ∧ heap_ok h' ns' ∧ blocks ns' = [(4096, true)].
Proof.
  destruct (free_joins heap1 _ 0 [(176, true); (3920, true)] heap1_ok) as (h' & ns' & E & H1 & H2 & _);
    [vm_compute; reflexivity|].
  exists h', ns'. split; [exact E|]. split; [exact H1|exact H2].
Defined.

Lemma free_sound_witness : ∃ h', free_ heap1 0x10040 = Ok h' ∧
  ∃ pre cur post, [Node 0 176 false; Node 1 3920 true] = pre ++ cur :: post ∧ fr cur = false ∧
    0x10040 = u64 (0x10000 + total pre + 64) ∧ intact (ram heap1) (0x10000 + total pre) (len cur).
Proof.
  assert (is_Ok (free_ heap1 0x10040) = true) as H by (vm_compute; reflexivity).
  apply is_Ok_true in H as [h' E]. exists h'. split; [exact E|].
  exact (free_sound heap1 _ 0x10040 _ (ok_inv _ _ heap1_ok) eq_refl ltac:(lia) E).
Defined.

Lemma alloc_free_roundtrip_witness :
  ∃ p h1 h2 ns2, alloc heap0 40 1 7 = Ok (p, h1) ∧ free_ h1 p = Ok h2 ∧ heap_ok h2 ns2 ∧
    blocks ns2 = [(4096, true)].
Proof.
  assert (is_Ok (alloc heap0 40 1 7) = true) as H by (vm_compute; reflexivity).
  apply is_Ok_true in H as [[p h1] Ea].
  destruct (alloc_free_roundtrip heap0 _ 40 1 7 _ _ heap0_ok ltac:(lia) Ea)
    as (h2 & ns2 & E & H1 & H2).
  exists p, h1, h2, ns2. split; [exact Ea|]. split; [exact E|]. split; [exact H1|exact H2].
Defined.
