(* ===== verification/HeapResize.v ===== *)
(** Setting the heap up ([vmm_init]) and resizing blocks ([try_realloc], [realloc]): growing into
    the following free block, moving otherwise, and that the user's bytes survive either way. *)
From S2P Require Import Prelude Arith Async Bitmap Pmm Mem Heap HeapInv HeapSpec.

#[local] Arguments ld : simpl never.
#[local] Arguments st : simpl never.
#[local] Arguments st_opt : simpl never.
#[local] Arguments walk_first : simpl never.
#[local] Arguments find_addr : simpl never.
#[local] Arguments delete_link : simpl never.
#[local] Arguments fill_redzones : simpl never.
#[local] Arguments memset : simpl never.
#[local] Arguments memcpy : simpl never.
#[local] Arguments allocd : simpl never.
#[local] Arguments free_ : simpl never.
#[local] Arguments get_size : simpl never.
#[local] Arguments alloc : simpl never.
#[local] Arguments try_realloc : simpl never.

(** ** Construction *)

Lemma first_link_pool page : Forall is_u64 page → 64 ≤ 64 * zlen page →
  ∃ b b', init page 85 false = Ok b ∧ set b 0 true = Ok b' ∧ pool b' [0%nat].
Proof.
  intros Hp Hl. destruct (init_Ok page 85 false) as (b & -> & Hw & Hs & Hb);
    [done|unfold NPOS; lia|lia|].
  change (align_down 85 64) with 64 in Hs.
  destruct (set_Ok b 0 true) as (b' & E & Hw' & Hs' & _ & Hb'); [done|lia|].
  exists b, b'. split_and!; [done|done|]. split; [done|lia| |].
  - intros i Hi. rewrite Hb', Hb by lia. destruct (Z.eqb_spec 0 (Z.of_nat i)).
    + symmetry. apply bool_decide_eq_true_2, list_elem_of_singleton. lia.
    + symmetry. apply bool_decide_eq_false_2. rewrite list_elem_of_singleton. lia.
  - intros i Hi%list_elem_of_singleton. lia.
Qed.

(** When the page allocator can give two pages, [vmm_init] succeeds and the heap starts
    sound: one free block of all the physical memory then free, at [VMM_HEAP_BASE], the first of
    its 64 links in use. *)
Lemma vmm_init_ok pm page r a1 pm1 a2 pm2 :
  pmm_alloc pm PMM_PAGESIZE = Ok (a1, pm1) → pmm_alloc pm1 PMM_PAGESIZE = Ok (a2, pm2) →
  Forall is_u64 page → zlen page = 512 →
  0 < pmm_freemem pm < 2 ^ 46 → pmm_freemem pm `mod` 16 = 0 →
  ∃ h, vmm_init pm page r = Ok (h, pm2) ∧ heap_ok h [Node 0 (pmm_freemem pm) true] ∧
    heap_base h = VMM_HEAP_BASE ∧ freemem h = pmm_freemem pm ∧ usedmem h = 0.
Proof.
  intros E1 E2 Hp Hl Hf Hm. unfold vmm_init, MemoryMgr_new. rewrite E1. cbn. rewrite E2. cbn.
  destruct (first_link_pool page Hp ltac:(lia)) as (b & b' & Eb & Eb' & Hpool).
  change (PMM_PAGESIZE / sizeof_link_t) with 85. rewrite Eb. cbn. rewrite Eb'. cbn.
  eexists. split; [done|]. split; [|done]. split; [|done|done]. split; simpl; try done; try lia.
  - split; simpl; try done.
    + split; [|done]. eexists. split; [done|]. done.
    + apply NoDup_singleton.
  - repeat constructor; simpl; (done || lia).
  - unfold VMM_HEAP_BASE. split_and!; [lia|done|lia].
Qed.

Definition pmm_boot : pmm := mkPmm (mkBitmap [1; 0] 128) 0 0x7f000 0 0 (VIRTUAL 0x100000) WM_SIZE 0.

Lemma vmm_init_ok_witness : ∃ h pm2, vmm_init pmm_boot (replicate 512 0) (λ _, 0) = Ok (h, pm2) ∧
  heap_ok h [Node 0 0x7f000 true].
Proof.
  assert (is_Ok ('(_, pm1) ← pmm_alloc pmm_boot PMM_PAGESIZE; pmm_alloc pm1 PMM_PAGESIZE) = true) as H
    by (vm_compute; reflexivity).
  apply is_Ok_true in H as [[a2 pm2] H]. apply bind_Ok in H as ([a1 pm1] & E1 & E2).
  destruct (vmm_init_ok pmm_boot (replicate 512 0) (λ _, 0) a1 pm1 a2 pm2 E1 E2)
    as (h & E & Hok & _);
    [|vm_compute; reflexivity|vm_compute; split; reflexivity|vm_compute; reflexivity|].
  - apply Forall_replicate. unfold is_uN. lia.
  - exists h, pm2. split; [exact E|exact Hok].
Defined.

(** ** Growing in place *)

(** [try_realloc] on the blocks: [l] is the block's length, [post] what follows, [n] the new
    length; [None] when it cannot be done in place. *)
Definition grow_blocks (l : Z) (post : list block) (n : Z) : option (list block) :=
  if n <=? l then Some ((l, false) :: post) else
  match post with
  | (l', true) :: r =>
      if l' =? n - l then Some ((n, false) :: r)
      else if n - l <? l' then Some ((n, false) :: (l' - (n - l), true) :: r) else None
  | _ => None
  end.

(** A heap is sound when its list is and its blocks add up to those of a sound heap with [d]
    more bytes in use. *)
Lemma heap_inv_intro h0 ns0 h ns d : heap_inv h0 ns0 → shape h ns → Forall goodb (blocks ns) →
  sumb (blocks ns) = total ns0 → usedb (blocks ns) = usedbytes ns0 + d →
  usedmem h = u64 (usedmem h0 + d) → freemem h = u64 (freemem h0 - d) →
  heap_base h = heap_base h0 → coalesced (blocks ns) → heap_inv h ns.
Proof.
  intros [_ Hl Hr Hu Hf _] Hsh Hg Hs Hd Eu Ef Eb Hc.
  rewrite usedb_blocks in Hd. apply goodb_blocks in Hg. unfold sumb in Hs. rewrite total_blocks in Hs.
  pose proof (usedbytes_bounds _ Hl). pose proof (usedbytes_bounds _ Hg).
  pose proof (used_free_total ns0). pose proof (used_free_total ns).
  split; rewrite ?Eb, ?Hs; try done.
  - rewrite Eu, Hu, uN_small by (unfold is_uN; lia). lia.
  - rewrite Ef, Hf, uN_small by (unfold is_uN; lia). lia.
Qed.

Section Grow.
Context (h : MemoryMgr) (pre post : list node) (cur : node) (fil lin : Z).
Context (Hinv : heap_inv h (pre ++ cur :: post)).
Context (Hred : redzones (ram h) (heap_base h) (pre ++ cur :: post)) (Hfr : fr cur = false).

(** The trailing redzone of a block of [l] bytes is rewritten. *)
Lemma allocd_Ok h1 l post1 : shape h1 (pre ++ Node (ix cur) l false :: post1) → 144 ≤ l →
  0 ≤ total pre → 0 < heap_base h → heap_base h + total pre + l < 2 ^ 64 →
  ∃ h', allocd h1 (Some (ix cur)) (heap_base h + total pre) fil lin = Ok (true, h') ∧
    shape h' (pre ++ Node (ix cur) l false :: post1) ∧ usedmem h' = usedmem h1 ∧
    freemem h' = freemem h1 ∧ heap_base h' = heap_base h1 ∧ m h' = m h1 ∧
    ∀ x, ram h' x = if bool_decide (heap_base h + total pre + l - 64 ≤ x < heap_base h + total pre + l)
                    then VMM_REDZONE_MAGIC else ram h1 x.
Proof using.
  intros Hsh Hl Hp Hb Ht. destruct (shape_lookup _ _ _ _ Hsh) as (x & Hx & X1 & X2 & X3 & X4).
  simpl in Hx, X3, X4. unfold allocd. rewrite (st_Ok _ _ _ _ Hx). cbn.
  erewrite ld_Ok by (simpl; lk; reflexivity). cbn. rewrite X3.
  pose proof (shape_payload _ _ _ _ x (set_where fil lin x) Hsh Hx eq_refl eq_refl) as K.
  simpl in K. rewrite X3, X4 in K.
  eexists. split; [done|]. simpl. split_and!; try done.
  - destruct K as [K1 K2 K3 K4 K5]. split; done.
  - intros y. rewrite (uN_small 64 (_ + l)), uN_small by (unfold is_uN, VMM_REDZONE_SIZE; lia).
    rewrite memset_spec by (unfold is_uN, VMM_REDZONE_MAGIC, VMM_REDZONE_SIZE; lia).
    apply if_decide_ext; [unfold VMM_REDZONE_SIZE; lia|done].
Qed.

(** What growing to [n] bytes promises: the specification's blocks on a sound heap, and the
    user's bytes kept. *)
Definition grown (bs : list block) (h' : MemoryMgr) : Prop :=
  ∃ ns', heap_inv h' ns' ∧ redzones (ram h') (heap_base h') ns' ∧ blocks ns' = blocks pre ++ bs ∧
    heap_base h' = heap_base h ∧ m h' = m h ∧
    ∀ x, heap_base h + total pre ≤ x < heap_base h + total pre + len cur - 64 → ram h' x = ram h x.

Lemma grown_intro h1 h' l post1 d : shape h' (pre ++ Node (ix cur) l false :: post1) →
  len cur ≤ l → l `mod` 16 = 0 → Forall goodb (blocks post1) → coalesced (blocks post1) →
  l + sumb (blocks post1) = len cur + sumb (blocks post) →
  l + usedb (blocks post1) = len cur + usedb (blocks post) + d →
  redzones (ram h) (heap_base h + total pre + l) post1 →
  usedmem h1 = u64 (usedmem h + d) → freemem h1 = u64 (freemem h - d) →
  usedmem h' = usedmem h1 → freemem h' = freemem h1 → heap_base h' = heap_base h → m h' = m h →
  (∀ x, ram h' x = if bool_decide (heap_base h + total pre + l - 64 ≤ x < heap_base h + total pre + l)
                   then VMM_REDZONE_MAGIC else ram h x) →
  grown ((l, false) :: blocks post1) h'.
Proof using Hinv Hred Hfr.
  intros Hsh Hl Hlm Hg Hc Hs Hd Hrp Eu Ef Eu' Ef' Eb Em Hx.
  pose proof (block_bounds _ _ Hinv _ _ _ eq_refl) as (B1 & (B2 & B2' & B2u) & B3 & B4 & B5).
  specialize (B2u Hfr). pose proof (inv_len _ _ Hinv) as Hgl. apply goodb_blocks in Hgl.
  rewrite blocks_app in Hgl. apply Forall_app in Hgl as [Hg1 _].
  pose proof (inv_coalesced _ _ Hinv) as Hcl. rewrite blocks_app in Hcl. simpl in Hcl.
  rewrite Hfr in Hcl. apply coalesced_used in Hcl as [Hc1 _].
  assert (0 ≤ sumb (blocks post1)) as Hs1.
  { unfold sumb. rewrite total_blocks. by apply total_nonneg, goodb_blocks. }
  assert (sumb (blocks post) = total post) as Htp by apply total_blocks.
  apply redzones_app in Hred as [R1 [R2 R3]].
  exists (pre ++ Node (ix cur) l false :: post1). split_and!.
  - eapply (heap_inv_intro h _ _ _ d); [exact Hinv|done|..]; rewrite ?blocks_app; simpl;
      rewrite ?Eu', ?Ef', ?Eu, ?Ef; try done.
    + apply Forall_app. split; [done|]. constructor; [|done]. split_and!; simpl; [lia|done|lia].
    + rewrite sum_app, total_app. simpl. fold (sumb (blocks post1)) (total post).
      unfold sumb at 1. rewrite total_blocks. lia.
    + rewrite usedb_app, usedbytes_app, usedb_blocks. simpl.
      fold (usedb (blocks post1)) (usedbytes post). rewrite Hfr, <- (usedb_blocks post). lia.
    + by apply coalesced_used.
  - rewrite Eb. apply redzones_app. split; [|split].
    + eapply redzones_ext; [by apply goodb_blocks| |exact R1]. intros x Hxr. rewrite Hx.
      by rewrite bool_decide_eq_false_2 by lia.
    + intros _ x Hxr. simpl in Hxr. rewrite Hx. case_bool_decide; [done|]. apply (R2 Hfr). lia.
    + simpl. eapply redzones_ext; [by apply goodb_blocks| |exact Hrp]. intros x Hxr. rewrite Hx.
      by rewrite bool_decide_eq_false_2 by lia.
  - by rewrite blocks_app.
  - done.
  - done.
  - intros x Hxr. rewrite Hx. by rewrite bool_decide_eq_false_2 by lia.
Qed.

(** The two stores that move the boundary between [cur] and the free block [b] after it. *)
Lemma move_boundary b r x y l1 l2 : post = b :: r →
  links h !! ix cur = Some x → links h !! ix b = Some y → fr b = true →
  ∃ h1, (h1 ← st h (Some (ix b)) (set_length l2); st h1 (Some (ix cur)) (set_length l1)) = Ok h1 ∧
    shape h1 (pre ++ Node (ix cur) l1 false :: Node (ix b) l2 true :: r) ∧ same h h1 ∧
    next y = hd_or None r.
Proof using Hinv Hfr.
  clear Hred. intros -> Hx Hy Hb. pose proof (inv_shape _ _ Hinv) as Hsh.
  assert (shape h ((pre ++ [cur]) ++ b :: r)) as Hsh' by (by rewrite <- app_assoc).
  destruct (shape_lookup _ _ _ _ Hsh) as (x' & Hx' & _ & _ & X3 & X4).
  rewrite Hx in Hx'. injection Hx' as <-.
  destruct (shape_lookup _ _ _ _ Hsh') as (y' & Hy' & Y1 & Y2 & Y3 & Y4).
  rewrite Hy in Hy'. injection Hy' as <-.
  assert (ix b ≠ ix cur) as Hne.
  { pose proof (sh_nodup _ _ Hsh) as Hd. apply nodup_middle in Hd as (_ & _ & _ & Hd & _).
    intros E. apply Hd. rewrite <- E. by constructor. }
  rewrite (st_Ok _ _ _ _ Hy). cbn.
  assert (links (with_links h (<[ix b:=set_length l2 y]> (links h))) !! ix cur = Some x) as Hx1
    by (simpl; by lk).
  rewrite (st_Ok _ _ _ _ Hx1). eexists. split; [done|]. split; [|done].
  pose proof (shape_payload _ _ _ _ y (set_length l2 y) Hsh' Hy eq_refl eq_refl) as K.
  simpl in K. rewrite Y4, Hb, <- app_assoc in K. simpl in K.
  pose proof (shape_payload _ _ _ _ x (set_length l1 x) K Hx1 eq_refl eq_refl) as K2.
  simpl in K2. by rewrite X4, Hfr in K2.
Qed.

Lemma grow_in_place n b r : post = b :: r → fr b = true → 144 ≤ n < 2 ^ 63 → n `mod` 16 = 0 →
  len cur < n ≤ len cur + len b →
  ∃ h', grow h (ix cur) (heap_base h + total pre) n fil lin = Ok (true, h') ∧
    grown ((n, false) :: (if len b =? n - len cur then blocks r
                          else (len b - (n - len cur), true) :: blocks r)) h'.
Proof using Hinv Hred Hfr.
  intros Hpost Hb Hn Hnm Hle. pose proof (inv_shape _ _ Hinv) as Hsh.
  pose proof (block_bounds _ _ Hinv _ _ _ eq_refl) as (B1 & (B2 & B2' & _) & B3 & B4 & B5).
  pose proof (inv_len _ _ Hinv) as Hg. apply Forall_app in Hg as [_ [_ Hg]%Forall_cons].
  rewrite Hpost in Hg, B3, B5. apply Forall_cons in Hg as [(G1 & G2 & _) Hg].
  simpl in B3, B5. fold (total r) in B3, B5. pose proof (total_nonneg _ Hg) as Htr.
  destruct (shape_lookup _ _ _ _ Hsh) as (x & Hx & X1 & X2 & X3 & X4).
  assert (shape h ((pre ++ [cur]) ++ b :: r)) as Hsh' by (rewrite <- app_assoc, <- Hpost; done).
  destruct (shape_lookup _ _ _ _ Hsh') as (y & Hy & Y1 & Y2 & Y3 & Y4).
  unfold grow. rewrite (ld_Ok _ _ _ Hx). cbn. rewrite X3, X2. replace (n <=? len cur) with false by lia.
  rewrite Hpost. cbn [hd_or]. rewrite (ld_Ok _ _ _ Hy). cbn. rewrite Y3, Y4, Hb. cbn.
  rewrite (uN_small 64 (n - len cur)) by (unfold is_uN; lia).
  replace (len b <? n - len cur) with false by lia.
  rewrite (uN_small 64 (len b - _)), (uN_small 64 (len cur + _)) by (unfold is_uN; lia).
  replace (len cur + (n - len cur)) with n by lia.
  destruct (move_boundary b r x y n (len b - (n - len cur)) Hpost Hx Hy Hb)
    as (h1 & E1 & Hsh1 & (Sc & Su & Sf & Sb & Sm & Sr) & Hny).
  apply bind_Ok in E1 as (h1' & E0 & E1). rewrite E0. cbn. rewrite E1. cbn. rewrite Hny.
  set (h2 := with_counts h1 _ _).
  assert (shape h2 (pre ++ Node (ix cur) n false :: Node (ix b) (len b - (n - len cur)) true :: r))
    as Hsh2 by (destruct Hsh1 as [K1 K2 K3 K4 K5]; by split).
  pose proof (inv_coalesced _ _ Hinv) as Hcl. rewrite Hpost, blocks_app in Hcl. simpl in Hcl.
  rewrite Hfr, Hb in Hcl. apply coalesced_used in Hcl as [_ Hcr].
  pose proof Hred as Hr. rewrite Hpost in Hr. apply redzones_app in Hr as [_ [_ [_ Hrr]]].
  assert (blocks post = (len b, true) :: blocks r) as Hbp by (rewrite Hpost; simpl; by rewrite Hb).
  destruct (Z.eqb_spec (len b) (n - len cur)) as [Eq|Ne].
  - destruct (remove_next h2 pre (Node (ix cur) n false) _ r Hsh2) as (h3 & E3 & Hsh3 & (Tc & Tu & Tf & Tb & Tm & Tr)).
    simpl in E3. rewrite E3. cbn.
    destruct (allocd_Ok h3 n r Hsh3) as (h' & E' & Hsh4 & Vu & Vf & Vb & Vm & Vx); try lia.
    exists h'. split; [exact E'|].
    eapply (grown_intro h2 h' n r (n - len cur)); try done; simpl in *; try congruence; try lia.
    + by apply goodb_blocks.
    + apply Hcr.
    + rewrite Hbp. simpl. fold (sumb (blocks r)). lia.
    + rewrite Hbp. simpl. fold (usedb (blocks r)). lia.
    + by replace (heap_base h + total pre + n) with (heap_base h + total pre + len cur + len b) by lia.
    + intros z. rewrite Vx. apply if_decide_ext; [done|]. congruence.
  - cbn. destruct (allocd_Ok h2 n _ Hsh2) as (h' & E' & Hsh3 & Vu & Vf & Vb & Vm & Vx); try lia.
    exists h'. split; [exact E'|].
    eapply (grown_intro h2 h' n (Node (ix b) (len b - (n - len cur)) true :: r) (n - len cur));
      try done; simpl in *; try congruence; try lia.
    + constructor; [|by apply goodb_blocks]. split_and!; simpl; [lia| |done].
      rewrite Zminus_mod, G2, (Zminus_mod n), Hnm, B2'. done.
    + rewrite Hbp. simpl. fold (sumb (blocks r)). lia.
    + rewrite Hbp. simpl. fold (usedb (blocks r)). lia.
    + split; [done|]. by replace (heap_base h + total pre + n + (len b - (n - len cur)))
        with (heap_base h + total pre + len cur + len b) by lia.
    + intros z. rewrite Vx. apply if_decide_ext; [done|]. congruence.
Qed.

Lemma grow_Ok n : 144 ≤ n < 2 ^ 63 → n `mod` 16 = 0 →
  match grow_blocks (len cur) (blocks post) n with
  | Some bs => ∃ h', grow h (ix cur) (heap_base h + total pre) n fil lin = Ok (true, h') ∧ grown bs h'
  | None => grow h (ix cur) (heap_base h + total pre) n fil lin = Ok (false, h)
  end.
Proof using Hinv Hred Hfr.
  intros Hn Hnm. unfold grow_blocks. pose proof (inv_shape _ _ Hinv) as Hsh.
  pose proof (block_bounds _ _ Hinv _ _ _ eq_refl) as (B1 & (B2 & B2' & B2u) & B3 & B4 & B5).
  specialize (B2u Hfr).
  destruct (shape_lookup _ _ _ _ Hsh) as (x & Hx & X1 & X2 & X3 & X4).
  destruct (Z.leb_spec n (len cur)) as [Hle|Hgt].
  - destruct (allocd_Ok h (len cur) post) as (h' & E' & Hsh' & Vu & Vf & Vb & Vm & Vx);
      try lia; [by rewrite <- Hfr, node_eta|].
    exists h'. split.
    { unfold grow. rewrite (ld_Ok _ _ _ Hx). cbn. rewrite X3. by replace (n <=? len cur) with true by lia. }
    pose proof (inv_len _ _ Hinv) as Hg. apply Forall_app in Hg as [_ [_ Hg]%Forall_cons].
    pose proof (inv_coalesced _ _ Hinv) as Hcl. rewrite blocks_app in Hcl. simpl in Hcl.
    rewrite Hfr in Hcl. apply coalesced_used in Hcl as [_ Hcr].
    pose proof Hred as Hr. apply redzones_app in Hr as [_ [_ Hrr]].
    pose proof (usedbytes_bounds _ (inv_len _ _ Hinv)) as [U1 U2].
    pose proof (used_free_total (pre ++ cur :: post)) as U3.
    pose proof (inv_range _ _ Hinv) as (_ & _ & Hrg).
    eapply (grown_intro h h' (len cur) post 0); try done; try lia.
    + by apply goodb_blocks.
    + rewrite Z.add_0_r, (inv_used _ _ Hinv). symmetry. apply uN_small. unfold is_uN. lia.
    + rewrite Z.sub_0_r, (inv_free _ _ Hinv). symmetry. apply uN_small. unfold is_uN. lia.
  - assert (post = [] ∨ ∃ b r, post = b :: r) as [Hpost|(b & r & Hpost)]
      by (destruct post; eauto).
    { rewrite Hpost. simpl. unfold grow. rewrite (ld_Ok _ _ _ Hx). cbn.
      rewrite X3, X2, Hpost. by replace (n <=? len cur) with false by lia. }
    assert (shape h ((pre ++ [cur]) ++ b :: r)) as Hsh' by (rewrite <- app_assoc, <- Hpost; done).
    destruct (shape_lookup _ _ _ _ Hsh') as (y & Hy & Y1 & Y2 & Y3 & Y4).
    assert (negb (fr b) || (len b <? n - len cur) = true →
      grow h (ix cur) (heap_base h + total pre) n fil lin = Ok (false, h)) as Hfail.
    { intros Hb. unfold grow. rewrite (ld_Ok _ _ _ Hx). cbn. rewrite X3, X2, Hpost.
      replace (n <=? len cur) with false by lia. cbn [hd_or]. rewrite (ld_Ok _ _ _ Hy). cbn.
      rewrite Y3, Y4, uN_small by (unfold is_uN; lia).
      destruct (fr b); [|done]. simpl in *. by rewrite Hb. }
    rewrite Hpost. cbn [blocks map]. fold (blocks r).
    destruct (fr b) eqn:Hb; [|by apply Hfail].
    destruct (Z.eqb_spec (len b) (n - len cur)) as [Eq|Ne];
      [|destruct (Z.ltb_spec (n - len cur) (len b)); [|apply Hfail; simpl; lia]];
      (destruct (grow_in_place n b r Hpost Hb Hn Hnm) as (h' & E & Hgr); [lia|]);
      exists h'; (split; [exact E|]).
    + by replace (len b =? n - len cur) with true in Hgr by lia.
    + by replace (len b =? n - len cur) with false in Hgr by lia.
Qed.
End Grow.

Lemma ptr_aligned h ns pre cur post : heap_inv h ns → ns = pre ++ cur :: post →
  Z.land (heap_base h + total pre + 64) 15 = 0.
Proof.
  intros Hinv ->. pose proof (inv_range _ _ Hinv) as (_ & Hm & _).
  pose proof (inv_len _ _ Hinv) as [Hg _]%Forall_app. apply total_mod in Hg.
  rewrite (Z.land_ones _ 4) by lia. change (2 ^ 4) with 16.
  rewrite Z.add_mod, (Z.add_mod (heap_base h)), Hm, Hg by lia. done.
Qed.

Lemma with_m_id h : m h = 0 → with_m (with_m h 1) 0 = h.
Proof. destruct h. simpl. by intros ->. Qed.

(** [try_realloc] of a live block, before its lock is considered. *)
Lemma try_realloc_nomutex_Ok h pre cur post newsize fil lin : heap_inv h (pre ++ cur :: post) →
  redzones (ram h) (heap_base h) (pre ++ cur :: post) → fr cur = false → 0 < newsize ≤ 2 ^ 62 →
  match grow_blocks (len cur) (blocks post) (gross newsize) with
  | Some bs => ∃ h', try_realloc_nomutex h (heap_base h + total pre + 64) newsize fil lin = Ok (true, h')
      ∧ grown h pre cur bs h'
  | None => try_realloc_nomutex h (heap_base h + total pre + 64) newsize fil lin = Ok (false, h)
  end.
Proof.
  intros Hinv Hred Hf Hs. destruct (gross_bounds newsize Hs) as (G1 & G2 & G3 & G4).
  pose proof (block_bounds _ _ Hinv _ _ _ eq_refl) as (B1 & (B2 & _) & B3 & B4 & B5).
  unfold try_realloc_nomutex. replace (_ + 64 =? 0) with false by lia.
  rewrite (ptr_aligned _ _ _ _ _ Hinv eq_refl). cbn -[Z.mul].
  change (heap_base h + total pre + 64) with (user_ptr h pre).
  rewrite (find_user _ _ Hinv _ _ _ eq_refl). cbn -[Z.mul].
  rewrite G4, (user_ptr_back _ _ Hinv _ _ _ eq_refl).
  by apply grow_Ok; [..|lia|].
Qed.

(** Growing: [try_realloc] of a live block grows it in place exactly when the specification says so
    (it is large enough already, or the free block after it makes up the difference), moving the
    boundary, removing an exhausted block and writing the new back redzone; the heap stays sound
    and the front of the block, with all the user's bytes, is untouched. Otherwise it returns
    false and changes nothing. *)
Lemma try_realloc_grows h pre cur post newsize fil lin :
  heap_ok h (pre ++ cur :: post) → fr cur = false → 0 < newsize ≤ 2 ^ 62 →
  match grow_blocks (len cur) (blocks post) (gross newsize) with
  | Some bs => ∃ h' ns', try_realloc h (heap_base h + total pre + 64) newsize fil lin = Ok (true, h') ∧
      heap_ok h' ns' ∧ blocks ns' = blocks pre ++ bs ∧ heap_base h' = heap_base h ∧
      ∀ x, heap_base h + total pre ≤ x < heap_base h + total pre + len cur - 64 → ram h' x = ram h x
  | None => try_realloc h (heap_base h + total pre + 64) newsize fil lin = Ok (false, h)
  end.
Proof.
  intros [Hinv Hred Hm] Hf Hs.
  pose proof (try_realloc_nomutex_Ok (with_m h 1) pre cur post newsize fil lin
    (with_m_inv _ _ _ Hinv) Hred Hf Hs) as H. unfold try_realloc.
  destruct (grow_blocks (len cur) (blocks post) (gross newsize)) as [bs|].
  - destruct H as (h' & E & ns' & Hi & Hr & Hb & Hh & Hl & Hx).
    rewrite (guarded_Ok h _ _ h' Hm E). eexists _, ns'. split; [done|].
    split; [by split; [apply with_m_inv|..]|]. done.
  - rewrite (guarded_Ok h _ _ _ Hm H). by rewrite with_m_id.
Qed.

Lemma try_realloc_grows_witness :
  ∃ h' ns', try_realloc heap1 0x10040 100 1 9 = Ok (true, h') ∧ heap_ok h' ns' ∧
    blocks ns' = [(240, false); (3856, true)].
Proof.
  pose proof (try_realloc_grows heap1 [] (Node 0 176 false) [Node 1 3920 true] 100 1 9 heap1_ok
    eq_refl ltac:(lia)) as H.
  replace (grow_blocks (len (Node 0 176 false)) (blocks [Node 1 3920 true]) (gross 100))
    with (Some [(240, false); (3856, true)]) in H by (vm_compute; reflexivity).
  destruct H as (h' & ns' & E & Hok & Hb & _).
  exists h', ns'. split; [exact E|]. split; [exact Hok|exact Hb].
Defined.

(** ** Moving *)

Lemma sumb_blocks ns : sumb (blocks ns) = total ns.
Proof. apply total_blocks. Qed.

Lemma sumb_nonneg bs : Forall goodb bs → 0 ≤ sumb bs.
Proof. induction 1 as [|b r [? _] Hr IH]; [done|]. unfold sumb in *. simpl. lia. Qed.

(** An allocation leaves every live block where it is and does not overlap it. *)
Lemma fit_keeps_used a l b : ∀ n off bs', Forall goodb (a ++ (l, false) :: b) → 0 < n →
  fit (a ++ (l, false) :: b) n = Some (off, bs') →
  ∃ a' b', bs' = a' ++ (l, false) :: b' ∧ sumb a' = sumb a ∧
    (off + n ≤ sumb a ∨ sumb a + l ≤ off).
Proof.
  induction a as [|[l0 f0] a IH]; intros n off bs' Hg Hn; cbn [fit app].
  - simpl. apply Forall_cons in Hg as [_ Hg].
    destruct (fit b n) as [[o r']|] eqn:E; [|done]. intros [= <- <-].
    apply fit_Some in E as (P & l1 & Q & -> & _ & -> & _). apply Forall_app in Hg as [Hg _].
    pose proof (sumb_nonneg _ Hg). exists [], r'. split_and!; [done|done|]. right. unfold sumb in *. simpl. lia.
  - apply Forall_cons in Hg as [_ Hg]. destruct (f0 && (n <=? l0)) eqn:E0.
    + intros [= <- <-]. apply andb_true_iff in E0 as [-> E0].
      pose proof Hg as Hg'. apply Forall_app in Hg' as [Hg' _]. pose proof (sumb_nonneg _ Hg').
      destruct (Z.eqb_spec l0 n) as [->|Hne].
      * exists ((n, false) :: a), b. split_and!; [done|done|]. simpl. fold (sumb a). lia.
      * exists ((n, false) :: (l0 - n, true) :: a), b. simpl. fold (sumb a). split_and!; [done|lia|lia].
    + destruct (fit (a ++ (l, false) :: b) n) as [[o r']|] eqn:E; [|done]. intros [= <- <-].
      destruct (IH _ _ _ Hg Hn E) as (a' & b' & -> & Hs & Hd).
      exists ((l0, f0) :: a'), b'. simpl. fold (sumb a) (sumb a'). split_and!; [done|lia|lia].
Qed.

Lemma blocks_split ns a l f b : blocks ns = a ++ (l, f) :: b →
  ∃ pre cur post, ns = pre ++ cur :: post ∧ blocks pre = a ∧ len cur = l ∧ fr cur = f ∧ blocks post = b.
Proof.
  intros E. apply map_eq_app in E as (pre & rest & -> & Hpre & Hr).
  destruct rest as [|cur post]; [done|]. simpl in Hr. simplify_eq.
  by exists pre, cur, post.
Qed.

(** Writes inside a block's user bytes keep all redzones. *)
Lemma redzones_user r r' a pre cur post : Forall good_len (pre ++ cur :: post) →
  fr cur = false → redzones r a (pre ++ cur :: post) →
  (∀ x, ¬ (a + total pre + 64 ≤ x < a + total pre + len cur - 64) → r' x = r x) →
  redzones r' a (pre ++ cur :: post).
Proof.
  intros [G1 [(G2 & _ & G4) G3]%Forall_cons]%Forall_app Hf [R1 [R2 R3]]%redzones_app Hx.
  specialize (G4 Hf). pose proof (total_nonneg _ G1). pose proof (total_nonneg _ G3).
  apply redzones_app. split; [|split].
  - eapply redzones_ext; [done| |exact R1]. intros x ?. apply Hx. lia.
  - intros _ x Hxr. rewrite Hx; [by apply (R2 Hf)|lia].
  - eapply redzones_ext; [done| |exact R3]. intros x ?. apply Hx. lia.
Qed.

Lemma get_size_Ok h ns pre cur post : heap_inv h ns → ns = pre ++ cur :: post → fr cur = false →
  get_size h (heap_base h + total pre + 64) = Ok (len cur - 128).
Proof.
  intros Hinv Hns Hf. unfold get_size. change (heap_base h + total pre + 64) with (user_ptr h pre).
  rewrite (find_user _ _ Hinv _ _ _ Hns). cbn -[Z.mul].
  pose proof (inv_shape _ _ Hinv) as Hsh. rewrite Hns in Hsh.
  destruct (shape_lookup _ _ _ _ Hsh) as (x & Hx & X1 & X2 & X3 & X4).
  rewrite (ld_Ok _ _ _ Hx). cbn -[Z.mul]. rewrite X3. f_equal.
  pose proof (block_bounds _ _ Hinv _ _ _ Hns) as (B1 & (B2 & _ & Bu) & B3 & B4 & B5).
  specialize (Bu Hf). unfold VMM_REDZONE_SIZE. apply uN_small. unfold is_uN. lia.
Qed.

Lemma with_ram_inv h r ns : heap_inv h ns → heap_inv (with_ram h r) ns.
Proof. intros [[] ? ? ? ? ?]. split; [by split|done..]. Qed.

Lemma grow_blocks_None l post n : grow_blocks l post n = None → l < n.
Proof. unfold grow_blocks. destruct (Z.leb_spec n l); [done|lia]. Qed.

(** A live block of [n] bytes, redzones included, at offset [off]. *)
Definition live_block (bs : list block) (off n : Z) : Prop := ∃ a b, bs = a ++ (n, false) :: b ∧ sumb a = off.

Lemma sumb_cons l f bs : sumb ((l, f) :: bs) = l + sumb bs.
Proof. done. Qed.
Lemma sumb_app a b : sumb (a ++ b) = sumb a + sumb b.
Proof. induction a as [|[l f] a IH]; [done|]. cbn [app]. rewrite !sumb_cons, IH. lia. Qed.
(** Joining free blocks leaves the live ones where they are. *)
Lemma join_keeps_used a l b : live_block (join (a ++ (l, false) :: b)) (sumb a) l.
Proof.
  induction a as [|[l0 f0] a (a' & b' & E & Hs)]; cbn [join app]; [by exists [], (join b)|]. rewrite E, sumb_cons, <- Hs.
  destruct f0; [|by exists ((l0, false) :: a'), b'].
  destruct a' as [|[l1 f1] a']; cbn [app]; [by exists [(l0, true)], b'|].
  destruct f1; [exists ((l0 + l1, true) :: a'), b'|by exists ((l0, true) :: (l1, false) :: a'), b']. split; [done|]. rewrite !sumb_cons. lia.
Qed.
(** Freeing one of two live blocks leaves the other. *)
Lemma other_live P n R a l b : P ++ (n, false) :: R = a ++ (l, false) :: b → sumb a ≠ sumb P →
  live_block (join (a ++ (l, true) :: b)) (sumb P) n.
Proof.
  intros E Hne. apply app_eq_app in E as ([|t T] & [[-> E]|[-> E]]).
  - rewrite app_nil_r in Hne. done.
  - rewrite app_nil_r in Hne. done.
  - injection E as <- ->. rewrite app_comm_cons, app_assoc.
    replace (sumb (a ++ (l, false) :: T)) with (sumb (a ++ (l, true) :: T)) by (rewrite !sumb_app; done). apply join_keeps_used.
  - injection E as <- ->. rewrite <- app_assoc. apply join_keeps_used.
Qed.
(** A block grown in place. *)
Lemma grow_live pre l post n bs : grow_blocks l post n = Some bs → live_block (pre ++ bs) (sumb pre) (Z.max l n).
Proof.
  unfold grow_blocks. destruct (Z.leb_spec n l).
  - intros [= <-]. rewrite Z.max_l by lia. by exists pre, post.
  - destruct post as [|[l' []] r]; [done| |done]. rewrite Z.max_r by lia. destruct (_ =? _); [|destruct (_ <? _); [|done]]; intros [= <-]; by eexists _, _.
Qed.

Section Move.
Context (h : MemoryMgr) (pre post : list node) (cur : node) (newsize fil lin : Z).
Context (Hok : heap_ok h (pre ++ cur :: post)) (Hf : fr cur = false) (Hb : bytes (ram h)).
Context (Hs : 0 < newsize ≤ 2 ^ 62) (Hlt : len cur < gross newsize).

(** The tail of [realloc] after a successful [alloc]: copy, then free the old block. *)
Lemma move_Ok off bs h1 : fit (blocks (pre ++ cur :: post)) (gross newsize) = Some (off, bs) →
  allocated (with_m h 1) (pre ++ cur :: post) off (gross newsize) bs h1 →
  ∃ h' ns', (let h1 := with_m h1 0 in
     oldsize ← get_size h1 (heap_base h + total pre + 64);
     let h2 := with_ram h1 (memcpy (ram h1) (heap_base h + off + 64) (heap_base h + total pre + 64) oldsize) in
     h3 ← free_ h2 (heap_base h + total pre + 64); Ok (heap_base h + off + 64, h3))
   = Ok (heap_base h + off + 64, h') ∧ heap_ok h' ns' ∧ heap_base h' = heap_base h ∧
   (∃ bs1, mark_free bs (total pre) = Some bs1 ∧ blocks ns' = join bs1) ∧ live_block (blocks ns') off (gross newsize) ∧
   ∀ k, 0 ≤ k < len cur - 128 →
     ram h' (heap_base h + off + 64 + k) = ram h (heap_base h + total pre + 64 + k).
Proof using Hok Hf Hb Hs Hlt.
  intros Hfit (ns1 & Hi & Hr & Hbs & Hh & Hm1 & Hx). simpl in Hh, Hx.
  destruct (gross_bounds newsize Hs) as (G1 & G2 & G3 & G4).
  destruct Hok as [Hinv Hred Hm].
  pose proof (block_bounds _ _ Hinv _ _ _ eq_refl) as (B1 & (B2 & _ & Bu) & B3 & B4 & B5).
  specialize (Bu Hf). pose proof (inv_len _ _ Hinv) as Hg. apply goodb_blocks in Hg.
  pose proof Hfit as Hfit'. apply fit_Some in Hfit' as (P & l & Q & EP & Hnl & -> & Ebs).
  rewrite blocks_app in Hfit, Hg. simpl in Hfit, Hg. rewrite Hf in Hfit, Hg.
  assert (0 < gross newsize) as Hgp by lia.
  destruct (fit_keeps_used _ _ _ _ _ _ Hg Hgp Hfit) as (a' & b' & Ebs' & Hsa & Hdis).
  rewrite sumb_blocks in Hsa, Hdis.
  (* the old block, still live *)
  destruct (blocks_split ns1 a' (len cur) false b') as (pre1 & cur1 & post1 & Hns1 & Hpre1 & Hl1 & Hf1 & Hpost1);
    [congruence|].
  assert (total pre1 = total pre) as Htp by (by rewrite <- sumb_blocks, Hpre1).
  (* the new block *)
  destruct (blocks_split ns1 P (gross newsize) false
    (if l =? gross newsize then Q else (l - gross newsize, true) :: Q))
    as (pre2 & cur2 & post2 & Hns2 & Hpre2 & Hl2 & Hf2 & _); [congruence|].
  assert (total pre2 = sumb P) as Htp2 by (by rewrite <- sumb_blocks, Hpre2).
  pose proof (block_bounds _ _ Hi _ _ _ Hns2) as (C1 & _ & C3 & _ & C5).
  rewrite Htp2, Hl2, Hh in *.
  set (new := heap_base h + sumb P) in *. set (old := heap_base h + total pre) in *.
  cbv zeta. assert (get_size (with_m h1 0) (old + 64) = Ok (len cur - 128)) as ->.
  { rewrite <- Hl1. unfold old. rewrite <- Htp.
    change (heap_base h) with (heap_base (with_m h 1)). simpl. rewrite <- Hh.
    apply (get_size_Ok (with_m h1 0) ns1 pre1 cur1 post1 (with_m_inv _ _ _ Hi) Hns1 Hf1). }
  cbn -[Z.mul Z.add Z.sub]. set (r2 := memcpy (ram h1) (new + 64) (old + 64) (len cur - 128)).
  assert (bytes (ram h1)) as Hb1.
  { intros x. destruct (Hx x) as [->|[_ ->]]; [apply Hb|by unfold is_uN, VMM_REDZONE_MAGIC]. }
  assert (∀ x, r2 x = if bool_decide (new + 64 ≤ x < new + 64 + (len cur - 128))
    then ram h1 (x - (new + 64) + (old + 64)) else ram h1 x) as Hr2.
  { apply memcpy_spec; [done|unfold is_uN; lia|]. unfold new, old. lia. }
  assert (redzones r2 (heap_base h) ns1) as Hred2.
  { rewrite Hns2 in Hr |- *. eapply redzones_user; [rewrite <- Hns2; apply Hi|done|exact Hr|].
    intros x Hnx. rewrite Hr2, bool_decide_eq_false_2; [done|]. unfold new in *. lia. }
  set (h2 := with_ram (with_m h1 0) r2).
  assert (heap_inv (with_m h2 1) ns1) as Hi2 by (by apply with_m_inv, with_ram_inv, with_m_inv).
  rewrite Hns1 in Hi2, Hred2.
  destruct (free_nomutex_Ok (with_m h2 1) pre1 cur1 post1 Hi2) as (h3 & ns3 & E3 & Hi3 & Hr3 & Hb3 & Hh3 & _ & Hx3);
    [simpl; rewrite Hh; exact Hred2|exact Hf1|].
  assert (user_ptr (with_m h2 1) pre1 = old + 64) as Hup.
  { unfold user_ptr, old. simpl. by rewrite Hh, Htp. }
  rewrite Hup in E3. fold h2. unfold free_. erewrite (guarded_Ok h2 _ tt h3); [|done|rewrite E3; reflexivity].
  cbn -[Z.add Z.sub]. exists (with_m h3 0), ns3. split; [done|].
  split; [by split; [apply with_m_inv|..]|]. rewrite Hpre1, Hpost1, Hl1 in Hb3.
  assert (Forall goodb bs) as Hgb by (rewrite <- Hbs; apply goodb_blocks, Hi).
  split; [cbn in Hh3; cbn; congruence|]. split; [|split].
  { eexists. split; [|exact Hb3]. rewrite Ebs', <- Hsa. apply mark_free_app. rewrite Ebs' in Hgb. apply Forall_app in Hgb as [Hgb _].
    eapply Forall_impl; [exact Hgb|]. by intros ? [? _]. }
  { rewrite Hb3. eapply other_live; [rewrite <- Ebs', Ebs; reflexivity|]. rewrite Hsa. lia. }
  intros k Hk. simpl. rewrite Hx3. simpl.
  rewrite Hr2, bool_decide_eq_true_2 by lia.
  replace (new + 64 + k - (new + 64) + (old + 64)) with (old + 64 + k) by lia.
  destruct (Hx (old + 64 + k)) as [?|[? _]]; [done|]. unfold new, old in *. lia.
Qed.
End Move.

(** C17: [realloc] of a live block, on a sound heap and for a size above zero, returns a live block of the new size (or of the old
    one, when that is larger) with the user's data: the same pointer when the block can grow in place, else the pointer of
    a first-fit block, and then the old block is freed and joined with its neighbours.  The blocks afterwards are those of
    the specification, the heap is sound, and every byte of the old block is found at the same offset of the result.
    It fails only where [alloc] fails: links exhausted, or no block fits. *)
Theorem realloc_keeps_data h pre cur post newsize fil lin :
  heap_ok h (pre ++ cur :: post) → fr cur = false → bytes (ram h) → 0 < newsize ≤ 2 ^ 62 →
  let p := heap_base h + total pre + 64 in
  let result off bs' := ∃ h' ns', realloc h p newsize fil lin = Ok (heap_base h + off + 64, h') ∧ heap_ok h' ns' ∧
    heap_base h' = heap_base h ∧ blocks ns' = bs' ∧ live_block (blocks ns') off (Z.max (len cur) (gross newsize)) ∧
    ∀ k, 0 ≤ k < len cur - 128 → ram h' (heap_base h + off + 64 + k) = ram h (p + k) in
  match grow_blocks (len cur) (blocks post) (gross newsize) with
  | Some bs => result (total pre) (blocks pre ++ bs)
  | None =>
      match fit (blocks (pre ++ cur :: post)) (gross newsize) with
      | Some (off, bs) => (∃ bs1, mark_free bs (total pre) = Some bs1 ∧ result off (join bs1)) ∨
          (realloc h p newsize fil lin = Fatal "Kifogyott a vmm bitmap!" ∧
           List.length (pre ++ cur :: post) = 64%nat)
      | None => realloc h p newsize fil lin = Fault
      end
  end.
Proof.
  intros Hok Hf Hb Hs p result. pose proof Hok as [Hinv Hred Hm].
  pose proof (try_realloc_nomutex_Ok (with_m h 1) pre cur post newsize fil lin
    (with_m_inv _ _ _ Hinv) Hred Hf Hs) as Htry.
  destruct (grow_blocks (len cur) (blocks post) (gross newsize)) as [bs|] eqn:Eg.
  { destruct Htry as (h' & E & ns' & Hi & Hr & Hbs & Hh & Hl & Hx).
    eexists _, ns'. unfold realloc, try_realloc. rewrite (guarded_Ok h _ _ h' Hm E). cbn.
    split; [done|]. split; [by split; [apply with_m_inv|..]|]. split; [exact Hh|]. split; [exact Hbs|]. split.
    - rewrite Hbs, <- sumb_blocks. by apply grow_live with (blocks post).
    - intros k Hk. unfold p. apply Hx. simpl. lia. }
  assert (try_realloc h p newsize fil lin = Ok (false, h)) as Et.
  { unfold try_realloc. rewrite (guarded_Ok h _ _ _ Hm Htry). by rewrite with_m_id. }
  pose proof (alloc_nomutex_Ok (with_m h 1) _ newsize fil lin (with_m_inv _ _ _ Hinv) Hred Hs) as Ha.
  destruct (fit (blocks (pre ++ cur :: post)) (gross newsize)) as [[off bs]|] eqn:Ef.
  - destruct Ha as [_ [(h1 & E & Hal)|[E Hfull]]]; [left|right].
    + destruct (move_Ok h pre post cur newsize Hok Hf Hb Hs (grow_blocks_None _ _ _ Eg) off bs h1 Ef Hal)
        as (h' & ns' & E' & Hok' & Hh & (bs1 & Hm1 & Hb1) & Hlive & Hd).
      exists bs1. split; [exact Hm1|]. exists h', ns'. rewrite Z.max_r by (apply grow_blocks_None in Eg; lia). split; [|by split_and!].
      unfold realloc, alloc. rewrite Et. cbn -[Z.add]. rewrite (guarded_Ok h _ _ h1 Hm E). exact E'.
    + split; [|done]. unfold realloc, alloc. rewrite Et. cbn. by rewrite (guarded_Fatal h _ _ Hm E).
  - unfold realloc, alloc, guarded. rewrite Et. cbn. rewrite Hm. cbn. by rewrite Ha.
Qed.

(** A live block between two others, so that it has to move. *)
Definition heap2 : MemoryMgr :=
  mkMgr (mkLink (Some 1%nat) None 1 7 176 false :: mkLink (Some 2%nat) (Some 0%nat) 1 8 144 false
         :: mkLink None (Some 1%nat) 0 0 3776 true :: replicate 82 no_link) (Some 0%nat)
    (mkBitmap [7] 64) 85 320 3776 0x10000 0
    (fill_redzones (fill_redzones (λ x, x `mod` 256) 0x10000 176) 0x100b0 144).

Lemma heap2_ok : heap_ok heap2 [Node 0 176 false; Node 1 144 false; Node 2 3776 true].
Proof.
  split; [split| |done]; simpl; try done; try lia.
  - split; simpl; try done.
    + split; [|split; [|split; [|done]]]; eexists; (split; [done|]); done.
    + repeat (apply NoDup_cons; split; [set_solver by lia|]). apply NoDup_nil_2.
    + split; [split; simpl; [repeat constructor; unfold is_uN; lia|unfold NPOS; lia|lia]
        |done|pool_bits|].
      intros i Hi. repeat (apply elem_of_cons in Hi as [->|Hi]; [lia|]). by apply elem_of_nil in Hi.
  - repeat constructor; simpl; (done || lia).
  - split_and!; [| |done|done]; intros _ x Hx; rewrite !fill_redzones_spec by lia;
      repeat case_bool_decide; try done; lia.
Qed.

Lemma realloc_keeps_data_witness :
  ∃ h' ns', realloc heap2 0x10040 100 1 9 = Ok (0x10180, h') ∧ heap_ok h' ns' ∧
    blocks ns' = [(176, true); (144, false); (240, false); (3536, true)] ∧
    ∀ k, 0 ≤ k < 48 → ram h' (0x10180 + k) = ram heap2 (0x10040 + k).
Proof.
  assert (bytes (ram heap2)) as Hb.
  { intros x. simpl. rewrite !fill_redzones_spec by lia. unfold VMM_REDZONE_MAGIC.
    repeat case_bool_decide; try (unfold is_uN; lia). apply Z.mod_pos_bound. lia. }
  pose proof (realloc_keeps_data heap2 [] (Node 0 176 false) [Node 1 144 false; Node 2 3776 true]
    100 1 9 heap2_ok eq_refl Hb ltac:(lia)) as H. cbv zeta in H.
  replace (grow_blocks (len (Node 0 176 false)) (blocks [Node 1 144 false; Node 2 3776 true]) (gross 100))
    with (@None (list block)) in H by (vm_compute; reflexivity).
  replace (fit (blocks ([] ++ Node 0 176 false :: [Node 1 144 false; Node 2 3776 true])) (gross 100))
    with (Some (320, [(176, false); (144, false); (240, false); (3536, true)])) in H
    by (vm_compute; reflexivity).
  destruct H as [(bs1 & Hm & h' & ns' & E & Hok & _ & Hbl & _ & Hd)|[_ Hfull]]; [|discriminate Hfull]. injection Hm as <-.
  exists h', ns'. split; [exact E|]. split; [exact Hok|]. split; [exact Hbl|exact Hd].
Defined.

(** A null pointer: the block is allocated, but the caller gets the null pointer back. *)
Example realloc_null_leaks :
  match realloc heap0 0 40 1 9 with Ok (p, h') => Some (p, usedmem h') | _ => None end = Some (0, 176).
Proof. vm_compute. reflexivity. Qed.
