(* ===== verification/HeapAligned.v ===== *)
(** Aligned allocation ([MemoryMgr::alloc_aligned]): the search for a free block that can hold an
    aligned user area, and the three-way split into padding, block and remainder. *)
From S2P Require Import Prelude Arith Async Bitmap Pmm Mem Heap HeapInv HeapSpec HeapResize.

#[local] Arguments ld : simpl never.
#[local] Arguments st : simpl never.
#[local] Arguments st_opt : simpl never.
#[local] Arguments create_link : simpl never.
#[local] Arguments allocate_into_free : simpl never.
#[local] Arguments split_aligned : simpl never.
#[local] Arguments fill_redzones : simpl never.

(** ** Linking blocks in *)

(** The links of a list with [mid] spliced in between [pre] and [post]. *)
Lemma shape_splice h pre mid post ls b f : dseg ls None pre (hd_or (hd_or None post) mid) →
  dseg ls (last_or None pre) mid (hd_or None post) → dseg ls (last_or (last_or None pre) mid) post None →
  NoDup (ixs (pre ++ mid ++ post)) → List.length ls = 85%nat → pool b (ixs (pre ++ mid ++ post)) →
  f = hd_or None (pre ++ mid ++ post) →
  shape (with_first (with_links (with_bm h b) ls) f) (pre ++ mid ++ post).
Proof.
  intros D1 D2 D3 Hd Hl Hp ->. split; simpl; try done.
  apply dseg_app. rewrite hd_or_app. split; [done|]. by apply dseg_app.
Qed.

Section Before.
Context (h : MemoryMgr) (pre post : list node) (cur : node) (Hsh : shape h (pre ++ cur :: post)).
Context (j : nat) (z : link_t) (b : Bitmap).
Context (Hz : links h !! j = Some z) (Hj : j ∉ ixs (pre ++ cur :: post))
  (Hp : pool b (j :: ixs (pre ++ cur :: post))).
Context (l2 : Z) (f2 : bool) (a : node) (Ha : ix a = j).

Lemma fresh_parts : (j ∉ ixs pre) ∧ j ≠ ix cur ∧ (j ∉ ixs post).
Proof using Hj. rewrite fmap_app, fmap_cons, elem_of_app, elem_of_cons in Hj. tauto. Qed.

Lemma nodup_before : NoDup (ixs (pre ++ [a; Node (ix cur) l2 f2] ++ post)).
Proof using Hsh Hj Ha.
  destruct fresh_parts as (J1 & J2 & J3). pose proof (sh_nodup _ _ Hsh) as Hd.
  destruct (nodup_middle _ _ _ Hd) as (D1 & D2 & D3 & D4 & D5).
  rewrite fmap_app. simpl. rewrite Ha. apply NoDup_app. split_and!; [done| |].
  - intros i Hi. rewrite !elem_of_cons. intros [->|[->|Hi']]; [done|done|by eapply D5].
  - rewrite !NoDup_cons, elem_of_cons. split_and!; [by intros [?|?]|done|done].
Qed.

Lemma pool_before : pool b (ixs (pre ++ [a; Node (ix cur) l2 f2] ++ post)).
Proof using Hp Ha.
  eapply pool_ext; [|exact Hp]. intros i. rewrite !fmap_app, !fmap_cons. simpl. rewrite Ha.
  rewrite !elem_of_cons, !elem_of_app, !elem_of_cons. tauto.
Qed.

(** After redirecting the predecessor, the links of [a] and [cur] only have to be right. *)
Lemma insert_before ls y x f : dseg ls None pre (Some j) → dseg ls (Some (ix cur)) post None →
  List.length ls = 85%nat → ls !! j = Some y → ls !! ix cur = Some x →
  prev y = last_or None pre → next y = Some (ix cur) → length y = len a → free y = fr a →
  prev x = Some j → next x = hd_or None post → length x = l2 → free x = f2 →
  f = hd_or (Some j) pre →
  shape (with_first (with_links (with_bm h b) ls) f) (pre ++ [a; Node (ix cur) l2 f2] ++ post).
Proof using Hsh Hj Hp Ha.
  intros D1 D3 Hl Hy Hx Y1 Y2 Y3 Y4 X1 X2 X3 X4 ->. apply shape_splice; try done.
  - simpl. by rewrite Ha.
  - simpl. rewrite Ha. split_and!; [by exists y; rewrite Ha|by exists x|done].
  - apply nodup_before.
  - apply pool_before.
  - rewrite hd_or_app. simpl. by rewrite Ha.
Qed.
End Before.

(** The new block in front of [cur], as [split_aligned] links it in; [L] is what remains of [cur]. *)
Lemma split_front h pre cur post x z j b af L fil lin : shape h (pre ++ cur :: post) →
  links h !! ix cur = Some x → links h !! j = Some z → (j ∉ ixs (pre ++ cur :: post)) →
  pool b (j :: ixs (pre ++ cur :: post)) →
  ∃ h', (h1 ← st (with_bm h b) (Some j) (λ y, set_length af (set_free true y));
         h1 ← st h1 (Some (ix cur)) (set_length L);
         h1 ← st h1 (Some j) (set_where fil lin);
         h1 ← st_opt h1 (last_or None pre) (set_next (Some j));
         h1 ← st h1 (Some j) (λ y, set_next (Some (ix cur)) (set_prev (last_or None pre) y));
         h1 ← st h1 (Some (ix cur)) (set_prev (Some j));
         Ok (if decide (first h1 = Some (ix cur)) then with_first h1 (Some j) else h1)) = Ok h' ∧
    shape h' (pre ++ [Node j af true; Node (ix cur) L (fr cur)] ++ post) ∧ same h h'.
Proof.
  intros Hsh Hx Hz Hj Hp. destruct (fresh_parts pre post cur j Hj) as (J1 & J2 & J3).
  pose proof (sh_nodup _ _ Hsh) as Hd. destruct (nodup_middle _ _ _ Hd) as (D1 & D2 & D3 & D4 & D5).
  pose proof (sh_seg _ _ Hsh) as Hs. pose proof (sh_links _ _ Hsh) as Hl85.
  apply dseg_middle in Hs as (S1 & (x' & Hx' & P1 & P2 & P3 & P4) & S3).
  rewrite Hx in Hx'. injection Hx' as <-.
  rewrite (st_Ok (with_bm h b) _ _ _ Hz). cbn.
  set (y1 := set_length af (set_free true z)). set (ls1 := <[j:=y1]> (links h)).
  assert (ls1 !! ix cur = Some x) as E1 by (unfold ls1; by lk).
  rewrite (st_Ok (with_links (with_bm h b) ls1) _ _ _ E1). cbn.
  set (ls2 := <[ix cur:=set_length L x]> ls1).
  assert (ls2 !! j = Some y1) as E2 by (unfold ls2, ls1; by lk).
  rewrite (st_Ok (with_links (with_links (with_bm h b) ls1) ls2) _ _ _ E2). cbn.
  set (ls3 := <[j:=set_where fil lin y1]> ls2).
  set (h3 := with_links (with_bm h b) ls3).
  assert (List.length ls3 = 85%nat) as Hl3 by (unfold ls3, ls2, ls1; by rewrite !length_insert).
  assert (∀ i, i ≠ j → i ≠ ix cur → ls3 !! i = links h !! i) as Hext3
    by (intros i Hi1 Hi2; unfold ls3, ls2, ls1; by lk).
  change (with_links (with_links (with_links (with_bm h b) ls1) ls2) ls3) with h3.
  assert (dseg ls3 None pre (Some (ix cur))) as S1'.
  { eapply dseg_ext; [|exact S1]. intros c Hc. apply ixs_in in Hc. apply Hext3; congruence || (intros E; rewrite E in Hc; done). }
  destruct (st_opt_next h3 (Some (ix cur)) (Some j) pre None S1' D1 eq_refl)
    as (ls4 & -> & S4 & Hext4 & Hl4). cbn.
  assert (ls4 !! j = Some (set_where fil lin y1)) as E4.
  { rewrite Hext4 by done. simpl. unfold ls3, ls2, ls1. by lk. }
  assert (ls4 !! ix cur = Some (set_length L x)) as E4'.
  { rewrite Hext4 by done. simpl. unfold ls3, ls2, ls1. by lk. }
  simpl in Hl4. rewrite Hl3 in Hl4.
  rewrite (st_Ok (with_links h3 ls4) _ _ _ E4). cbn.
  set (y5 := set_next _ _). set (ls5 := <[j:=y5]> ls4).
  assert (ls5 !! ix cur = Some (set_length L x)) as E5 by (unfold ls5; by lk).
  rewrite (st_Ok (with_links (with_links h3 ls4) ls5) _ _ _ E5). cbn.
  set (ls6 := <[ix cur:=set_prev (Some j) (set_length L x)]> ls5).
  eexists. split; [done|].
  assert (shape (with_first (with_links (with_bm h b) ls6) (hd_or (Some j) pre))
    (pre ++ [Node j af true; Node (ix cur) L (fr cur)] ++ post)) as Hfinal.
  { eapply (insert_before h pre post cur Hsh j b Hj Hp L (fr cur) (Node j af true) eq_refl ls6 y5
      (set_prev (Some j) (set_length L x))); try done.
    - unfold ls6, ls5. do 2 (apply dseg_insert; [done|]). done.
    - unfold ls6, ls5. do 2 (apply dseg_insert; [done|]). eapply dseg_ext; [|exact S3].
      intros c Hc. apply ixs_in in Hc.
      rewrite Hext4 by (intros Hc'; by eapply D5). apply Hext3; intros E; rewrite E in Hc; done.
    - unfold ls6, ls5. by rewrite !length_insert.
    - unfold ls6, ls5. by lk.
    - unfold ls6, ls5. by lk. }
  destruct (decide _) as [Ef|Ef]; simpl in Ef; rewrite (sh_first _ _ Hsh), hd_or_app in Ef.
  - split; [|done]. destruct pre as [|p0 pre0]; [exact Hfinal|]. simpl in Ef. injection Ef as Ef.
    exfalso. apply D3. rewrite <- Ef. by constructor.
  - split; [|done]. destruct pre as [|p0 pre0]; [done|].
    destruct Hfinal as [F1 F2 F3 F4 F5]. split; try done.
    simpl. by rewrite (sh_first _ _ Hsh).
Qed.

(** A new block after [cur], in the order [split_aligned] links the remainder in. *)
Lemma split_back h pre cur post x z j b l fil lin : shape h (pre ++ cur :: post) →
  links h !! ix cur = Some x → links h !! j = Some z → (j ∉ ixs (pre ++ cur :: post)) →
  pool b (j :: ixs (pre ++ cur :: post)) →
  ∃ h', (h1 ← st (with_bm h b) (Some j) (λ y, set_length l (set_free true (set_where fil lin y)));
         x ← ld h1 (Some (ix cur));
         h1 ← st_opt h1 (next x) (set_prev (Some j));
         h1 ← st h1 (Some j) (set_next (next x));
         h1 ← st h1 (Some (ix cur)) (set_next (Some j));
         st h1 (Some j) (set_prev (Some (ix cur)))) = Ok h' ∧
    shape h' (pre ++ [cur; Node j l true] ++ post) ∧ same h h'.
Proof.
  intros Hsh Hx Hz Hj Hp. destruct (fresh_parts pre post cur j Hj) as (J1 & J2 & J3).
  pose proof (sh_nodup _ _ Hsh) as Hd. destruct (nodup_middle _ _ _ Hd) as (D1 & D2 & D3 & D4 & D5).
  pose proof (sh_seg _ _ Hsh) as Hs. pose proof (sh_links _ _ Hsh) as Hl85.
  apply dseg_middle in Hs as (S1 & (x' & Hx' & P1 & P2 & P3 & P4) & S3).
  rewrite Hx in Hx'. injection Hx' as <-.
  rewrite (st_Ok (with_bm h b) _ _ _ Hz). cbn.
  set (y1 := set_length l _). set (ls1 := <[j:=y1]> (links h)).
  assert (ls1 !! ix cur = Some x) as E1 by (unfold ls1; by lk).
  rewrite (ld_Ok (with_links (with_bm h b) ls1) _ _ E1). cbn. rewrite P2.
  destruct (st_opt_prev (with_links (with_bm h b) ls1) (Some (ix cur)) (Some j) post None)
    as (ls2 & -> & S4 & Hext & Hl2); [by apply dseg_insert|done|done|]. cbn.
  simpl in Hl2, Hext. unfold ls1 in Hl2. rewrite length_insert, Hl85 in Hl2.
  assert (ls2 !! j = Some y1) as E2 by (rewrite Hext by done; unfold ls1; by lk).
  assert (ls2 !! ix cur = Some x) as E2' by (rewrite Hext by done; unfold ls1; by lk).
  set (h2 := with_links (with_bm h b) ls2).
  change (with_links (with_links (with_bm h b) ls1) ls2) with h2.
  rewrite (st_Ok h2 _ _ _ E2). cbn. set (y3 := set_next _ _). set (ls3 := <[j:=y3]> ls2).
  assert (ls3 !! ix cur = Some x) as E3 by (unfold ls3; by lk).
  rewrite (st_Ok (with_links h2 ls3) _ _ _ E3). cbn. set (ls4 := <[ix cur:=_]> ls3).
  assert (ls4 !! j = Some y3) as E4 by (unfold ls4, ls3; by lk).
  rewrite (st_Ok (with_links (with_links h2 ls3) ls4) _ _ _ E4).
  eexists. split; [done|]. split; [|done]. pose (ls5 := <[j := set_prev (Some (ix cur)) y3]> ls4).
  assert (shape (with_first (with_links (with_bm h b) ls5) (first h))
    (pre ++ [cur; Node j l true] ++ post)) as [F1 F2 F3 F4 F5]; [|by split].
  apply shape_splice.
  - simpl. unfold ls5, ls4, ls3. do 3 (apply dseg_insert; [done|]). eapply dseg_ext; [|exact S1].
    intros c Hc. apply ixs_in in Hc. rewrite Hext by (by apply D5).
    unfold ls1. rewrite list_lookup_insert_ne; [done|]. intros E. by rewrite <- E in Hc.
  - simpl. split_and!; [|exists (set_prev (Some (ix cur)) y3)|done].
    + exists (set_next (Some j) x). unfold ls5, ls4. lk. done.
    + simpl. unfold ls5. rewrite list_lookup_insert_eq by (unfold ls4, ls3; rewrite !length_insert; len_solve). done.
  - simpl. unfold ls5, ls4, ls3. by do 3 (apply dseg_insert; [done|]).
  - rewrite fmap_app. simpl. apply NoDup_app. split_and!; [done| |].
    + intros i Hi. rewrite !elem_of_cons. intros [->|[->|Hi']]; [done|done|by eapply D5].
    + rewrite !NoDup_cons, elem_of_cons. split_and!; [by intros [?|?]|done|done].
  - unfold ls5, ls4, ls3. by rewrite !length_insert.
  - eapply pool_ext; [|exact Hp]. intros i. rewrite !fmap_app, !fmap_cons. simpl.
    rewrite !elem_of_cons, !elem_of_app, !elem_of_cons. tauto.
  - rewrite (sh_first _ _ Hsh), !hd_or_app. done.
Qed.

Lemma shape_fresh h ns j y : shape h ns → (j ∉ ixs ns) →
  shape (with_links h (<[j := y]> (links h))) ns.
Proof.
  intros [S1 S2 S3 S4 S5] Hj. split; simpl; try done; [by apply dseg_insert|by rewrite length_insert].
Qed.

(** The list after padding of [af] bytes and a block of [size] bytes were cut out of [cur]. *)
Definition cut (pre : list node) (cur : node) (post : list node) (af size : Z) (j k : nat) : list node :=
  pre ++ Node j af true :: Node (ix cur) size false ::
    (if len cur - af =? size then post else Node k (len cur - af - size) true :: post).

(** The second half of [split_aligned], from the block that starts at the aligned address: it becomes a used
    block of [size] bytes, and what is left over a free one behind it. *)
Lemma split_tail h pre cur post size fil lin : shape h (pre ++ cur :: post) →
  len cur < 2 ^ 63 → len cur `mod` 16 = 0 → 0 < size → size `mod` 16 = 0 → size ≤ len cur →
  let r :=
    (x ← ld h (Some (ix cur));
     let remaining := i64 (length x - size) in
     assert_ (0 <=? remaining) "remaining >= 0ll";;
     h ← st h (Some (ix cur)) (λ y, set_where fil lin (set_free false (set_length (u64 (length x - remaining)) y)));
     if remaining =? 0 then Ok h else
     '(remainingl, h) ← create_link h;
     h ← st h (Some remainingl) (λ y, set_length (u64 remaining) (set_free true (set_where 1 260 y)));
     assert_ (isaligned (u64 remaining) 16) "isaligned(remainingl->length, 16)";;
     x ← ld h (Some (ix cur));
     h ← st_opt h (next x) (set_prev (Some remainingl));
     h ← st h (Some remainingl) (set_next (next x));
     h ← st h (Some (ix cur)) (set_next (Some remainingl));
     st h (Some remainingl) (set_prev (Some (ix cur)))) in
  (∃ k h', r = Ok h' ∧ same h h' ∧
     shape h' (pre ++ Node (ix cur) size false ::
       (if len cur =? size then post else Node k (len cur - size) true :: post))) ∨
  (r = Fatal "Kifogyott a vmm bitmap!" ∧ (64 ≤ List.length (pre ++ cur :: post))%nat).
Proof.
  intros Hsh Hlt Hlm Hsz Hsm Hle. cbn zeta.
  destruct (shape_lookup _ _ _ _ Hsh) as (x1 & Hx1 & Y1 & Y2 & Y3 & Y4).
  rewrite (ld_Ok _ _ _ Hx1). cbn -[isaligned]. rewrite Y3.
  assert (i64 (len cur - size) = len cur - size) as ->.
  { unfold iN. rewrite uN_small by (unfold is_uN; lia).
    by replace (_ <? 2 ^ (64 - 1)) with true by (change (2 ^ (64 - 1)) with (2 ^ 63); lia). }
  replace (0 <=? len cur - size) with true by lia. cbn -[isaligned].
  rewrite (st_Ok _ _ _ _ Hx1). cbn -[isaligned].
  rewrite (uN_small 64 (len cur - (len cur - size))) by (unfold is_uN; lia).
  replace (len cur - (len cur - size)) with size by lia.
  set (x2 := set_where _ _ _). set (h2 := with_links h _).
  pose proof (shape_payload h pre cur post x1 x2 Hsh Hx1 eq_refl eq_refl) as Hsh2. simpl in Hsh2.
  fold h2 in Hsh2. destruct (Z.eqb_spec (len cur - size) 0) as [E0|E0].
  { left. exists 0%nat, h2. split; [done|]. replace (len cur =? size) with true by lia. done. }
  replace (len cur =? size) with false by lia.
  destruct (create_link_Ok h2 _ (sh_pool _ _ Hsh2) (sh_links _ _ Hsh2))
    as [(k & w & b2 & -> & Hw & Hk & Hk64 & Hpb2)|[-> Hfull]].
  2:{ right. split; [done|]. pose proof (ixs_full _ Hfull) as Hf. rewrite !length_app in *. simpl in *. lia. }
  cbn -[isaligned]. set (h3 := with_links h2 (<[k:=set_where 0 0 w]> (links h2))).
  pose proof (shape_fresh h2 _ k (set_where 0 0 w) Hsh2 Hk) as Hsh3. fold h3 in Hsh3.
  change (with_links (with_bm h2 b2) _) with (with_bm h3 b2).
  pose proof (fresh_parts _ _ _ _ Hk) as (_ & Hkc & _). simpl in Hkc.
  pose proof (sh_links _ _ Hsh) as Hl1.
  destruct (split_back h3 pre (Node (ix cur) size false) post x2 (set_where 0 0 w) k b2
    (len cur - size) 1 260 Hsh3) as (h4 & E4 & Hsh4 & Hs4); [simpl; by lk|simpl; by lk|done|done|].
  simpl in E4. apply bind_Ok in E4 as (h41 & E41 & E4).
  rewrite (uN_small 64 (len cur - size)) by (unfold is_uN; lia). rewrite E41. cbn -[isaligned].
  assert (isaligned (len cur - size) 16 = true) as -> by (unfold isaligned; rewrite Zminus_mod, Hsm, Hlm; done).
  cbn. left. exists k, h4. split; [exact E4|]. split; [by eapply same_trans; [|exact Hs4]|exact Hsh4].
Qed.

Lemma split_aligned_Ok h pre cur post size af fil lin : shape h (pre ++ cur :: post) →
  fr cur = true → len cur < 2 ^ 63 → len cur `mod` 16 = 0 → 0 < af → af `mod` 16 = 0 →
  0 < size → size `mod` 16 = 0 → af + size ≤ len cur →
  (∃ j k h', split_aligned h (ix cur) size af fil lin = Ok h' ∧
     shape h' (cut pre cur post af size j k) ∧ same h h') ∨
  (split_aligned h (ix cur) size af fil lin = Fatal "Kifogyott a vmm bitmap!" ∧
     (63 ≤ List.length (pre ++ cur :: post))%nat).
Proof.
  intros Hsh Hfr Hlt Hlm Haf Ham Hsz Hsm Hle. unfold split_aligned.
  destruct (shape_lookup _ _ _ _ Hsh) as (x & Hx & X1 & X2 & X3 & X4).
  destruct (create_link_Ok h _ (sh_pool _ _ Hsh) (sh_links _ _ Hsh))
    as [(j & z & b & -> & Hz & Hj & Hj64 & Hpb)|[-> Hfull]].
  2:{ right. split; [done|]. pose proof (ixs_full _ Hfull). lia. }
  cbn -[isaligned]. set (h0 := with_links h (<[j:=set_where 0 0 z]> (links h))).
  pose proof (shape_fresh h _ j (set_where 0 0 z) Hsh Hj) as Hsh0. fold h0 in Hsh0.
  assert (j ≠ ix cur) as Hjc by apply (fresh_parts pre post cur j Hj).
  change (with_links (with_bm h b) _) with (with_bm h0 b).
  assert (links (with_bm h0 b) !! ix cur = Some x) as Hx0 by (simpl; by lk).
  rewrite (ld_Ok _ _ _ Hx0). cbn -[isaligned]. rewrite X3.
  rewrite (uN_small 64 (len cur - af)) by (unfold is_uN; lia).
  destruct (split_front h0 pre cur post x (set_where 0 0 z) j b af (len cur - af) fil lin Hsh0 Hx0)
    as (h1 & E1 & Hsh1 & Hs1); [simpl; by lk|done|done|].
  apply bind_Ok in E1 as (h11 & E11 & E1). rewrite E11. cbn -[isaligned].
  apply bind_Ok in E1 as (h12 & E12 & E1). rewrite E12. cbn -[isaligned].
  assert (isaligned af VMM_MIN_ALLOC = true) as -> by (unfold isaligned, VMM_MIN_ALLOC; lia). cbn -[isaligned].
  apply bind_Ok in E1 as (h13 & E13 & E1). rewrite E13. cbn -[isaligned].
  rewrite X1. apply bind_Ok in E1 as (h14 & E14 & E1). rewrite E14. cbn -[isaligned].
  apply bind_Ok in E1 as (h15 & E15 & E1). rewrite E15. cbn -[isaligned].
  apply bind_Ok in E1 as (h16 & E16 & E1). rewrite E16. cbn -[isaligned].
  injection E1 as E1. rewrite E1. clear E11 E12 E13 E14 E15 E16 E1 h11 h12 h13 h14 h15 h16.
  set (p1 := pre ++ [Node j af true]). set (c1 := Node (ix cur) (len cur - af) (fr cur)).
  assert (shape h1 (p1 ++ c1 :: post)) as Hsh1' by (unfold p1; by rewrite <- app_assoc).
  assert (len c1 `mod` 16 = 0) as Hm1 by (simpl; by rewrite Zminus_mod, Hlm, Ham).
  destruct (split_tail h1 p1 c1 post size fil lin Hsh1') as [(k & h2 & E2 & Hs2 & Hsh2)|[E2 Hf]];
    [simpl; lia|exact Hm1|done|done|simpl; lia|left|right].
  - exists j, k, h2. split; [exact E2|]. split; [|by eapply same_trans].
    unfold p1 in Hsh2. rewrite <- app_assoc in Hsh2. exact Hsh2.
  - split; [exact E2|]. unfold p1 in Hf. rewrite !length_app in *. simpl in *. lia.
Qed.

(** ** Specification *)

(** First fit for an aligned user area: the address of the block and the blocks afterwards;
    [a] is the address of the first block of the list. *)
Fixpoint fit_aligned (bs : list block) (a n al : Z) : option (Z * list block) :=
  match bs with
  | [] => None
  | (l, f) :: r =>
      let skip := '(a', r') ← fit_aligned r (a + l) n al; Some (a', (l, f) :: r') in
      if negb (f && (n <=? l)) then skip else
      if (a + 64) `mod` al =? 0
      then Some (a, (n, false) :: (if l =? n then r else (l - n, true) :: r))
      else
        let af := align64 (a + 64) al - (a + 64) in
        if (l =? n) || (l <? n + af) then skip
        else Some (a + af, (af, true) :: (n, false) ::
               (if l - af =? n then r else (l - af - n, true) :: r))
  end.

(** The block it cuts: [af] bytes of padding (none if already aligned) and [n] bytes. *)
Definition cuts (bs : list block) (a n al a' : Z) (bs' : list block) : Prop :=
  ∃ P l Q af, bs = P ++ (l, true) :: Q ∧ a' = a + sumb P + af ∧ af + n ≤ l ∧ 0 ≤ af ∧
    (a' + 64) `mod` al = 0 ∧
    bs' = P ++ (if af =? 0 then [] else [(af, true)]) ++
          (n, false) :: (if l - af =? n then Q else (l - af - n, true) :: Q).

Lemma fit_aligned_Some bs n al : 0 < al ≤ 2 ^ 31 → ∀ a a' bs', Forall goodb bs → 0 ≤ a →
  a + sumb bs + 2 ^ 32 < 2 ^ 64 → fit_aligned bs a n al = Some (a', bs') → cuts bs a n al a' bs'.
Proof.
  intros Hal. induction bs as [|[l f] r IH]; intros a a' bs' Hg Ha Ht; cbn [fit_aligned]; [done|].
  cbv zeta. apply Forall_cons in Hg as [(Hl & _) Hg]. simpl in Hl. pose proof (sumb_nonneg _ Hg).
  simpl in Ht. fold (sumb r) in Ht.
  assert (('(a', r') ← fit_aligned r (a + l) n al; Some (a', (l, f) :: r')) = Some (a', bs') →
    cuts ((l, f) :: r) a n al a' bs') as Hskip.
  { destruct (fit_aligned r (a + l) n al) as [[a1 r1]|] eqn:E; [|done]. cbn. intros [= <- <-].
    destruct (IH (a + l) a1 r1 Hg ltac:(lia) ltac:(lia) E) as (P & l0 & Q & af & -> & Ha' & Hle & Haf & Hm & ->).
    exists ((l, f) :: P), l0, Q, af. simpl. fold (sumb P). rewrite !Z.add_assoc.
    split_and!; done. }
  destruct (f && (n <=? l)) eqn:E0; simpl; [|exact Hskip].
  apply andb_true_iff in E0 as [-> E0].
  destruct (Z.eqb_spec ((a + 64) `mod` al) 0) as [Em|Em].
  { intros [= <- <-]. exists [], l, r, 0. rewrite !Z.sub_0_r. simpl.
    split_and!; [done|lia|lia|lia|done|done]. }
  destruct ((l =? n) || _) eqn:E1; [exact Hskip|]. apply orb_false_iff in E1 as [E1 E2].
  intros [= <- <-]. set (af := align64 (a + 64) al - (a + 64)) in *.
  pose proof (alignN_bounds 64 (a + 64) al ltac:(lia) ltac:(lia) ltac:(lia) ltac:(lia)) as Hb.
  pose proof (alignN_mod 64 (a + 64) al ltac:(lia) ltac:(lia) ltac:(lia) ltac:(lia)) as Hmod.
  assert (af ≠ 0) as Hne.
  { intros Haf. apply Em. by replace (a + 64) with (align64 (a + 64) al) by (unfold af in Haf; lia). }
  exists [], l, r, af. simpl. replace (af =? 0) with false by lia.
  split_and!; [done|lia|lia|unfold af; lia| |done].
  by replace (a + af + 64) with (align64 (a + 64) al) by (unfold af; lia).
Qed.

(** Cutting keeps the blocks sound and uses [n] more bytes. *)
Lemma cuts_sound bs a n al a' bs' : cuts bs a n al a' bs' → Forall goodb bs → coalesced bs →
  144 ≤ n → n `mod` 16 = 0 → al `mod` 16 = 0 → a `mod` 16 = 0 → 0 < al →
  Forall goodb bs' ∧ coalesced bs' ∧ sumb bs' = sumb bs ∧ usedb bs' = usedb bs + n.
Proof.
  intros (P & l & Q & af & -> & -> & Hle & Haf & Hm & ->) Hg Hc Hn Hnm Halm Ham Hal.
  apply Forall_app in Hg as [G1 [(G2 & G3 & _) G4]%Forall_cons]. simpl in G2, G3.
  destruct (coalesced_free _ _ _ Hc) as (C1 & C2 & C3).
  assert (sumb P `mod` 16 = 0) as HPm.
  { clear -G1. induction G1 as [|b r (_ & ? & _) _ IH]; [done|]. unfold sumb in *. simpl.
    rewrite Z.add_mod, H, IH by lia. done. }
  assert (af `mod` 16 = 0) as Hafm.
  { apply Z.mod_divide in Hm, Halm; [|lia..]. pose proof (Z.divide_trans _ _ _ Halm Hm) as [q Hq].
    rewrite (Z.div_mod a 16), Ham in Hq by lia. rewrite (Z.div_mod (sumb P) 16), HPm in Hq by lia.
    apply Z.mod_divide; [lia|]. exists (q - a / 16 - sumb P / 16 - 4). lia. }
  assert (∀ X, coalesced X → coalesced ((n, false) :: X)) as Cn by (intros X; by destruct X).
  assert (coalesced (if l - af =? n then Q else (l - af - n, true) :: Q)) as Ctail
    by (destruct (_ =? n); [done|apply C3]).
  split_and!.
  - apply Forall_app. split; [done|]. apply Forall_app. split.
    + destruct (Z.eqb_spec af 0); [done|]. constructor; [|done]. split_and!; simpl; [lia|done|done].
    + constructor; [split_and!; simpl; [lia|done|lia]|]. destruct (Z.eqb_spec (l - af) n); [done|].
      constructor; [|done]. split_and!; simpl; [lia| |done].
      rewrite Zminus_mod, Hnm, (Zminus_mod l), G3, Hafm. done.
  - destruct (Z.eqb_spec af 0); simpl.
    + by apply coalesced_used.
    + rewrite cons_middle, app_assoc. apply coalesced_used. split; [|done].
      clear -Hc C1. induction P as [|b P IH]; [done|]. simpl in *. destruct Hc as [H1 H2], C1 as [_ C1].
      split; [|by apply IH]. by destruct P.
  - rewrite !sum_app. destruct (Z.eqb_spec af 0), (Z.eqb_spec (l - af) n); simpl; fold (sumb Q); lia.
  - rewrite !usedb_app. destruct (Z.eqb_spec af 0), (Z.eqb_spec (l - af) n); simpl; fold (usedb Q); lia.
Qed.

Lemma redz_ext r r' bs : ∀ a, Forall goodb bs → (∀ x, a ≤ x < a + sumb bs → r' x = r x) →
  redz r a bs → redz r' a bs.
Proof.
  induction bs as [|[l f] bs IH]; intros a Hg Hx; cbn [redz]; [done|].
  apply Forall_cons in Hg as [(Hl & _ & Hu) Hg]. simpl in Hl, Hu. pose proof (sumb_nonneg _ Hg).
  simpl in Hx. fold (sumb bs) in Hx. intros [H1 H2]. simpl in *. split.
  - intros Hf y Hy. specialize (Hu Hf). rewrite Hx by lia. by apply H1.
  - apply IH; [done| |done]. intros y Hy. apply Hx. lia.
Qed.

Lemma cuts_redz r bs a n al a' bs' : cuts bs a n al a' bs' → Forall goodb bs → 144 ≤ n → 0 ≤ a →
  a + sumb bs < 2 ^ 64 → redz r a bs → redz (fill_redzones r a' n) a bs'.
Proof.
  intros (P & l & Q & af & -> & -> & Hle & Haf & Hm & ->) Hg Hn Ha Ht Hr.
  apply Forall_app in Hg as [G1 [(G2 & _) G4]%Forall_cons]. simpl in G2.
  rewrite sum_app in Ht. simpl in Ht. fold (sumb Q) in Ht.
  pose proof (sumb_nonneg _ G1). pose proof (sumb_nonneg _ G4).
  apply redz_app in Hr as [R1 [_ R2]]. simpl in R2.
  assert (∀ x, fill_redzones r (a + sumb P + af) n x =
    if bool_decide (a + sumb P + af ≤ x < a + sumb P + af + 64 ∨
       a + sumb P + af + n - 64 ≤ x < a + sumb P + af + n) then VMM_REDZONE_MAGIC else r x) as Hfill
    by (intros; apply fill_redzones_spec; lia).
  assert (redz (fill_redzones r (a + sumb P + af) n) (a + sumb P + l) Q) as RQ.
  { eapply redz_ext; [done| |exact R2]. intros x Hx. by rewrite Hfill, bool_decide_eq_false_2 by lia. }
  apply redz_app. split.
  { eapply redz_ext; [done| |exact R1]. intros x Hx. by rewrite Hfill, bool_decide_eq_false_2 by lia. }
  apply redz_app. split; [by destruct (af =? 0)|].
  assert (sumb (if af =? 0 then [] else [(af, true)]) = af) as ->.
  { destruct (Z.eqb_spec af 0) as [->|]; unfold sumb; simpl; lia. }
  split; [intros _ x Hx; simpl in Hx; by rewrite Hfill, bool_decide_eq_true_2 by lia|]. simpl.
  destruct (Z.eqb_spec (l - af) n).
  - by replace (a + sumb P + af + n) with (a + sumb P + l) by lia.
  - split; [done|]. simpl. by replace (a + sumb P + af + n + (l - af - n)) with (a + sumb P + l) by lia.
Qed.

(** ** The search *)

(** The bytes from an address to the next aligned one. *)
Lemma padding u al : 0 ≤ u → 0 < al → u + al < 2 ^ 64 → al `mod` 16 = 0 → u `mod` 16 = 0 →
  u `mod` al ≠ 0 → 0 < align64 u al - u < al ∧ (align64 u al - u) `mod` 16 = 0.
Proof.
  intros Hu Hal Hs Halm Hum Hne.
  pose proof (alignN_bounds 64 u al ltac:(lia) ltac:(lia) ltac:(lia) ltac:(lia)) as Hb.
  pose proof (alignN_mod 64 u al ltac:(lia) ltac:(lia) ltac:(lia) ltac:(lia)) as Hm.
  assert (align64 u al ≠ u) as Hneq by (intros E; by rewrite E in Hm). split; [lia|].
  apply Z.mod_divide in Hm, Halm, Hum; [|lia..]. apply Z.mod_divide; [lia|].
  apply Z.divide_sub_r; [by apply (Z.divide_trans _ al)|done].
Qed.

Section Search.
Context (h : MemoryMgr) (ns : list node) (Hinv : heap_inv h ns) (n al fil lin : Z).
Context (Hn : 144 ≤ n) (Hnm : n `mod` 16 = 0) (Hal : 0 < al ≤ 2 ^ 31) (Halm : al `mod` 16 = 0).
Context (Hend : heap_base h + total ns + n + 2 ^ 32 < 2 ^ 64) (Hbig : total ns < 2 ^ 63).

Definition found (r : res (Z * MemoryMgr)) (a : Z) (bs : list block) : Prop :=
  (∃ h' ns', r = Ok (a, h') ∧ shape h' ns' ∧ blocks ns' = bs ∧ same h h') ∨
  (r = Fatal "Kifogyott a vmm bitmap!" ∧ (63 ≤ List.length ns)%nat).

(** The block [cur] is taken whole or split behind. *)
Lemma take_here pre cur post : ns = pre ++ cur :: post → fr cur = true → n ≤ len cur →
  found ('(_, h1) ← allocate_into_free h (Some (ix cur)) n 0;
         h1 ← st h1 (Some (ix cur)) (set_where fil lin); Ok (heap_base h + total pre, h1))
    (heap_base h + total pre)
    (blocks pre ++ (n, false) :: (if len cur =? n then blocks post else (len cur - n, true) :: blocks post)).
Proof using Hinv Hn.
  intros Hns Hf Hle. pose proof (block_bounds _ _ Hinv _ _ _ Hns) as (B1 & (B2 & _) & B3 & B4 & B5).
  pose proof (inv_shape _ _ Hinv) as Hsh. rewrite Hns in Hsh.
  destruct (allocate_into_free_Ok h pre cur post n Hsh Hf ltac:(lia) ltac:(lia))
    as [(j & r & h1 & E1 & Hsh1 & Hsame)|(E1 & Hfull & _)]; rewrite E1; cbn.
  2:{ right. split; [done|]. rewrite Hns, Hfull. lia. }
  unfold take_block in Hsh1.
  destruct (shape_lookup _ _ _ _ Hsh1) as (x & Hx & X1 & X2 & X3 & X4). simpl in X3, X4, Hx.
  rewrite (st_Ok _ _ _ _ Hx). cbn.
  pose proof (shape_payload _ _ _ _ x (set_where fil lin x) Hsh1 Hx eq_refl eq_refl) as Hsh2.
  simpl in Hsh2. rewrite X3, X4 in Hsh2. left. eexists _, (take_block pre cur post n j).
  split; [done|]. split; [exact Hsh2|]. split; [by rewrite take_block_blocks|exact Hsame].
Qed.

Lemma search_Ok suf : ∀ pre fuel, ns = pre ++ suf → (List.length suf ≤ fuel)%nat →
  let r := aligned_loop h fuel (hd_or None suf) (heap_base h + total pre) n al fil lin in
  match fit_aligned (blocks suf) (heap_base h + total pre) n al with
  | Some (a, bs) => found r a (blocks pre ++ bs)
  | None => r = Ok (heap_base h + total ns, h)
  end.
Proof using Hinv Hn Hnm Hal Halm Hend Hbig.
  induction suf as [|cur post IH]; intros pre fuel Hns Hfuel r.
  { unfold r. rewrite Hns, app_nil_r. by destruct fuel. }
  destruct fuel as [|fuel]; [simpl in Hfuel; lia|].
  pose proof (block_bounds _ _ Hinv _ _ _ Hns) as (B1 & (B2 & B2m & _) & B3 & B4 & B5).
  pose proof (inv_shape _ _ Hinv) as Hsh. rewrite Hns in Hsh.
  destruct (shape_lookup _ _ _ _ Hsh) as (x & Hx & X1 & X2 & X3 & X4).
  assert (total ns = total pre + (len cur + total post)) as Htot by (rewrite Hns; apply total_app).
  specialize (IH (pre ++ [cur]) fuel). rewrite <- app_assoc, total_app in IH. simpl in IH.
  specialize (IH Hns ltac:(simpl in Hfuel; lia)).
  replace (heap_base h + (total pre + (len cur + 0))) with (heap_base h + total pre + len cur) in IH by lia.
  assert (∀ r', r' = aligned_loop h fuel (hd_or None post) (heap_base h + total pre + len cur) n al fil lin →
    match ('(a', r1) ← fit_aligned (blocks post) (heap_base h + total pre + len cur) n al;
           Some (a', (len cur, fr cur) :: r1)) with
    | Some (a, bs) => found r' a (blocks pre ++ bs)
    | None => r' = Ok (heap_base h + total ns, h)
    end) as Hskip.
  { intros r' ->. destruct (fit_aligned (blocks post) _ n al) as [[a bs]|]; [|exact IH].
    cbn. rewrite blocks_app, <- app_assoc in IH. exact IH. }
  clear IH. unfold r. cbn [aligned_loop hd_or fit_aligned blocks map]. fold (blocks post).
  rewrite (ld_Ok _ _ _ Hx). cbn [mbind res_bind]. cbv zeta. rewrite X2, X3, X4.
  rewrite (uN_small 64 (heap_base h + total pre + len cur)) by (unfold is_uN; lia).
  destruct (fr cur) eqn:Hf; simpl; [|by apply Hskip].
  destruct (Z.leb_spec n (len cur)); simpl; [|replace (len cur <? n) with true by lia; by apply Hskip].
  replace (len cur <? n) with false by lia. replace (al =? 0) with false by lia.
  unfold VMM_REDZONE_SIZE. rewrite (uN_small 64 (heap_base h + total pre + 64)) by (unfold is_uN; lia).
  unfold isaligned. set (u := heap_base h + total pre + 64) in *.
  destruct (Z.eqb_spec (u `mod` al) 0) as [Em|Em].
  { by apply take_here. }
  destruct (Z.eqb_spec (len cur) n) as [En|En]; simpl.
  { replace (n <? len cur) with false by lia. by apply Hskip. }
  replace (n <? len cur) with true by lia.
  destruct (padding u al) as [Haf Hafm]; [lia|lia|lia|done| |done|].
  { pose proof (ptr_aligned _ _ _ _ _ Hinv Hns) as Hp. rewrite (Z.land_ones _ 4) in Hp by lia. exact Hp. }
  set (af := align64 u al - u) in *. rewrite (uN_small 64 af) by (unfold is_uN; lia).
  replace (af =? 0) with false by lia. simpl. rewrite (uN_small 64 (n + af)) by (unfold is_uN; lia).
  destruct (Z.ltb_spec (len cur) (n + af)); [by apply Hskip|].
  destruct (split_aligned_Ok h pre cur post n af fil lin Hsh Hf) as [(j & k & h' & E & Hsh' & Hs)|[E Hfull]];
    try done; try lia.
  - rewrite E. cbn. left. eexists h', _. split; [f_equal; f_equal; apply uN_small; unfold is_uN; lia|].
    split; [exact Hsh'|]. split; [|done]. unfold cut. rewrite blocks_app. simpl.
    by destruct (len cur - af =? n).
  - rewrite E. right. split; [done|]. by rewrite Hns.
Qed.
End Search.

(** C18: [alloc_aligned] implements first fit with alignment: the user pointer it returns is
    aligned, the block list becomes the specification's (padding, block and remainder cut out of
    one free block), the heap stays sound and no byte outside the new block changes, unless the
    links are exhausted. When nothing fits it does not fail: it returns the address past the end
    of the heap, counts the bytes as used and writes redzones there. *)
Theorem alloc_aligned_fits h ns size align fil lin : heap_ok h ns → 0 < size ≤ 2 ^ 62 →
  0 < align ≤ 2 ^ 31 - 16 → total ns < 2 ^ 63 →
  heap_base h + total ns + gross size + 2 ^ 32 < 2 ^ 64 →
  let n := gross size in let al := align64 align 16 in
  match fit_aligned (blocks ns) (heap_base h) n al with
  | Some (a, bs) =>
      (∃ h' ns', alloc_aligned h size align fil lin = Ok (a + 64, h') ∧ heap_ok h' ns' ∧
         blocks ns' = bs ∧ heap_base h' = heap_base h ∧ (a + 64) `mod` al = 0 ∧
         heap_base h ≤ a ∧ a + n ≤ heap_base h + total ns ∧
         ∀ x, ¬ (a ≤ x < a + n) → ram h' x = ram h x) ∨
      (alloc_aligned h size align fil lin = Fatal "Kifogyott a vmm bitmap!" ∧ (63 ≤ List.length ns)%nat)
  | None => ∃ h', alloc_aligned h size align fil lin = Ok (heap_base h + total ns + 64, h') ∧
      usedmem h' = u64 (usedmem h + n) ∧ ram h' (heap_base h + total ns) = VMM_REDZONE_MAGIC
  end.
Proof.
  intros [Hinv Hred Hm] Hs Ha Hbig Hend n al. destruct (gross_bounds size Hs) as (G1 & G2 & G3 & G4).
  pose proof (alignN_bounds 64 align 16 ltac:(lia) ltac:(lia) ltac:(lia) ltac:(lia)) as Hal.
  pose proof (alignN_mod 64 align 16 ltac:(lia) ltac:(lia) ltac:(lia) ltac:(lia)) as Halm.
  fold al in Hal, Halm. fold n in G1, G2, G3, G4, Hend.
  pose proof (inv_range _ _ Hinv) as (R1 & R2 & R3). pose proof (inv_len _ _ Hinv) as Hg.
  pose proof (total_nonneg _ Hg) as Ht0. pose proof (inv_length _ _ Hinv) as Hlen.
  pose proof (search_Ok (with_m h 1) ns (with_m_inv _ _ _ Hinv) n al fil lin G1 G2 ltac:(lia) Halm Hend Hbig
    ns [] (List.length (links h)) eq_refl) as H.
  assert (List.length (links h) = 85%nat) as Hl by apply (inv_shape _ _ Hinv).
  specialize (H ltac:(rewrite Hl; lia)). cbv zeta in H.
  change (heap_base (with_m h 1) + total []) with (heap_base h + 0) in H. rewrite Z.add_0_r in H.
  unfold alloc_aligned, VMM_MIN_ALLOC. fold al.
  assert (u32 al = al) as Eal by (apply uN_small; unfold is_uN; lia).
  assert (u64 (align64 size 16 + VMM_REDZONE_SIZE * 2) = n) as En by exact G4.
  assert (first h = hd_or None ns) as Hfi by apply (inv_shape _ _ Hinv).
  unfold guarded. rewrite Hm. cbn -[Z.mul align64 aligned_loop Z.add]. rewrite Eal, En, Hfi.
  destruct (fit_aligned (blocks ns) (heap_base h) n al) as [[a bs]|] eqn:Ef.
  2:{ simpl in H. rewrite H. cbn -[Z.add]. eexists.
      split; [f_equal; f_equal; unfold VMM_REDZONE_SIZE; apply uN_small; unfold is_uN; lia|].
      split; [done|]. simpl. rewrite fill_redzones_spec by lia. by rewrite bool_decide_eq_true_2 by lia. }
  apply goodb_blocks in Hg. pose proof (sumb_blocks ns) as Hsum.
  assert (cuts (blocks ns) (heap_base h) n al a bs) as Hcut
    by (apply fit_aligned_Some; try done; lia).
  destruct (cuts_sound _ _ _ _ _ _ Hcut Hg (inv_coalesced _ _ Hinv) G1 G2 Halm R2 ltac:(lia))
    as (Q1 & Q2 & Q3 & Q4).
  pose proof (cuts_redz (ram h) _ _ _ _ _ _ Hcut Hg G1 ltac:(lia) ltac:(lia)
    (proj2 (redz_blocks _ _ _) Hred)) as Q5.
  destruct Hcut as (P & l & Q & af & EP & Ea & Hle & Haf & Hmod & _).
  rewrite EP, sum_app in Hsum. simpl in Hsum. fold (sumb Q) in Hsum.
  rewrite EP in Hg. apply Forall_app in Hg as [HgP [_ HgQ]%Forall_cons].
  pose proof (sumb_nonneg _ HgP). pose proof (sumb_nonneg _ HgQ).
  destruct H as [(h1 & ns1 & E & Hsh & Hb & (Sc & Su & Sf & Sb & Sm & Sr))|[E Hfull]]; rewrite E;
    [left|by right]. simpl in Hb, Sc, Su, Sf, Sb, Sm, Sr. cbn -[Z.add].
  eexists _, ns1. split; [f_equal; f_equal; unfold VMM_REDZONE_SIZE; apply uN_small; unfold is_uN; lia|].
  split; [split; simpl; [|rewrite Sr, Sb; apply redz_blocks; by rewrite Hb|done]|].
  - eapply (heap_inv_intro h ns _ _ n Hinv); simpl; rewrite ?Hb, ?Su, ?Sf, ?Sb; try done.
    + destruct Hsh as [K1 K2 K3 K4 K5]. by split.
    + by rewrite Q3, sumb_blocks.
    + by rewrite Q4, usedb_blocks.
  - simpl. split_and!; try done; try lia. intros x Hx. rewrite Sr, fill_redzones_spec by lia.
    by rewrite bool_decide_eq_false_2 by lia.
Qed.

Lemma alloc_aligned_fits_witness :
  ∃ h' ns', alloc_aligned heap0 40 0x100 1 7 = Ok (0x10100, h') ∧ heap_ok h' ns' ∧
    blocks ns' = [(192, true); (176, false); (3728, true)].
Proof.
  pose proof (alloc_aligned_fits heap0 _ 40 0x100 1 7 heap0_ok ltac:(lia) ltac:(lia)) as H.
  specialize (H ltac:(vm_compute; reflexivity) ltac:(vm_compute; reflexivity)). cbv zeta in H.
  replace (fit_aligned (blocks [Node 0 4096 true]) (heap_base heap0) (gross 40) (align64 0x100 16))
    with (Some (0x100c0, [(192, true); (176, false); (3728, true)])) in H by (vm_compute; reflexivity).
  destruct H as [(h' & ns' & E & Hok & Hb & _)|[_ Hfull]]; [|simpl in Hfull; lia].
  exists h', ns'. split; [exact E|]. split; [exact Hok|exact Hb].
Defined.

(** A request larger than the heap is not refused: the pointer is behind the heap's last block. *)
Example alloc_aligned_past_end :
  match alloc_aligned heap0 8192 16 1 7 with Ok (p, h') => Some (p, usedmem h') | _ => None end = Some (heap_base heap0 + 4096 + 64, 8192 + 128).
Proof. vm_compute. reflexivity. Qed.
