(* ===== verification/Strings.v ===== *)
(** C strings ([util/string.hh], [util/string.cc], the filter of [config.hh]): lengths,
    comparisons, number parsing and the copying routines.

    A string that is only read is the list of its bytes before the terminator, and a pointer into
    it is a suffix of that list; the copying routines work on the byte memory of [Mem]. *)
From S2P Require Import Prelude Arith Mem.

(** ** Reading *)

(** [*s]: the terminator reads as 0. *)
Definition ch (s : list Z) : Z := match s with [] => 0 | c :: _ => c end.

Fixpoint strlen_loop (s : list Z) (len : Z) : Z :=
  match s with [] => len | _ :: s' => strlen_loop s' (u8 (len + 1)) end.
(** The result type is [u8]. *)
Definition strlen (s : list Z) : Z := strlen_loop s 0.

(** The same loop over 16-bit units. *)
Definition wstrlen (s : list Z) : Z := strlen_loop s 0.

Fixpoint strcmp (s1 s2 : list Z) : Z :=
  match s1, s2 with
  | c1 :: r1, c2 :: r2 => if negb (c1 =? c2) then 1 else strcmp r1 r2
  | _, _ => if negb (ch s1 =? ch s2) then 1 else 0
  end.

(** [while (chars-- && *s1 && *s2)] *)
Fixpoint strncmp_loop (s1 s2 : list Z) (chars : nat) : Z :=
  match chars, s1, s2 with
  | S chars', c1 :: r1, c2 :: r2 => if negb (c1 =? c2) then 1 else strncmp_loop r1 r2 chars'
  | _, _, _ => 0
  end.
Definition strncmp (s1 s2 : list Z) (chars : Z) : Z :=
  if (chars =? 0) || negb (ch s1 =? ch s2) then 1 else strncmp_loop s1 s2 (Z.to_nat chars).

(** The value a character adds to a number. *)
Definition digit_val (c : Z) : Z :=
  if ISUPPERCASE c then c - 65 + 10 else if ISLOWERCASE c then c - 97 + 10 else c - 48.

(** The loop condition of the number parsers. *)
Definition digit_ok (base c : Z) : bool :=
  ((base <=? 10) && ISDIGIT c) || ((10 <? base) && (ISLETTER c || ISDIGIT c)).

Fixpoint to_int_loop (s : list Z) (base ret : Z) : Z :=
  match s with
  | c :: s' => if digit_ok base c then to_int_loop s' base (i64 (i64 (ret * base) + digit_val c)) else ret
  | [] => ret
  end.

Definition str_to_int (str : list Z) (base : Z) : Z :=
  let '(neg, str) := match str with 45 :: s => (true, s) | _ => (false, str) end in
  let '(base, str) := match str with 48 :: 120 :: s => (16, s) | _ => (base, str) end in
  let ret := to_int_loop str base 0 in
  if neg : bool then i64 (ret * -1) else ret.

Fixpoint to_uint_loop (s : list Z) (base ret : Z) : Z :=
  match s with
  | c :: s' => if digit_ok base c then to_uint_loop s' base (u64 (u64 (ret * base) + digit_val c)) else ret
  | [] => ret
  end.

Definition str_to_uint (str : list Z) (base : Z) : res Z :=
  if ch str =? 45 then Fatal "str_to_uint on a negative" else
  let '(base, str) := match str with
    | 48 :: 120 :: s => (16, s)
    | 48 :: 48 :: s => (8, s)
    | 48 :: 98 :: s => (2, s)
    | _ => (base, str)
    end in
  Ok (to_uint_loop str base 0).

(** [cfg_willitprint(lvl, file)] with the level and the file list of [config.hh]. *)
Definition loglevel : Z := 0.
Definition bytes_of (s : string) : list Z := map (λ a, Z.of_N (Ascii.N_of_ascii a)) (String.list_ascii_of_string s).
Definition debug_files : list (list Z) :=
  map bytes_of ["ehci.cc"%string; "usb.cc"%string; "hub.cc"%string; "fat.cc"%string; "acpi.cc"%string; "aml.cc"%string].
Definition cfg_willitprint (lvl : Z) (file : list Z) : bool :=
  if lvl <? loglevel then false else
  if 0 <? lvl then true else
  existsb (λ f, strcmp f file =? 0) debug_files.

(** ** Copying *)

(** [src] is read through a pointer, [dest] is written in memory. *)
Fixpoint strcpy_loop (m : mem) (src : list Z) (dest len : Z) : mem * Z :=
  match src with
  | [] => (store8 m (dest + len) 0, len)
  | c :: r => strcpy_loop (store8 m (dest + len) c) r dest (u32 (len + 1))
  end.
Definition strcpy (m : mem) (src : list Z) (dest : Z) : mem * Z := strcpy_loop m src dest 0.

(** 16-bit units are cut to their low byte. *)
Fixpoint ucs2_loop (m : mem) (inp : list Z) (out count : Z) : mem * Z :=
  match inp with
  | [] => (store8 m (out + count) 0, count)
  | c :: r => ucs2_loop (store8 m (out + count) c) r out (u32 (count + 1))
  end.
Definition ucs2_to_ascii (m : mem) (inp : list Z) (out : Z) : mem * Z := ucs2_loop m inp out 0.

(** [inp] is the array of units; reading past it is a [Fault]. *)
Fixpoint asciin_loop (m : mem) (inp : list Z) (out : Z) (n : nat) : res mem :=
  match n with
  | O => Ok m
  | S n' => match inp with
            | [] => Fault
            | c :: r => asciin_loop (store8 m out c) r (out + 1) n'
            end
  end.
Definition ucs2_to_asciin (m : mem) (inp : list Z) (out n : Z) : res mem :=
  asciin_loop (store8 m (out + n) 0) inp out (Z.to_nat n).

(** [while ( *dest ) dest++] needs fuel: the memory need not hold a terminator. *)
Fixpoint skip_to_end (m : mem) (dest : Z) (fuel : nat) : res Z :=
  if m dest =? 0 then Ok dest else
  match fuel with O => NoFuel | S fuel => skip_to_end m (dest + 1) fuel end.
Definition strcat (fuel : nat) (m : mem) (dest : Z) (src : list Z) : res mem :=
  d ← skip_to_end m dest fuel;
  Ok (strcpy_loop m src d 0).1.

(** ** Lemmas *)

(** The bytes of a string: none is the terminator. *)
Definition cstr (s : list Z) : Prop := Forall (λ c, 0 < c < 256) s.

(** [m] holds the string [s] at [a]. *)
Definition holds (m : mem) (a : Z) (s : list Z) : Prop :=
  (∀ i c, s !! i = Some c → m (a + Z.of_nat i) = c) ∧ m (a + zlen s) = 0.

Lemma strlen_loop_mod s : ∀ n, 0 ≤ n < 256 → strlen_loop s n = (n + zlen s) `mod` 256.
Proof.
  induction s as [|c s IH]; intros n Hn; cbn [strlen_loop].
  - rewrite Z.add_0_r. by rewrite Z.mod_small.
  - rewrite IH by (apply Z.mod_pos_bound; lia). unfold uN. change (2 ^ 8) with 256.
    rewrite Zplus_mod_idemp_l. f_equal. simpl. lia.
Qed.

Lemma strlen_mod s : strlen s = zlen s `mod` 256.
Proof. unfold strlen. rewrite strlen_loop_mod by lia. done. Qed.

Lemma strcmp_0 s1 : ∀ s2, cstr s1 → cstr s2 → strcmp s1 s2 = 0 ↔ s1 = s2.
Proof.
  induction s1 as [|c1 r1 IH]; intros [|c2 r2] H1 H2; cbn [strcmp ch]; try done.
  - apply Forall_cons in H2 as [H2 _]. by replace (0 =? c2) with false by lia.
  - apply Forall_cons in H1 as [H1 _]. by replace (c1 =? 0) with false by lia.
  - apply Forall_cons in H1 as [_ H1], H2 as [_ H2].
    destruct (Z.eqb_spec c1 c2) as [->|Hne]; simpl.
    + rewrite IH by done. split; congruence.
    + split; congruence.
Qed.

Lemma strncmp_loop_0 s1 : ∀ s2 n, strncmp_loop s1 s2 n = 0 ↔
  take (Nat.min n (Nat.min (List.length s1) (List.length s2))) s1
  = take (Nat.min n (Nat.min (List.length s1) (List.length s2))) s2.
Proof.
  induction s1 as [|c1 r1 IH]; intros s2 n.
  { rewrite Nat.min_0_r. by destruct n. }
  destruct s2 as [|c2 r2]; [rewrite !Nat.min_0_r; by destruct n|].
  destruct n as [|n]; [done|]. cbn [strncmp_loop].
  destruct (Z.eqb_spec c1 c2) as [->|Hne]; simpl.
  - rewrite IH. split; congruence.
  - split; congruence.
Qed.

Lemma to_uint_loop_app base s1 : ∀ s2 r, Forall (λ c, digit_ok base c = true) s1 →
  to_uint_loop (s1 ++ s2) base r = to_uint_loop s2 base (to_uint_loop s1 base r).
Proof.
  induction s1 as [|c s1 IH]; intros s2 r Hd; [done|].
  apply Forall_cons in Hd as [Hc Hd]. cbn [app to_uint_loop]. rewrite Hc. by apply IH.
Qed.

(** Without overflow the loop is Horner's rule. *)
Lemma to_uint_loop_horner base s : 0 ≤ base → ∀ r, Forall (λ c, digit_ok base c = true) s → 0 ≤ r →
  foldl (λ r c, r * base + digit_val c) r s < 2 ^ 64 → Forall (λ c, 0 ≤ digit_val c) s →
  (0 < base) → to_uint_loop s base r = foldl (λ r c, r * base + digit_val c) r s.
Proof.
  intros Hb. induction s as [|c s IH]; intros r Hd Hr Ht Hv Hbp; [done|].
  apply Forall_cons in Hd as [Hc Hd]. apply Forall_cons in Hv as [Hvc Hv].
  cbn [to_uint_loop foldl]. rewrite Hc. cbn [foldl] in Ht.
  assert (∀ l x, 0 ≤ x → Forall (λ c, 0 ≤ digit_val c) l →
    x ≤ foldl (λ r c, r * base + digit_val c) x l) as Hmono.
  { clear -Hbp. induction l as [|d l IHl]; intros x Hx Hl; simpl; [lia|].
    apply Forall_cons in Hl as [Hd Hl].
    transitivity (x * base + digit_val d); [nia|apply IHl; [nia|done]]. }
  pose proof (Hmono s (r * base + digit_val c) ltac:(nia) Hv).
  rewrite (uN_small 64 (r * base)), uN_small by (unfold is_uN; nia).
  by apply IH; [..|nia| | |].
Qed.

(** ** Numerals *)

(** The digit character of a value, lower case. *)
Definition digit_chr (d : Z) : Z := if d <? 10 then 48 + d else 97 + d - 10.

(** The shortest numeral of [n] in [base], most significant digit first. *)
Fixpoint digits_aux (fuel : nat) (base n : Z) (acc : list Z) : list Z :=
  match fuel with
  | O => acc
  | S f => let acc := digit_chr (n `mod` base) :: acc in
           if n / base =? 0 then acc else digits_aux f base (n / base) acc
  end.
(** 64 digits are enough for every 64-bit value in every base from 2 on. *)
Definition digits (base n : Z) : list Z := digits_aux 64 base n [].

Lemma digit_chr_val d : 0 ≤ d < 36 → digit_val (digit_chr d) = d ∧ 48 ≤ digit_chr d < 123.
Proof.
  intros. unfold digit_val, digit_chr, ISUPPERCASE, ISLOWERCASE.
  destruct (Z.ltb_spec d 10).
  - replace (65 <=? 48 + d) with false by lia. simpl.
    replace (97 <=? 48 + d) with false by lia. simpl. lia.
  - replace (97 + d - 10 <=? 90) with false by lia. rewrite andb_false_r.
    replace (97 <=? 97 + d - 10) with true by lia.
    replace (97 + d - 10 <=? 122) with true by lia. simpl. lia.
Qed.

Lemma digit_chr_ok base d : 2 ≤ base ≤ 36 → 0 ≤ d < base → digit_ok base (digit_chr d) = true.
Proof.
  intros. unfold digit_ok, digit_chr, ISDIGIT, ISLETTER, ISLOWERCASE, ISUPPERCASE.
  destruct (Z.leb_spec base 10), (Z.ltb_spec d 10); lia.
Qed.

Section Digits.
Context (base : Z) (Hbase : 2 ≤ base ≤ 36).

Lemma digits_aux_split fuel : ∀ n acc, 0 ≤ n < base ^ Z.of_nat fuel → (0 < fuel)%nat →
  ∃ ds, digits_aux fuel base n acc = ds ++ acc ∧
    Forall (λ c, ∃ d, 0 ≤ d < base ∧ c = digit_chr d) ds ∧
    (∀ r, foldl (λ r c, r * base + digit_val c) r ds = r * base ^ zlen ds + n) ∧
    (0 < n → ∃ d ds', ds = digit_chr d :: ds' ∧ 0 < d < base) ∧ (n = 0 → ds = [48]).
Proof using Hbase.
  induction fuel as [|fuel IH]; intros n acc Hn Hf; [lia|]. cbn [digits_aux].
  pose proof (Z.mod_pos_bound n base ltac:(lia)) as Hm. pose proof (Z.div_mod n base ltac:(lia)) as Hd.
  pose proof (Z.div_pos n base ltac:(lia) ltac:(lia)) as Hp.
  destruct (digit_chr_val (n `mod` base)) as [Hv _]; [lia|].
  destruct (Z.eqb_spec (n / base) 0) as [E|E].
  - exists [digit_chr (n `mod` base)]. split_and!; [done| | | |].
    + repeat constructor. by exists (n `mod` base).
    + intros r. simpl. rewrite Hv, Z.pow_1_r. lia.
    + intros Hpos. exists (n `mod` base), []. split; [done|]. lia.
    + intros ->. by rewrite Zmod_0_l.
  - assert (0 < fuel)%nat as Hf'.
    { destruct fuel; [|lia]. simpl in Hn. exfalso. apply E. apply Z.div_small. lia. }
    destruct (IH (n / base) (digit_chr (n `mod` base) :: acc)) as (ds & Eds & H1 & H2 & H3 & _).
    { split; [done|]. apply Z.div_lt_upper_bound; [lia|].
      rewrite Nat2Z.inj_succ, Z.pow_succ_r in Hn by lia. lia. }
    { done. }
    exists (ds ++ [digit_chr (n `mod` base)]). split_and!.
    + by rewrite Eds, <- app_assoc.
    + apply Forall_app. split; [done|]. repeat constructor. by exists (n `mod` base).
    + intros r. rewrite foldl_app, H2, length_app. simpl. rewrite Hv.
      rewrite Nat2Z.inj_add, Z.pow_add_r by lia. simpl. rewrite Z.pow_1_r. lia.
    + intros _. destruct (H3 ltac:(lia)) as (d & ds' & -> & Hd0). by exists d, (ds' ++ [digit_chr (n `mod` base)]).
    + intros ->. by rewrite Zdiv_0_l in E.
Qed.
End Digits.

Lemma digits_spec base n : 2 ≤ base ≤ 36 → 0 ≤ n < 2 ^ 64 →
  Forall (λ c, ∃ d, 0 ≤ d < base ∧ c = digit_chr d) (digits base n) ∧
  foldl (λ r c, r * base + digit_val c) 0 (digits base n) = n ∧
  (0 < n → ∃ d ds, digits base n = digit_chr d :: ds ∧ 0 < d < base) ∧
  (n = 0 → digits base n = [48]).
Proof.
  intros Hb Hn. destruct (digits_aux_split base Hb 64 n []) as (ds & E & H1 & H2 & H3 & H4).
  - split; [lia|]. assert (2 ^ 64 ≤ base ^ Z.of_nat 64); [|lia].
    change (Z.of_nat 64) with 64. apply Z.pow_le_mono_l. lia.
  - lia.
  - unfold digits. rewrite E, app_nil_r. split_and!; try done.
Qed.

Lemma to_uint_digits base n : 2 ≤ base ≤ 36 → 0 ≤ n < 2 ^ 64 → to_uint_loop (digits base n) base 0 = n.
Proof.
  intros Hb Hn. destruct (digits_spec base n Hb Hn) as (H1 & H2 & _).
  rewrite to_uint_loop_horner; [done|lia| |lia|lia| |lia].
  - eapply Forall_impl; [exact H1|]. intros c (d & Hd & ->). by apply digit_chr_ok.
  - eapply Forall_impl; [exact H1|]. intros c (d & Hd & ->).
    destruct (digit_chr_val d) as [-> _]; lia.
Qed.

(** ** Properties *)

(** [strcmp] returns 0 exactly on equal strings, and [strncmp] returns 0 exactly when the
    count is positive, the first characters agree and the strings agree on the characters both
    have within the count: a string and its proper prefix compare equal. *)
Lemma strcmp_strncmp s1 s2 n : cstr s1 → cstr s2 → 0 ≤ n →
  (strcmp s1 s2 = 0 ↔ s1 = s2) ∧
  (strncmp s1 s2 n = 0 ↔ 0 < n ∧ ch s1 = ch s2 ∧
     let k := Nat.min (Z.to_nat n) (Nat.min (List.length s1) (List.length s2)) in
     take k s1 = take k s2).
Proof.
  intros H1 H2 Hn. split; [by apply strcmp_0|]. unfold strncmp.
  destruct (Z.eqb_spec n 0) as [->|Hne]; simpl; [split; [done|lia]|].
  destruct (Z.eqb_spec (ch s1) (ch s2)); simpl; [|split; [done|tauto]].
  rewrite strncmp_loop_0. split; [intros H; split_and!; (lia || done)|tauto].
Qed.

Lemma strcmp_strncmp_witness :
  strncmp (bytes_of "/mnt/usb") (bytes_of "/mnt") 8 = 0 ∧ strcmp (bytes_of "/mnt/usb") (bytes_of "/mnt") ≠ 0.
Proof.
  assert (cstr (bytes_of "/mnt/usb")) as H1 by (repeat constructor).
  assert (cstr (bytes_of "/mnt")) as H2 by (repeat constructor).
  destruct (strcmp_strncmp (bytes_of "/mnt/usb") (bytes_of "/mnt") 8 H1 H2) as [Ha Hb]; [lia|].
  split; [apply Hb; split; [lia|split; vm_compute; reflexivity]|].
  intros E. apply Ha in E. discriminate E.
Defined.

(** [str_to_uint] reads back the decimal numeral of every 64-bit value. *)
Lemma str_to_uint_decimal n : 0 ≤ n < 2 ^ 64 → str_to_uint (digits 10 n) 10 = Ok n.
Proof.
  intros Hn. pose proof (to_uint_digits 10 n ltac:(lia) Hn) as Hv.
  destruct (digits_spec 10 n ltac:(lia) Hn) as (H1 & H2 & H3 & H4).
  destruct (decide (n = 0)) as [->|Hne]; [by vm_compute|].
  destruct H3 as (d & ds & E & Hd); [lia|]. rewrite E in *.
  destruct (digit_chr_val d) as [_ Hc]; [lia|].
  assert (digit_chr d = 48 + d) as Ed by (unfold digit_chr; by replace (d <? 10) with true by lia).
  assert (d = 1 ∨ d = 2 ∨ d = 3 ∨ d = 4 ∨ d = 5 ∨ d = 6 ∨ d = 7 ∨ d = 8 ∨ d = 9) as Hcases by lia.
  rewrite <- Hv. unfold str_to_uint. rewrite Ed in *.
  destruct Hcases as [->|[->|[->|[->|[->|[->|[->|[->| ->]]]]]]]]; reflexivity.
Qed.

(** ** Copying *)

Lemma strcpy_loop_spec src : ∀ m dest len, cstr src → 0 ≤ len → len + zlen src < 2 ^ 32 →
  (strcpy_loop m src dest len).2 = len + zlen src ∧
  ∀ x, (strcpy_loop m src dest len).1 x =
    if bool_decide (dest + len ≤ x < dest + len + zlen src)
    then default 0 (src !! Z.to_nat (x - (dest + len)))
    else if x =? dest + len + zlen src then 0 else m x.
Proof.
  induction src as [|c r IH]; intros m dest len Hs Hl Ht; cbn [strcpy_loop].
  { simpl. split; [lia|]. intros x. rewrite bool_decide_eq_false_2 by lia. unfold store8.
    by rewrite !Z.add_0_r. }
  apply Forall_cons in Hs as [Hc Hs]. cbn [length] in *.
  rewrite (uN_small 32 (len + 1)) by (unfold is_uN; lia).
  destruct (IH (store8 m (dest + len) c) dest (len + 1) Hs) as [E1 E2]; [lia|lia|].
  split; [lia|]. intros x. rewrite E2. unfold store8. rewrite (uN_small 8 c) by (unfold is_uN; lia).
  replace (dest + (len + 1) + zlen r) with (dest + len + Z.of_nat (S (List.length r))) by lia.
  case_bool_decide as H1; case_bool_decide as H2; try lia.
  - replace (Z.to_nat (x - (dest + len))) with (S (Z.to_nat (x - (dest + (len + 1))))) by lia. done.
  - replace x with (dest + len) by lia. rewrite Z.sub_diag, Z.eqb_refl.
    destruct (Z.eqb_spec (dest + len) (dest + len + Z.of_nat (S (List.length r)))); [lia|done].
  - destruct (Z.eqb_spec x (dest + len + Z.of_nat (S (List.length r)))); [done|].
    by replace (x =? dest + len) with false by lia.
Qed.

Lemma skip_to_end_Ok m dest s : holds m dest s → cstr s → ∀ fuel, (List.length s ≤ fuel)%nat →
  skip_to_end m dest fuel = Ok (dest + zlen s).
Proof.
  intros [H1 H2] Hs. revert dest H1 H2. induction s as [|c s IH]; intros dest H1 H2 fuel Hf.
  - simpl in H2. rewrite Z.add_0_r in *. destruct fuel; cbn [skip_to_end]; by rewrite H2.
  - apply Forall_cons in Hs as [Hc Hs]. destruct fuel as [|fuel]; [simpl in Hf; lia|].
    cbn [skip_to_end]. pose proof (H1 0%nat c eq_refl) as H0.
    replace (dest + Z.of_nat 0) with dest in H0 by lia. rewrite H0. replace (c =? 0) with false by lia. rewrite IH.
    + f_equal. simpl. lia.
    + done.
    + intros i d Hi. rewrite <- (H1 (S i) d Hi). f_equal. lia.
    + rewrite <- H2. f_equal. simpl. lia.
    + simpl in Hf. lia.
Qed.

(** The function [strcat] appends: if [dest] holds a string, afterwards it holds that string followed by
    [src], terminated, and no byte outside the old terminator and the new characters changed;
    the walk to the old terminator ends. *)
Lemma strcat_appends m dest s src fuel : holds m dest s → cstr s → cstr src →
  zlen src < 2 ^ 32 → (List.length s ≤ fuel)%nat →
  ∃ m', strcat fuel m dest src = Ok m' ∧ holds m' dest (s ++ src) ∧
    ∀ x, ¬ (dest + zlen s ≤ x ≤ dest + zlen s + zlen src) → m' x = m x.
Proof.
  intros Hh Hs Hsrc Hl Hf. unfold strcat. rewrite (skip_to_end_Ok m dest s Hh Hs fuel Hf). cbn.
  destruct (strcpy_loop_spec src m (dest + zlen s) 0 Hsrc ltac:(lia) ltac:(lia)) as [_ E].
  eexists. split; [done|]. rewrite Z.add_0_r in E. split; [split|].
  - intros i c Hi. rewrite E. destruct (decide (i < List.length s)%nat) as [Hlt|Hge].
    + rewrite lookup_app_l in Hi by done. rewrite bool_decide_eq_false_2 by lia.
      destruct (Z.eqb_spec (dest + Z.of_nat i) (dest + zlen s + zlen src)); [lia|]. by apply Hh.
    + rewrite lookup_app_r in Hi by lia. pose proof (lookup_lt_Some _ _ _ Hi).
      rewrite bool_decide_eq_true_2 by lia.
      replace (Z.to_nat _) with (i - List.length s)%nat by lia. by rewrite Hi.
  - rewrite E, length_app, Nat2Z.inj_add, Z.add_assoc.
    rewrite bool_decide_eq_false_2 by lia. by rewrite Z.eqb_refl.
  - intros x Hx. rewrite E, bool_decide_eq_false_2 by lia.
    destruct (Z.eqb_spec x (dest + zlen s + zlen src)); [lia|done].
Qed.

Lemma strcat_appends_witness :
  let m : mem := λ x, if x =? 0x100 then 97 else 0 in
  ∃ m', strcat 5 m 0x100 [98; 99] = Ok m' ∧ holds m' 0x100 [97; 98; 99].
Proof.
  intros m. assert (holds m 0x100 [97]) as Hh.
  { split; [|reflexivity]. intros [|[|i]] c Hi; simplify_eq/=; reflexivity. }
  destruct (strcat_appends m 0x100 [97] [98; 99] 5 Hh) as (m' & E & H & _);
    [repeat constructor|repeat constructor|simpl; lia|simpl; lia|].
  exists m'. split; [exact E|exact H].
Defined.
