(* ===== verification/Vector.v ===== *)
(** [Vector<T>] ([util/storage.hh]): a growable array on the kernel heap.  The buffer is the list
    of its cells, [None] for a cell that holds no constructed element; a buffer for [n] elements
    has the cells its heap block has room for, since the heap rounds a request up to 16 bytes.
    Whether [_gtryrealloc] can grow a block in place depends on the heap: it is the argument
    [inplace] of the operations that may reallocate. *)
From S2P Require Import Prelude Arith.

(** [growfun] *)
Definition growfun (cap : Z) : Z := if cap =? 0 then 8 else u64 (cap * 2).

Record Vector (A : Type) := mkVec { data : option (list (option A)); size : Z; capacity : Z }.
Arguments mkVec {_} _ _ _.
Arguments data {_} _.
Arguments size {_} _.
Arguments capacity {_} _.

Section Vec.
Context {A : Type} (sizeT : Z) (dflt : A).
Implicit Types v o : Vector A.

(** ** Storage *)

(** Elements the block for [n] of them has room for. *)
Definition room (n : Z) : Z := align64 (u64 (n * sizeT)) 16 / sizeT.

(** [(T* )_galloc(n * sizeof(T))]: [nullptr] for no bytes.  The model is of runs in which the heap
    has room; the heap's own failures are those of [Heap.alloc]. *)
Definition galloc (n : Z) : option (list (option A)) :=
  if n =? 0 then None else Some (replicate (Z.to_nat (room n)) None).

(** [data[i]] *)
Definition rd v (i : Z) : res A :=
  buf ← deref (data v); c ← deref (zlookup buf i); deref c.
(** Constructing or assigning [data[i]]. *)
Definition wr v (i : Z) (a : A) : res (Vector A) :=
  buf ← deref (data v); deref (zlookup buf i);;
  Ok (mkVec (Some (zinsert buf i (Some a))) (size v) (capacity v)).
(** [data[i].~T()] *)
Definition destroy v (i : Z) : res (Vector A) :=
  buf ← deref (data v); deref (zlookup buf i);;
  Ok (mkVec (Some (zinsert buf i None)) (size v) (capacity v)).

(** ** Operations *)

Definition new_default : Vector A := mkVec None 0 0.
Definition new_cap (cap : Z) : Vector A := mkVec (galloc cap) 0 cap.

Definition reserve (inplace : bool) v (cap : Z) : res (Vector A) :=
  let cap := if cap <? size v then size v else cap in
  match data v with
  | None => if cap =? 0 then Ok (mkVec None (size v) cap)
            else Ok (mkVec (galloc cap) (size v) cap)
  | Some buf =>
      if inplace then
        Ok (mkVec (Some (buf ++ replicate (Z.to_nat (room cap) - length buf) None)) (size v) cap)
      else if 2 ^ 32 <=? size v then Hang
      else if zlen buf <? size v then Fault
      else match galloc cap with
           | None => Ok (mkVec None (size v) cap)
           | Some new =>
               Ok (mkVec (Some (take (Z.to_nat (size v)) buf ++ drop (Z.to_nat (size v)) new)) (size v) cap)
           end
  end.

Definition at_ v (idx : Z) : res A :=
  if size v <? idx then Fatal "vector access out of bounds!" else
  match data v with
  | None => Fatal "vector data null (uninitialized)!"
  | Some _ => rd v idx
  end.

Definition last_ v : res A := rd v (u64 (size v - 1)).

(** [data[size++] = a] once there is room. *)
Definition append v (a : A) : res (Vector A) :=
  v ← wr v (size v) a; Ok (mkVec (data v) (u64 (size v + 1)) (capacity v)).

Definition push_back (inplace : bool) v (a : A) : res (Vector A) :=
  v ← (if capacity v <=? size v then reserve inplace v (growfun (capacity v)) else Ok v);
  append v a.

Definition emplace_back (inplace : bool) v (a : A) : res (Vector A) :=
  v ← (if capacity v <=? size v then reserve inplace v (growfun (capacity v)) else Ok v);
  match data v with
  | None => if (size v =? 0) && (capacity v =? 0) then append v a
            else Fatal "Invalid vector state: data is null"
  | Some _ => append v a
  end.

(** [operator+=(T c)] *)
Definition add (inplace : bool) v (c : A) : res (Vector A) :=
  v ← reserve inplace v (u64 (size v + 1)); append v c.

(** [while (size != to) data[--size].~T()], [k = size - to] rounds. *)
Fixpoint shrink v (k : nat) : res (Vector A) :=
  match k with
  | O => Ok v
  | S k' => let s := u64 (size v - 1) in
            v ← destroy v s; shrink (mkVec (data v) s (capacity v)) k'
  end.
(** [while (size != to) new (&data[size++]) T()] *)
Fixpoint extend v (k : nat) : res (Vector A) :=
  match k with
  | O => Ok v
  | S k' => v ← append v dflt; extend v k'
  end.
Definition resize (inplace : bool) v (to : Z) : res (Vector A) :=
  v ← reserve inplace v to;
  if to <? size v then shrink v (Z.to_nat (size v - to))
  else extend v (Z.to_nat (to - size v)).

(** The popped element stays in its cell. *)
Definition pop v : res (A * Vector A) :=
  if size v =? 0 then Fatal "Tried to pop an empty stack!" else
  let v := mkVec (data v) (u64 (size v - 1)) (capacity v) in
  a ← rd v (size v); Ok (a, v).

(** [data[idx] = data[size--]] *)
Definition swap_remove v (idx : Z) : res (Vector A) :=
  if size v <=? idx then Fatal "swap_remove: idx out of bounds!" else
  a ← rd v (size v);
  let v := mkVec (data v) (u64 (size v - 1)) (capacity v) in
  wr v idx a.

(** [for (i = 0; i < o.size; i++) new (&data[i]) T(o[i])], [k] rounds from [i] on. *)
Fixpoint copy_from v o (i : Z) (k : nat) : res (Vector A) :=
  match k with
  | O => Ok v
  | S k' => a ← at_ o i; v ← wr v i a; copy_from v o (i + 1) k'
  end.

Definition copy_new o : res (Vector A) :=
  v ← reserve false new_default (capacity o);
  let v := mkVec (data v) (size o) (capacity v) in
  copy_from v o 0 (Z.to_nat (size o)).

(** [for (e : *this) e.~T()] *)
Fixpoint destroy_all v (i : Z) (k : nat) : res (Vector A) :=
  match k with
  | O => Ok v
  | S k' => v ← destroy v i; destroy_all v (i + 1) k'
  end.

Definition assign (inplace : bool) v o : res (Vector A) :=
  v ← destroy_all v 0 (Z.to_nat (size v));
  v ← reserve inplace v (capacity o);
  let v := mkVec (data v) (size o) (capacity v) in
  copy_from v o 0 (Z.to_nat (size o)).

(** The moved-from vector is left empty. *)
Definition move_new o : Vector A * Vector A := (mkVec (data o) (size o) (capacity o), mkVec None 0 0).
Definition move_assign v o : res (Vector A * Vector A) :=
  destroy_all v 0 (Z.to_nat (size v));; Ok (move_new o).

(** [Vector(std::initializer_list<T> items)] *)
Fixpoint emplace_all v (items : list A) : res (Vector A) :=
  match items with
  | [] => Ok v
  | a :: r => v ← emplace_back false v a; emplace_all v r
  end.
Definition of_list (items : list A) : res (Vector A) :=
  let cap := align64 (zlen items) 8 in
  if cap =? 0 then Ok (mkVec None 0 0) else emplace_all (new_cap cap) items.

Fixpoint eq_loop (eqb : A → A → bool) v o (i : Z) (k : nat) : res bool :=
  match k with
  | O => Ok true
  | S k' => a ← rd v i; b ← rd o i;
            if eqb a b then eq_loop eqb v o (i + 1) k' else Ok false
  end.
Definition eq (eqb : A → A → bool) v o : res bool :=
  if negb (size o =? size v) then Ok false else eq_loop eqb v o 0 (Z.to_nat (size v)).

(** ** The list a vector stands for *)

(** The first [size] cells hold the elements; the block has room for [capacity] of them. *)
Record repr v (l : list A) : Prop := {
  repr_size : size v = zlen l;
  repr_cap : size v ≤ capacity v;
  repr_max : capacity v < 2 ^ 32;
  repr_data : match data v with
              | None => l = [] ∧ capacity v = 0
              | Some buf => capacity v ≤ zlen buf ∧ take (length l) buf = map Some l
              end }.

Context (HsizeT : 0 < sizeT ≤ 2 ^ 16).

Lemma room_ge n : 0 ≤ n < 2 ^ 40 → n ≤ room n.
Proof using HsizeT.
  intros. unfold room. rewrite uN_small by (unfold is_uN; nia).
  apply Z.div_le_lower_bound; [lia|].
  pose proof (alignN_bounds 64 (n * sizeT) 16 ltac:(lia) ltac:(lia) ltac:(nia) ltac:(nia)). lia.
Qed.

Lemma galloc_Some n : 0 < n < 2 ^ 40 → ∃ buf, galloc n = Some buf ∧ n ≤ zlen buf.
Proof using HsizeT.
  intros. unfold galloc. replace (n =? 0) with false by lia. eexists. split; [done|].
  rewrite length_replicate. pose proof (room_ge n). lia.
Qed.

Lemma repr_new_cap n : 0 ≤ n < 2 ^ 32 → repr (new_cap n) [].
Proof using HsizeT.
  intros. unfold new_cap. split; simpl; [done|lia|lia|].
  destruct (decide (n = 0)) as [->|]; [done|].
  destruct (galloc_Some n) as (buf & -> & Hb); [lia|]. done.
Qed.

(** Reserving never changes the elements, whether the block grows in place or moves. *)
Lemma reserve_Ok inplace v l cap : repr v l → cap < 2 ^ 32 →
  ∃ v', reserve inplace v cap = Ok v' ∧ repr v' l ∧ capacity v' = Z.max cap (size v).
Proof using HsizeT.
  intros [Hs Hc Hm Hd] Hcap. unfold reserve.
  assert ((if cap <? size v then size v else cap) = Z.max cap (size v)) as -> by
    (destruct (Z.ltb_spec cap (size v)); lia).
  set (c := Z.max cap (size v)). assert (0 ≤ c < 2 ^ 32) as Hcr by lia.
  destruct (data v) as [buf|].
  - destruct Hd as [Hb Ht]. destruct inplace.
    + eexists. split; [done|]. split; [|done]. pose proof (room_ge c ltac:(lia)).
      split; simpl; [done|lia|lia|]. rewrite length_app, length_replicate. split; [lia|].
      rewrite take_app_le by lia. done.
    + replace (2 ^ 32 <=? size v) with false by lia. replace (zlen buf <? size v) with false by lia.
      destruct (decide (c = 0)) as [Ec|Ec].
      * unfold galloc. replace (c =? 0) with true by lia. eexists. split; [done|]. split; [|done].
        split; simpl; [done|lia|lia|]. split; [|lia]. apply nil_length_inv. lia.
      * destruct (galloc_Some c) as (new & -> & Hn); [lia|]. eexists. split; [done|]. split; [|done].
        split; simpl; [done|lia|lia|]. rewrite length_app, length_take, length_drop. split; [lia|].
        replace (Z.to_nat (size v)) with (length l) by lia.
        rewrite take_app_le by (rewrite length_take; lia). rewrite take_take.
        rewrite Nat.min_id. done.
  - destruct Hd as [-> Hz]. simpl in Hs. destruct (Z.eqb_spec c 0) as [Ec|Ec].
    + eexists. split; [done|]. split; [|done]. split; simpl; [done|lia|lia|]. split; [done|lia].
    + destruct (galloc_Some c) as (new & -> & Hn); [lia|]. eexists. split; [done|]. split; [|done].
      split; simpl; [done|lia|lia|]. split; [lia|done].
Qed.

Lemma append_Ok v l a : repr v l → size v < capacity v →
  ∃ v', append v a = Ok v' ∧ repr v' (l ++ [a]) ∧ capacity v' = capacity v.
Proof using.
  intros [Hs Hc Hm Hd] Hlt. unfold append, wr. destruct (data v) as [buf|]; [|lia].
  destruct Hd as [Hb Ht]. cbn. destruct (zlookup_in buf (size v)) as [c Ec]; [lia|]. rewrite Ec. cbn.
  rewrite uN_small by (unfold is_uN; lia).
  eexists. split; [done|]. split; [|done]. split; simpl.
  - rewrite length_app. simpl. lia.
  - lia.
  - lia.
  - rewrite zinsert_length. split; [lia|]. rewrite zinsert_Z by lia.
    replace (Z.to_nat (size v)) with (length l) by lia. rewrite length_app, map_app. simpl.
    rewrite Nat.add_1_r. erewrite take_S_r by (apply list_lookup_insert_eq; lia).
    rewrite take_insert_ge by lia. by rewrite Ht.
Qed.

Lemma rd_Ok v l i a : repr v l → 0 ≤ i → l !! Z.to_nat i = Some a → rd v i = Ok a.
Proof using.
  intros [Hs Hc Hm Hd] Hi Hl. pose proof (lookup_lt_Some _ _ _ Hl) as Hlt. unfold rd.
  destruct (data v) as [buf|]; [|by destruct Hd as [-> _]]. destruct Hd as [Hb Ht]. cbn.
  rewrite zlookup_Z by done.
  assert (buf !! Z.to_nat i = Some (Some a)) as ->; [|done].
  rewrite <- (lookup_take_lt _ (length l)), Ht by done. by rewrite list_lookup_fmap, Hl.
Qed.

Lemma growfun_bounds c : 0 ≤ c < 2 ^ 31 → c < growfun c < 2 ^ 32.
Proof.
  intros. unfold growfun. destruct (Z.eqb_spec c 0); [lia|].
  rewrite uN_small by (unfold is_uN; lia). lia.
Qed.

Lemma push_back_Ok inplace v l a : repr v l → capacity v < 2 ^ 31 →
  ∃ v', push_back inplace v a = Ok v' ∧ repr v' (l ++ [a]) ∧
    capacity v' = if capacity v <=? size v then growfun (capacity v) else capacity v.
Proof using HsizeT.
  intros Hr Hc. pose proof (repr_cap _ _ Hr) as Hrc. pose proof (repr_size _ _ Hr) as Hrs. unfold push_back.
  pose proof (growfun_bounds (capacity v) ltac:(lia)).
  destruct (Z.leb_spec (capacity v) (size v)).
  - destruct (reserve_Ok inplace v l (growfun (capacity v)) Hr) as (v1 & -> & Hr1 & Hc1); [lia|]. cbn.
    destruct (append_Ok v1 l a Hr1) as (v2 & -> & Hr2 & Hc2).
    { rewrite Hc1, (repr_size _ _ Hr1), <- Hrs. lia. }
    exists v2. split_and!; [done|done|]. lia.
  - cbn. destruct (append_Ok v l a Hr) as (v2 & -> & Hr2 & Hc2); [lia|]. by exists v2.
Qed.

Lemma destroy_last v l a : repr v (l ++ [a]) →
  ∃ v', destroy v (u64 (size v - 1)) = Ok v' ∧
    repr (mkVec (data v') (u64 (size v - 1)) (capacity v')) l ∧ capacity v' = capacity v.
Proof using.
  intros [Hs Hc Hm Hd]. rewrite length_app in *. simpl in Hs, Hd.
  rewrite (uN_small 64 (size v - 1)) by (unfold is_uN; lia). unfold destroy.
  destruct (data v) as [buf|]; [|by destruct Hd as [? _]; destruct l]. destruct Hd as [Hb Ht]. cbn.
  destruct (zlookup_in buf (size v - 1)) as [c ->]; [lia|]. cbn. eexists. split; [done|].
  split; [|done]. split; simpl; [lia|lia|lia|]. rewrite zinsert_length. split; [lia|].
  rewrite zinsert_Z by lia. rewrite take_insert_ge by lia.
  rewrite Nat.add_1_r in Ht. apply (f_equal (take (length l))) in Ht.
  rewrite take_take, Nat.min_l in Ht by lia. rewrite Ht, map_app, take_app_le by (rewrite length_map; lia).
  by rewrite firstn_all2 by (rewrite length_map; lia).
Qed.

Lemma shrink_Ok k : ∀ v l, repr v l → (k ≤ length l)%nat →
  ∃ v', shrink v k = Ok v' ∧ repr v' (take (length l - k) l) ∧ capacity v' = capacity v.
Proof using.
  induction k as [|k IH]; intros v l Hr Hk; cbn [shrink].
  { exists v. rewrite Nat.sub_0_r, firstn_all2 by lia. done. }
  destruct l as [|a l _] using rev_ind; [simpl in Hk; lia|]. rewrite length_app in *. simpl in *.
  destruct (destroy_last v l a Hr) as (v1 & -> & Hr1 & Hc1). cbn.
  destruct (IH _ l Hr1) as (v2 & -> & Hr2 & Hc2); [lia|]. exists v2. split; [done|].
  simpl in Hc2. split; [|congruence]. rewrite take_app_le by lia.
  by replace (length l + 1 - S k)%nat with (length l - k)%nat by lia.
Qed.

Lemma extend_Ok k : ∀ v l, repr v l → size v + Z.of_nat k ≤ capacity v →
  ∃ v', extend v k = Ok v' ∧ repr v' (l ++ replicate k dflt) ∧ capacity v' = capacity v.
Proof using.
  induction k as [|k IH]; intros v l Hr Hk; cbn [extend].
  { exists v. by rewrite app_nil_r. }
  destruct (append_Ok v l dflt Hr) as (v1 & -> & Hr1 & Hc1); [lia|]. cbn.
  destruct (IH v1 (l ++ [dflt]) Hr1) as (v2 & -> & Hr2 & Hc2).
  { pose proof (repr_size _ _ Hr1) as E. rewrite length_app in E. simpl in E.
    pose proof (repr_size _ _ Hr). lia. }
  exists v2. split; [done|]. rewrite <- app_assoc in Hr2. split; [done|congruence].
Qed.

Lemma resize_Ok inplace v l to : repr v l → 0 ≤ to < 2 ^ 32 →
  ∃ v', resize inplace v to = Ok v' ∧
    repr v' (take (Z.to_nat to) l ++ replicate (Z.to_nat to - length l) dflt).
Proof using HsizeT.
  intros Hr Ht. unfold resize. pose proof (repr_size _ _ Hr) as Hs.
  destruct (reserve_Ok inplace v l to Hr) as (v1 & -> & Hr1 & Hc1); [lia|]. cbn.
  pose proof (repr_size _ _ Hr1) as Hs1. destruct (Z.ltb_spec to (size v1)).
  - destruct (shrink_Ok (Z.to_nat (size v1 - to)) v1 l Hr1) as (v2 & -> & Hr2 & _); [lia|].
    exists v2. split; [done|]. replace (Z.to_nat to - length l)%nat with 0%nat by lia.
    rewrite app_nil_r. by replace (Z.to_nat to) with (length l - Z.to_nat (size v1 - to))%nat by lia.
  - destruct (extend_Ok (Z.to_nat (to - size v1)) v1 l Hr1) as (v2 & -> & Hr2 & _); [lia|].
    exists v2. split; [done|]. rewrite firstn_all2 by lia.
    by replace (Z.to_nat to - length l)%nat with (Z.to_nat (to - size v1)) by lia.
Qed.

Lemma pop_Ok v l a : repr v (l ++ [a]) → ∃ v', pop v = Ok (a, v') ∧ repr v' l.
Proof using.
  intros Hr. pose proof (repr_size _ _ Hr) as Hs. rewrite length_app in Hs. simpl in Hs. unfold pop.
  replace (size v =? 0) with false by lia. pose proof (repr_cap _ _ Hr). pose proof (repr_max _ _ Hr).
  rewrite uN_small by (unfold is_uN; lia). simpl.
  assert (rd v (size v - 1) = Ok a) as E.
  { apply (rd_Ok v (l ++ [a])); [done|lia|]. rewrite lookup_app_r by lia.
    by replace (Z.to_nat (size v - 1) - length l)%nat with 0%nat by lia. }
  unfold rd in *. simpl. rewrite E. cbn. eexists. split; [done|].
  destruct Hr as [_ Hc Hm Hd]. split; simpl; [lia|lia|done|].
  rewrite length_app in Hd. simpl in Hd. destruct (data v) as [buf|]; [|by destruct Hd as [? _]; destruct l].
  destruct Hd as [Hb Ht]. split; [done|]. rewrite Nat.add_1_r in Ht.
  apply (f_equal (take (length l))) in Ht. rewrite take_take, Nat.min_l in Ht by lia.
  rewrite Ht, map_app, take_app_le by (rewrite length_map; lia).
  by rewrite firstn_all2 by (rewrite length_map; lia).
Qed.

Lemma at_Ok v l i a : repr v l → 0 ≤ i → l !! Z.to_nat i = Some a → at_ v i = Ok a.
Proof using.
  intros Hr Hi Hl. unfold at_. pose proof (lookup_lt_Some _ _ _ Hl). pose proof (repr_size _ _ Hr).
  replace (size v <? i) with false by lia. rewrite (rd_Ok v l i a) by done.
  pose proof (repr_data _ _ Hr) as Hd. destruct (data v); [done|]. by destruct Hd as [-> _].
Qed.

Lemma copy_from_Ok o lo : repr o lo → ∀ k i v l, (k + i = length lo)%nat → length l = i →
  take i lo = l → size v = zlen lo → size v ≤ capacity v → capacity v < 2 ^ 32 →
  (match data v with None => length lo = 0%nat ∧ capacity v = 0
   | Some buf => capacity v ≤ zlen buf ∧ take i buf = map Some l end) →
  ∃ v', copy_from v o (Z.of_nat i) k = Ok v' ∧ repr v' lo.
Proof using.
  intros Ho. induction k as [|k IH]; intros i v l Hk Hi Hl Hs Hc Hm Hd; cbn [copy_from].
  - exists v. split; [done|]. rewrite firstn_all2 in Hl by lia. subst l. split; try done.
    destruct (data v); [|by destruct Hd as [?%nil_length_inv ?]]. simpl in Hk. by rewrite <- Hk.
  - destruct (lookup_lt_is_Some_2 lo i) as [a Ha]; [lia|].
    rewrite (at_Ok o lo (Z.of_nat i) a Ho) by (rewrite ?Nat2Z.id; done || lia). cbn.
    unfold wr. destruct (data v) as [buf|]; [|lia]. destruct Hd as [Hb Ht]. cbn.
    destruct (zlookup_in buf (Z.of_nat i)) as [c ->]; [lia|]. cbn.
    replace (Z.of_nat i + 1) with (Z.of_nat (S i)) by lia.
    apply (IH (S i) _ (l ++ [a])); simpl; try done; [lia|rewrite length_app; simpl; lia| |].
    + rewrite (take_S_r _ _ a Ha). by rewrite Hl.
    + rewrite zinsert_length. split; [lia|]. rewrite zinsert_Z, Nat2Z.id by lia.
      erewrite take_S_r by (apply list_lookup_insert_eq; lia).
      rewrite take_insert_ge by lia. by rewrite Ht, map_app.
Qed.
End Vec.

(** ** Properties *)

(** C22: a vector behaves as a list, whether or not the heap can grow its block in place:
    [push_back] appends, then [pop] returns the element and restores the list, [operator[]] reads
    it, [resize] truncates or pads with default elements, and copying makes an equal list. *)
Theorem vector_is_list {A} (sizeT : Z) (dflt : A) inplace v l a to :
  0 < sizeT ≤ 2 ^ 16 → repr v l → capacity v < 2 ^ 31 → 0 ≤ to < 2 ^ 31 →
  (∃ v1, push_back sizeT inplace v a = Ok v1 ∧ repr v1 (l ++ [a]) ∧
     at_ v1 (zlen l) = Ok a ∧ (∀ (i : nat) b, l !! i = Some b → at_ v1 (Z.of_nat i) = Ok b) ∧
     ∃ v2, pop v1 = Ok (a, v2) ∧ repr v2 l) ∧
  (∃ v1, resize sizeT dflt inplace v to = Ok v1 ∧
     repr v1 (take (Z.to_nat to) l ++ replicate (Z.to_nat to - length l) dflt)) ∧
  (∃ v1, copy_new sizeT v = Ok v1 ∧ repr v1 l).
Proof.
  intros Hsz Hr Hc Ht. split_and!.
  - destruct (push_back_Ok sizeT Hsz inplace v l a Hr Hc) as (v1 & E & Hr1 & _).
    exists v1. split_and!; [done|done| | |].
    + eapply at_Ok; [exact Hr1|lia|]. rewrite Nat2Z.id, lookup_app_r, Nat.sub_diag by lia. done.
    + intros i b Hb. eapply at_Ok; [exact Hr1|lia|]. rewrite Nat2Z.id, lookup_app_l; [done|].
      by eapply lookup_lt_Some.
    + destruct (pop_Ok v1 l a Hr1) as (v2 & E2 & Hr2). by exists v2.
  - destruct (resize_Ok sizeT dflt Hsz inplace v l to Hr) as (v1 & E & Hr1); [lia|]. by exists v1.
  - unfold copy_new. pose proof (repr_size _ _ Hr) as Hs. pose proof (repr_cap _ _ Hr) as Hcap.
    assert (repr (@new_default A) []) as H0 by (split; simpl; (done || lia)).
    destruct (reserve_Ok sizeT Hsz false new_default [] (capacity v) H0) as (v1 & -> & Hr1 & Hc1); [lia|].
    cbn. change (size (@new_default A)) with 0 in Hc1. destruct Hr1 as [_ _ _ Hd1].
    destruct (copy_from_Ok v l Hr (length l) 0 (mkVec (data v1) (size v) (capacity v1)) [])
      as (v2 & E2 & Hr2); simpl; try done; try lia.
    + destruct (data v1); [done|]. destruct Hd1 as [_ ?]. split; [lia|done].
    + exists v2. split; [|done]. by replace (Z.to_nat (size v)) with (length l) by lia.
Qed.

Definition vec_demo : Vector Z := mkVec (Some [Some 1; Some 2]) 2 2.

Lemma vec_demo_repr : repr vec_demo [1; 2].
Proof. split; simpl; try done; lia. Qed.

Lemma vector_is_list_witness :
  ∃ v1, push_back 8 true vec_demo 7 = Ok v1 ∧ repr v1 [1; 2; 7] ∧ capacity v1 = 4.
Proof.
  destruct (vector_is_list 8 0 true vec_demo [1; 2] 7 0 ltac:(lia) vec_demo_repr ltac:(simpl; lia) ltac:(lia))
    as [(v1 & E & Hr & _) _].
  exists v1. split; [exact E|]. split; [exact Hr|]. vm_compute in E. injection E as <-. reflexivity.
Defined.

(** [swap_remove] reads the cell past the last element: on a full vector that is outside the
    buffer, and the remaining elements are not those it should keep. *)
Example swap_remove_faults : swap_remove vec_demo 0 = Fault.
Proof. reflexivity. Qed.

(** Index [size] passes the bounds check of [operator[]]. *)
Example at_size_faults : at_ vec_demo 2 = Fault ∧ is_Ok (at_ vec_demo 3) = false.
Proof. split; reflexivity. Qed.
