(* ===== verification/KString.v ===== *)
(** [String], [StringView] and [StringSplitIterator] ([util/storage.hh]): a [Vector<char>] that
    keeps a terminator behind its last character, read-only views, and splitting at a delimiter. *)
From S2P Require Import Prelude Arith Strings Vector.

(** ** String *)

(** [sizeof(char)] is 1; the bytes are the cells. *)
Definition String := Vector Z.

(** Writes [bs] to the cells from [i] on ([memcpy] into the buffer). *)
Fixpoint put (v : String) (i : Z) (bs : list Z) : res String :=
  match bs with
  | [] => Ok v
  | b :: r => v ← wr v i b; put v (i + 1) r
  end.

(** The first [n] bytes behind a [char*]: its characters, the terminator, and nothing more. *)
Definition peek (s : list Z) (n : Z) : res (list Z) :=
  if n <=? zlen s + 1 then Ok (take (Z.to_nat n) (s ++ [0])) else Fault.

(** The first [n] cells of another string's buffer. *)
Definition peek_vec (o : String) (n : Z) : res (list Z) :=
  if n =? 0 then Ok [] else
  buf ← deref (data o);
  (fix go (cells : list (option Z)) (k : nat) : res (list Z) :=
     match k with
     | O => Ok []
     | S k' => match cells with
               | Some b :: r => bs ← go r k'; Ok (b :: bs)
               | _ => Fault
               end
     end) buf (Z.to_nat n).

Definition with_size (v : String) (n : Z) : String := mkVec (data v) n (capacity v).

Definition String_new : String := new_default.

(** [String(const char* str)]: [strlen] is 8 bits wide. *)
Definition String_cstr (s : list Z) : res String :=
  let v := new_cap 1 (strlen s + 1) in
  let v := with_size v (capacity v - 1) in
  bs ← peek s (size v + 1);
  v ← put v 0 bs;
  wr v (size v) 0.

(** [String(const char* str, u64 len)] *)
Definition String_sub (s : list Z) (len : Z) : res String :=
  let v := new_cap 1 (u64 (len + 1)) in
  let v := with_size v (u64 (capacity v - 1)) in
  bs ← peek s (size v);
  v ← put v 0 bs;
  wr v (size v) 0.

Definition String_copy (o : String) : res String :=
  if size o =? 0 then Ok new_default else
  let v := mkVec (galloc 1 (size o)) (size o) (size o) in
  bs ← peek_vec o (u64 (size o + 1));
  put v 0 bs.

(** [String(String&& o): Vector<char>(o)]: [o] is an lvalue there, so this copies. *)
Definition String_move (o : String) : res String := copy_new 1 o.

Definition String_assign (v o : String) : res String :=
  let v := mkVec (galloc 1 (size o)) (size o) (size o) in
  match data v with
  | None => Ok v
  | Some _ => bs ← peek_vec o (u64 (size o + 1)); put v 0 bs
  end.

Definition String_move_assign (v o : String) : String * String := move_new o.

(** [operator+=(const char* s)] *)
Definition append_cstr (inplace : bool) (v : String) (s : list Z) : res String :=
  let len := strlen s in
  v ← reserve 1 inplace v (u64 (u64 (size v + len) + 1));
  bs ← peek s len;
  v ← put v (size v) bs;
  let v := with_size v (u64 (size v + len)) in
  wr v (size v) 0.

(** [operator+=(char c)] *)
Definition append_char (inplace : bool) (v : String) (c : Z) : res String :=
  v ← reserve 1 inplace v (u64 (size v + 1));
  v ← append v c;
  wr v (size v) 0.

Definition String_resize (inplace : bool) (v : String) (n : Z) : res String :=
  v ← resize 1 0 inplace v n;
  v ← reserve 1 inplace v (u64 (n + 1));
  wr v (size v) 0.

(** ** StringView *)

(** [str] is what can be read from the pointer on: its characters up to the terminator. *)
Record StringView := View { str : list Z; vsize : Z }.

(** [for (i = 0; i < size; i++) if (rhs[i] != str[i]) return false; return rhs[size] == 0];
    comparing past both terminators is a [Fault]. *)
Fixpoint view_eq_loop (s rhs : list Z) (k : nat) {struct k} : res bool :=
  match k with
  | O => Ok (ch rhs =? 0)
  | S k' => if negb (ch rhs =? ch s) then Ok false else
            match s, rhs with
            | _ :: s', _ :: r' => view_eq_loop s' r' k'
            | _, _ => Fault
            end
  end.
Definition view_eq (v : StringView) (rhs : list Z) : res bool :=
  view_eq_loop (str v) rhs (Z.to_nat (vsize v)).

(** [for (i = 0; i < size && s[i]; i++) if (s[i] != str[i]) return false; return s[i] == 0] *)
Fixpoint starts_loop (s pre : list Z) (k : nat) {struct k} : bool :=
  match k, pre with
  | S k', c :: pre' => if negb (c =? ch s) then false else starts_loop (tail s) pre' k'
  | _, _ => ch pre =? 0
  end.
Definition starts_with (v : StringView) (s : list Z) : bool := starts_loop (str v) s (Z.to_nat (vsize v)).

Fixpoint ends_loop (s suf : list Z) (k : nat) : bool :=
  match k with
  | O => true
  | S k' => if negb (ch s =? ch suf) then false else ends_loop (tail s) (tail suf) k'
  end.
Definition ends_with (v : StringView) (s : list Z) : bool :=
  let s_size := strlen s in
  if vsize v <? s_size then false
  else ends_loop (drop (Z.to_nat (vsize v - s_size)) (str v)) s (Z.to_nat s_size).

(** Both read to the first character that is not a digit, past the end of the view. *)
Definition to_int (v : StringView) (base : Z) : Z := str_to_int (str v) base.
Definition to_uint (v : StringView) (base : Z) : Z := u64 (str_to_int (str v) base).

Definition materialize (v : StringView) : res String := String_sub (str v) (vsize v).

(** ** Splitting *)

(** The iterator's pointer is a suffix of the string, or [None] once it has moved past the
    terminator. *)
Definition split_iter := option (list Z).

Fixpoint token (s : list Z) (d : Z) : list Z :=
  match s with [] => [] | c :: r => if c =? d then [] else c :: token r d end.

(** [*it] *)
Definition split_deref (it : split_iter) (d : Z) : res StringView :=
  s ← deref it; Ok (View s (zlen (token s d))).

(** [++it]: to the delimiter or the terminator, then one further. *)
Fixpoint skip_token (s : list Z) (d : Z) : split_iter :=
  match s with [] => None | c :: r => if c =? d then Some r else skip_token r d end.
Definition split_next (it : split_iter) (d : Z) : res split_iter :=
  s ← deref it; Ok (skip_token s d).

(** [it += times] *)
Fixpoint split_advance (it : split_iter) (d : Z) (times : nat) : res split_iter :=
  match times with
  | O => Ok it
  | S n => it ← split_next it d; split_advance it d n
  end.

(** [it != end()] *)
Definition split_more (it : split_iter) : res bool :=
  s ← deref it; Ok (negb (ch s =? 0)).

(** ** Lemmas *)

Lemma put_Ok bs : ∀ i buf n c, (i + length bs ≤ length buf)%nat →
  put (mkVec (Some buf) n c) (Z.of_nat i) bs =
  Ok (mkVec (Some (take i buf ++ map Some bs ++ drop (i + length bs) buf)) n c).
Proof.
  induction bs as [|b r IH]; intros i buf n c Hl; cbn [put].
  - simpl. rewrite Nat.add_0_r, take_drop. done.
  - simpl in Hl. unfold wr. cbn. rewrite zlookup_nat.
    destruct (lookup_lt_is_Some_2 buf i) as [x Hx]; [lia|]. rewrite Hx. cbn.
    rewrite zinsert_Z, Nat2Z.id by lia. replace (Z.of_nat i + 1) with (Z.of_nat (S i)) by lia.
    rewrite IH by (rewrite length_insert; lia). do 3 f_equal.
    erewrite take_S_r by (apply list_lookup_insert_eq; lia). rewrite take_insert_ge by lia.
    rewrite drop_insert_lt by lia. rewrite <- app_assoc. simpl. by rewrite Nat.add_succ_r.
Qed.

Lemma wr_last (buf : list (option Z)) n c k b : (k < length buf)%nat → n = Z.of_nat k →
  wr (mkVec (Some buf) n c) n b = Ok (mkVec (Some (<[k := Some b]> buf)) n c).
Proof.
  intros Hk ->. unfold wr. cbn. rewrite zlookup_nat.
  destruct (lookup_lt_is_Some_2 buf k) as [x ->]; [done|]. cbn.
  by rewrite zinsert_Z, Nat2Z.id by lia.
Qed.

#[local] Arguments wr : simpl never.
#[local] Arguments put : simpl never.

(** A string holds its characters and, once it has a buffer, the terminator behind them. *)
Definition srepr (v : String) (s : list Z) : Prop :=
  repr v s ∧ match data v with None => True | Some buf => buf !! length s = Some (Some 0) end.

Lemma srepr_intro buf s c : take (length s) buf = map Some s → buf !! length s = Some (Some 0) →
  zlen s ≤ c ≤ zlen buf → c < 2 ^ 32 → srepr (mkVec (Some buf) (zlen s) c) s.
Proof. intros Ht H0 Hc Hm. split; [|done]. split; simpl; [done|lia|lia|split; [lia|done]]. Qed.

Lemma strlen_range s : 0 ≤ strlen s < 256 ∧ strlen s ≤ zlen s.
Proof.
  rewrite strlen_mod. pose proof (Z.mod_pos_bound (zlen s) 256). pose proof (Z.mod_le (zlen s) 256). lia.
Qed.

Lemma strlen_small s : zlen s < 256 → strlen s = zlen s.
Proof. intros. rewrite strlen_mod. apply Z.mod_small. lia. Qed.

Lemma String_cstr_Ok s : ∃ v, String_cstr s = Ok v ∧ srepr v (take (Z.to_nat (zlen s `mod` 256)) s).
Proof.
  pose proof (strlen_range s) as [H1 H2]. unfold String_cstr, new_cap, with_size. simpl.
  destruct (galloc_Some (A := Z) 1 ltac:(lia) (strlen s + 1)) as (buf & -> & Hb); [lia|].
  replace (strlen s + 1 - 1) with (strlen s) by lia.
  unfold peek. replace (strlen s + 1 <=? zlen s + 1) with true by lia. cbn.
  assert (take (Z.to_nat (strlen s + 1)) (s ++ [0]) = take (Z.to_nat (strlen s)) s ++ [default 0 (s !! Z.to_nat (strlen s))]) as ->.
  { replace (Z.to_nat (strlen s + 1)) with (S (Z.to_nat (strlen s))) by lia.
    destruct (decide (Z.to_nat (strlen s) < length s)%nat) as [Hlt|Hge].
    - destruct (lookup_lt_is_Some_2 s _ Hlt) as [x Hx]. rewrite Hx. simpl.
      rewrite (take_S_r _ _ x) by (by rewrite lookup_app_l). by rewrite take_app_le by lia.
    - rewrite firstn_all2 by (rewrite length_app; simpl; lia).
      rewrite firstn_all2 by lia. rewrite lookup_ge_None_2 by lia. done. }
  set (n := Z.to_nat (strlen s)) in *. assert (length (take n s) = n) as Hn by (rewrite length_take; lia).
  match goal with |- context [put ?v 0 ?bs] => change (put v 0 bs) with (put v (Z.of_nat 0) bs) end.
  rewrite put_Ok by (rewrite length_app, Hn; simpl; lia). cbn. rewrite take_0, app_nil_l.
  erewrite (wr_last _ _ _ n); [|rewrite length_app, length_map, length_app, length_drop; simpl; lia|lia].
  eexists. split; [done|]. rewrite <- strlen_mod. fold n.
  rewrite map_app, <- app_assoc, insert_app_r_alt by (rewrite length_map; lia).
  rewrite length_map, Hn, Nat.sub_diag. simpl.
  replace (strlen s) with (zlen (take n s)) by lia. apply srepr_intro.
  - by rewrite take_app_le, firstn_all2 by (rewrite length_map; lia).
  - by rewrite <- (length_map Some (take n s)), list_lookup_middle.
  - rewrite length_app, length_map. simpl. rewrite length_drop, length_app, Hn. simpl. lia.
  - lia.
Qed.

(** [+=] of a short string appends it and moves the terminator. *)
Lemma append_cstr_Ok inplace v s t : srepr v s → zlen s + zlen t < 2 ^ 31 → zlen t < 256 →
  ∃ v', append_cstr inplace v t = Ok v' ∧ srepr v' (s ++ t).
Proof.
  intros [Hr _] Hl Ht. pose proof (repr_size _ _ Hr) as Hs. unfold append_cstr.
  rewrite strlen_small by done. rewrite Hs.
  rewrite (uN_small 64 (zlen s + zlen t)), (uN_small 64 (_ + 1)) by (unfold is_uN; lia).
  destruct (reserve_Ok 1 ltac:(lia) inplace v s (zlen s + zlen t + 1) Hr) as (v1 & -> & Hr1 & Hc1); [lia|].
  cbn. unfold peek. replace (zlen t <=? zlen t + 1) with true by lia. cbn.
  rewrite Nat2Z.id, take_app_le, firstn_all2 by lia.
  destruct Hr1 as [Hs1 Hcap1 Hm1 Hd1]. destruct v1 as [[buf|] n1 c1]; simpl in *; [|destruct Hd1; lia].
  destruct Hd1 as [Hb Htk]. rewrite Hs1.
  rewrite put_Ok by lia. cbn. unfold with_size. simpl.
  rewrite (uN_small 64 (zlen s + zlen t)) by (unfold is_uN; lia).
  erewrite (wr_last _ _ _ (length s + length t)); [|rewrite !length_app, length_take, length_map, length_drop; lia|lia].
  eexists. split; [done|]. replace (zlen s + zlen t) with (zlen (s ++ t)) by (rewrite length_app; lia).
  assert (length (take (length s) buf) = length s) as Hts by (rewrite length_take; lia).
  rewrite app_assoc, insert_app_r_alt by (rewrite length_app, length_map, Hts; lia).
  rewrite length_app, length_map, Hts, Nat.sub_diag. rewrite Htk, <- map_app.
  destruct (drop (length s + length t) buf) as [|x r] eqn:Ed.
  { apply (f_equal length) in Ed. rewrite length_drop in Ed. simpl in Ed. lia. }
  simpl. apply (f_equal length) in Ed. rewrite length_drop in Ed. simpl in Ed. apply srepr_intro.
  - by rewrite take_app_le, firstn_all2 by (rewrite length_map; lia).
  - by rewrite <- (length_map Some (s ++ t)), list_lookup_middle.
  - rewrite !length_app, length_map, length_app. simpl. lia.
  - lia.
Qed.

(** ** Properties *)

(** Building a [String] from a C string and appending to it is list append with the
    terminator kept in place, for strings below 256 characters; longer ones are silently cut to
    their length modulo 256, the width of [strlen]'s result. *)
Lemma string_build inplace s t : zlen t < 256 →
  ∃ v v', String_cstr s = Ok v ∧ srepr v (take (Z.to_nat (zlen s `mod` 256)) s) ∧
    append_cstr inplace v t = Ok v' ∧ srepr v' (take (Z.to_nat (zlen s `mod` 256)) s ++ t).
Proof.
  intros Ht. destruct (String_cstr_Ok s) as (v & E & Hv).
  destruct (append_cstr_Ok inplace v (take (Z.to_nat (zlen s `mod` 256)) s) t Hv) as (v' & E' & Hv').
  - rewrite length_take. pose proof (Z.mod_pos_bound (zlen s) 256). lia.
  - done.
  - by exists v, v'.
Qed.

Lemma string_build_witness : ∃ v v', String_cstr (bytes_of "usb") = Ok v ∧
  append_cstr false v (bytes_of "0") = Ok v' ∧ srepr v' (bytes_of "usb0").
Proof.
  destruct (string_build false (bytes_of "usb") (bytes_of "0")) as (v & v' & E & _ & E' & H);
    [vm_compute; reflexivity|].
  exists v, v'. split; [exact E|]. split; [exact E'|exact H].
Defined.

Lemma view_eq_loop_Ok k : ∀ s rhs, cstr s → cstr rhs → (k ≤ length s)%nat →
  view_eq_loop s rhs k = Ok (bool_decide (take k s = rhs)).
Proof.
  induction k as [|k IH]; intros s rhs Hs Hr Hk; cbn [view_eq_loop].
  - rewrite take_0. destruct rhs as [|c r]; [by rewrite bool_decide_eq_true_2|].
    apply Forall_cons in Hr as [Hc _]. rewrite bool_decide_eq_false_2 by done. simpl.
    by replace (c =? 0) with false by lia.
  - destruct s as [|a s]; [simpl in Hk; lia|]. apply Forall_cons in Hs as [Ha Hs].
    destruct rhs as [|c r].
    + rewrite bool_decide_eq_false_2 by done. cbn [ch]. by replace (0 =? a) with false by lia.
    + cbn [ch take]. apply Forall_cons in Hr as [Hc Hr]. destruct (Z.eqb_spec c a) as [->|Hne]; simpl.
      * rewrite IH by (done || (simpl in Hk; lia)). f_equal. apply bool_decide_ext.
        split; [by intros ->|by intros [= ->]].
      * rewrite bool_decide_eq_false_2; [done|]. intros [= ? _]. congruence.
Qed.

Lemma starts_loop_Ok k : ∀ s p, cstr s → cstr p → (k ≤ length s)%nat →
  starts_loop s p k = bool_decide (p `prefix_of` take k s).
Proof.
  induction k as [|k IH]; intros s p Hs Hp Hk; cbn [starts_loop].
  - rewrite take_0. destruct p as [|c p]; [by rewrite bool_decide_eq_true_2 by apply prefix_nil|].
    apply Forall_cons in Hp as [Hc _]. cbn [ch]. replace (c =? 0) with false by lia.
    rewrite bool_decide_eq_false_2; [done|]. by intros ?%prefix_nil_inv.
  - destruct s as [|a s]; [simpl in Hk; lia|]. apply Forall_cons in Hs as [Ha Hs].
    destruct p as [|c p]; [by rewrite bool_decide_eq_true_2 by apply prefix_nil|].
    cbn [ch take tail]. apply Forall_cons in Hp as [Hc Hp].
    destruct (Z.eqb_spec c a) as [->|Hne]; cbn [negb].
    + rewrite IH by (done || (simpl in Hk; lia)). apply bool_decide_ext.
      split; [apply prefix_cons|apply prefix_cons_inv_2].
    + rewrite bool_decide_eq_false_2; [done|]. intros ?%prefix_cons_inv_1. congruence.
Qed.

(** A view into a C string compares as the list of its characters: [==] decides equality and
    [starts_with] decides the prefix relation, reading nothing outside the strings. *)
Lemma view_compares s n rhs : cstr s → cstr rhs → 0 ≤ n ≤ zlen s →
  view_eq (View s n) rhs = Ok (bool_decide (take (Z.to_nat n) s = rhs)) ∧
  starts_with (View s n) rhs = bool_decide (rhs `prefix_of` take (Z.to_nat n) s).
Proof.
  intros Hs Hr Hn. split; [apply view_eq_loop_Ok|apply starts_loop_Ok]; simpl; (done || lia).
Qed.

Lemma view_compares_witness :
  view_eq (View (bytes_of "root=sda1 quiet") 9) (bytes_of "root=sda1") = Ok true ∧
  starts_with (View (bytes_of "root=sda1 quiet") 9) (bytes_of "root=") = true.
Proof.
  destruct (view_compares (bytes_of "root=sda1 quiet") 9 (bytes_of "root=sda1")) as [E _];
    [repeat constructor|repeat constructor|simpl; lia|].
  destruct (view_compares (bytes_of "root=sda1 quiet") 9 (bytes_of "root=")) as [_ E'];
    [repeat constructor|repeat constructor|simpl; lia|].
  split; [rewrite E|rewrite E']; vm_compute; reflexivity.
Defined.

(** The copy constructor writes the terminator past the block when the length is a multiple of
    16: the redzone behind it is damaged. *)
Example String_copy_overruns :
  (v ← String_cstr (bytes_of "sixteen chars ok"); String_copy v) = Fault ∧
  is_Ok (v ← String_cstr (bytes_of "fifteen char ok"); String_copy v) = true.
Proof. split; vm_compute; reflexivity. Qed.

(** So does appending a character, here to 15 characters in a 16-byte block. *)
Example append_char_overruns :
  (v ← String_cstr (bytes_of "fifteen char ok"); append_char true v 33) = Fault.
Proof. vm_compute. reflexivity. Qed.

(** After the last token the iterator has left the string: asking for more reads past it. *)
Example split_overruns :
  (it ← split_advance (Some (bytes_of "a b")) 32 2; split_more it) = Fault.
Proof. reflexivity. Qed.
