(* ===== verification/LinkedList.v ===== *)
(** [LinkedList<T>] ([util/storage.hh]): a circular doubly linked list whose last link carries a
    [last] flag that ends iteration.  Links live in a store indexed by allocation number; a
    deleted link is a hole, and using it is a [Fault]. *)
From S2P Require Import Prelude Async.

(** ** Data *)

Record Link (A : Type) := mkLink { prev : option nat; next : option nat; data : A; last : bool }.
Arguments mkLink {_} _ _ _ _.
Arguments prev {_} _.
Arguments next {_} _.
Arguments data {_} _.
Arguments last {_} _.

Record LinkedList (A : Type) := mkList {
  cells : list (option (Link A));
  first : option nat;
  size : Z;
  m : MutexSimple }.
Arguments mkList {_} _ _ _ _.
Arguments cells {_} _.
Arguments first {_} _.
Arguments size {_} _.
Arguments m {_} _.

Definition set_prev {A} v (x : Link A) := mkLink v (next x) (data x) (last x).
Definition set_next {A} v (x : Link A) := mkLink (prev x) v (data x) (last x).
Definition set_last {A} v (x : Link A) := mkLink (prev x) (next x) (data x) v.

Section List.
Context {A : Type}.
Implicit Types l : LinkedList A.

Definition empty : LinkedList A := mkList [] None 0 0.

Definition ld l (p : option nat) : res (Link A) :=
  i ← deref p; c ← deref (cells l !! i); deref c.
Definition st l (p : option nat) (f : Link A → Link A) : res (LinkedList A) :=
  i ← deref p; x ← ld l p;
  Ok (mkList (<[i := Some (f x)]> (cells l)) (first l) (size l) (m l)).
(** [new Link(prev, next, data)], in runs in which the heap has room. *)
Definition new_link l p n (a : A) : option nat * LinkedList A :=
  (Some (length (cells l)), mkList (cells l ++ [Some (mkLink p n a false)]) (first l) (size l) (m l)).
(** [delete p] *)
Definition delete_ l (p : option nat) : res (LinkedList A) :=
  i ← deref p; ld l p;;
  Ok (mkList (<[i := None]> (cells l)) (first l) (size l) (m l)).

Definition with_first l f := mkList (cells l) f (size l) (m l).
Definition with_size l s := mkList (cells l) (first l) s (m l).
Definition with_m l v := mkList (cells l) (first l) (size l) v.

(** ** Operations *)

(** The branch for an empty list: the link is its own neighbour. *)
Definition push_only l (elem : A) : res (LinkedList A) :=
  let '(p, l) := new_link l None None elem in
  let l := with_first l p in
  l ← st l (first l) (set_next (first l));
  l ← st l (first l) (set_prev (first l));
  st l (first l) (set_last true).

Definition push_back l (elem : A) : res (LinkedList A) :=
  v ← lock (m l);
  let l := with_size (with_m l v) (u64 (size l + 1)) in
  l ← match first l with
      | Some _ =>
          f ← ld l (first l);
          let '(newl, l) := new_link l (prev f) (first l) elem in
          l ← st l (prev f) (set_next newl);
          z ← ld l (prev f);
          assert_ (last z) "first->prev->last";;
          l ← st l (prev f) (set_last false);
          l ← st l (first l) (set_prev newl);
          st l newl (set_last true)
      | None => push_only l elem
      end;
  Ok (with_m l (unlock (m l))).

Definition push_front l (elem : A) : res (LinkedList A) :=
  v ← lock (m l);
  let l := with_size (with_m l v) (u64 (size l + 1)) in
  l ← match first l with
      | Some _ =>
          f ← ld l (first l);
          let '(newfirst, l) := new_link l (prev f) (first l) elem in
          l ← st l (prev f) (set_next newfirst);
          l ← st l (first l) (set_prev newfirst);
          Ok (with_first l newfirst)
      | None => push_only l elem
      end;
  Ok (with_m l (unlock (m l))).

(** [p->next = n; n->prev = p] *)
Definition relink l (p n : option nat) : res (LinkedList A) :=
  l ← st l p (set_next n); st l n (set_prev p).

(** Taking a link out of the circle, the size already counted down. *)
Definition unlink l (p : option nat) : res (LinkedList A) :=
  if size l =? 0 then Ok (with_first l None) else
  x ← ld l p;
  l ← relink l (prev x) (next x);
  if decide (p = first l) then x ← ld l p; Ok (with_first l (next x)) else Ok l.

(** [remove(Link& l)] *)
Definition remove l (p : option nat) : res (LinkedList A) :=
  v ← lock (m l);
  let l := with_m l v in
  if size l =? 0 then Fatal "Tried to delete elem from empty list (size 0)" else
  match first l with
  | None => Fatal "Tried to delete elem from empty list (first null)"
  | Some _ =>
      let l := with_size l (u64 (size l - 1)) in
      l ← unlink l p;
      l ← delete_ l p;
      Ok (with_m l (unlock (m l)))
  end.

(** [while (l && idx2) { l = l->next; idx2--; }] *)
Fixpoint walk l (p : option nat) (idx : nat) : res (option nat * nat) :=
  match p, idx with
  | Some _, S k => x ← ld l p; walk l (next x) k
  | _, _ => Ok (p, idx)
  end.

Definition get_link l (idx : Z) : res (option nat) :=
  '(p, k) ← walk l (first l) (Z.to_nat idx);
  match k with O => ld l p;; Ok p | S _ => Fatal "dlinkedlist: index out of bounds!" end.

(** [operator[](idx)] *)
Definition at_ l (idx : Z) : res A :=
  '(p, k) ← walk l (first l) (Z.to_nat idx);
  match k with O => x ← ld l p; Ok (data x) | S _ => Fatal "dlinkedlist: index out of bounds!" end.

(** [remove(u64 idx)] *)
Definition remove_idx l (idx : Z) : res (LinkedList A) :=
  if size l <? idx then Fatal "dlinkedlist: index out of bounds!" else
  '(p, _) ← walk l (first l) (Z.to_nat idx);
  deref p;; remove l p.

(** [++it]: the last link's successor is [end()]. *)
Definition iter_next l (p : option nat) : res (option nat) :=
  x ← ld l p; Ok (if last x then None else next x).

(** [for (e : list)], collecting the elements; the number of steps is not bounded by the code. *)
Fixpoint iterate l (fuel : nat) (p : option nat) : res (list A) :=
  match p with
  | None => Ok []
  | Some _ =>
      match fuel with
      | O => NoFuel
      | S fuel => x ← ld l p; q ← iter_next l p; r ← iterate l fuel q; Ok (data x :: r)
      end
  end.
Definition to_list (fuel : nat) l : res (list A) := iterate l fuel (first l).

(** [~LinkedList()] *)
Fixpoint destroy_loop l (fuel : nat) (p : option nat) : res (LinkedList A) :=
  match p with
  | None => Ok l
  | Some _ =>
      match fuel with
      | O => NoFuel
      | S fuel => x ← ld l p; l ← delete_ l p; destroy_loop l fuel (next x)
      end
  end.
Definition destroy l : res (LinkedList A) :=
  l ← match first l with
      | Some _ => f ← ld l (first l); st l (prev f) (set_next None)
      | None => Ok l
      end;
  destroy_loop l (length (cells l)) (first l).

(** ** The list a linked list stands for *)

(** A node: its link and its element. *)
Abbreviation node := (nat * A)%type.
Definition hd_or (n : nat) (ns : list node) : nat := match ns with [] => n | a :: _ => a.1 end.
Definition last_or (p : nat) (ns : list node) : nat := foldl (λ _ a, a.1) p ns.

(** A segment entered from [p] and left to [n]; only its last link has the flag [fl]. *)
Fixpoint cseg (cs : list (option (Link A))) (p : nat) (ns : list node) (n : nat) (fl : bool) : Prop :=
  match ns with
  | [] => True
  | a :: r =>
      cs !! a.1 = Some (Some (mkLink (Some p) (Some (hd_or n r)) a.2
                               (match r with [] => fl | _ => false end))) ∧
      cseg cs a.1 r n fl
  end.

(** The links form the circle [ns], whose last link has the flag [fl]. *)
Record circ (l : LinkedList A) (ns : list node) (fl : bool) : Prop := {
  circ_seg : cseg (cells l) (last_or 0 ns) ns (hd_or 0 ns) fl;
  circ_first : first l = match ns with [] => None | a :: _ => Some a.1 end;
  circ_nodup : NoDup ns.*1;
  circ_size : size l = zlen ns;
  circ_max : size l < 2 ^ 32;
  circ_m : m l = 0 }.

Lemma ll_hd_or_app n a b : hd_or n (a ++ b) = hd_or (hd_or n b) a.
Proof. by destruct a. Qed.
Lemma ll_last_or_snoc p a x : last_or p (a ++ [x]) = x.1.
Proof. unfold last_or. by rewrite foldl_app. Qed.
Lemma last_or_cons p a r : last_or p (a :: r) = last_or a.1 r.
Proof. done. Qed.
Lemma ll_last_or_app p a b : last_or p (a ++ b) = last_or (last_or p a) b.
Proof. unfold last_or. by rewrite foldl_app. Qed.

Lemma cseg_app cs x : ∀ p y n fl, cseg cs p (x ++ y) n fl ↔
  cseg cs p x (hd_or n y) (match y with [] => fl | _ => false end) ∧ cseg cs (last_or p x) y n fl.
Proof.
  induction x as [|a x IH]; intros p y n fl; cbn [cseg app]; [tauto|].
  rewrite IH, ll_hd_or_app, last_or_cons. destruct x, y; simpl; tauto.
Qed.

Lemma cseg_ext cs cs' ns : ∀ p n fl, (∀ a, a ∈ ns → cs' !! a.1 = cs !! a.1) →
  cseg cs p ns n fl → cseg cs' p ns n fl.
Proof.
  induction ns as [|a r IH]; intros p n fl Hx; cbn [cseg]; [done|]. intros [H1 H2]. split.
  - rewrite Hx by constructor. done.
  - apply IH; [|done]. intros b Hb. apply Hx. by apply elem_of_cons; right.
Qed.

Lemma cseg_insert cs i y ns p n fl : (i ∉ ns.*1) → cseg cs p ns n fl → cseg (<[i := y]> cs) p ns n fl.
Proof.
  intros Hi. apply cseg_ext. intros a Ha. apply list_lookup_insert_ne. intros ->.
  apply Hi. by apply list_elem_of_fmap_2.
Qed.

Lemma cseg_new cs y ns p n fl : cseg cs p ns n fl → cseg (cs ++ [y]) p ns n fl.
Proof.
  revert p. induction ns as [|a r IH]; intros p; cbn [cseg]; [done|]. intros [H1 H2]. split.
  - rewrite lookup_app_l; [done|]. by eapply lookup_lt_Some.
  - by apply IH.
Qed.

Lemma cseg_head cs p a r n fl : cseg cs p (a :: r) n fl →
  cs !! a.1 = Some (Some (mkLink (Some p) (Some (hd_or n r)) a.2 (match r with [] => fl | _ => false end))).
Proof. by intros [H _]. Qed.

Lemma cseg_last cs p r z n fl : cseg cs p (r ++ [z]) n fl →
  cs !! z.1 = Some (Some (mkLink (Some (last_or p r)) (Some n) z.2 fl)).
Proof. intros H. apply cseg_app in H as [_ [H _]]. done. Qed.

Lemma ll_st_Ok l i x f : cells l !! i = Some (Some x) →
  st l (Some i) f = Ok (mkList (<[i := Some (f x)]> (cells l)) (first l) (size l) (m l)).
Proof. intros H. unfold st, ld. cbn. by rewrite H. Qed.
Lemma ll_ld_Ok l i x : cells l !! i = Some (Some x) → ld l (Some i) = Ok x.
Proof. intros H. unfold ld. cbn. by rewrite H. Qed.

(** The three field updates at the ends of a segment. *)
Lemma cseg_set_prev cs p p' a r n fl x : cseg cs p (a :: r) n fl → NoDup (a :: r).*1 →
  cs !! a.1 = Some (Some x) → cseg (<[a.1 := Some (set_prev (Some p') x)]> cs) p' (a :: r) n fl.
Proof.
  intros [H1 H2] Hd Hx. apply NoDup_cons in Hd as [Hni _]. rewrite Hx in H1. injection H1 as ->.
  split; [|by apply cseg_insert]. rewrite list_lookup_insert_eq by (by eapply lookup_lt_Some). done.
Qed.

Lemma cseg_set_end cs p r z n fl n' fl' x f : cseg cs p (r ++ [z]) n fl → NoDup (r ++ [z]).*1 →
  cs !! z.1 = Some (Some x) →
  f x = mkLink (prev x) (Some n') (data x) fl' →
  cseg (<[z.1 := Some (f x)]> cs) p (r ++ [z]) n' fl'.
Proof.
  rewrite !cseg_app, fmap_app, NoDup_app. intros [H1 [H2 _]] (D1 & D2 & _) Hx Hf.
  rewrite Hx in H2. injection H2 as ->. split.
  - apply cseg_insert; [|done]. intros Hin. apply (D2 _ Hin). by constructor.
  - split; [|done]. rewrite list_lookup_insert_eq by (by eapply lookup_lt_Some). by rewrite Hf.
Qed.

Lemma cseg_lt cs ns : ∀ p n fl i, cseg cs p ns n fl → i ∈ ns.*1 → (i < length cs)%nat.
Proof.
  induction ns as [|a r IH]; intros p n fl i; cbn [cseg]; [by intros _ ?%elem_of_nil|].
  intros [H1 H2] [->|Hi]%elem_of_cons; [by eapply lookup_lt_Some|by eapply IH].
Qed.

(** ** Pushing *)

#[local] Arguments st : simpl never.
#[local] Arguments ld : simpl never.

Lemma push_only_Ok l a : first l = None →
  let i := length (cells l) in
  ∃ l', push_only l a = Ok l' ∧
    cells l' = cells l ++ [Some (mkLink (Some i) (Some i) a true)] ∧
    first l' = Some i ∧ size l' = size l ∧ m l' = m l.
Proof.
  intros Hf i. unfold push_only, new_link. cbn. fold i.
  assert (∀ x, (cells l ++ [x]) !! i = Some x) as Hlk by (intros; by rewrite list_lookup_middle).
  assert (∀ x y, <[i := y]> (cells l ++ [x]) = cells l ++ [y]) as Hins.
  { intros. rewrite insert_app_r_alt by done. by rewrite Nat.sub_diag. }
  erewrite ll_st_Ok by (simpl; apply Hlk). cbn. rewrite Hins.
  erewrite ll_st_Ok by (simpl; apply Hlk). cbn. rewrite Hins.
  erewrite ll_st_Ok by (simpl; apply Hlk). cbn. rewrite Hins.
  eexists. split; [done|]. done.
Qed.

#[local] Arguments push_only : simpl never.

Lemma ll_push_back_Ok l ns a : circ l ns true → size l + 1 < 2 ^ 32 →
  ∃ l', push_back l a = Ok l' ∧ circ l' (ns ++ [(length (cells l), a)]) true.
Proof.
  intros [Hs Hf Hd Hsz Hmx Hm] Hlt. unfold push_back. rewrite Hm. cbn.
  set (k := length (cells l)). rewrite (uN_small 64) by (unfold is_uN; lia).
  destruct ns as [|a0 r].
  { rewrite Hf. destruct (push_only_Ok (with_size (with_m l 1) (size l + 1)) a) as (l' & -> & E1 & E2 & E3 & E4);
      [done|]. cbn. eexists. split; [done|]. simpl in *. fold k in E1, E2.
    split; simpl; try done; [|apply NoDup_singleton|lia|lia].
    rewrite E1. split; [|done]. simpl. unfold k. by rewrite list_lookup_middle. }
  rewrite Hf. cbn.
  assert (∃ z r', a0 :: r = r' ++ [z]) as (z & r' & Ez).
  { destruct r as [|y r0 _] using rev_ind; [by exists a0, []|]. by exists y, (a0 :: r0). }
  pose proof (cseg_head _ _ _ _ _ _ Hs) as Hh. rewrite Ez, ll_last_or_snoc in Hh.
  erewrite ll_ld_Ok by (simpl; exact Hh). cbn.
  assert (∀ x, x ∈ (a0 :: r).*1 → x ≠ k) as Hfresh.
  { intros x Hx ->. eapply cseg_lt in Hx; [|exact Hs]. unfold k in Hx. lia. }
  assert (z.1 ∈ (a0 :: r).*1) as Hzin by (rewrite Ez, fmap_app; apply elem_of_app; right; by constructor).
  assert (a0.1 ∈ (a0 :: r).*1) as Hain by by constructor.
  (* the new link *)
  set (nl b := Some (mkLink (Some z.1) (Some a0.1) a b)).
  pose proof (cseg_new _ (nl false) _ _ _ _ Hs) as S1. set (c1 := cells l ++ [nl false]) in *.
  assert (c1 !! k = Some (nl false)) as K1 by (unfold c1, k; by rewrite list_lookup_middle).
  rewrite Ez in S1. rewrite ll_last_or_snoc in S1.
  pose proof (cseg_last _ _ _ _ _ _ S1) as Z1. set (zx := mkLink (Some (last_or z.1 r')) _ _ _) in Z1.
  erewrite ll_st_Ok by (simpl; exact Z1). cbn.
  rewrite Ez in Hd. pose proof (cseg_set_end c1 z.1 r' z _ true k true zx (set_next (Some k)) S1 Hd Z1 eq_refl) as S2.
  set (c2 := <[z.1:=_]> c1) in *.
  pose proof (cseg_last _ _ _ _ _ _ S2) as Z2. erewrite ll_ld_Ok by (simpl; exact Z2). cbn.
  erewrite ll_st_Ok by (simpl; exact Z2). cbn.
  pose proof (cseg_set_end c2 z.1 r' z _ true k false _ (set_last false) S2 Hd Z2 eq_refl) as S3.
  set (c3 := <[z.1:=_]> c2) in *.
  rewrite <- Ez in S3, Hd. pose proof (cseg_head _ _ _ _ _ _ S3) as A3.
  erewrite ll_st_Ok by (simpl; exact A3). cbn.
  pose proof (cseg_set_prev c3 z.1 k a0 r k false _ S3 Hd A3) as S4. set (c4 := <[a0.1:=_]> c3) in *.
  assert (c4 !! k = Some (nl false)) as K4.
  { unfold c4, c3, c2. rewrite !list_lookup_insert_ne by (by apply Hfresh). done. }
  erewrite ll_st_Ok by (simpl; exact K4). cbn -[cseg fmap].
  assert (cseg (<[k := nl true]> c4) k ((a0 :: r) ++ [(k, a)]) a0.1 true) as S5.
  { apply cseg_app. split.
    - apply cseg_insert; [|exact S4]. intros Hk. by apply (Hfresh k).
    - split; [|done]. rewrite Ez, ll_last_or_snoc.
      rewrite list_lookup_insert_eq by (by eapply lookup_lt_Some). done. }
  eexists. split; [done|]. split; cbn -[cseg fmap].
  - rewrite ll_last_or_snoc. exact S5.
  - done.
  - change (NoDup ((a0 :: r) ++ [(k, a)]).*1). rewrite fmap_app. apply NoDup_app. split_and!; [done| |apply NoDup_singleton].
    intros x Hx Hk%list_elem_of_singleton. by apply (Hfresh x).
  - rewrite Hsz, length_app. simpl. lia.
  - lia.
  - done.
Qed.

Lemma push_front_Ok l ns a : circ l ns true → size l + 1 < 2 ^ 32 →
  ∃ l', push_front l a = Ok l' ∧ circ l' ((length (cells l), a) :: ns) true.
Proof.
  intros [Hs Hf Hd Hsz Hmx Hm] Hlt. unfold push_front. rewrite Hm. cbn.
  set (k := length (cells l)). rewrite (uN_small 64) by (unfold is_uN; lia).
  destruct ns as [|a0 r].
  { rewrite Hf. destruct (push_only_Ok (with_size (with_m l 1) (size l + 1)) a) as (l' & -> & E1 & E2 & E3 & E4);
      [done|]. cbn. eexists. split; [done|]. simpl in *. fold k in E1, E2.
    split; simpl; try done; [|apply NoDup_singleton|lia|lia].
    rewrite E1. split; [|done]. simpl. unfold k. by rewrite list_lookup_middle. }
  rewrite Hf. cbn.
  assert (∃ z r', a0 :: r = r' ++ [z]) as (z & r' & Ez).
  { destruct r as [|y r0 _] using rev_ind; [by exists a0, []|]. by exists y, (a0 :: r0). }
  pose proof (cseg_head _ _ _ _ _ _ Hs) as Hh. rewrite Ez, ll_last_or_snoc in Hh.
  erewrite ll_ld_Ok by (simpl; exact Hh). cbn.
  assert (∀ x, x ∈ (a0 :: r).*1 → x ≠ k) as Hfresh.
  { intros x Hx ->. eapply cseg_lt in Hx; [|exact Hs]. unfold k in Hx. lia. }
  assert (z.1 ∈ (a0 :: r).*1) as Hzin by (rewrite Ez, fmap_app; apply elem_of_app; right; by constructor).
  assert (a0.1 ∈ (a0 :: r).*1) as Hain by by constructor.
  set (nl := Some (mkLink (Some z.1) (Some a0.1) a false)).
  pose proof (cseg_new _ nl _ _ _ _ Hs) as S1. set (c1 := cells l ++ [nl]) in *.
  assert (c1 !! k = Some nl) as K1 by (unfold c1, k; by rewrite list_lookup_middle).
  rewrite Ez in S1. rewrite ll_last_or_snoc in S1.
  pose proof (cseg_last _ _ _ _ _ _ S1) as Z1. set (zx := mkLink (Some (last_or z.1 r')) _ _ _) in Z1.
  erewrite ll_st_Ok by (simpl; exact Z1). cbn.
  rewrite Ez in Hd. pose proof (cseg_set_end c1 z.1 r' z _ true k true zx (set_next (Some k)) S1 Hd Z1 eq_refl) as S2.
  set (c2 := <[z.1:=_]> c1) in *.
  rewrite <- Ez in S2, Hd. pose proof (cseg_head _ _ _ _ _ _ S2) as A2.
  erewrite ll_st_Ok by (simpl; exact A2). cbn.
  pose proof (cseg_set_prev c2 z.1 k a0 r k true _ S2 Hd A2) as S3. set (c3 := <[a0.1:=_]> c2) in *.
  eexists. split; [done|]. split; simpl.
  - split; [|exact S3]. unfold c3, c2. rewrite !list_lookup_insert_ne by (by apply Hfresh).
    change (last_or a0.1 r) with (last_or k (a0 :: r)). by rewrite Ez, ll_last_or_snoc.
  - done.
  - apply NoDup_cons. split; [|done]. intros Hk. by apply (Hfresh k).
  - rewrite Hsz. simpl. lia.
  - lia.
  - done.
Qed.

(** ** Removing *)

Definition cells_with l cs : LinkedList A := mkList cs (first l) (size l) (m l).

Lemma snoc_cases (ns : list node) : ns = [] ∨ ∃ r z, ns = r ++ [z].
Proof. destruct ns as [|z r _] using rev_ind; eauto. Qed.

(** Joining the ends of a segment to each other closes it to a circle. *)
Lemma close_Ok l p ns n fl : cseg (cells l) p ns n fl → NoDup ns.*1 → ns ≠ [] →
  ∃ cs, relink l (Some (last_or 0 ns)) (Some (hd_or 0 ns)) = Ok (cells_with l cs) ∧
    cseg cs (last_or 0 ns) ns (hd_or 0 ns) fl ∧
    (∀ i, (i ∉ ns.*1) → cs !! i = cells l !! i).
Proof.
  intros Hs Hd Hne. unfold relink. destruct (snoc_cases ns) as [?|(r & z & Ez)]; [done|].
  assert (∃ a0 r0, ns = a0 :: r0) as (a0 & r0 & E0) by (destruct ns; eauto; done).
  rewrite Ez, ll_last_or_snoc. rewrite <- Ez, E0. cbn [hd_or]. rewrite Ez in Hs, Hd.
  pose proof (cseg_last _ _ _ _ _ _ Hs) as Z1. erewrite ll_st_Ok by exact Z1. cbn.
  pose proof (cseg_set_end _ _ r z n fl a0.1 fl _ (set_next (Some a0.1)) Hs Hd Z1 eq_refl) as S2.
  rewrite <- Ez, E0 in S2, Hd. pose proof (cseg_head _ _ _ _ _ _ S2) as A2.
  erewrite ll_st_Ok by exact A2. cbn -[cseg]. eexists. split; [done|]. split; [by apply (cseg_set_prev _ p)|].
  intros i Hi. rewrite !list_lookup_insert_ne; [done| |]; intros <-; apply Hi.
  - change (z.1 ∈ (a0 :: r0).*1). rewrite <- E0, Ez, fmap_app. apply elem_of_app. right. by constructor.
  - by constructor.
Qed.

(** Joining the end of one segment to the start of the next makes them one. *)
Lemma join_Ok l p x a y n fl : cseg (cells l) p x a false → x ≠ [] →
  cseg (cells l) a y n fl → y ≠ [] → NoDup (x ++ y).*1 →
  ∃ cs, relink l (Some (last_or 0 x)) (Some (hd_or 0 y)) = Ok (cells_with l cs) ∧
    cseg cs p (x ++ y) n fl ∧
    (∀ i, (i ∉ (x ++ y).*1) → cs !! i = cells l !! i).
Proof.
  intros Hx Hxn Hy Hyn Hd. unfold relink. destruct (snoc_cases x) as [?|(r & z & ->)]; [done|].
  destruct y as [|b y]; [done|]. cbn [hd_or]. rewrite ll_last_or_snoc.
  rewrite fmap_app in Hd. apply NoDup_app in Hd as (D1 & D2 & D3).
  assert (z.1 ∈ (r ++ [z]).*1) as Hzin by (rewrite fmap_app; apply elem_of_app; right; by constructor).
  assert (b.1 ∈ (b :: y).*1) as Hbin by by constructor.
  pose proof (cseg_last _ _ _ _ _ _ Hx) as Z1. erewrite ll_st_Ok by exact Z1. cbn.
  pose proof (cseg_set_end _ _ r z a false b.1 false _ (set_next (Some b.1)) Hx D1 Z1 eq_refl) as S2.
  assert (cseg (<[z.1 := Some (set_next (Some b.1) (mkLink (Some (last_or p r)) (Some a) z.2 false))]> (cells l))
            a (b :: y) n fl) as Y2 by (apply cseg_insert; [by apply D2|done]).
  pose proof (cseg_head _ _ _ _ _ _ Y2) as B2.
  erewrite ll_st_Ok by exact B2. cbn -[cseg].
  eexists. split; [done|]. split.
  - apply cseg_app. rewrite ll_last_or_snoc. split.
    + apply cseg_insert; [|exact S2]. intros Hb. by apply (D2 _ Hb).
    + by apply (cseg_set_prev _ _ z.1 _ _ _ _ _ Y2).
  - intros i Hi. rewrite fmap_app, elem_of_app in Hi.
    rewrite !list_lookup_insert_ne; [done| |]; intros <-; tauto.
Qed.

#[local] Arguments delete_ : simpl never.
Lemma delete_Ok l i x : cells l !! i = Some (Some x) →
  delete_ l (Some i) = Ok (cells_with l (<[i := None]> (cells l))).
Proof. intros H. unfold delete_. rewrite (ll_ld_Ok _ _ _ H). done. Qed.


Definition cut_flag (x y : list node) fl : bool :=
  match x, y with _ :: _, [] => false | _, _ => fl end.

#[local] Arguments unlink : simpl never.
#[local] Arguments relink : simpl never.
Lemma unlink_Ok l p x a y n fl : cseg (cells l) p (x ++ a :: y) n fl →
  p = last_or 0 (x ++ a :: y) → n = hd_or 0 (x ++ a :: y) → first l = Some n →
  NoDup (x ++ y).*1 → (a.1 ∉ (x ++ y).*1) → size l = zlen (x ++ y) →
  ∃ cs, unlink l (Some a.1) =
      Ok (mkList cs (match x ++ y with [] => None | b :: _ => Some b.1 end) (size l) (m l)) ∧
    cseg cs (last_or 0 (x ++ y)) (x ++ y) (hd_or 0 (x ++ y)) (cut_flag x y fl) ∧
    ∃ z, cs !! a.1 = Some (Some z).
Proof.
  intros Hs Hp Hn Hf Hd Hna Hsz. unfold unlink.
  apply cseg_app in Hs as [Hx [Ha Hy]]. cbn [hd_or] in Hx.
  rewrite ll_last_or_app, last_or_cons in Hp.
  case (Z.eqb_spec (size l) 0) as [E|E].
  { assert (x ++ y = []) as -> by (apply length_zero_iff_nil; lia).
    eexists. split; [done|]. split; [done|eauto]. }
  rewrite (ll_ld_Ok _ _ _ Ha). cbn [mbind res_bind prev next].
  destruct x as [|b x], y as [|c y]; [done| | |]; simpl in Hn, Hp.
  - destruct (close_Ok l _ _ _ _ Hy Hd ltac:(done)) as (cs & E1 & Hc & Hk).
    assert (last_or 0 (c :: y) = p) as E2 by (by rewrite Hp). rewrite E2 in *. cbn [hd_or] in *.
    change (last_or p []) with p. rewrite E1. cbn -[cseg]. rewrite decide_True by (by rewrite Hf, Hn).
    assert (cs !! a.1 = Some (Some (mkLink (Some p) (Some c.1) a.2 false))) as Hca
      by (rewrite Hk by done; exact Ha).
    rewrite (ll_ld_Ok (cells_with l cs) _ _ Hca). cbn -[cseg]. eexists. split; [done|].
    split; [|eauto]. change (cseg cs (last_or 0 (c :: y)) (c :: y) c.1 fl). by rewrite E2.
  - rewrite app_nil_r in *. destruct (close_Ok l _ _ _ _ Hx Hd ltac:(done)) as (cs & E1 & Hc & Hk).
    change (last_or p (b :: x)) with (last_or 0 (b :: x)). cbn [hd_or] in *. subst n. rewrite E1. cbn -[cseg].
    rewrite decide_False. 2: { rewrite Hf. intros [=Eb]. apply Hna. rewrite Eb. by constructor. }
    eexists. split; [unfold cells_with; by rewrite Hf|]. split; [done|]. rewrite Hk by done. eauto.
  - destruct (join_Ok l _ _ _ _ _ _ Hx ltac:(done) Hy ltac:(done) Hd) as (cs & E1 & Hc & Hk).
    change (last_or p (b :: x)) with (last_or 0 (b :: x)). cbn [hd_or] in *. rewrite E1. cbn -[cseg].
    rewrite decide_False. 2: { rewrite Hf, Hn. intros [=Eb]. apply Hna. rewrite Eb. by constructor. }
    eexists. split; [unfold cells_with; by rewrite Hf, Hn|]. split; [|rewrite Hk by done; eauto].
    subst p n. rewrite ll_last_or_app. exact Hc.
Qed.

Lemma remove_Ok l x a y fl : circ l (x ++ a :: y) fl →
  ∃ l', remove l (Some a.1) = Ok l' ∧ circ l' (x ++ y) (cut_flag x y fl).
Proof.
  intros [Hs Hf Hd Hsz Hmx Hm]. unfold remove. rewrite Hm. cbn.
  rewrite length_app in Hsz. simpl in Hsz. case (Z.eqb_spec (size l) 0) as [?|_]; [lia|].
  destruct (first l) as [f|] eqn:Ef; [|by destruct x].
  rewrite (uN_small 64) by (unfold is_uN; lia).
  rewrite fmap_app, fmap_cons in Hd.
  assert (NoDup (x ++ y).*1 ∧ (a.1 ∉ (x ++ y).*1)) as [Hd' Hna].
  { rewrite fmap_app. apply NoDup_app in Hd as (D1 & D2 & D3). apply NoDup_cons in D3 as [D3 D4].
    rewrite elem_of_app. split; [apply NoDup_app; split_and!; [done| |done]|].
    - intros i Hi Hj. apply (D2 i Hi). by right.
    - intros [Hi|Hi]; [|done]. apply (D2 _ Hi). by constructor. }
  destruct (unlink_Ok (with_size (with_m l 1) (size l - 1)) _ x a y _ fl Hs) as (cs & E & Hc & z & Hz); try done.
  { simpl. rewrite Ef, Hf. by destruct x. }
  { rewrite length_app. simpl. lia. }
  rewrite E. cbn. erewrite delete_Ok by exact Hz. cbn.
  eexists. split; [done|]. split; simpl; try done; [by apply cseg_insert|rewrite length_app; lia|lia].
Qed.

(** ** Iteration *)

Lemma iterate_Ok l ns : ∀ p n fuel, cseg (cells l) p ns n true → (length ns ≤ fuel)%nat →
  iterate l fuel (match ns with [] => None | a :: _ => Some a.1 end) = Ok ns.*2.
Proof.
  induction ns as [|a r IH]; intros p n fuel; [by destruct fuel|].
  intros [Ha Hr] Hf. destruct fuel as [|fuel]; [simpl in Hf; lia|]. cbn [iterate].
  unfold iter_next. rewrite (ll_ld_Ok _ _ _ Ha). cbn.
  specialize (IH _ _ fuel Hr ltac:(simpl in Hf; lia)). destruct r; simpl in *; by rewrite IH.
Qed.

Lemma to_list_Ok l ns fuel : circ l ns true → (length ns ≤ fuel)%nat → to_list fuel l = Ok ns.*2.
Proof. intros [Hs Hf _ _ _ _] Hl. unfold to_list. rewrite Hf. by eapply iterate_Ok. Qed.

(** Without the flag on the last link the iteration goes round for ever. *)
Lemma iterate_round l ns p : ∀ fuel i x, cseg (cells l) p ns (hd_or 0 ns) false →
  ns !! i = Some x → iterate l fuel (Some x.1) = NoFuel.
Proof.
  induction fuel as [|fuel IH]; intros i x Hs Hi; [done|]. cbn [iterate].
  assert (ns = take i ns ++ x :: drop (S i) ns) as E by (by rewrite take_drop_middle).
  pose proof Hs as Hs'. rewrite E in Hs' at 1. apply cseg_app in Hs' as [_ [Hx _]].
  assert (∃ j y, ns !! j = Some y ∧ y.1 = hd_or (hd_or 0 ns) (drop (S i) ns)) as (j & y & Hj & Ey).
  { destruct (drop (S i) ns) as [|y r] eqn:Er.
    - exists 0%nat. destruct ns as [|y ?]; [done|]. by exists y.
    - exists (S i), y. split; [|done]. pose proof (lookup_drop ns (S i) 0) as L. by rewrite Er, Nat.add_0_r in L. }
  rewrite <- Ey in Hx. unfold iter_next. rewrite (ll_ld_Ok _ _ _ Hx). destruct (drop (S i) ns);
  cbn; by rewrite (IH j y Hs Hj).
Qed.

Lemma ll_walk_Ok l ns k : ∀ p n fl x, cseg (cells l) p ns n fl → ns !! k = Some x →
  walk l (Some (hd_or 0 ns)) k = Ok (Some x.1, 0%nat).
Proof.
  revert ns. induction k as [|k IH]; intros [|a r] p n fl x Hs Hk; try done; cbn [walk hd_or].
  - simpl in Hk. by injection Hk as ->.
  - destruct Hs as [Ha Hr]. rewrite (ll_ld_Ok _ _ _ Ha). cbn. simpl in Hk.
    destruct r as [|b r]; [done|]. by eapply (IH (b :: r)).
Qed.

Lemma walk_circ l ns fl k x : circ l ns fl → ns !! k = Some x →
  walk l (first l) k = Ok (Some x.1, 0%nat).
Proof.
  intros [Hs Hf _ _ _ _] Hk. rewrite Hf. assert (∃ a r, ns = a :: r) as (a & r & ->) by (destruct ns; eauto; done).
  by eapply (ll_walk_Ok l (a :: r)).
Qed.

Lemma cseg_lookup cs ns k : ∀ p n fl x, cseg cs p ns n fl → ns !! k = Some x →
  ∃ y, cs !! x.1 = Some (Some y) ∧ data y = x.2.
Proof.
  revert ns. induction k as [|k IH]; intros [|a r] p n fl x Hs Hk; try done; destruct Hs as [Ha Hr].
  - injection Hk as ->. eauto.
  - by eapply IH.
Qed.

Lemma ll_at_Ok l ns fl k x : circ l ns fl → ns !! k = Some x → at_ l (Z.of_nat k) = Ok x.2.
Proof.
  intros Hc Hk. unfold at_. rewrite Nat2Z.id, (walk_circ _ _ _ _ _ Hc Hk). cbn.
  destruct (cseg_lookup _ _ _ _ _ _ _ (circ_seg _ _ _ Hc) Hk) as (y & Hy & <-). by rewrite (ll_ld_Ok _ _ _ Hy).
Qed.

Lemma remove_idx_Ok l ns fl k x : circ l ns fl → ns !! k = Some x →
  ∃ l', remove_idx l (Z.of_nat k) = Ok l' ∧
    circ l' (take k ns ++ drop (S k) ns) (cut_flag (take k ns) (drop (S k) ns) fl).
Proof.
  intros Hc Hk. pose proof (lookup_lt_Some _ _ _ Hk) as Hlt. unfold remove_idx.
  pose proof (circ_size _ _ _ Hc) as Hs. case (Z.ltb_spec (size l) (Z.of_nat k)) as [?|_]; [lia|].
  rewrite Nat2Z.id, (walk_circ _ _ _ _ _ Hc Hk). cbn.
  rewrite <- (take_drop_middle _ _ _ Hk) in Hc. by eapply remove_Ok.
Qed.

(** Without the flag on the last link [push_back] stops in its assertion. *)
Lemma push_back_unflagged l ns e : circ l ns false → ns ≠ [] → push_back l e = Fatal "first->prev->last".
Proof.
  intros [Hs Hf Hd Hsz Hmx Hm] Hne. destruct ns as [|b x]; [done|]. unfold push_back. rewrite Hm. cbn. rewrite Hf. cbn.
  destruct (snoc_cases (b :: x)) as [?|(r & z & Ez)]; [done|].
  pose proof (cseg_head _ _ _ _ _ _ Hs) as Hh. rewrite Ez, ll_last_or_snoc in Hh.
  erewrite ll_ld_Ok by exact Hh. cbn.
  pose proof (cseg_new _ (Some (mkLink (Some z.1) (Some b.1) e false)) _ _ _ _ Hs) as S1.
  rewrite Ez in S1. pose proof (cseg_last _ _ _ _ _ _ S1) as Z1.
  erewrite ll_st_Ok by exact Z1. cbn. erewrite ll_ld_Ok; [|simpl; by apply list_lookup_insert_eq; eapply lookup_lt_Some]. done.
Qed.

(** ** A linked list behaves as a list *)

Inductive op := PushBack (a : A) | PushFront (a : A) | Remove (k : nat).

Definition run_op l (o : op) : res (LinkedList A) :=
  match o with
  | PushBack a => push_back l a
  | PushFront a => push_front l a
  | Remove k => remove_idx l (Z.of_nat k)
  end.
Fixpoint run l (os : list op) : res (LinkedList A) :=
  match os with [] => Ok l | o :: os => l ← run_op l o; run l os end.

Definition spec_op (xs : list A) (o : op) : list A :=
  match o with
  | PushBack a => xs ++ [a]
  | PushFront a => a :: xs
  | Remove k => take k xs ++ drop (S k) xs
  end.
(** A removal takes an element that is there, and not the last of several. *)
Definition allowed (xs : list A) (o : op) : Prop :=
  match o with Remove k => (S k < length xs ∨ k = 0 ∧ length xs = 1)%nat | _ => True end.
Fixpoint all_allowed (xs : list A) (os : list op) : Prop :=
  match os with [] => True | o :: os => allowed xs o ∧ all_allowed (spec_op xs o) os end.

Lemma spec_op_length xs o : (length (spec_op xs o) ≤ S (length xs))%nat.
Proof. destruct o; simpl; rewrite ?length_app, ?length_take, ?length_drop; simpl; lia. Qed.

Lemma run_op_Ok l ns o : circ l ns true → allowed ns.*2 o → zlen ns + 1 < 2 ^ 32 →
  ∃ l' ns', run_op l o = Ok l' ∧ circ l' ns' true ∧ ns'.*2 = spec_op ns.*2 o.
Proof.
  intros Hc Ha Hlt. pose proof (circ_size _ _ _ Hc) as Hs. destruct o as [a|a|k]; cbn [run_op spec_op].
  - destruct (ll_push_back_Ok l ns a Hc) as (l' & E & Hc'); [lia|]. eexists _, _. split_and!; [done..|by rewrite fmap_app].
  - destruct (push_front_Ok l ns a Hc) as (l' & E & Hc'); [lia|]. by eexists _, _.
  - simpl in Ha. rewrite length_fmap in Ha.
    destruct (lookup_lt_is_Some_2 ns k) as [x Hx]; [lia|].
    destruct (remove_idx_Ok l ns true k x Hc Hx) as (l' & E & Hc').
    assert (cut_flag (take k ns) (drop (S k) ns) true = true) as Hfl.
    { destruct Ha as [Ha|[-> Ha]]; [|by destruct ns].
      assert (length (drop (S k) ns) ≠ 0)%nat by (rewrite length_drop; lia).
      destruct (take k ns), (drop (S k) ns); simpl in *; done. }
    rewrite Hfl in Hc'. eexists _, _. split_and!; [done..|]. by rewrite fmap_app, fmap_take, fmap_drop.
Qed.

Lemma run_Ok os : ∀ l ns, circ l ns true → all_allowed ns.*2 os → zlen ns + zlen os < 2 ^ 32 →
  ∃ l' ns', run l os = Ok l' ∧ circ l' ns' true ∧ ns'.*2 = foldl spec_op ns.*2 os.
Proof.
  induction os as [|o os IH]; intros l ns Hc Ha Hl; [by eexists _, _|].
  destruct Ha as [Ha Hr]. simpl length in Hl.
  destruct (run_op_Ok l ns o Hc Ha) as (l1 & n1 & E1 & C1 & N1); [lia|]. rewrite <- N1 in Hr.
  pose proof (spec_op_length ns.*2 o) as Hle. rewrite <- N1, !length_fmap in Hle.
  destruct (IH l1 n1 C1 Hr) as (l2 & n2 & E2 & C2 & N2); [lia|].
  cbn [run foldl]. rewrite E1. cbn. exists l2, n2. split_and!; [done..|]. by rewrite N2, N1.
Qed.

Lemma circ_empty : circ empty [] true.
Proof. split; simpl; first [done|by constructor|lia]. Qed.
(** ** The ring as the scheduler uses it *)

(** The position after [i] in a ring of [n]. *)
Definition succ_ix (n i : nat) : nat := if decide (S i = n) then 0 else S i.

Lemma circ_next l ns fl i x : circ l ns fl → ns !! i = Some x →
  ∃ p y b, cells l !! x.1 = Some (Some (mkLink p (Some y.1) x.2 b)) ∧ ns !! succ_ix (length ns) i = Some y.
Proof.
  intros [Hs _ _ _ _ _] Hi. pose proof (lookup_lt_Some _ _ _ Hi) as Hlt.
  rewrite <- (take_drop_middle _ _ _ Hi) in Hs at 2. apply cseg_app in Hs as [_ [Hx _]].
  unfold succ_ix. case_decide as Hd.
  - rewrite drop_ge in Hx by lia. destruct ns as [|y ns]; [done|]. exists (Some (last_or (last_or 0 (y :: ns)) (take i (y :: ns)))), y, fl.
    split; [exact Hx|done].
  - destruct (lookup_lt_is_Some_2 ns (S i)) as [y Hy]; [lia|].
    rewrite (drop_S ns y (S i) Hy) in Hx. by eexists _, y, _.
Qed.

Definition set_data (a : A) (x : Link A) : Link A := mkLink (prev x) (next x) a (last x).

Lemma cseg_set_data cs ns : ∀ p n fl i k a a' x, cseg cs p ns n fl → NoDup ns.*1 → ns !! i = Some (k, a) →
  cs !! k = Some (Some x) → cseg (<[k := Some (set_data a' x)]> cs) p (<[i := (k, a')]> ns) n fl.
Proof.
  induction ns as [|b r IH]; intros p n fl i k a a' x Hs Hd Hi Hx; [done|].
  destruct Hs as [Hb Hr]. rewrite fmap_cons in Hd. apply NoDup_cons in Hd as [Hni Hd].
  destruct i as [|i]; simpl in Hi.
  - injection Hi as ->. cbn [insert list_insert cseg fst snd] in *. split; [|by apply cseg_insert].
    rewrite list_lookup_insert_eq by (by eapply lookup_lt_Some). rewrite Hx in Hb. injection Hb as ->. done.
  - change (<[S i := (k, a')]> (b :: r)) with (b :: <[i := (k, a')]> r). cbn [cseg].
    assert (b.1 ≠ k) as Hne.
    { intros <-. apply Hni. change b.1 with ((b.1, a).1). apply list_elem_of_fmap_2. by eapply list_elem_of_lookup_2. }
    rewrite list_lookup_insert_ne by done. rewrite Hb. split; [|by eapply IH].
    destruct r as [|c r]; [done|]. destruct i; simpl in Hi |- *; [by injection Hi as ->|done].
Qed.

Lemma insert_fst (ns : list node) i k a a' : ns !! i = Some (k, a) → (<[i := (k, a')]> ns).*1 = ns.*1.
Proof.
  intros Hi. rewrite list_fmap_insert. simpl. apply list_insert_id. by rewrite list_lookup_fmap, Hi.
Qed.
Lemma insert_ends (ns : list node) i k a a' n : ns !! i = Some (k, a) →
  hd_or n (<[i := (k, a')]> ns) = hd_or n ns ∧ (∀ p, last_or p (<[i := (k, a')]> ns) = last_or p ns).
Proof.
  intros Hi. split.
  - destruct ns as [|b r], i; try done. simpl in Hi. by injection Hi as ->.
  - revert i Hi. induction ns as [|b r IH]; intros i Hi p; [done|]. destruct i as [|i].
    + simpl in Hi. injection Hi as ->. done.
    + change (<[S i := (k, a')]> (b :: r)) with (b :: <[i := (k, a')]> r). rewrite !last_or_cons. by apply IH.
Qed.

Lemma circ_set l ns fl i k a a' : circ l ns fl → ns !! i = Some (k, a) →
  ∃ l', st l (Some k) (set_data a') = Ok l' ∧ circ l' (<[i := (k, a')]> ns) fl.
Proof.
  intros Hc Hi. destruct (circ_next l ns fl i _ Hc Hi) as (p & y & b & Hx & _). simpl in Hx.
  rewrite (ll_st_Ok _ _ _ _ Hx). eexists. split; [done|].
  destruct (insert_ends ns i k a a' 0%nat Hi) as [E1 E2]. destruct Hc as [Hs Hf Hd Hsz Hmx Hm].
  split; simpl; rewrite ?length_insert; try done.
  - rewrite E1, E2. by eapply cseg_set_data.
  - rewrite Hf. destruct ns as [|b0 r], i; try done. simpl in Hi. by injection Hi as ->.
  - by rewrite (insert_fst ns i k a a' Hi).
Qed.
End List.
#[local] Arguments st : simpl never.
#[local] Arguments ld : simpl never.

(** C19: a linked list that is pushed to at both ends and loses elements by index, never the last
    of several, behaves as the list of its elements: every operation returns, iteration from
    [begin()] to [end()] ends and gives the elements in order, [size] counts them, [operator[]]
    finds each of them, and the list's lock is free again. *)
Theorem linked_list_is_list {A} (os : list (op (A:=A))) :
  zlen os < 2 ^ 32 → all_allowed [] os →
  let xs := foldl spec_op [] os in
  ∃ l, run empty os = Ok l ∧
    (∀ fuel, (length xs ≤ fuel)%nat → to_list fuel l = Ok xs) ∧
    size l = zlen xs ∧
    (∀ k x, xs !! k = Some x → at_ l (Z.of_nat k) = Ok x) ∧
    m l = 0.
Proof.
  intros Hl Ha xs. destruct (run_Ok os empty [] circ_empty Ha) as (l & ns & E & Hc & N); [simpl; lia|].
  assert (ns.*2 = xs) as N' by exact N. clear N. rename N' into N.
  exists l. assert (length xs = length ns) as Hlen by (rewrite <- N; by rewrite length_fmap).
  split_and!; [done| | | |by destruct Hc].
  - intros fuel Hf. rewrite <- N. apply to_list_Ok; [done|lia].
  - rewrite Hlen. by destruct Hc.
  - intros k x Hk. rewrite <- N, list_lookup_fmap in Hk.
    destruct (ns !! k) as [y|] eqn:Hy; [|done]. injection Hk as <-. by eapply ll_at_Ok.
Qed.

Lemma linked_list_is_list_witness : ∃ l,
  run empty [PushBack 1; PushFront 2; PushBack 3; Remove 1] = Ok l ∧ to_list 2 l = Ok [2; 3] ∧ at_ l 1 = Ok 3.
Proof.
  destruct (linked_list_is_list [PushBack 1; PushFront 2; PushBack 3; Remove 1]) as (l & E & Hl & _ & Ha & _).
  - simpl. lia.
  - simpl. lia.
  - exists l. split_and!; [done|apply Hl; simpl; lia|by apply (Ha 1%nat)].
Defined.

(** C20: [remove] does not hand the [last] flag on.  After the last of several links is removed,
    iterating over the list never ends, and the next [push_back] stops in the failed assertion. *)
Theorem remove_last_breaks {A} (l : LinkedList A) x a :
  circ l (x ++ [a]) true → x ≠ [] → size l < 2 ^ 32 - 1 →
  ∃ l', remove l (Some a.1) = Ok l' ∧
    (∀ fuel, to_list fuel l' = NoFuel) ∧
    (∀ e, push_back l' e = Fatal "first->prev->last").
Proof.
  intros Hc Hx Hlt. destruct (remove_Ok l x a [] true Hc) as (l' & E & Hc'). exists l'. split; [done|].
  rewrite app_nil_r in Hc'. destruct x as [|b x]; [done|]. cbn [cut_flag] in Hc'.
  pose proof Hc' as [Hs Hf _ _ _ _]. split.
  - intros fuel. unfold to_list. rewrite Hf. by eapply (iterate_round l' (b :: x) _ fuel 0).
  - intros e. by eapply (push_back_unflagged l' (b :: x)).
Qed.

Definition two_links : LinkedList Z :=
  mkList [Some (mkLink (Some 1%nat) (Some 1%nat) 10 false); Some (mkLink (Some 0%nat) (Some 0%nat) 20 true)]
         (Some 0%nat) 2 0.

Lemma remove_last_breaks_witness : ∃ l', remove two_links (Some 1%nat) = Ok l' ∧ to_list 100 l' = NoFuel.
Proof.
  destruct (remove_last_breaks two_links [(0%nat, 10)] (1%nat, 20)) as (l' & E & Hn & _).
  - split; simpl; try done. repeat constructor; set_solver.
  - done.
  - simpl. lia.
  - exists l'. split; [exact E|apply Hn].
Defined.
