(* ===== verification/HashMap.v ===== *)
(** [HashMap<K, V>] ([util/storage.hh]): a vector of linked lists.

    What the map needs of a bucket is the interface [BucketOps] with the laws [BucketLaws]; the
    map's theorems are proved against it and [LinkedList] discharges it. *)
From S2P Require Import Prelude Async LinkedList.

(** ** Hash functions *)

(** [pow], in 128 bits. *)
Fixpoint pow_loop (a num : Z) (b : nat) : Z :=
  match b with O => num | S b' => pow_loop a (uN 128 (num * a)) b' end.
Definition pow (a b : Z) : Z := pow_loop a 1 (Z.to_nat b).

Definition valueperchar : Z := 53.

Definition hash_u64 (key size : Z) : res Z := if size =? 0 then Fault else Ok (key `mod` size).

(** [char] is signed: a byte is sign-extended before the product. *)
Fixpoint hash_loop (s : list Z) (i sum : Z) : Z :=
  match s with
  | [] => sum
  | c :: s' => hash_loop s' (i + 1) (u64 (sum + uN 128 (pow valueperchar i * uN 128 (iN 8 c))))
  end.

(** [hash(const char* val, u64 size)]: the first character is taken without looking at the
    terminator, so the empty string is read past its end. *)
Definition hash_cstr (s : list Z) (size : Z) : res Z :=
  match s with
  | [] => Fault
  | c :: s' => hash_u64 (hash_loop s' 1 (u64 (iN 8 c))) size
  end.

(** [hash(const String& val, u64 size)] *)
Definition hash_String (s : list Z) (size : Z) : res Z := hash_u64 (hash_loop s 0 0) size.

(** The two string hashes agree. *)
Lemma hash_cstr_String s size : s ≠ [] → hash_cstr s size = hash_String s size.
Proof.
  destruct s as [|c s]; [done|]. intros _. unfold hash_String. cbn [hash_cstr hash_loop].
  do 2 f_equal. unfold pow. simpl. rewrite Z.mul_1_l. unfold uN.
  rewrite <- (Z.mod_mod_divide (iN 8 c) (2 ^ 128) (2 ^ 64)) at 1 by (exists (2 ^ 64); done).
  f_equal. by rewrite Zmod_mod.
Qed.

(** ** The interface of a bucket *)

Class BucketOps (B : Type → Type) := {
  bk_new : ∀ {A}, B A;
  bk_size : ∀ {A}, B A → Z;
  bk_push_front : ∀ {A}, B A → A → res (B A);
  bk_begin : ∀ {A}, B A → option nat;                  (* begin(); [None] is end() *)
  bk_iter : ∀ {A}, B A → nat → res (option nat);       (* ++it *)
  bk_get : ∀ {A}, B A → nat → res A;                   (* *it *)
  bk_set : ∀ {A}, B A → nat → A → res (B A);           (* *it = a *)
  bk_next : ∀ {A}, B A → nat → res (option nat);       (* link->next *)
  bk_remove : ∀ {A}, B A → nat → res (B A) }.          (* remove( *link) *)

(** What the map relies on.  A bucket never holds more than one pair there, so the laws speak of
    an empty bucket and of a bucket with one element. *)
Class BucketLaws (B : Type → Type) `{BucketOps B} := {
  bk_none : ∀ {A}, B A → Prop;
  bk_one : ∀ {A}, B A → nat → A → Prop;
  bk_new_none : ∀ A, bk_none (bk_new (A:=A));
  bk_none_size : ∀ A (b : B A), bk_none b → bk_size b = 0;
  bk_none_begin : ∀ A (b : B A), bk_none b → bk_begin b = None;
  bk_one_size : ∀ A (b : B A) i a, bk_one b i a → bk_size b = 1;
  bk_one_begin : ∀ A (b : B A) i a, bk_one b i a → bk_begin b = Some i;
  bk_one_iter : ∀ A (b : B A) i a, bk_one b i a → bk_iter b i = Ok None;
  bk_one_next : ∀ A (b : B A) i a, bk_one b i a → bk_next b i = Ok (Some i);
  bk_one_get : ∀ A (b : B A) i a, bk_one b i a → bk_get b i = Ok a;
  bk_push_one : ∀ A (b : B A) a, bk_none b →
    ∃ b' i, bk_push_front b a = Ok b' ∧ bk_one b' i a;
  bk_set_one : ∀ A (b : B A) i a a', bk_one b i a →
    ∃ b', bk_set b i a' = Ok b' ∧ bk_one b' i a';
  bk_remove_one : ∀ A (b : B A) i a, bk_one b i a →
    ∃ b', bk_remove b i = Ok b' ∧ bk_none b' }.

(** ** The map *)

Record HashMap (B : Type → Type) (K V : Type) := mkMap { entries : list (B (K * V)%type); size : Z }.
Arguments mkMap {_ _ _} _ _.
Arguments entries {_ _ _} _.
Arguments size {_ _ _} _.

Definition defsize : Z := 1024.

Section Map.
Context {B : Type → Type} `{BucketOps B} {K V : Type} `{EqDecision K}.
(** The overload of [hash] the key type selects, and [V()]. *)
Variable hash : K → Z → res Z.
Variable V0 : V.
Implicit Types (h : HashMap B K V) (b : B (K * V)%type) (key : K).

(** [HashMap(u64 s)]; [size] has 32 bits. *)
Definition HashMap_new (s : Z) : HashMap B K V :=
  let n := u32 s in mkMap (replicate (Z.to_nat n) bk_new) n.

(** [entries[hash(key, size)]] *)
Definition bucket_of h key : res (nat * B (K * V)%type) :=
  i ← hash key (size h); b ← deref (zlookup (entries h) i); Ok (Z.to_nat i, b).
Definition put_bucket h (i : nat) b : HashMap B K V := mkMap (<[i := b]> (entries h)) (size h).

(** [for (auto& e : bucket) if (e.key == key) return ...], from [it] on. *)
Fixpoint bucket_find (fuel : nat) b (it : option nat) key : res (option nat) :=
  match it with
  | None => Ok None
  | Some i =>
      match fuel with
      | O => NoFuel
      | S fuel =>
          e ← bk_get b i;
          if decide (e.1 = key) then Ok (Some i) else it ← bk_iter b i; bucket_find fuel b it key
      end
  end.
(** A round for each counted element and one to reach the end. *)
Definition find_in b key : res (option nat) :=
  bucket_find (S (Z.to_nat (bk_size b))) b (bk_begin b) key.

(** [operator[](key)]: where the referenced pair is. *)
Definition subscript h key : res (HashMap B K V * (nat * nat)) :=
  '(i, b) ← bucket_of h key;
  if bk_size b =? 0 then
    b ← bk_push_front b (key, V0);
    l ← deref (bk_begin b);
    Ok (put_bucket h i b, (i, l))
  else
    r ← find_in b key;
    match r with
    | Some l => Ok (h, (i, l))
    | None => Fatal "Nincs ilyen elem!"
    end.

(** [x = map[key]] *)
Definition get h key : res (HashMap B K V * V) :=
  '(h, (i, l)) ← subscript h key; b ← deref (entries h !! i); e ← bk_get b l; Ok (h, e.2).
(** [e.value = v] *)
Definition set_value b (l : nat) (v : V) : res (B (K * V)%type) :=
  e ← bk_get b l; bk_set b l (e.1, v).
(** [map[key] = v] *)
Definition assign h key (v : V) : res (HashMap B K V) :=
  '(h, (i, l)) ← subscript h key; b ← deref (entries h !! i);
  b ← set_value b l v; Ok (put_bucket h i b).

Definition has h key : res bool :=
  '(_, b) ← bucket_of h key; r ← find_in b key; Ok (match r with Some _ => true | None => false end).

(** [do { ... l = l->next; } while (first != l)] *)
Fixpoint ring_find (fuel : nat) b (first l : nat) key : res (option nat) :=
  match fuel with
  | O => NoFuel
  | S fuel =>
      e ← bk_get b l;
      if decide (e.1 = key) then Ok (Some l) else
      n ← bk_next b l; l ← deref n;
      if decide (first = l) then Ok None else ring_find fuel b first l key
  end.

Definition remove h key : res (HashMap B K V) :=
  '(i, b) ← bucket_of h key;
  if bk_size b =? 0 then Fatal "Tried to delete non-existent element!" else
  first ← deref (bk_begin b);
  r ← ring_find (S (Z.to_nat (bk_size b))) b first first key;
  match r with
  | Some l => b ← bk_remove b l; Ok (put_bucket h i b)
  | None => Fatal "Element not found!"
  end.

(** [Iter]: the bucket and the place in it.  [find_next_valid] skips empty buckets. *)
Fixpoint find_next_valid (vs : list (B (K * V)%type)) (lcur : option nat) : list (B (K * V)%type) * option nat :=
  match vs, lcur with
  | _ :: vs', None => find_next_valid vs' (match vs' with [] => None | b :: _ => bk_begin b end)
  | _, _ => (vs, lcur)
  end.
(** [for (auto& e : map)].  [end()] also reads the bucket one past the last, a value no comparison
    uses; that read is left out.  The iterator is equal to [end()] when no bucket is left. *)
Fixpoint iter_loop (fuel : nat) (vs : list (B (K * V)%type)) (lcur : option nat) : res (list (K * V)) :=
  match vs with
  | [] => Ok []
  | b :: _ =>
      match fuel with
      | O => NoFuel
      | S fuel =>
          i ← deref lcur; e ← bk_get b i;
          n ← bk_iter b i;
          let '(vs, lcur) := find_next_valid vs n in
          r ← iter_loop fuel vs lcur; Ok (e :: r)
      end
  end.
Definition pairs (fuel : nat) h : res (list (K * V)) :=
  let '(vs, lcur) := find_next_valid (entries h) (match entries h with [] => None | b :: _ => bk_begin b end) in
  iter_loop fuel vs lcur.

(** ** What the map stands for

    A direct-mapped table: one slot per bucket, holding at most one pair. *)
Abbreviation table := (list (option (K * V))).
Implicit Types t : table.

Inductive call := Get (key : K) | Assign (key : K) (v : V) | Has (key : K) | Remove (key : K).
Inductive reply := RUnit | RValue (v : V) | RBool (c : bool).

Definition call_key (c : call) : K :=
  match c with Get k | Assign k _ | Has k | Remove k => k end.

(** The table's answer, given the slot [i] the key hashes to. *)
Definition spec_call t (i : nat) (c : call) : res (table * reply) :=
  s ← deref (t !! i);
  match c, s with
  | Get k, None => Ok (<[i := Some (k, V0)]> t, RValue V0)
  | Get k, Some e => if decide (e.1 = k) then Ok (t, RValue e.2) else Fatal "Nincs ilyen elem!"
  | Assign k v, None => Ok (<[i := Some (k, v)]> t, RUnit)
  | Assign k v, Some e =>
      if decide (e.1 = k) then Ok (<[i := Some (k, v)]> t, RUnit) else Fatal "Nincs ilyen elem!"
  | Has k, None => Ok (t, RBool false)
  | Has k, Some e => Ok (t, RBool (bool_decide (e.1 = k)))
  | Remove k, None => Fatal "Tried to delete non-existent element!"
  | Remove k, Some e =>
      if decide (e.1 = k) then Ok (<[i := None]> t, RUnit) else Fatal "Element not found!"
  end.

Definition run_call h (c : call) : res (HashMap B K V * reply) :=
  match c with
  | Get k => '(h, v) ← get h k; Ok (h, RValue v)
  | Assign k v => h ← assign h k v; Ok (h, RUnit)
  | Has k => c ← has h k; Ok (h, RBool c)
  | Remove k => h ← remove h k; Ok (h, RUnit)
  end.

Fixpoint run_calls h (cs : list call) : res (HashMap B K V * list reply) :=
  match cs with
  | [] => Ok (h, [])
  | c :: cs => '(h, r) ← run_call h c; '(h, rs) ← run_calls h cs; Ok (h, r :: rs)
  end.
Fixpoint spec_calls t (cs : list call) : res (table * list reply) :=
  match cs with
  | [] => Ok (t, [])
  | c :: cs =>
      i ← hash (call_key c) (zlen t);
      '(t, r) ← spec_call t (Z.to_nat i) c; '(t, rs) ← spec_calls t cs; Ok (t, r :: rs)
  end.

Context `{!BucketLaws B}.
(** The hash lands inside the table. *)
Hypothesis hash_in : ∀ key n, 0 < n → ∃ i, hash key n = Ok i ∧ 0 ≤ i < n.

Definition slot_ok b (s : option (K * V)) : Prop :=
  match s with None => bk_none b | Some e => ∃ i, bk_one b i e end.
Record map_repr h t : Prop := {
  repr_size : size h = zlen t;
  repr_pos : 0 < zlen t;
  repr_slots : Forall2 slot_ok (entries h) t }.

(** Two outcomes agree: both return, related, or both stop the same way. *)
Definition agree {X Y} (R : X → Y → Prop) (x : res X) (y : res Y) : Prop :=
  match x, y with
  | Ok a, Ok b => R a b
  | Fatal m, Fatal n => m = n
  | Fault, Fault | Hang, Hang | NoFuel, NoFuel => True
  | _, _ => False
  end.

Lemma agree_bind {X Y X' Y'} (R : X → Y → Prop) (S : X' → Y' → Prop) x y f g :
  agree R x y → (∀ u w, R u w → agree S (f u) (g w)) → agree S (x ≫= f) (y ≫= g).
Proof. destruct x, y; cbn; try done. auto. Qed.

Lemma bucket_of_Ok h t key : map_repr h t →
  ∃ i b s, hash key (zlen t) = Ok (Z.of_nat i) ∧ bucket_of h key = Ok (i, b) ∧ entries h !! i = Some b ∧
    t !! i = Some s ∧ slot_ok b s ∧ (i < length t)%nat.
Proof.
  intros [Hsz Hp Hf]. destruct (hash_in key (zlen t) Hp) as (z & Hz & Hr).
  destruct (lookup_lt_is_Some_2 t (Z.to_nat z)) as [s Hs]; [lia|].
  destruct (Forall2_lookup_r _ _ _ _ _ Hf Hs) as (b & Hb & Hok).
  exists (Z.to_nat z), b, s. unfold bucket_of. rewrite Hsz, Hz. cbn. rewrite zlookup_Z, Hb by lia. cbn.
  rewrite Z2Nat.id by lia. split_and!; try done. lia.
Qed.

Lemma find_none b key : bk_none b → find_in b key = Ok None.
Proof. intros Hb. unfold find_in. by rewrite (bk_none_size _ _ Hb), (bk_none_begin _ _ Hb). Qed.
Lemma find_one b i e key : bk_one b i e → find_in b key = Ok (if decide (e.1 = key) then Some i else None).
Proof.
  intros Hb. unfold find_in. rewrite (bk_one_size _ _ _ _ Hb), (bk_one_begin _ _ _ _ Hb). cbn.
  rewrite (bk_one_get _ _ _ _ Hb). cbn. case_decide; [done|]. by rewrite (bk_one_iter _ _ _ _ Hb).
Qed.
Lemma ring_one b i e key fuel : bk_one b i e →
  ring_find (S fuel) b i i key = Ok (if decide (e.1 = key) then Some i else None).
Proof.
  intros Hb. cbn [ring_find]. rewrite (bk_one_get _ _ _ _ Hb). cbn. case_decide; [done|].
  rewrite (bk_one_next _ _ _ _ Hb). cbn. by rewrite decide_True.
Qed.

Lemma put_repr h t i b s : map_repr h t → slot_ok b s → map_repr (put_bucket h i b) (<[i := s]> t).
Proof.
  intros [Hsz Hp Hf] Hok. split; simpl; rewrite ?length_insert; try done. by apply Forall2_insert.
Qed.

Definition call_rel (x : HashMap B K V * reply) (y : table * reply) : Prop :=
  map_repr x.1 y.1 ∧ x.2 = y.2.


#[local] Arguments find_in : simpl never.
#[local] Arguments ring_find : simpl never.
#[local] Arguments subscript : simpl never.
#[local] Arguments set_value : simpl never.
#[local] Arguments bucket_of : simpl never.

Lemma subscript_none h t key i b : map_repr h t → bucket_of h key = Ok (i, b) → bk_none b →
  ∃ b' l, subscript h key = Ok (put_bucket h i b', (i, l)) ∧ bk_one b' l (key, V0).
Proof.
  intros Hr Hb Hn. unfold subscript. rewrite Hb. cbn. rewrite (bk_none_size _ _ Hn). cbn.
  destruct (bk_push_one _ b (key, V0) Hn) as (b' & l & E & Ho). rewrite E. cbn.
  rewrite (bk_one_begin _ _ _ _ Ho). cbn. eauto.
Qed.
Lemma subscript_one h t key i b l e : map_repr h t → bucket_of h key = Ok (i, b) → bk_one b l e →
  subscript h key = if decide (e.1 = key) then Ok (h, (i, l)) else Fatal "Nincs ilyen elem!".
Proof.
  intros Hr Hb Ho. unfold subscript. rewrite Hb. cbn. rewrite (bk_one_size _ _ _ _ Ho). cbn.
  rewrite (find_one _ _ _ _ Ho). cbn. by case_decide.
Qed.

Lemma put_lookup h i b b' : entries h !! i = Some b → entries (put_bucket h i b') !! i = Some b'.
Proof. intros Hb. simpl. apply list_lookup_insert_eq. by eapply lookup_lt_Some. Qed.
Lemma put_put h i b b' : put_bucket (put_bucket h i b) i b' = put_bucket h i b'.
Proof. unfold put_bucket. simpl. by rewrite list_insert_insert_eq. Qed.

Lemma get_agree h t key i b s : map_repr h t → bucket_of h key = Ok (i, b) → entries h !! i = Some b →
  t !! i = Some s → slot_ok b s → agree call_rel (run_call h (Get key)) (spec_call t i (Get key)).
Proof.
  intros Hr Hb He Ht Hok. unfold spec_call. rewrite Ht. cbn [mbind res_bind deref run_call]. unfold get.
  destruct s as [e|]; simpl in Hok.
  - destruct Hok as [l Ho]. rewrite (subscript_one _ _ _ _ _ _ _ Hr Hb Ho). case_decide; [|done]. cbn.
    rewrite He. cbn. rewrite (bk_one_get _ _ _ _ Ho). done.
  - destruct (subscript_none _ _ _ _ _ Hr Hb Hok) as (b' & l & E & Ho). rewrite E. cbn -[put_bucket].
    rewrite (put_lookup _ _ _ _ He). cbn -[put_bucket]. rewrite (bk_one_get _ _ _ _ Ho). cbn -[put_bucket].
    split; [|done]. apply put_repr; [done|]. by exists l.
Qed.

Lemma set_value_Ok b l e v : bk_one b l e → ∃ b', set_value b l v = Ok b' ∧ bk_one b' l (e.1, v).
Proof. intros Ho. unfold set_value. rewrite (bk_one_get _ _ _ _ Ho). by apply bk_set_one with (a := e). Qed.

Lemma assign_agree h t key v i b s : map_repr h t → bucket_of h key = Ok (i, b) → entries h !! i = Some b →
  t !! i = Some s → slot_ok b s → agree call_rel (run_call h (Assign key v)) (spec_call t i (Assign key v)).
Proof.
  intros Hr Hb He Ht Hok. unfold spec_call. rewrite Ht. cbn [mbind res_bind deref run_call]. unfold assign.
  destruct s as [e|]; simpl in Hok.
  - destruct Hok as [l Ho]. rewrite (subscript_one _ _ _ _ _ _ _ Hr Hb Ho). case_decide as Hk; [|done]. cbn.
    rewrite He. cbn. destruct (set_value_Ok b l e v Ho) as (b' & -> & Ho'). cbn -[put_bucket].
    split; [|done]. apply put_repr; [done|]. exists l. by rewrite <- Hk.
  - destruct (subscript_none _ _ _ _ _ Hr Hb Hok) as (b' & l & E & Ho). rewrite E. cbn -[put_bucket].
    rewrite (put_lookup _ _ _ _ He). cbn -[put_bucket].
    destruct (set_value_Ok b' l _ v Ho) as (b2 & -> & Ho'). cbn -[put_bucket].
    split; [|done]. rewrite put_put. apply put_repr; [done|]. by exists l.
Qed.

Lemma remove_agree h t key i b s : map_repr h t → bucket_of h key = Ok (i, b) →
  t !! i = Some s → slot_ok b s → agree call_rel (run_call h (Remove key)) (spec_call t i (Remove key)).
Proof.
  intros Hr Hb Ht Hok. unfold spec_call. rewrite Ht. cbn [mbind res_bind deref run_call]. unfold remove. rewrite Hb.
  destruct s as [e|]; simpl in Hok; cbn.
  - destruct Hok as [l Ho]. rewrite (bk_one_size _ _ _ _ Ho), (bk_one_begin _ _ _ _ Ho).
    cbn -[ring_find Z.to_nat]. rewrite (ring_one _ _ _ _ _ Ho). cbn. case_decide; [|done].
    destruct (bk_remove_one _ _ _ _ Ho) as (b' & -> & Hn). cbn -[put_bucket]. split; [|done]. by apply put_repr.
  - by rewrite (bk_none_size _ _ Hok).
Qed.

Lemma has_agree h t key i b s : map_repr h t → bucket_of h key = Ok (i, b) →
  t !! i = Some s → slot_ok b s → agree call_rel (run_call h (Has key)) (spec_call t i (Has key)).
Proof.
  intros Hr Hb Ht Hok. unfold spec_call. rewrite Ht. cbn [mbind res_bind deref run_call]. unfold has. rewrite Hb. cbn.
  destruct s as [e|]; simpl in Hok.
  - destruct Hok as [l Ho]. rewrite (find_one _ _ _ _ Ho). cbn. split; [done|]. simpl. f_equal. by case_decide; case_bool_decide.
  - by rewrite (find_none _ _ Hok).
Qed.

Lemma calls_agree cs : ∀ h t, map_repr h t →
  agree (λ x y, map_repr x.1 y.1 ∧ x.2 = y.2) (run_calls h cs) (spec_calls t cs).
Proof.
  induction cs as [|c cs IH]; intros h t Hr; [done|]. cbn [run_calls spec_calls].
  destruct (bucket_of_Ok h t (call_key c) Hr) as (i & b & s & Hh & Hb & He & Ht & Hok & Hi).
  rewrite Hh. cbn [mbind res_bind]. rewrite Nat2Z.id.
  apply (agree_bind call_rel).
  - destruct c; simpl in Hb; [eapply get_agree|eapply assign_agree|eapply has_agree|eapply remove_agree]; done.
  - intros [h' r] [t' r'] [Hr' Er]. simpl in Hr', Er. subst r'.
    eapply agree_bind; [by apply IH|]. intros [h2 rs] [t2 rs'] [Hr2 Ers]. simpl in *. by subst.
Qed.

Lemma new_repr n : 0 < n < 2 ^ 32 → map_repr (HashMap_new n) (replicate (Z.to_nat n) None).
Proof.
  intros Hn. unfold HashMap_new. rewrite uN_small by (unfold is_uN; lia).
  split; simpl; rewrite ?length_replicate; [lia|lia|].
  apply Forall2_replicate. apply bk_new_none.
Qed.

(** ** Iteration *)

Lemma find_next_valid_omap vs ts : Forall2 slot_ok vs ts →
  let '(vs', l) := find_next_valid vs (match vs with [] => None | b :: _ => bk_begin b end) in
  ∃ ts', Forall2 slot_ok vs' ts' ∧ omap id ts' = omap id ts ∧ (length ts' ≤ length ts)%nat ∧
    match vs', ts' with
    | [], _ => True
    | b :: _, Some e :: _ => ∃ i, l = Some i ∧ bk_one b i e
    | _, _ => False
    end.
Proof.
  induction 1 as [|b s vs ts Hb Hf IH]; [by exists []|].
  destruct s as [e|]; simpl in Hb.
  - destruct Hb as [i Ho]. rewrite (bk_one_begin _ _ _ _ Ho). cbn. exists (Some e :: ts).
    split_and!; [|done|done|eauto]. constructor; [by exists i|done].
  - rewrite (bk_none_begin _ _ Hb). cbn [find_next_valid].
    destruct (find_next_valid vs _) as [vs' l]. destruct IH as (ts' & H1 & H2 & H3 & H4).
    exists ts'. split_and!; [done|done|simpl; lia|done].
Qed.

Lemma next_bucket b vs : find_next_valid (b :: vs) None =
  find_next_valid vs (match vs with [] => None | b :: _ => bk_begin b end).
Proof. done. Qed.

Lemma iter_loop_omap fuel : ∀ vs ts l, (length ts ≤ fuel)%nat → Forall2 slot_ok vs ts →
  match vs, ts with
  | [], _ => True
  | b :: _, Some e :: _ => ∃ i, l = Some i ∧ bk_one b i e
  | _, _ => False
  end → iter_loop fuel vs l = Ok (omap id ts).
Proof.
  induction fuel as [|fuel IH]; intros vs ts l Hl Hf Hm;
    (destruct Hf as [|b s vs ts Hb Hf]; [done|]); [simpl in Hl; lia|].
  destruct s as [e|]; [|done]. destruct Hm as (i & -> & Ho). cbn [iter_loop deref mbind res_bind].
  rewrite (bk_one_get _ _ _ _ Ho), (bk_one_iter _ _ _ _ Ho). cbn [mbind res_bind]. rewrite next_bucket.
  pose proof (find_next_valid_omap vs ts Hf) as Hn. destruct (find_next_valid vs _) as [vs' l'].
  destruct Hn as (ts' & H1 & H2 & H3 & H4). rewrite (IH vs' ts' l') by (done || simpl in Hl; lia).
  cbn. by rewrite H2.
Qed.

Lemma pairs_omap h t fuel : map_repr h t → (length t ≤ fuel)%nat → pairs fuel h = Ok (omap id t).
Proof.
  intros [_ _ Hf] Hl. unfold pairs. pose proof (find_next_valid_omap _ _ Hf) as Hn.
  destruct (find_next_valid (entries h) _) as [vs' l']. destruct Hn as (ts' & H1 & H2 & H3 & H4).
  rewrite (iter_loop_omap fuel vs' ts' l') by (done || lia). by rewrite H2.
Qed.

End Map.

Lemma spec_call_length {K V} `{EqDecision K} (V0 : V) (t t' : list (option (K * V))) i c r :
  spec_call V0 t i c = Ok (t', r) → length t' = length t.
Proof.
  unfold spec_call. intros ([e|] & _ & E)%bind_Ok; destruct c; repeat case_decide; simplify_eq;
    by rewrite ?length_insert.
Qed.
Lemma spec_calls_length {K V} `{EqDecision K} hash (V0 : V) cs : ∀ (t : list (option (K * V))) t' rs,
  spec_calls hash V0 t cs = Ok (t', rs) → length t' = length t.
Proof.
  induction cs as [|c cs IH]; intros t t' rs E; cbn [spec_calls] in E; [by simplify_eq|].
  apply bind_Ok in E as (i & _ & E). apply bind_Ok in E as ([t1 r] & E1 & E).
  apply bind_Ok in E as ([t2 rs2] & E2 & E). injection E as -> _.
  rewrite (IH _ _ _ E2). by eapply spec_call_length.
Qed.

(** ** Linked lists are buckets *)

#[global] Instance list_ops : BucketOps LinkedList := {|
  bk_new A := LinkedList.empty;
  bk_size A := LinkedList.size;
  bk_push_front A := LinkedList.push_front;
  bk_begin A l := LinkedList.first l;
  bk_iter A l i := LinkedList.iter_next l (Some i);
  bk_get A l i := x ← LinkedList.ld l (Some i); Ok (LinkedList.data x);
  bk_set A l i a := LinkedList.st l (Some i) (set_data a);
  bk_next A l i := x ← LinkedList.ld l (Some i); Ok (LinkedList.next x);
  bk_remove A l i := LinkedList.remove l (Some i) |}.

Lemma one_cell {A} (l : LinkedList A) i a : circ l [(i, a)] true →
  cells l !! i = Some (Some (mkLink (Some i) (Some i) a true)).
Proof. intros Hc. by apply (circ_seg _ _ _ Hc). Qed.

#[global] Program Instance list_laws : BucketLaws LinkedList := {|
  bk_none A l := circ l [] true;
  bk_one A l i a := circ l [(i, a)] true |}.
Next Obligation. intros. apply circ_empty. Qed.
Next Obligation. intros A b Hb. by apply (circ_size _ _ _ Hb). Qed.
Next Obligation. intros A b Hb. by apply (circ_first _ _ _ Hb). Qed.
Next Obligation. intros A b i a Hb. by apply (circ_size _ _ _ Hb). Qed.
Next Obligation. intros A b i a Hb. by apply (circ_first _ _ _ Hb). Qed.
Next Obligation.
  intros A b i a Hb. cbn -[ld]. unfold iter_next. by rewrite (ll_ld_Ok _ _ _ (one_cell _ _ _ Hb)).
Qed.
Next Obligation. intros A b i a Hb. cbn -[ld]. by rewrite (ll_ld_Ok _ _ _ (one_cell _ _ _ Hb)). Qed.
Next Obligation. intros A b i a Hb. cbn -[ld]. by rewrite (ll_ld_Ok _ _ _ (one_cell _ _ _ Hb)). Qed.
Next Obligation.
  intros A b a Hb. destruct (push_front_Ok b [] a Hb) as (l & E & Hc); [rewrite (circ_size _ _ _ Hb); simpl; lia|].
  eauto.
Qed.
Next Obligation.
  intros A b i a a' Hb. pose proof (one_cell _ _ _ Hb) as Hi. cbn -[st].
  rewrite (ll_st_Ok _ _ _ _ Hi). eexists. split; [done|]. destruct Hb as [_ Hf Hd Hs Hm Hl]. split; simpl; try done.
  split; [|done]. rewrite list_lookup_insert_eq; [done|]. by eapply lookup_lt_Some.
Qed.
Next Obligation.
  intros A b i a Hb. destruct (remove_Ok b [] (i, a) [] true Hb) as (l & E & Hc). eauto.
Qed.

(** The overloads of [hash] land inside the table. *)
Lemma hash_u64_in key n : 0 < n → ∃ i, hash_u64 key n = Ok i ∧ 0 ≤ i < n.
Proof.
  intros Hn. unfold hash_u64. case (Z.eqb_spec n 0) as [?|_]; [lia|]. eexists. split; [done|].
  by apply Z.mod_pos_bound.
Qed.
Lemma hash_String_in s n : 0 < n → ∃ i, hash_String s n = Ok i ∧ 0 ≤ i < n.
Proof. apply hash_u64_in. Qed.

(** C21: a [HashMap] over linked lists is a direct-mapped table with one slot per bucket: any
    sequence of accesses, assignments, membership tests and removals on a new map gives the
    table's answers or stops with the table's fatal error (a second key in an occupied slot is
    fatal, not a collision), no bucket ever holds two pairs, and iterating over the map gives
    exactly the pairs in the table, in slot order. *)
Theorem hash_map_is_table {K V} `{EqDecision K} (hash : K → Z → res Z) (V0 : V) n cs :
  (∀ key n, 0 < n → ∃ i, hash key n = Ok i ∧ 0 ≤ i < n) → 0 < n < 2 ^ 32 →
  agree (λ x y, x.2 = y.2 ∧ pairs (Z.to_nat n) x.1 = Ok (omap id y.1) ∧
                Forall (λ b, 0 ≤ bk_size b ≤ 1) (entries x.1))
    (run_calls hash V0 (HashMap_new (B := LinkedList) n) cs)
    (spec_calls hash V0 (replicate (Z.to_nat n) None) cs).
Proof.
  intros Hh Hn. pose proof (calls_agree hash V0 Hh cs _ _ (new_repr (B := LinkedList) n Hn)) as Ha.
  destruct (spec_calls hash V0 _ cs) as [[t rs]| | | |] eqn:Es, (run_calls hash V0 _ cs) as [[h rs']| | | |];
    try done. destruct Ha as [Hr Er]. simpl in *. apply spec_calls_length in Es. rewrite length_replicate in Es.
  split_and!; [done|apply pairs_omap; [done|lia]|].
  apply Forall_lookup. intros i b Hb. destruct (Forall2_lookup_l _ _ _ _ _ (repr_slots _ _ Hr) Hb) as ([e|] & _ & Hs).
  - destruct Hs as [l Ho]. pose proof (bk_one_size _ _ _ _ Ho) as Hz. simpl in Hz. lia.
  - pose proof (bk_none_size _ _ Hs) as Hz. simpl in Hz. lia.
Qed.

Lemma hash_map_is_table_witness :
  agree (λ x y, x.2 = y.2 ∧ pairs 8 x.1 = Ok (omap id y.1) ∧ Forall (λ b, 0 ≤ bk_size b ≤ 1) (entries x.1))
    (run_calls hash_u64 0 (HashMap_new (B := LinkedList) 8) [Assign 3 7; Get 3; Has 5; Remove 3; Get 11])
    (spec_calls hash_u64 0 (replicate 8 None) [Assign 3 7; Get 3; Has 5; Remove 3; Get 11]).
Proof.
  apply (hash_map_is_table hash_u64 0 8); [apply hash_u64_in|lia].
Defined.

(** The table's answers there, and the fatal error of a second key in the slot. *)
Example table_answers :
  (spec_calls hash_u64 0 (replicate 8 None) [Assign 3 7; Get 3; Has 5; Remove 3; Get 11] ≫= (λ x, Ok x.2)) =
    Ok [RUnit; RValue 7; RBool false; RUnit; RValue 0] ∧
  spec_calls hash_u64 0 (replicate 8 None) [Assign 3 7; Get 11] = Fatal "Nincs ilyen elem!".
Proof. by vm_compute. Qed.
