(* ===== verification/Paging.v ===== *)
(** The page tables of amd64 ([arch/amd64/paging.cc], [paging.hh]): mapping a page in a
    four-level tree whose missing tables come from the watermark allocator, and looking an
    address up.

    A table is found under the (higher-half) address the kernel uses for it; using an address
    that is no table is a [Fault]. *)
From S2P Require Import Prelude Arith Async Bitmap Pmm.

(** ** Flags *)

Definition s1G : Z := Z.shiftl 1 31.
Definition s2M : Z := Z.shiftl 1 30.
Definition s4K : Z := Z.shiftl 1 29.
Definition EXE : Z := Z.shiftl 1 32.
Definition HUGE : Z := 0x80.
Definition USER : Z := 0x04.
Definition RW : Z := 0x02.
Definition PRESENT : Z := 0x01.
Definition KDATA : Z := Z.lor RW PRESENT.
Definition UDATA : Z := Z.lor USER KDATA.
Definition KCODE : Z := Z.lor EXE PRESENT.
Definition UCODE : Z := Z.lor USER KCODE.

(** The memory types ([MCACHE]). *)
Definition WB : Z := 0.
Definition WT : Z := 1.
Definition UC_WC : Z := 2.
Definition UC : Z := 3.
Definition WP : Z := 4.
Definition WC : Z := 5.

Definition has (flags f : Z) : bool := negb (Z.land flags f =? 0).

Definition ADDR_PTI (a : Z) : Z := Z.land (Z.shiftr a 12) 511.
Definition ADDR_PDI (a : Z) : Z := Z.land (Z.shiftr a 21) 511.
Definition ADDR_PDPI (a : Z) : Z := Z.land (Z.shiftr a 30) 511.
Definition ADDR_PML4I (a : Z) : Z := Z.land (Z.shiftr a 39) 511.

(** ** Tables and entries *)

(** [page_table_entry_t]: the 12-bit field [flags] is the low part of [addr]. *)
Definition get_flags (e : Z) : Z := Z.land e 0xfff.
Definition set_flags (e f : Z) : Z := Z.lor (Z.land e (notN 64 0xfff)) (Z.land f 0xfff).
(** [(page_table_t* )((addr & ~0x0fff) | 0xffff800000000000)] *)
Definition next_table (e : Z) : Z := Z.lor (Z.land e (notN 64 0xfff)) HHDM.

Record paging := mkPaging { tabs : gmap Z (list Z); mem : pmm }.

Definition entry (s : paging) (t i : Z) : option Z := tabs s !! t ≫= λ tb, zlookup tb i.
Definition ent_ld (s : paging) (t i : Z) : res Z := deref (entry s t i).
Definition ent_st (s : paging) (t i v : Z) : res paging :=
  ent_ld s t i;;
  Ok (mkPaging (alter (λ tb, zinsert tb i v) t (tabs s)) (mem s)).

(** [allocpage()] and the [memset] that follows each of its calls. *)
Definition allocpage (s : paging) : res (Z * paging) :=
  '(p, m) ← wm_alloc (mem s) 0x1000 0x1000;
  Ok (p, mkPaging (<[p := replicate 512 0]> (tabs s)) m).

(** ** map_page *)

Definition patbits4k (cache : Z) : Z :=
  Z.lor (Z.lor (Z.shiftl (Z.land cache 1) 3) (Z.shiftl (Z.land (Z.shiftr cache 1) 1) 4))
        (Z.shiftl (Z.land (Z.shiftr cache 2) 1) 7).
Definition patbits2m (cache : Z) : Z :=
  Z.lor (Z.lor (Z.shiftl (Z.land cache 1) 3) (Z.shiftl (Z.land (Z.shiftr cache 1) 1) 4))
        (Z.shiftl (Z.land (Z.shiftr cache 2) 1) 12).

(** The step from a table to the next one, which is made when it is missing. *)
Definition descend (s : paging) (t i flags exemask : Z) : res (Z * paging) :=
  e ← ent_ld s t i;
  if has (get_flags e) PRESENT then
    let next := next_table e in
    if has flags USER then s ← ent_st s t i (set_flags e (Z.lor (get_flags e) USER)); Ok (next, s)
    else Ok (next, s)
  else
    '(next, s) ← allocpage s;
    s ← ent_st s t i (Z.lor (Z.land next (notN 64 HHDM)) exemask);
    e ← ent_ld s t i;
    s ← ent_st s t i (set_flags e flags);
    Ok (next, s).

(** [t->entries[i].addr = bitset(t->entries[i].addr, 63, 0)] *)
Definition clear_nx (s : paging) (t i : Z) : res paging :=
  e ← ent_ld s t i; ent_st s t i (bitset e 63 false).
Fixpoint clear_nxs (s : paging) (l : list (Z * Z)) : res paging :=
  match l with [] => Ok s | (t, i) :: l => s ← clear_nx s t i; clear_nxs s l end.

(** [entry->addr = phys | exemask], the NX bits above it, [entry->flags = fl]. *)
Definition write_leaf (s : paging) (t i phys exemask fl : Z) (above : list (Z * Z)) : res paging :=
  s ← ent_st s t i (Z.lor phys exemask);
  s ← (if exemask =? 0 then clear_nxs s (above ++ [(t, i)]) else Ok s);
  e ← ent_ld s t i;
  ent_st s t i (set_flags e fl).

(** Clears the low [n] bits of an address. *)
Definition page_of (n a : Z) : Z := Z.land a (notN 64 (Z.shiftl 1 n - 1)).

Definition map_page (s : paging) (cr3 virt phys flags cache : Z) : res paging :=
  let exemask := if 0 <? Z.land flags EXE then 0 else 0x8000000000000000 in
  let '(phys, virt, size) :=
    if has flags s2M then (page_of 21 phys, page_of 21 virt, 1)
    else if has flags s1G then (page_of 30 phys, page_of 30 virt, 2)
    else (page_of 12 phys, page_of 12 virt, 0) in
  let flags := Z.land flags (Z.shiftl 1 13 - 1) in
  let i4 := ADDR_PML4I virt in let i3 := ADDR_PDPI virt in
  let i2 := ADDR_PDI virt in let i1 := ADDR_PTI virt in
  '(pdp, s) ← descend s cr3 i4 flags exemask;
  if size =? 2 then
    write_leaf s pdp i3 phys exemask (Z.lor (Z.lor flags HUGE) (patbits2m cache)) [(cr3, i4)]
  else
    '(pd, s) ← descend s pdp i3 flags exemask;
    if size =? 1 then
      write_leaf s pd i2 phys exemask (Z.lor (Z.lor flags HUGE) (patbits2m cache)) [(cr3, i4); (pdp, i3)]
    else
      '(pt, s) ← descend s pd i2 flags exemask;
      write_leaf s pt i1 phys exemask (Z.lor flags (patbits4k cache)) [(cr3, i4); (pdp, i3); (pd, i2)].

(** ** paging_lookup *)

Definition no_nx (a : Z) : Z := Z.land a (notN 64 (Z.shiftl 1 63)).

Definition paging_lookup (s : paging) (cr3 virt : Z) : res Z :=
  e4 ← ent_ld s cr3 (ADDR_PML4I virt);
  if negb (has (get_flags e4) 1) then Ok NPOS else
  let pdp := VIRTUAL (Z.land e4 (notN 64 0xfff)) in
  e3 ← ent_ld s pdp (ADDR_PDPI virt);
  if negb (has (get_flags e3) 1) then Ok NPOS else
  let pd := VIRTUAL (Z.land e3 (notN 64 0xfff)) in
  e2 ← ent_ld s pd (ADDR_PDI virt);
  if negb (has (get_flags e2) 1) then Ok NPOS else
  if has (get_flags e3) HUGE then
    Ok (no_nx (u64 (pd + Z.land virt (Z.shiftl 1 30 - 1))))
  else
    let pt := VIRTUAL (Z.land e2 (notN 64 0xfff)) in
    if has (get_flags e2) HUGE then
      Ok (no_nx (PHYSICAL (u64 (pt + Z.land virt 0x1fffff))))
    else
      e1 ← ent_ld s pt (ADDR_PTI virt);
      if negb (has (get_flags e1) 1) then Ok NPOS else
      Ok (no_nx (u64 (Z.land e1 (notN 64 0xfff) + Z.land virt 0xfff))).

(** [check_page(addr, cache)]: maps the page to its direct-map frame when it is not mapped. *)
Definition check_page (s : paging) (pml4 addr cache : Z) : res paging :=
  p ← paging_lookup s pml4 addr;
  if p =? NPOS then map_page s pml4 addr (PHYSICAL addr) 3 cache else Ok s.
(** [check_pages(addr, bytes)]; [i] already counts bytes. *)
Definition check_pages (s : paging) (pml4 addr bytes : Z) : res paging :=
  for_rounds (λ i s, check_page s pml4 (u64 (addr + u64 (i * 0x1000))) WB) 0 0x1000
    (rounds (align64 bytes 0x1000) 0x1000) s.

(** ** Entries *)

Definition present (e : Z) : bool := has (get_flags e) 1.
Definition huge (e : Z) : bool := has (get_flags e) HUGE.

Lemma has_testbit x n : 0 ≤ n → has x (Z.shiftl 1 n) = Z.testbit x n.
Proof.
  intros Hn. unfold has. rewrite Z.shiftl_1_l. destruct (Z.testbit x n) eqn:Eb.
  - apply negb_true_iff, Z.eqb_neq. intros E.
    assert (Z.testbit (Z.land x (2 ^ n)) n = true) as Ht; [|by rewrite E, Z.bits_0 in Ht].
    by rewrite Z.land_spec, Eb, Z.pow2_bits_true by lia.
  - apply negb_false_iff, Z.eqb_eq, Z.bits_inj'. intros j Hj. rewrite Z.land_spec, Z.bits_0, Z.pow2_bits_eqb by lia.
    destruct (Z.eqb_spec n j) as [->|]; [by rewrite Eb|by rewrite andb_false_r].
Qed.
Lemma has_bit e n : 0 ≤ n < 12 → has (get_flags e) (Z.shiftl 1 n) = Z.testbit e n.
Proof.
  intros Hn. rewrite has_testbit by lia. unfold get_flags. rewrite Z.land_spec.
  change 0xfff with (Z.ones 12). by rewrite Z.ones_spec_low, andb_true_r by lia.
Qed.
Lemma present_bit e : present e = Z.testbit e 0.
Proof. apply (has_bit e 0). lia. Qed.
Lemma huge_bit e : huge e = Z.testbit e 7.
Proof. apply (has_bit e 7). lia. Qed.

(** The bits of the masks. *)
Lemma mask12_bit i : 0 ≤ i → Z.testbit (notN 64 0xfff) i = bool_decide (12 ≤ i < 64).
Proof.
  intros Hi. rewrite notN_testbit by lia. change 0xfff with (Z.ones 12). rewrite Z.testbit_ones_nonneg by lia.
  repeat case_bool_decide; try lia; destruct (Z.ltb_spec i 12); (done || lia).
Qed.
Lemma low12_bit i : 0 ≤ i → Z.testbit 0xfff i = bool_decide (i < 12).
Proof.
  intros Hi. change 0xfff with (Z.ones 12). rewrite Z.testbit_ones_nonneg by lia.
  case_bool_decide; destruct (Z.ltb_spec i 12); (done || lia).
Qed.
Lemma HHDM_bit i : 0 ≤ i → Z.testbit HHDM i = bool_decide (47 ≤ i < 64).
Proof.
  intros Hi. replace HHDM with (Z.shiftl (Z.ones 17) 47) by reflexivity. rewrite Z.shiftl_spec by lia.
  case_bool_decide.
  - by rewrite Z.ones_spec_low by lia.
  - destruct (decide (i < 47)); [by rewrite Z.testbit_neg_r by lia|by rewrite Z.ones_spec_high by lia].
Qed.

(** Two entries that differ in the USER and NX bits only. *)
Definition sim (x y : Z) : Prop := ∀ i, 0 ≤ i < 64 → i ≠ 2 → i ≠ 63 → Z.testbit x i = Z.testbit y i.
#[global] Instance sim_equiv : Equivalence sim.
Proof.
  split; [by intros x i|intros x y H i ???; by rewrite H|intros x y z H1 H2 i ???; by rewrite H1, H2].
Qed.

Lemma sim_present x y : sim x y → present x = present y.
Proof. intros H. rewrite !present_bit. apply H; lia. Qed.
Lemma sim_huge x y : sim x y → huge x = huge y.
Proof. intros H. rewrite !huge_bit. apply H; lia. Qed.
Lemma sim_next x y : sim x y → next_table x = next_table y.
Proof.
  intros H. apply Z.bits_inj'. intros i Hi. unfold next_table.
  rewrite !Z.lor_spec, !Z.land_spec, mask12_bit, HHDM_bit by lia.
  repeat case_bool_decide; rewrite ?andb_false_r, ?orb_true_r; try done.
  rewrite H by lia. done.
Qed.

Lemma no_nx_mod z : 0 ≤ z < 2 ^ 64 → no_nx z = z `mod` 2 ^ 63.
Proof.
  intros Hz. rewrite <- Z.land_ones by lia. apply Z.bits_inj'. intros i Hi. unfold no_nx.
  rewrite !Z.land_spec, Z.testbit_ones_nonneg by lia.
  destruct (decide (i < 64)) as [Hl|Hg].
  - f_equal. rewrite notN_testbit, Z.shiftl_1_l, Z.pow2_bits_eqb by lia.
    case_bool_decide; [|lia]. destruct (Z.eqb_spec 63 i), (Z.ltb_spec i 63); (done || lia).
  - by rewrite (is_uN_high 64 z) by (unfold is_uN; lia).
Qed.

Lemma land_mask_range e : 0 ≤ Z.land e (notN 64 0xfff) < 2 ^ 64.
Proof.
  rewrite Z.land_comm. apply (is_uN_land_l 64); [lia|]. unfold notN. apply uN_range. lia.
Qed.

Lemma sim_frame x y : sim x y →
  Z.land x (notN 64 0xfff) `mod` 2 ^ 63 = Z.land y (notN 64 0xfff) `mod` 2 ^ 63.
Proof.
  intros H. rewrite <- !Z.land_ones by lia. apply Z.bits_inj'. intros i Hi.
  rewrite !Z.land_spec, mask12_bit, Z.testbit_ones_nonneg by lia.
  case_bool_decide; [|by rewrite !andb_false_r]. destruct (Z.ltb_spec i 63); [|by rewrite !andb_false_r].
  rewrite H by lia. done.
Qed.

Definition leaf_addr (e w : Z) : Z := no_nx (u64 (Z.land e (notN 64 0xfff) + Z.land w 0xfff)).
Definition huge_addr (e w : Z) : Z := no_nx (PHYSICAL (u64 (next_table e + Z.land w 0x1fffff))).

Lemma leaf_addr_mod e w : leaf_addr e w = (Z.land e (notN 64 0xfff) + Z.land w 0xfff) `mod` 2 ^ 63.
Proof.
  unfold leaf_addr. rewrite no_nx_mod by (apply uN_range; lia). unfold uN.
  apply Z.mod_mod_divide. exists 2. reflexivity.
Qed.
Lemma sim_leaf x y w : sim x y → leaf_addr x w = leaf_addr y w.
Proof.
  intros H. rewrite !leaf_addr_mod, Zplus_mod, (sim_frame x y H), <- Zplus_mod. done.
Qed.

Lemma set_flags_bit x f i : 0 ≤ i → Z.testbit (set_flags x f) i =
  if bool_decide (i < 12) then Z.testbit f i else bool_decide (i < 64) && Z.testbit x i.
Proof.
  intros Hi. unfold set_flags. rewrite Z.lor_spec, !Z.land_spec, mask12_bit, low12_bit by lia.
  repeat case_bool_decide; try lia; by rewrite ?andb_true_r, ?andb_false_r, ?orb_false_r.
Qed.

Lemma sim_user x : sim (set_flags x (Z.lor (get_flags x) USER)) x.
Proof.
  intros i Hi H2 _. rewrite set_flags_bit by lia. case_bool_decide; [|by rewrite bool_decide_eq_true_2 by lia].
  unfold get_flags. rewrite Z.lor_spec, Z.land_spec, low12_bit by lia. rewrite bool_decide_eq_true_2 by lia.
  change USER with (2 ^ 2). rewrite Z.pow2_bits_false by lia. by rewrite andb_true_r, orb_false_r.
Qed.
Lemma sim_clear_nx x : sim (bitset x 63 false) x.
Proof.
  intros i Hi _ H63. unfold bitset. rewrite Z.land_spec, notN_testbit, Z.shiftl_1_l, Z.pow2_bits_false by lia.
  rewrite bool_decide_eq_true_2 by lia. by rewrite andb_true_r.
Qed.

(** The entry written for a new table. *)
Definition is_nx (m : Z) : Prop := m = 0 ∨ m = 0x8000000000000000.
Lemma nx_bit m i : is_nx m → 0 ≤ i → i ≠ 63 → Z.testbit m i = false.
Proof.
  intros [->| ->] Hi H63; [apply Z.bits_0|]. change 0x8000000000000000 with (2 ^ 63).
  by rewrite Z.pow2_bits_false by lia.
Qed.

Lemma aligned_low p i : p `mod` 4096 = 0 → 0 ≤ i < 12 → Z.testbit p i = false.
Proof.
  intros Hp Hi. change 4096 with (2 ^ 12) in Hp. rewrite <- Z.land_ones in Hp by lia.
  assert (Z.testbit (Z.land p (Z.ones 12)) i = false) as H by (rewrite Hp; apply Z.bits_0).
  rewrite Z.land_spec, Z.ones_spec_low in H by lia. by rewrite andb_true_r in H.
Qed.

Lemma new_entry_next p flags m : HHDM ≤ p < 2 ^ 64 → p `mod` 4096 = 0 → is_nx m →
  next_table (set_flags (Z.lor (Z.land p (notN 64 HHDM)) m) flags) = p.
Proof.
  intros Hp Ha Hm. apply Z.bits_inj'. intros i Hi. unfold next_table.
  rewrite Z.lor_spec, Z.land_spec, mask12_bit, HHDM_bit, set_flags_bit by lia.
  rewrite Z.lor_spec, Z.land_spec, notN_testbit, HHDM_bit by lia.
  assert (p = VIRTUAL (p - HHDM)) as Ep by (rewrite VIRTUAL_add; unfold HHDM in *; lia).
  destruct (decide (i < 12)); [|destruct (decide (i < 47)); [|destruct (decide (i < 64))]].
  - rewrite (aligned_low p i) by lia. repeat case_bool_decide; try lia; by rewrite ?andb_false_r.
  - rewrite (nx_bit m i Hm) by lia. repeat case_bool_decide; try lia.
    by rewrite orb_false_r, !andb_true_r, orb_false_r.
  - rewrite Ep at 2. unfold VIRTUAL. rewrite Z.lor_spec, HHDM_bit by lia.
    rewrite !(bool_decide_eq_true_2 (47 ≤ i < 64)) by lia. by rewrite !orb_true_r.
  - rewrite (is_uN_high 64 p i) by (unfold is_uN, HHDM in *; lia). repeat case_bool_decide; try lia; by rewrite ?andb_false_r.
Qed.

(** Page addresses. *)
Lemma page_of_bit n a i : 0 ≤ n → 0 ≤ i → Z.testbit (page_of n a) i = bool_decide (n ≤ i < 64) && Z.testbit a i.
Proof.
  intros Hn Hi. unfold page_of. rewrite Z.land_spec, notN_testbit, Z.shiftl_1_l by lia.
  replace (2 ^ n - 1) with (Z.ones n) by (rewrite Z.ones_equiv; lia). rewrite Z.testbit_ones_nonneg by lia.
  rewrite andb_comm. f_equal. repeat case_bool_decide; destruct (Z.ltb_spec i n); simpl; (done || lia).
Qed.
Lemma page_of_div n a : 0 ≤ n → 0 ≤ a < 2 ^ 64 → page_of n a = a / 2 ^ n * 2 ^ n.
Proof.
  intros Hn Ha. rewrite <- Z.shiftr_div_pow2, <- Z.shiftl_mul_pow2 by lia. apply Z.bits_inj'. intros i Hi.
  rewrite page_of_bit by lia. destruct (decide (i < n)) as [Hl|Hg].
  - rewrite Z.shiftl_spec_low by lia. by rewrite bool_decide_eq_false_2 by lia.
  - rewrite Z.shiftl_spec, Z.shiftr_spec by lia. replace (i - n + n) with i by lia.
    case_bool_decide; [done|]. symmetry. apply (is_uN_high 64); unfold is_uN; lia.
Qed.
Lemma pt_page_index n k a : 0 ≤ n ≤ k → k + 9 ≤ 64 → Z.land (Z.shiftr (page_of n a) k) 511 = Z.land (Z.shiftr a k) 511.
Proof.
  intros Hn Hk. apply Z.bits_inj'. intros i Hi. change 511 with (Z.ones 9).
  rewrite !Z.land_spec, !Z.shiftr_spec, page_of_bit, Z.testbit_ones_nonneg by lia.
  destruct (Z.ltb_spec i 9); [|by rewrite !andb_false_r]. rewrite bool_decide_eq_true_2 by lia. done.
Qed.

(** What the leaf of a page says. *)
Lemma leaf_addr_page y m fl phys w : 0 ≤ phys < 2 ^ 63 → is_nx m → sim y (Z.lor (page_of 12 phys) m) →
  leaf_addr (set_flags y fl) w = page_of 12 phys + w `mod` 4096.
Proof.
  intros Hph Hm Hs. rewrite leaf_addr_mod. change 0xfff with (Z.ones 12) at 2. rewrite Z.land_ones by lia.
  assert (Z.land (set_flags y fl) (notN 64 0xfff) `mod` 2 ^ 63 = page_of 12 phys) as E.
  { rewrite <- Z.land_ones by lia. apply Z.bits_inj'. intros i Hi.
    rewrite !Z.land_spec, mask12_bit, Z.testbit_ones_nonneg, page_of_bit, set_flags_bit by lia.
    destruct (Z.ltb_spec i 63).
    - repeat case_bool_decide; try lia; rewrite ?andb_false_r, ?andb_true_r; try done.
      rewrite Hs by lia. rewrite Z.lor_spec, (nx_bit m i Hm), page_of_bit by lia.
      rewrite bool_decide_eq_true_2 by lia. by rewrite orb_false_r.
    - rewrite andb_false_r. rewrite (is_uN_high 63 phys i) by (unfold is_uN; lia). by rewrite andb_false_r. }
  rewrite <- Zplus_mod_idemp_l, E, page_of_div by lia.
  pose proof (Z.div_mod phys (2 ^ 12)). pose proof (Z.mod_pos_bound phys (2 ^ 12)).
  pose proof (Z.mod_pos_bound w (2 ^ 12)). change 4096 with (2 ^ 12). apply Z.mod_small.
  split; [|lia]. pose proof (Z.div_pos phys (2 ^ 12)). lia.
Qed.

Lemma huge_addr_page y m fl phys w : 0 ≤ phys < 2 ^ 47 → is_nx m → sim y (Z.lor (page_of 21 phys) m) →
  huge_addr (set_flags y fl) w = page_of 21 phys + w `mod` 2 ^ 21.
Proof.
  intros Hph Hm Hs. unfold huge_addr. change 0x1fffff with (Z.ones 21). rewrite Z.land_ones by lia.
  assert (next_table (set_flags y fl) = VIRTUAL (page_of 21 phys)) as E.
  { apply Z.bits_inj'. intros i Hi. unfold next_table, VIRTUAL.
    rewrite !Z.lor_spec, !Z.land_spec, mask12_bit, HHDM_bit, page_of_bit, set_flags_bit by lia.
    destruct (decide (12 ≤ i < 47)).
    - repeat case_bool_decide; try lia; rewrite Hs by lia;
        rewrite Z.lor_spec, (nx_bit m i Hm), page_of_bit by lia;
        first [rewrite bool_decide_eq_true_2 by lia|rewrite bool_decide_eq_false_2 by lia];
        by rewrite !orb_false_r, ?andb_true_r.
    - repeat case_bool_decide; try lia; by rewrite ?andb_false_r, ?orb_true_r. }
  rewrite E. rewrite page_of_div by lia. pose proof (Z.div_mod phys (2 ^ 21)) as D. pose proof (Z.mod_pos_bound phys (2 ^ 21)).
  pose proof (Z.mod_pos_bound w (2 ^ 21)). pose proof (Z.div_pos phys (2 ^ 21)).
  assert (phys / 2 ^ 21 < 2 ^ 26) by (apply Z.div_lt_upper_bound; lia).
  rewrite VIRTUAL_add by lia. rewrite uN_small by (unfold is_uN, HHDM; lia).
  replace (phys / 2 ^ 21 * 2 ^ 21 + HHDM + w `mod` 2 ^ 21) with (phys / 2 ^ 21 * 2 ^ 21 + w `mod` 2 ^ 21 + HHDM) by lia.
  rewrite <- VIRTUAL_add, PHYSICAL_VIRTUAL by lia. rewrite no_nx_mod by lia. apply Z.mod_small. lia.
Qed.

(** ** States *)

Lemma ent_ld_Ok s t i x : entry s t i = Some x → ent_ld s t i = Ok x.
Proof. unfold ent_ld. by intros ->. Qed.

Lemma ent_st_Ok s t i x v : entry s t i = Some x →
  ∃ s', ent_st s t i v = Ok s' ∧ mem s' = mem s ∧
    (∀ u j, entry s' u j = if decide (u = t ∧ j = i) then Some v else entry s u j) ∧
    (∀ u, length <$> tabs s' !! u = length <$> tabs s !! u).
Proof.
  intros Hx. unfold ent_st. rewrite (ent_ld_Ok _ _ _ _ Hx). cbn. eexists. split; [done|].
  unfold entry in *. cbn. destruct (tabs s !! t) as [tb|] eqn:Et; [|done]. simpl in Hx.
  pose proof (zlookup_lt _ _ _ Hx) as Hr. split_and!; [done| |].
  - intros u j. destruct (decide (u = t)) as [->|Hu].
    + rewrite lookup_alter_eq, Et. simpl. rewrite zlookup_zinsert by done.
      destruct (Z.eqb_spec i j) as [->|]; [by rewrite decide_True|]. rewrite decide_False; [done|naive_solver].
    + rewrite lookup_alter_ne by done. rewrite decide_False; [done|naive_solver].
  - intros u. destruct (decide (u = t)) as [->|Hu]; [|by rewrite lookup_alter_ne].
    rewrite lookup_alter_eq, Et. simpl. by rewrite zinsert_length.
Qed.

(** The tables form a tree below [root]: [path] gives each table the indices that lead to it,
    and a present entry that is no huge page leads to the table of the longer path.  Tables lie
    outside the area the watermark allocator still hands out, which ends at [e] and is inside the
    direct map. *)
Definition big (p : list Z) (x : Z) : bool := negb (bool_decide (p = [])) && huge x.
Record tree (s : paging) (root e : Z) (path : gmap Z (list Z)) : Prop := {
  tree_root : path !! root = Some [];
  tree_tab : ∀ t, (path !! t = None ∧ tabs s !! t = None) ∨
    (∃ p tb, path !! t = Some p ∧ (length p ≤ 3)%nat ∧ tabs s !! t = Some tb ∧ length tb = 512%nat);
  tree_next : ∀ t p i x, path !! t = Some p → (length p < 3)%nat → entry s t i = Some x →
    present x = true → big p x = false → path !! next_table x = Some (p ++ [i]);
  tree_fresh : ∀ t p, path !! t = Some p → ¬ (wm_cursor (mem s) ≤ t < e);
  tree_wm : wm_ok (mem s) e;
  tree_area : HHDM ≤ wm_cursor (mem s) }.

Section Tree.
Context (root e : Z).
Implicit Types (s : paging) (path : gmap Z (list Z)).

Lemma tree_entry s path t p i : tree s root e path → path !! t = Some p → 0 ≤ i < 512 →
  ∃ x, entry s t i = Some x.
Proof.
  intros Ht Hp Hi. destruct (tree_tab _ _ _ _ Ht t) as [[? _]|(p' & tb & _ & _ & Et & Hl)]; [congruence|].
  unfold entry. rewrite Et. simpl. apply zlookup_in. lia.
Qed.
Lemma tree_in s path t i x : tree s root e path → entry s t i = Some x → ∃ p, path !! t = Some p.
Proof.
  intros Ht Hx. unfold entry in Hx.
  destruct (tree_tab _ _ _ _ Ht t) as [[_ Et]|(p & tb & Hp & _)]; [by rewrite Et in Hx|eauto].
Qed.

(** Replacing an entry by a similar one, or by a leaf, keeps the tree. *)
Lemma tree_st s s' path t p i v :
  tree s root e path → path !! t = Some p → mem s' = mem s →
  (∀ u j, entry s' u j = if decide (u = t ∧ j = i) then Some v else entry s u j) →
  (∀ u, length <$> tabs s' !! u = length <$> tabs s !! u) →
  ((length p < 3)%nat → present v = true → big p v = false → path !! next_table v = Some (p ++ [i])) →
  tree s' root e path.
Proof.
  intros [T1 T2 T3 T4 T5 T6] Hp Hm He Hl Hv. split; rewrite ?Hm; try done.
  - intros u. specialize (Hl u). destruct (T2 u) as [[H1 H2]|(q & tb & H1 & H2 & H3 & H4)].
    + left. split; [done|]. rewrite H2 in Hl. by destruct (tabs s' !! u).
    + right. rewrite H3 in Hl. destruct (tabs s' !! u) as [tb'|]; [|done]. injection Hl as Hl.
      exists q, tb'. split_and!; try done. by rewrite Hl.
  - intros u q j x Hq Hlen Hx Hpr Hbig. rewrite He in Hx. case_decide as Hd.
    + destruct Hd as [-> ->]. injection Hx as <-. rewrite Hq in Hp. injection Hp as ->. by apply Hv.
    + by eapply T3.
Qed.

(** ** The lookup by paths

    [look] is [paging_lookup] where no 1 GiB page is met, as a recursion over the indices. *)

Fixpoint look s (t : Z) (p ixs : list Z) (w : Z) : res Z :=
  match ixs with
  | [] => Fault
  | i :: r =>
      x ← ent_ld s t i;
      if negb (present x) then Ok NPOS else
      match r with
      | [] => Ok (leaf_addr x w)
      | _ =>
          if big p x then if decide (length p = 1%nat) then Fault else Ok (huge_addr x w)
          else look s (next_table x) (p ++ [i]) r w
      end
  end.

Definition ixs (w : Z) : list Z := [ADDR_PML4I w; ADDR_PDPI w; ADDR_PDI w; ADDR_PTI w].

(** The walk for [w] meets no 1 GiB page. *)
Definition no_1g s (w : Z) : Prop := ∀ e4 e3, entry s root (ADDR_PML4I w) = Some e4 → present e4 = true →
  entry s (next_table e4) (ADDR_PDPI w) = Some e3 → present e3 = true → huge e3 = false.

Lemma lookup_look s w : no_1g s w → paging_lookup s root w = look s root [] (ixs w) w.
Proof.
  intros Hn. unfold paging_lookup, ixs. cbn [look].
  change (has (get_flags ?x) 1) with (present x). change (has (get_flags ?x) HUGE) with (huge x).
  change (VIRTUAL (Z.land ?x _)) with (next_table x).
  unfold ent_ld. destruct (entry s root (ADDR_PML4I w)) as [e4|] eqn:E4; [|done]. cbn [deref mbind res_bind].
  fold (present e4). destruct (present e4) eqn:P4; [|done]. cbn [negb].
  change (big [] e4) with false. cbn iota. fold (next_table e4).
  unfold VIRTUAL. fold (next_table e4).
  destruct (entry s (next_table e4) (ADDR_PDPI w)) as [e3|] eqn:E3; [|done]. cbn [deref mbind res_bind].
  fold (present e3). destruct (present e3) eqn:P3; [|done]. cbn [negb].
  assert (big ([] ++ [ADDR_PML4I w]) e3 = false) as ->.
  { unfold big. rewrite (Hn e4 e3) by done. by rewrite andb_false_r. }
  fold (next_table e3). fold (huge e3). rewrite (Hn e4 e3) by done.
  destruct (entry s (next_table e3) (ADDR_PDI w)) as [e2|] eqn:E2; [|done]. cbn [deref mbind res_bind].
  fold (present e2). destruct (present e2) eqn:P2; [|done]. cbn [negb].
  change (big (([] ++ [ADDR_PML4I w]) ++ [ADDR_PDPI w]) e2) with (huge e2). fold (huge e2).
  fold (next_table e2). by destruct (huge e2).
Qed.

Lemma look_no_1g s w v : look s root [] (ixs w) w = Ok v → no_1g s w.
Proof.
  unfold ixs. cbn [look]. intros Hv e4 e3 E4 P4 E3 P3. rewrite (ent_ld_Ok _ _ _ _ E4) in Hv.
  cbn [mbind res_bind] in Hv. rewrite P4 in Hv. cbn [negb] in Hv. change (big [] e4) with false in Hv.
  cbn iota in Hv. rewrite (ent_ld_Ok _ _ _ _ E3) in Hv. cbn [mbind res_bind] in Hv. rewrite P3 in Hv.
  cbn [negb] in Hv. change (big ([] ++ [ADDR_PML4I w]) e3) with (huge e3) in Hv. by destruct (huge e3).
Qed.

Lemma sim_big p x y : sim x y → big p x = big p y.
Proof. intros H. unfold big. by rewrite (sim_huge x y H). Qed.
Lemma sim_huge_addr x y w : sim x y → huge_addr x w = huge_addr y w.
Proof. intros H. unfold huge_addr. by rewrite (sim_next x y H). Qed.

(** A lookup survives changes that keep the entries on its path similar. *)
Lemma look_keep s s' path ks : ∀ t p w v, tree s root e path → path !! t = Some p →
  (length p + length ks = 4)%nat →
  (∀ u q j r x, path !! u = Some q → p ++ ks = q ++ j :: r → entry s u j = Some x →
     ∃ y, entry s' u j = Some y ∧ sim x y) →
  look s t p ks w = Ok v → look s' t p ks w = Ok v.
Proof.
  induction ks as [|i r IH]; intros t p w v Ht Hp Hl Hs Hv; [done|]. cbn [look] in *.
  apply bind_Ok in Hv as (x & Hx & Hv). apply deref_Ok in Hx.
  destruct (Hs t p i r x Hp eq_refl Hx) as (y & Hy & Hsim). rewrite (ent_ld_Ok _ _ _ _ Hy). cbn [mbind res_bind].
  rewrite <- (sim_present x y Hsim), <- (sim_big p x y Hsim), <- (sim_leaf x y w Hsim),
    <- (sim_huge_addr x y w Hsim), <- (sim_next x y Hsim).
  destruct (present x) eqn:Px; [|done]. cbn [negb] in *. destruct r as [|i' r]; [done|].
  destruct (big p x) eqn:Bx; [done|]. simpl in Hl.
  apply IH; [done| | | |done].
  - eapply tree_next; try done. lia.
  - rewrite length_app. simpl. lia.
  - intros u q j r' z Hq E. apply (Hs u q j r' z Hq). rewrite <- E. by rewrite <- app_assoc.
Qed.

(** A lookup survives the making of an empty table behind an entry that was not present. *)
Lemma look_alloc s s' path ks t1 i1 p1 nt x0 : ∀ t p w v, tree s root e path → path !! t = Some p →
  (length p + length ks = 4)%nat → path !! t1 = Some p1 → (length p1 < 3)%nat →
  entry s t1 i1 = Some x0 → present x0 = false → path !! nt = None →
  (∀ u j, (u ≠ t1 ∨ j ≠ i1) → u ≠ nt → entry s' u j = entry s u j) →
  (∃ y, entry s' t1 i1 = Some y ∧ next_table y = nt ∧ big p1 y = false) →
  (∀ j, 0 ≤ j < 512 → entry s' nt j = Some 0) → (Forall (λ j, 0 ≤ j < 512) ks) →
  look s t p ks w = Ok v → look s' t p ks w = Ok v.
Proof.
  induction ks as [|i r IH]; intros t p w v Ht Hp Hl H1 Hl1 Hx0 Hx0p Hnt Hs Hy Hz Hr Hv; [done|]. cbn [look] in *.
  apply bind_Ok in Hv as (x & Hx & Hv). apply deref_Ok in Hx.
  apply Forall_cons in Hr as [Hi Hr].
  destruct (decide (t = t1 ∧ i = i1)) as [[-> ->]|Hne].
  - destruct Hy as (y & Hy & Hny & Hby). rewrite (ent_ld_Ok _ _ _ _ Hy). cbn [mbind res_bind].
    rewrite Hx in Hx0. injection Hx0 as ->. rewrite Hx0p in Hv. injection Hv as <-.
    rewrite Hp in H1. injection H1 as ->. destruct (present y); [|done]. cbn [negb].
    destruct r as [|i' r]; [simpl in Hl; lia|]. rewrite Hby, Hny. cbn [look].
    apply Forall_cons in Hr as [Hi' _]. rewrite (ent_ld_Ok _ _ _ _ (Hz i' Hi')). done.
  - assert (entry s' t i = Some x) as Hx'.
    { rewrite Hs; [done| |intros ->; congruence]. destruct (decide (t = t1)); naive_solver. }
    rewrite (ent_ld_Ok _ _ _ _ Hx'). cbn [mbind res_bind].
    destruct (present x) eqn:Px; [|done]. cbn [negb] in *. destruct r as [|i' r]; [done|].
    destruct (big p x) eqn:Bx; [done|]. simpl in Hl. eapply IH; try done.
    + eapply tree_next; try done. lia.
    + rewrite length_app. simpl. lia.
Qed.

(** ** Descending *)

Definition linked s (p : list Z) (t i t' : Z) : Prop :=
  ∃ x, entry s t i = Some x ∧ present x = true ∧ big p x = false ∧ next_table x = t'.
Definition keeps s s' : Prop := ∀ w v, look s root [] (ixs w) w = Ok v → look s' root [] (ixs w) w = Ok v.

Lemma ixs_range w : Forall (λ j, 0 ≤ j < 512) (ixs w).
Proof.
  unfold ixs, ADDR_PML4I, ADDR_PDPI, ADDR_PDI, ADDR_PTI. change 511 with (Z.ones 9).
  rewrite !Z.land_ones by lia. repeat (apply Forall_cons; split; [apply Z.mod_pos_bound; lia|]). done.
Qed.

(** Replacing an entry by a similar one. *)
Lemma sim_step s path t p i x v : tree s root e path → path !! t = Some p → entry s t i = Some x → sim v x →
  ∃ s', ent_st s t i v = Ok s' ∧ tree s' root e path ∧ entry s' t i = Some v ∧
    (∀ u j, (u ≠ t ∨ j ≠ i) → entry s' u j = entry s u j) ∧ keeps s s'.
Proof.
  intros Ht Hp Hx Hv. destruct (ent_st_Ok s t i x v Hx) as (s' & E & Hm & He & Hl).
  exists s'. split; [done|].
  assert (entry s' t i = Some v) as Hv' by (rewrite He; by rewrite decide_True).
  split.
  { eapply tree_st; try done. intros Hlt Hpr Hb. rewrite (sim_next v x Hv).
    eapply tree_next; try done; [by rewrite <- (sim_present v x)|by rewrite <- (sim_big p v x)]. }
  split; [done|]. split.
  { intros u j Hne. rewrite He, decide_False; [done|]. naive_solver. }
  intros w r Hr. eapply look_keep; try done; [by eapply tree_root|].
  intros u q j r' y Hq _ Hy. rewrite He. case_decide as Hd; [|by exists y].
  destruct Hd as [-> ->]. exists v. split; [done|]. rewrite Hx in Hy. injection Hy as <-. by symmetry.
Qed.

Lemma allocpage_Ok s path : tree s root e path →
  allocpage s = Fatal "Watermark allocator out of memory!" ∨
  ∃ nt s1, allocpage s = Ok (nt, s1) ∧ path !! nt = None ∧ HHDM ≤ nt < 2 ^ 64 ∧ nt `mod` 4096 = 0 ∧
    tabs s1 = <[nt := replicate 512 0]> (tabs s) ∧ wm_ok (mem s1) e ∧
    wm_cursor (mem s) ≤ nt ∧ wm_cursor (mem s1) = nt + 4096.
Proof.
  intros Ht. unfold allocpage.
  destruct (wm_alloc_spec (mem s) e 0x1000 0x1000 (tree_wm _ _ _ _ Ht)) as
    [(nt & m' & -> & Hal & Hr & _ & Hc & He & Hok & _)|[-> _]]; [lia|lia| |by left].
  right. change (align64 4096 16) with 4096 in *. change (Z.max 4096 4096) with 4096 in *.
  pose proof (tree_area _ _ _ _ Ht) as Ha. pose proof (wm_range _ _ Hok) as (_ & _ & Hlt).
  eexists nt, _. split; [done|]. simpl. split_and!; try done; try lia.
  destruct (path !! nt) as [q|] eqn:Eq; [|done]. destruct (tree_fresh _ _ _ _ Ht nt q Eq). lia.
Qed.

Lemma entry_fresh s s1 nt u j : tabs s1 = <[nt := replicate 512 0]> (tabs s) →
  entry s1 u j = if decide (u = nt) then zlookup (replicate 512 0) j else entry s u j.
Proof.
  intros E. unfold entry. rewrite E. case_decide as Hu; [subst; by rewrite lookup_insert_eq|by rewrite lookup_insert_ne].
Qed.
Lemma zero_entry j : zlookup (replicate 512 0) j = if decide (0 ≤ j < 512) then Some 0 else None.
Proof.
  case_decide as Hj; [|by apply zlookup_None; rewrite length_replicate]. rewrite zlookup_Z by lia.
  apply lookup_replicate_2. lia.
Qed.

(** The state with the new table behind the entry [y]. *)
Record grown s s' path (t i nt y : Z) : Prop := {
  grown_entry : ∀ u j, entry s' u j =
    if decide (u = t ∧ j = i) then Some y else if decide (u = nt) then zlookup (replicate 512 0) j else entry s u j;
  grown_len : ∀ u, length <$> tabs s' !! u = if decide (u = nt) then Some 512%nat else length <$> tabs s !! u;
  grown_wm : wm_ok (mem s') e;
  grown_cursor : wm_cursor (mem s) ≤ nt ∧ wm_cursor (mem s') = nt + 4096 }.

Lemma grown_tree s s' path t p i nt y :
  tree s root e path → path !! t = Some p → (length p < 3)%nat → path !! nt = None → HHDM ≤ nt →
  grown s s' path t i nt y → next_table y = nt →
  tree s' root e (<[nt := p ++ [i]]> path).
Proof.
  intros [T1 T2 T3 T4 T5 T6] Hp Hl Hnt Hh [G1 G2 G3 [G4 G5]] Hy.
  assert (t ≠ nt) as Htn by congruence. split; try done; try lia.
  - rewrite lookup_insert_ne by congruence. done.
  - intros u. specialize (G2 u). case_decide as Hu.
    + subst u. right. rewrite lookup_insert_eq. destruct (tabs s' !! nt) as [tb|]; [|done]. injection G2 as G2.
      eexists _, tb. split_and!; try done. rewrite length_app. simpl. lia.
    + rewrite lookup_insert_ne by done. destruct (T2 u) as [[H1 H2]|(q & tb & H1 & H2 & H3 & H4)].
      * left. split; [done|]. rewrite H2 in G2. by destruct (tabs s' !! u).
      * right. rewrite H3 in G2. destruct (tabs s' !! u) as [tb'|]; [|done]. injection G2 as G2.
        exists q, tb'. split_and!; try done. lia.
  - intros u q j x Hq Hlen Hx Hpr Hbig. rewrite G1 in Hx. case_decide as Hd.
    + destruct Hd as [-> ->]. injection Hx as <-. rewrite lookup_insert_ne in Hq by done.
      rewrite Hp in Hq. injection Hq as <-. rewrite Hy. by rewrite lookup_insert_eq.
    + case_decide as Hu; [rewrite zero_entry in Hx; case_decide; [by injection Hx as <-|done]|].
      rewrite lookup_insert_ne in Hq by done. pose proof (T3 _ _ _ _ Hq Hlen Hx Hpr Hbig) as Hn.
      rewrite lookup_insert_ne; [done|congruence].
  - intros u q Hq. destruct (decide (u = nt)) as [->|Hu]; [lia|]. rewrite lookup_insert_ne in Hq by done.
    pose proof (T4 _ _ Hq). lia.
Qed.

Lemma grown_keeps s s' path t p i nt y x :
  tree s root e path → path !! t = Some p → (length p < 3)%nat → entry s t i = Some x → present x = false →
  path !! nt = None → grown s s' path t i nt y → next_table y = nt → big p y = false → keeps s s'.
Proof.
  intros Ht Hp Hl Hx Hpx Hnt [G1 _ _ _] Hy Hb w v Hv. assert (t ≠ nt) as Htn by congruence.
  eapply (look_alloc s s' path (ixs w) t i p nt x); try done; try by eapply tree_root.
  - intros u j Hne Hu. rewrite G1, decide_False by naive_solver. by rewrite decide_False.
  - exists y. rewrite G1. by rewrite decide_True.
  - intros j Hj. rewrite G1, decide_False by naive_solver. rewrite decide_True by done.
    rewrite zero_entry. by rewrite decide_True.
  - apply ixs_range.
Qed.

Definition oom : res paging := Fatal "Watermark allocator out of memory!".

(** Entries for huge pages are not created on the way. *)
Definition no_new_big s path s' path' : Prop := ∀ t q i y,
  path' !! t = Some q → (length q < 3)%nat → entry s' t i = Some y → present y = true → big q y = true →
  ∃ x, path !! t = Some q ∧ entry s t i = Some x ∧ present x = true ∧ big q x = true.
Lemma no_new_big_refl s path : no_new_big s path s path.
Proof. intros t q i y Hq _ Hy Py By. by exists y. Qed.
Lemma no_new_big_trans s1 p1 s2 p2 s3 p3 : no_new_big s1 p1 s2 p2 → no_new_big s2 p2 s3 p3 → no_new_big s1 p1 s3 p3.
Proof. intros H1 H2 t q i y Hq Hl Hy Py By. destruct (H2 t q i y) as (x & ? & ? & ? & ?); [done..|]. by apply (H1 t q i x). Qed.

Lemma descend_Ok s path t p i flags m :
  tree s root e path → path !! t = Some p → (length p < 3)%nat → 0 ≤ i < 512 →
  (∀ x, entry s t i = Some x → present x = true → big p x = false) →
  Z.testbit flags 0 = true → Z.testbit flags 7 = false → is_nx m →
  descend s t i flags m = Fatal "Watermark allocator out of memory!" ∨
  ∃ t' s' path', descend s t i flags m = Ok (t', s') ∧ tree s' root e path' ∧
    path' !! t' = Some (p ++ [i]) ∧ path ⊆ path' ∧ linked s' p t i t' ∧
    (∀ u q j, path !! u = Some q → (u ≠ t ∨ j ≠ i) → entry s' u j = entry s u j) ∧
    ((∃ x, entry s t i = Some x ∧ present x = true ∧ t' = next_table x) ∨
     (∀ j x, entry s' t' j = Some x → present x = false)) ∧ keeps s s' ∧ no_new_big s path s' path'.
Proof.
  intros Ht Hp Hl Hi Hbig Hf0 Hf7 Hm. destruct (tree_entry s path t p i Ht Hp Hi) as [x Hx].
  unfold descend. rewrite (ent_ld_Ok _ _ _ _ Hx). cbn [mbind res_bind]. change (has (get_flags x) PRESENT) with (present x).
  destruct (present x) eqn:Px.
  - right. pose proof (Hbig x Hx Px) as Bx. pose proof (tree_next _ _ _ _ Ht t p i x Hp Hl Hx Px Bx) as Hn.
    destruct (has flags USER).
    + destruct (sim_step s path t p i x _ Ht Hp Hx (sim_user x)) as (s' & E & Ht' & Hx' & Ho & Hk).
      rewrite E. cbn [mbind res_bind]. exists (next_table x), s', path. split_and!; try done.
      * eexists. split; [done|]. rewrite (sim_present _ _ (sim_user x)), (sim_big p _ _ (sim_user x)), (sim_next _ _ (sim_user x)). done.
      * intros u q j _ Hne. by apply Ho.
      * left. by exists x.
      * intros u q j y Hq _ Hy Py By. destruct (decide (u = t ∧ j = i)) as [[-> ->]|Hne];
          [|exists y; rewrite Ho in Hy by (destruct (decide (u = t)); naive_solver); done].
        rewrite Hx' in Hy. injection Hy as <-. rewrite Hp in Hq. injection Hq as <-.
        exists x. split_and!; try done. by rewrite <- (sim_big p _ _ (sim_user x)).
    + exists (next_table x), s, path. split_and!; try done; [by exists x|left; by exists x|by intros w v|apply no_new_big_refl].
  - destruct (allocpage_Ok s path Ht) as [E|(nt & s1 & E & Hnt & Hnr & Hna & Etab & Hok & Hc1 & Hc2)].
    { left. by rewrite E. }
    right. rewrite E. cbn [mbind res_bind]. assert (t ≠ nt) as Htn by congruence.
    assert (entry s1 t i = Some x) as Hx1 by (rewrite (entry_fresh _ _ _ _ _ Etab), decide_False; done).
    set (v1 := Z.lor _ m). destruct (ent_st_Ok s1 t i x v1 Hx1) as (s2 & E2 & M2 & H2 & L2).
    rewrite E2. cbn [mbind res_bind]. assert (entry s2 t i = Some v1) as Hx2 by (rewrite H2; by rewrite decide_True).
    rewrite (ent_ld_Ok _ _ _ _ Hx2). cbn [mbind res_bind]. set (y := set_flags v1 flags).
    destruct (ent_st_Ok s2 t i v1 y Hx2) as (s3 & E3 & M3 & H3 & L3). rewrite E3. cbn [mbind res_bind].
    assert (grown s s3 path t i nt y) as Hg.
    { split; [| |by rewrite M3, M2|rewrite M3, M2; done].
      - intros u j. rewrite H3. case_decide; [done|]. rewrite H2, decide_False by done. by rewrite (entry_fresh _ _ _ _ _ Etab).
      - intros u. rewrite L3, L2, Etab. case_decide as Hu; [subst; by rewrite lookup_insert_eq|by rewrite lookup_insert_ne]. }
    assert (next_table y = nt) as Hy by (by apply new_entry_next).
    assert (present y = true ∧ huge y = false) as [Py Hy7].
    { rewrite present_bit, huge_bit. unfold y. rewrite !set_flags_bit by lia. done. }
    assert (big p y = false) as By by (unfold big; by rewrite Hy7, andb_false_r).
    exists nt, s3, (<[nt := p ++ [i]]> path). split_and!; try done.
    + by eapply (grown_tree s s3 path t p i nt y); try done; lia.
    + by rewrite lookup_insert_eq.
    + by apply insert_subseteq.
    + exists y. split; [|done]. rewrite (grown_entry _ _ _ _ _ _ _ Hg). by rewrite decide_True.
    + intros u q j Hq Hne. rewrite (grown_entry _ _ _ _ _ _ _ Hg), decide_False by naive_solver.
      rewrite decide_False; [done|congruence].
    + right. intros j z Hz. rewrite (grown_entry _ _ _ _ _ _ _ Hg), decide_False in Hz by naive_solver.
      rewrite decide_True, zero_entry in Hz by done. case_decide; [by injection Hz as <-|done].
    + by eapply (grown_keeps s s3 path t p i nt y x).
    + intros u q j z Hq _ Hz Pz Bz. rewrite (grown_entry _ _ _ _ _ _ _ Hg) in Hz. case_decide as Hd.
      * destruct Hd as [-> ->]. injection Hz as <-. rewrite lookup_insert_ne, Hp in Hq by done. injection Hq as <-. congruence.
      * case_decide as Hu; [rewrite zero_entry in Hz; case_decide; [by injection Hz as <-|done]|].
        rewrite lookup_insert_ne in Hq by done. by exists z.
Qed.

(** ** Writing the leaf *)

Definition similar s s' : Prop := ∀ u j x, entry s u j = Some x → ∃ y, entry s' u j = Some y ∧ sim y x.

Lemma clear_nxs_Ok path l : ∀ s, tree s root e path →
  Forall (λ a, ∃ p, path !! a.1 = Some p ∧ 0 ≤ a.2 < 512) l →
  ∃ s', clear_nxs s l = Ok s' ∧ tree s' root e path ∧ keeps s s' ∧ similar s s'.
Proof.
  induction l as [|[t i] l IH]; intros s Ht Hl.
  { exists s. split_and!; try done; [by intros w v|intros u j x Hx; by exists x]. }
  apply Forall_cons in Hl as [(p & Hp & Hi) Hl]. destruct (tree_entry s path t p i Ht Hp Hi) as [x Hx].
  cbn [clear_nxs]. unfold clear_nx. rewrite (ent_ld_Ok _ _ _ _ Hx). cbn [mbind res_bind].
  destruct (sim_step s path t p i x _ Ht Hp Hx (sim_clear_nx x)) as (s1 & E & Ht1 & Hx1 & Ho & Hk).
  rewrite E. cbn [mbind res_bind]. destruct (IH s1 Ht1 Hl) as (s2 & E2 & Ht2 & Hk2 & Hs2).
  exists s2. split_and!; try done.
  - intros w v Hv. by apply Hk2, Hk.
  - intros u j y Hy. destruct (decide (u = t ∧ j = i)) as [[-> ->]|Hne].
    + destruct (Hs2 _ _ _ Hx1) as (z & Hz & Hzs). exists z. split; [done|].
      rewrite Hx in Hy. injection Hy as <-. rewrite Hzs. apply sim_clear_nx.
    + apply Hs2. rewrite Ho; [done|]. destruct (decide (u = t)); naive_solver.
Qed.

(** Writing a leaf changes the lookups that pass through it only. *)
Lemma leaf_keeps s s' path t p i w v : tree s root e path → path !! t = Some p →
  (∀ u j x, (u ≠ t ∨ j ≠ i) → entry s u j = Some x → ∃ y, entry s' u j = Some y ∧ sim y x) →
  (∀ r, ixs w ≠ p ++ i :: r) →
  look s root [] (ixs w) w = Ok v → look s' root [] (ixs w) w = Ok v.
Proof.
  intros Ht Hp Ho Hne Hv. eapply look_keep; try done; [by eapply tree_root|].
  intros u q j r x Hq E Hx. destruct (Ho u j x) as (y & Hy & Hs); [|done|exists y; split; [done|by symmetry]].
  destruct (decide (u = t)) as [->|]; [|by left]. right. intros ->. rewrite Hp in Hq. injection Hq as ->.
  by apply (Hne r).
Qed.

Lemma write_leaf_Ok s path t p i phys m fl above :
  tree s root e path → path !! t = Some p → 0 ≤ i < 512 → is_nx m → Z.testbit phys 0 = false →
  ((length p < 3)%nat → p ≠ [] ∧ Z.testbit fl 7 = true) →
  Forall (λ a, ∃ p, path !! a.1 = Some p ∧ 0 ≤ a.2 < 512) above →
  ∃ s' y, write_leaf s t i phys m fl above = Ok s' ∧ tree s' root e path ∧
    entry s' t i = Some (set_flags y fl) ∧ sim y (Z.lor phys m) ∧
    (∀ u j x, (u ≠ t ∨ j ≠ i) → entry s u j = Some x → ∃ y, entry s' u j = Some y ∧ sim y x).
Proof.
  intros Ht Hp Hi Hm Hph Hfl Hab. destruct (tree_entry s path t p i Ht Hp Hi) as [x Hx]. unfold write_leaf.
  set (a := Z.lor phys m). destruct (ent_st_Ok s t i x a Hx) as (s1 & E1 & M1 & H1 & L1). rewrite E1. cbn [mbind res_bind].
  assert (tree s1 root e path) as Ht1.
  { eapply tree_st; try done. intros _ Hpr. rewrite present_bit in Hpr. unfold a in Hpr.
    rewrite Z.lor_spec, Hph, (nx_bit m 0 Hm) in Hpr by lia. done. }
  assert (entry s1 t i = Some a) as Ha by (rewrite H1; by rewrite decide_True).
  assert (∃ s2, (if m =? 0 then clear_nxs s1 (above ++ [(t, i)]) else Ok s1) = Ok s2 ∧ tree s2 root e path ∧ similar s1 s2)
    as (s2 & E2 & Ht2 & Hs2).
  { destruct (m =? 0).
    - destruct (clear_nxs_Ok path (above ++ [(t, i)]) s1 Ht1) as (s2 & E2 & T2 & _ & S2); [|by exists s2].
      apply Forall_app. split; [done|]. apply Forall_singleton. by exists p.
    - exists s1. split_and!; try done. intros u j z Hz. by exists z. }
  rewrite E2. cbn [mbind res_bind]. destruct (Hs2 _ _ _ Ha) as (y & Hy & Hys).
  rewrite (ent_ld_Ok _ _ _ _ Hy). cbn [mbind res_bind].
  destruct (ent_st_Ok s2 t i y (set_flags y fl) Hy) as (s3 & E3 & M3 & H3 & L3).
  exists s3, y. split_and!; try done.
  - eapply tree_st; try done. intros Hl _ Hb. destruct (Hfl Hl) as [Hne H7]. unfold big in Hb.
    rewrite bool_decide_eq_false_2, huge_bit, set_flags_bit in Hb by (done || lia).
    rewrite bool_decide_eq_true_2, H7 in Hb by lia. done.
  - rewrite H3. by rewrite decide_True.
  - intros u j z Hne Hz. assert (¬ (u = t ∧ j = i)) as Hd by naive_solver.
    destruct (Hs2 u j z) as (z' & Hz' & Hzs); [rewrite H1; by rewrite decide_False|].
    exists z'. split; [|done]. rewrite H3. by rewrite decide_False.
Qed.

Lemma entry_range s path t p i x : tree s root e path → path !! t = Some p → entry s t i = Some x → 0 ≤ i < 512.
Proof.
  intros Ht Hp Hx. unfold entry in Hx. destruct (tree_tab _ _ _ _ Ht t) as [[H1 H2]|(q & tb & H1 & H2 & H3 & H4)]; [congruence|].
  rewrite H3 in Hx. cbn in Hx. apply zlookup_lt in Hx. lia.
Qed.

Lemma sim_no_new_big s s' path : tree s root e path → tree s' root e path →
  (∀ u q j x, path !! u = Some q → (length q < 3)%nat → entry s u j = Some x → ∃ y, entry s' u j = Some y ∧ sim y x) →
  no_new_big s path s' path.
Proof.
  intros Ht Ht' Hs t q i y Hq Hl Hy Py By. pose proof (entry_range _ _ _ _ _ _ Ht' Hq Hy) as Hi.
  destruct (tree_entry s path t q i Ht Hq Hi) as [x Hx]. destruct (Hs t q i x Hq Hl Hx) as (y' & Hy' & Hsim).
  rewrite Hy in Hy'. injection Hy' as <-. exists x. split_and!; try done; [by rewrite <- (sim_present _ _ Hsim)|by rewrite <- (sim_big q _ _ Hsim)].
Qed.

(** ** The walk of map_page *)

(** [ks] leads from [t] to [t']. *)
Fixpoint way s (t : Z) (p ks : list Z) (t' : Z) : Prop :=
  match ks with
  | [] => t = t'
  | i :: r => ∃ n, linked s p t i n ∧ way s n (p ++ [i]) r t'
  end.
(** No huge page lies on the way [ks] as far as it exists. *)
Fixpoint clear_way s (t : Z) (p ks : list Z) : Prop :=
  match ks with
  | [] => True
  | i :: r => ∀ x, entry s t i = Some x → present x = true →
      big p x = false ∧ clear_way s (next_table x) (p ++ [i]) r
  end.

Lemma look_way s ks : ∀ t p t' i r w, way s t p ks t' →
  look s t p (ks ++ i :: r) w = look s t' (p ++ ks) (i :: r) w.
Proof.
  induction ks as [|k ks IH]; intros t p t' i r w Hw; [simpl in Hw; subst; by rewrite app_nil_r|].
  destruct Hw as (n & (x & Hx & Px & Bx & <-) & Hw). rewrite <- app_comm_cons. cbn [look].
  rewrite (ent_ld_Ok _ _ _ _ Hx). cbn [mbind res_bind]. rewrite Px, Bx. cbn [negb].
  rewrite (IH _ _ _ _ _ _ Hw), <- app_assoc. by destruct ks.
Qed.

Lemma way_keep s s' path ks : ∀ t p t', tree s root e path → path !! t = Some p →
  (length p + length ks ≤ 3)%nat →
  (∀ u q j x, path !! u = Some q → (length q < length p + length ks)%nat → entry s u j = Some x →
     ∃ y, entry s' u j = Some y ∧ sim y x) →
  way s t p ks t' → way s' t p ks t'.
Proof.
  induction ks as [|k ks IH]; intros t p t' Ht Hp Hl Hs Hw; [done|]. cbn [way length] in *.
  destruct Hw as (n & (x & Hx & Px & Bx & <-) & Hw). exists (next_table x).
  destruct (Hs t p k x Hp ltac:(lia) Hx) as (y & Hy & Hsim). split.
  - exists y. rewrite (sim_present y x Hsim), (sim_big p y x Hsim), (sim_next y x Hsim). done.
  - apply IH; try done; [eapply tree_next; try done; lia|rewrite length_app; simpl; lia|].
    intros u q j z Hq Hlq. apply (Hs u q); [done|]. rewrite length_app in Hlq. simpl in Hlq. lia.
Qed.

Lemma clear_keep s s' path ks : ∀ t p, tree s root e path → path !! t = Some p →
  (length p + length ks ≤ 3)%nat →
  (∀ u q j, path !! u = Some q → (length p ≤ length q)%nat → entry s' u j = entry s u j) →
  clear_way s t p ks → clear_way s' t p ks.
Proof.
  induction ks as [|k ks IH]; intros t p Ht Hp Hl Hs Hc; [done|]. cbn [clear_way length] in *.
  intros x Hx Px. rewrite (Hs t p k Hp) in Hx by lia. destruct (Hc x Hx Px) as [Bx Hr]. split; [done|].
  apply IH; try done; [eapply tree_next; try done; lia|rewrite length_app; simpl; lia|].
  intros u q j Hq Hlq. apply (Hs u q); [done|]. rewrite length_app in Hlq. lia.
Qed.

Lemma way_snoc s ks : ∀ t0 p t i t', way s t0 p ks t → linked s (p ++ ks) t i t' → way s t0 p (ks ++ [i]) t'.
Proof.
  induction ks as [|k ks IH]; intros t0 p t i t' Hw Hlk; cbn [way app] in *.
  - subst. rewrite app_nil_r in Hlk. by exists t'.
  - destruct Hw as (n & Hn & Hw). exists n. split; [done|]. eapply IH; [done|]. by rewrite <- app_assoc.
Qed.

Lemma way_step s path ks t i r flags m :
  tree s root e path → way s root [] ks t → path !! t = Some ks → (length ks + length r < 3)%nat → 0 ≤ i < 512 →
  clear_way s t ks (i :: r) → Z.testbit flags 0 = true → Z.testbit flags 7 = false → is_nx m →
  descend s t i flags m = Fatal "Watermark allocator out of memory!" ∨
  ∃ t' s' path', descend s t i flags m = Ok (t', s') ∧ tree s' root e path' ∧ path ⊆ path' ∧
    way s' root [] (ks ++ [i]) t' ∧ path' !! t' = Some (ks ++ [i]) ∧ clear_way s' t' (ks ++ [i]) r ∧ keeps s s' ∧
    no_new_big s path s' path'.
Proof.
  intros Ht Hw Hp Hl Hi Hc Hf0 Hf7 Hm.
  destruct (descend_Ok s path t ks i flags m Ht Hp) as
    [E|(t' & s' & path' & E & Ht' & Hp' & Hsub & Hlk & Ho & Hd & Hk & Hnb)]; [lia|done| |done..|by left|].
  { intros x Hx Px. by apply (Hc x Hx Px). }
  right. exists t', s', path'. split_and!; try done.
  - assert (way s' root [] ks t) as Hw'.
    { eapply (way_keep s s' path); try done; [by eapply tree_root|simpl; lia|].
      intros u q j x Hq Hlq Hx. simpl in Hlq. exists x. split; [|done]. rewrite (Ho u q j Hq); [done|].
      left. intros ->. rewrite Hp in Hq. injection Hq as ->. lia. }
    by apply (way_snoc s' ks root [] t i t').
  - destruct Hd as [(x & Hx & Px & ->)|Hd].
    + destruct (Hc x Hx Px) as [_ Hr].
      eapply (clear_keep s s' path); try done.
      * eapply tree_next; try done; [lia|]. by apply (Hc x Hx Px).
      * rewrite length_app. simpl. lia.
      * intros u q j Hq Hlq. rewrite length_app in Hlq. simpl in Hlq. apply (Ho u q j Hq).
        left. intros ->. rewrite Hp in Hq. injection Hq as ->. lia.
    + destruct r as [|k r]; [done|]. cbn [clear_way]. intros x Hx Px. by rewrite (Hd k x Hx) in Px.
Qed.

End Tree.

(** ** Mapping a page *)

Lemma exemask_nx flags : is_nx (if 0 <? Z.land flags EXE then 0 else 0x8000000000000000).
Proof. destruct (0 <? _); [by left|by right]. Qed.

Lemma flags_bit flags i : 0 ≤ i < 13 → Z.testbit (Z.land flags (Z.shiftl 1 13 - 1)) i = Z.testbit flags i.
Proof.
  intros Hi. rewrite Z.land_spec. change (Z.shiftl 1 13 - 1) with (Z.ones 13).
  by rewrite Z.ones_spec_low, andb_true_r by lia.
Qed.

Lemma page_low_bit n a : 0 < n → Z.testbit (page_of n a) 0 = false.
Proof. intros Hn. rewrite page_of_bit by lia. by rewrite bool_decide_eq_false_2 by lia. Qed.

Section Map.
Context (s : paging) (root e : Z) (path : gmap Z (list Z)) (virt phys flags cache : Z).
Context (Htree : tree s root e path) (Hvirt : is_u64 virt).
Context (Hpresent : has flags PRESENT = true) (Hnohuge : has flags HUGE = false).

Let fl := Z.land flags (Z.shiftl 1 13 - 1).
Let m := if 0 <? Z.land flags EXE then 0 else 0x8000000000000000.

Lemma fl_bits : Z.testbit fl 0 = true ∧ Z.testbit fl 7 = false ∧ is_nx m.
Proof using All.
  unfold fl. rewrite !flags_bit by lia. rewrite <- !has_testbit by lia. split_and!; [done..|apply exemask_nx].
Qed.

(** The two steps both page sizes take. *)
Lemma two_steps r : (length r < 2)%nat → clear_way s root [] (ADDR_PML4I virt :: ADDR_PDPI virt :: r) →
  let walk := '(pdp, s) ← descend s root (ADDR_PML4I virt) fl m;
              '(pd, s) ← descend s pdp (ADDR_PDPI virt) fl m; Ok (pdp, pd, s) in
  walk = Fatal "Watermark allocator out of memory!" ∨
  ∃ pdp pd s' path', walk = Ok (pdp, pd, s') ∧ tree s' root e path' ∧
    way s' root [] [ADDR_PML4I virt; ADDR_PDPI virt] pd ∧
    path' !! root = Some [] ∧ path' !! pdp = Some [ADDR_PML4I virt] ∧
    path' !! pd = Some [ADDR_PML4I virt; ADDR_PDPI virt] ∧
    clear_way s' pd [ADDR_PML4I virt; ADDR_PDPI virt] r ∧ keeps root s s' ∧ no_new_big s path s' path'.
Proof using All.
  intros Hr Hc walk. destruct fl_bits as (F0 & F7 & Hm). pose proof (ixs_range virt) as Hi.
  unfold ixs in Hi. rewrite !Forall_cons in Hi. destruct Hi as (I4 & I3 & I2 & I1 & _).
  destruct (way_step root e s path [] root (ADDR_PML4I virt) (ADDR_PDPI virt :: r) fl m) as
    [E|(pdp & s1 & path1 & E & T1 & Sub1 & W1 & P1 & C1 & K1 & B1)]; try done.
  { by eapply tree_root. } { simpl. lia. }
  { left. subst walk. by rewrite E. }
  destruct (way_step root e s1 path1 _ pdp (ADDR_PDPI virt) r fl m T1 W1 P1) as
    [E2|(pd & s2 & path2 & E2 & T2 & Sub2 & W2 & P2 & C2 & K2 & B2)]; try done.
  { simpl. lia. } { left. subst walk. rewrite E. cbn [mbind res_bind]. by rewrite E2. }
  right. exists pdp, pd, s2, path2. subst walk. rewrite E. cbn [mbind res_bind]. rewrite E2.
  split_and!; try done; [by eapply tree_root|by eapply lookup_weaken| |by eapply no_new_big_trans].
  intros w v Hv. by apply K2, K1.
Qed.

Lemma map_page_4k_unfold : has flags s2M = false → has flags s1G = false →
  map_page s root virt phys flags cache =
  ('(pdp, pd, s) ← ('(pdp, s) ← descend s root (ADDR_PML4I virt) fl m;
                    '(pd, s) ← descend s pdp (ADDR_PDPI virt) fl m; Ok (pdp, pd, s));
   '(pt, s) ← descend s pd (ADDR_PDI virt) fl m;
   write_leaf s pt (ADDR_PTI virt) (page_of 12 phys) m (Z.lor fl (patbits4k cache))
     [(root, ADDR_PML4I virt); (pdp, ADDR_PDPI virt); (pd, ADDR_PDI virt)]).
Proof using fl m.
  intros H2 H1. unfold map_page. rewrite H2, H1. cbv zeta iota beta. fold m fl.
  unfold ADDR_PML4I, ADDR_PDPI, ADDR_PDI, ADDR_PTI. rewrite !pt_page_index by lia.
  change (0 =? 2) with false. change (0 =? 1) with false. cbn iota.
  destruct (descend s _ _ fl m) as [[pdp s1]| | | |]; try done. cbn [mbind res_bind].
  by destruct (descend s1 _ _ fl m) as [[pd s2]| | | |].
Qed.

Lemma map_page_2m_unfold : has flags s2M = true →
  map_page s root virt phys flags cache =
  ('(pdp, pd, s) ← ('(pdp, s) ← descend s root (ADDR_PML4I virt) fl m;
                    '(pd, s) ← descend s pdp (ADDR_PDPI virt) fl m; Ok (pdp, pd, s));
   write_leaf s pd (ADDR_PDI virt) (page_of 21 phys) m (Z.lor (Z.lor fl HUGE) (patbits2m cache))
     [(root, ADDR_PML4I virt); (pdp, ADDR_PDPI virt)]).
Proof using fl m.
  intros H2. unfold map_page. rewrite H2. cbv zeta iota beta. fold m fl.
  unfold ADDR_PML4I, ADDR_PDPI, ADDR_PDI. rewrite !pt_page_index by lia.
  change (1 =? 2) with false. change (1 =? 1) with true. cbn iota.
  destruct (descend s _ _ fl m) as [[pdp s1]| | | |]; try done. cbn [mbind res_bind].
  by destruct (descend s1 _ _ fl m) as [[pd s2]| | | |].
Qed.

Lemma map_4k_Ok : has flags s2M = false → has flags s1G = false → 0 ≤ phys < 2 ^ 63 →
  clear_way s root [] (take 3 (ixs virt)) →
  map_page s root virt phys flags cache = oom ∨
  ∃ s' path', map_page s root virt phys flags cache = Ok s' ∧ tree s' root e path' ∧
    (∀ w, ixs w = ixs virt → look s' root [] (ixs w) w = Ok (page_of 12 phys + w `mod` 4096)) ∧
    (∀ w v, ixs w ≠ ixs virt → look s root [] (ixs w) w = Ok v → look s' root [] (ixs w) w = Ok v) ∧
    no_new_big s path s' path'.
Proof using All.
  intros H2 H1 Hph Hc. rewrite map_page_4k_unfold by done. destruct fl_bits as (F0 & F7 & Hm).
  pose proof (ixs_range virt) as Hi. unfold ixs in Hi. rewrite !Forall_cons in Hi. destruct Hi as (I4 & I3 & I2 & I1 & _).
  destruct (two_steps [ADDR_PDI virt]) as [->|(pdp & pd & s2 & path2 & -> & T2 & W2 & Pr & Pp & Pd & C2 & K2 & B2)];
    [simpl; lia|done|by left|]. cbn [mbind res_bind].
  destruct (way_step root e s2 path2 _ pd (ADDR_PDI virt) [] fl m T2 W2 Pd) as
    [->|(pt & s3 & path3 & -> & T3 & Sub3 & W3 & P3 & _ & K3 & B3)]; [simpl; lia|done..|by left|]. cbn [mbind res_bind].
  destruct (write_leaf_Ok root e s3 path3 pt _ (ADDR_PTI virt) (page_of 12 phys) m (Z.lor fl (patbits4k cache))
    [(root, ADDR_PML4I virt); (pdp, ADDR_PDPI virt); (pd, ADDR_PDI virt)] T3 P3 I1 Hm) as (s4 & y & E4 & T4 & Hy & Hsim & Ho).
  { apply page_low_bit. lia. } { simpl. intros Hlt. lia. }
  { repeat (apply Forall_cons; split); try done; eexists; (split; [|done]); by eapply lookup_weaken. }
  right. exists s4, path3. split_and!; [done|done| | |].
  - intros w Ew. assert (way s4 root [] [ADDR_PML4I virt; ADDR_PDPI virt; ADDR_PDI virt] pt) as W4.
    { eapply (way_keep root e s3 s4 path3); try done; [by eapply tree_root|].
      intros u q j x Hq Hlq Hx. apply Ho; [|done]. left. intros ->. rewrite P3 in Hq. injection Hq as <-. simpl in Hlq. lia. }
    rewrite Ew. change (ixs virt) with ([ADDR_PML4I virt; ADDR_PDPI virt; ADDR_PDI virt] ++ [ADDR_PTI virt]).
    rewrite (look_way s4 _ root [] pt _ [] w W4). cbn [look].
    rewrite (ent_ld_Ok _ _ _ _ Hy). cbn [mbind res_bind]. rewrite present_bit, set_flags_bit by lia.
    rewrite Z.lor_spec, F0. cbn. f_equal. by apply (leaf_addr_page y m).
  - intros w v Hne Hv. apply K2, K3 in Hv. eapply (leaf_keeps root e s3 s4 path3 pt); try done.
    intros r Er. apply Hne. rewrite Er. unfold ixs in Er |- *. destruct r; [done|]. by injection Er.
  - eapply no_new_big_trans; [exact B2|]. eapply no_new_big_trans; [exact B3|]. apply (sim_no_new_big root e s3 s4 path3); try done.
    intros u q j x Hq Hlq Hx. apply Ho; [|done]. left. intros ->. rewrite P3 in Hq. injection Hq as <-. simpl in Hlq. lia.
Qed.

Lemma map_2m_Ok : has flags s2M = true → 0 ≤ phys < 2 ^ 47 →
  clear_way s root [] (take 2 (ixs virt)) →
  map_page s root virt phys flags cache = oom ∨
  ∃ s' path', map_page s root virt phys flags cache = Ok s' ∧ tree s' root e path' ∧
    (∀ w, take 3 (ixs w) = take 3 (ixs virt) →
       look s' root [] (ixs w) w = Ok (page_of 21 phys + w `mod` 2 ^ 21)) ∧
    (∀ w v, take 3 (ixs w) ≠ take 3 (ixs virt) →
       look s root [] (ixs w) w = Ok v → look s' root [] (ixs w) w = Ok v).
Proof using All.
  intros H2 Hph Hc. rewrite map_page_2m_unfold by done. destruct fl_bits as (F0 & F7 & Hm).
  pose proof (ixs_range virt) as Hi. unfold ixs in Hi. rewrite !Forall_cons in Hi. destruct Hi as (I4 & I3 & I2 & I1 & _).
  destruct (two_steps []) as [->|(pdp & pd & s2 & path2 & -> & T2 & W2 & Pr & Pp & Pd & _ & K2 & _)];
    [simpl; lia|done|by left|]. cbn [mbind res_bind].
  assert (∀ i, i = 0 ∨ i = 7 → Z.testbit (Z.lor (Z.lor fl HUGE) (patbits2m cache)) i = true) as Hbits.
  { intros i [->| ->]; rewrite !Z.lor_spec; [by rewrite F0|by rewrite (orb_comm (Z.testbit fl 7))]. }
  destruct (write_leaf_Ok root e s2 path2 pd _ (ADDR_PDI virt) (page_of 21 phys) m
    (Z.lor (Z.lor fl HUGE) (patbits2m cache))
    [(root, ADDR_PML4I virt); (pdp, ADDR_PDPI virt)] T2 Pd I2 Hm (page_low_bit 21 phys ltac:(lia))) as (s3 & y & E3 & T3 & Hy & Hsim & Ho).
  { intros _. split; [done|]. apply Hbits. by right. }
  { repeat (apply Forall_cons; split); try done; by eexists. }
  right. exists s3, path2. split_and!; [done|done| |].
  - intros w Ew. assert (way s3 root [] [ADDR_PML4I virt; ADDR_PDPI virt] pd) as W3.
    { eapply (way_keep root e s2 s3 path2); try done; [simpl; lia|].
      intros u q j x Hq Hlq Hx. apply Ho; [|done]. left. intros ->. rewrite Pd in Hq. injection Hq as <-. simpl in Hlq. lia. }
    assert (ixs w = [ADDR_PML4I virt; ADDR_PDPI virt] ++ [ADDR_PDI virt; ADDR_PTI w]) as ->
      by (unfold ixs in *; simpl in *; by injection Ew as -> -> ->).
    rewrite (look_way s3 _ root [] pd _ _ w W3). cbn [look].
    rewrite (ent_ld_Ok _ _ _ _ Hy). cbn [mbind res_bind]. unfold big. rewrite present_bit, huge_bit, !set_flags_bit by lia.
    rewrite !Hbits by auto. cbn. f_equal. by apply (huge_addr_page y m).
  - intros w v Hne Hv. apply K2 in Hv. eapply (leaf_keeps root e s2 s3 path2 pd); try done.
    intros r Er. apply Hne. rewrite Er. done.
Qed.
End Map.

(** C23: [map_page] for a 4 KiB page either stops because the watermark allocator is exhausted or
    returns with the tables still a tree, every address of the page translating to the frame, and
    every other translation (that does not go through a 1 GiB page) unchanged.  The way to the
    page must not go through a huge page, and the caller's flags must say present and not huge. *)
Theorem map_page_4k s root e path virt phys flags cache :
  tree s root e path → is_u64 virt → 0 ≤ phys < 2 ^ 63 →
  has flags PRESENT = true → has flags HUGE = false → has flags s2M = false → has flags s1G = false →
  clear_way s root [] (take 3 (ixs virt)) →
  map_page s root virt phys flags cache = oom ∨
  ∃ s' path', map_page s root virt phys flags cache = Ok s' ∧ tree s' root e path' ∧
    (∀ w, ixs w = ixs virt → paging_lookup s' root w = Ok (page_of 12 phys + w `mod` 4096)) ∧
    (∀ w v, ixs w ≠ ixs virt → no_1g root s w →
       paging_lookup s root w = Ok v → paging_lookup s' root w = Ok v).
Proof.
  intros Ht Hv Hph Hp Hh H2 H1 Hc.
  destruct (map_4k_Ok s root e path virt phys flags cache Ht Hv Hp Hh H2 H1 Hph Hc) as [->|(s' & path' & E & T & Hr & Hk & _)];
    [by left|]. right. exists s', path'. split_and!; try done.
  - intros w Ew. pose proof (Hr w Ew) as Hl. by rewrite lookup_look by (by eapply look_no_1g).
  - intros w v Hne Hn Hv'. rewrite lookup_look in Hv' by done. pose proof (Hk w v Hne Hv') as Hl.
    by rewrite lookup_look by (by eapply look_no_1g).
Qed.

(** The same for a 2 MiB page: all of its addresses translate to the aligned frame plus their
    offset, and the translations outside the page are unchanged. *)
Lemma map_page_2m s root e path virt phys flags cache :
  tree s root e path → is_u64 virt → 0 ≤ phys < 2 ^ 47 →
  has flags PRESENT = true → has flags HUGE = false → has flags s2M = true →
  clear_way s root [] (take 2 (ixs virt)) →
  map_page s root virt phys flags cache = oom ∨
  ∃ s' path', map_page s root virt phys flags cache = Ok s' ∧ tree s' root e path' ∧
    (∀ w, take 3 (ixs w) = take 3 (ixs virt) →
       paging_lookup s' root w = Ok (page_of 21 phys + w `mod` 2 ^ 21)) ∧
    (∀ w v, take 3 (ixs w) ≠ take 3 (ixs virt) → no_1g root s w →
       paging_lookup s root w = Ok v → paging_lookup s' root w = Ok v).
Proof.
  intros Ht Hv Hph Hp Hh H2 Hc.
  destruct (map_2m_Ok s root e path virt phys flags cache Ht Hv Hp Hh H2 Hph Hc) as [->|(s' & path' & E & T & Hr & Hk)];
    [by left|]. right. exists s', path'. split_and!; try done.
  - intros w Ew. pose proof (Hr w Ew) as Hl. by rewrite lookup_look by (by eapply look_no_1g).
  - intros w v Hne Hn Hv'. rewrite lookup_look in Hv' by done. pose proof (Hk w v Hne Hv') as Hl.
    by rewrite lookup_look by (by eapply look_no_1g).
Qed.

(** An empty top-level table below 64 MiB of watermark memory. *)
Definition root0 : Z := HHDM + 0x1000.
Definition boot_mem : pmm := mkPmm (pmm_bm pmm_demo) 0 0 0 0 (HHDM + 0x100000) 0x4000000 0.
Definition boot_tables : paging := mkPaging {[ root0 := replicate 512 0 ]} boot_mem.

Lemma boot_tree : tree boot_tables root0 (HHDM + 0x4100000) {[ root0 := [] ]}.
Proof.
  split.
  - by rewrite lookup_singleton_eq.
  - intros t. simpl. destruct (decide (t = root0)) as [->|Hn].
    + right. rewrite !lookup_singleton_eq. eexists _, _. split_and!; try done. simpl. lia.
    + left. by rewrite !lookup_singleton_ne.
  - intros t p i x [<- <-]%lookup_singleton_Some _ Hx Hpr. unfold entry in Hx. simpl in Hx.
    rewrite lookup_singleton_eq in Hx. cbn [mbind option_bind] in Hx. rewrite zero_entry in Hx.
    case_decide; [by injection Hx as <-|done].
  - intros t p [<- <-]%lookup_singleton_Some. change (wm_cursor (mem boot_tables)) with (HHDM + 0x100000). unfold root0, HHDM. lia.
  - split; [done| |done]. change (wm_cursor (mem boot_tables)) with (HHDM + 0x100000).
    change (wm_free (mem boot_tables)) with 0x4000000. unfold HHDM. lia.
  - change (wm_cursor (mem boot_tables)) with (HHDM + 0x100000). lia.
Qed.

Lemma boot_clear ks : clear_way boot_tables root0 [] ks.
Proof.
  destruct ks as [|i r]; [done|]. cbn [clear_way]. intros x Hx Hpr. unfold entry in Hx. simpl in Hx.
  rewrite lookup_singleton_eq in Hx. cbn [mbind option_bind] in Hx. rewrite zero_entry in Hx.
  case_decide; [by injection Hx as <-|done].
Qed.

Lemma map_page_4k_witness :
  map_page boot_tables root0 0x400000 0x123000 UDATA WB = oom ∨
  ∃ s', map_page boot_tables root0 0x400000 0x123000 UDATA WB = Ok s' ∧
    paging_lookup s' root0 0x400abc = Ok (page_of 12 0x123000 + 0x400abc `mod` 4096).
Proof.
  destruct (map_page_4k boot_tables root0 _ _ 0x400000 0x123000 UDATA WB boot_tree ltac:(unfold is_uN; lia)
    ltac:(lia) eq_refl eq_refl eq_refl eq_refl (boot_clear _)) as [H|(s' & path' & E & _ & Hr & _)].
  - left. exact H.
  - right. exists s'. split; [exact E|]. apply Hr. reflexivity.
Defined.

Lemma map_page_2m_witness :
  map_page boot_tables root0 0x400000 0x800000 (Z.lor KDATA s2M) WB = oom ∨
  ∃ s', map_page boot_tables root0 0x400000 0x800000 (Z.lor KDATA s2M) WB = Ok s' ∧
    paging_lookup s' root0 0x412345 = Ok (page_of 21 0x800000 + 0x412345 `mod` 2 ^ 21).
Proof.
  destruct (map_page_2m boot_tables root0 _ _ 0x400000 0x800000 (Z.lor KDATA s2M) WB boot_tree ltac:(unfold is_uN; lia)
    ltac:(lia) eq_refl eq_refl eq_refl (boot_clear _)) as [H|(s' & path' & E & _ & Hr & _)].
  - left. exact H.
  - right. exists s'. split; [exact E|]. apply Hr. reflexivity.
Defined.

(** These runs do return. *)
Example map_page_runs :
  is_Ok (map_page boot_tables root0 0x400000 0x123000 UDATA WB) = true ∧
  is_Ok (map_page boot_tables root0 0x400000 0x800000 (Z.lor KDATA s2M) WB) = true.
Proof. by vm_compute. Qed.

(** A 1 GiB page cannot be looked up: its frame is read as a table. *)
Example lookup_1g_faults :
  (s ← map_page boot_tables root0 0x40000000 0x80000000 (Z.lor KDATA s1G) WB;
   paging_lookup s root0 0x40000000) = Fault.
Proof. by vm_compute. Qed.
