(* ===== verification/PagingArea.v ===== *)
(** Mapping areas: what holds of the page tables while many 4 KiB pages are mapped one after the
    other, and that the physical page allocator is left alone by it. *)
From S2P Require Import Prelude Arith Bitmap Pmm Paging.

(** ** The page allocator behind the tables *)

(** The parts of the allocator state that mapping does not touch. *)
Definition same_frames (s s' : paging) : Prop :=
  pmm_bm (mem s') = pmm_bm (mem s) ∧ pmm_mutex (mem s') = pmm_mutex (mem s).
#[global] Instance same_frames_po : PreOrder same_frames.
Proof. split; [done|]. intros s1 s2 s3 [] []. split; congruence. Qed.

Lemma allocpage_frames s p s' : allocpage s = Ok (p, s') → same_frames s s'.
Proof.
  unfold allocpage, wm_alloc. intros H. repeat (apply bind_Ok in H as (? & ? & H)). simplify_eq.
  repeat match goal with
  | H : (_ ← _; _) = Ok _ |- _ => apply bind_Ok in H as (? & ? & H)
  | H : (if ?c then _ else _) = Ok _ |- _ => destruct c; [done|]
  | H : (let '(_, _) := ?x in _) = Ok _ |- _ => destruct x
  | _ => simplify_eq
  end; done.
Qed.
Lemma ent_st_frames s t i v s' : ent_st s t i v = Ok s' → same_frames s s'.
Proof. unfold ent_st. intros H. apply bind_Ok in H as (? & ? & H). by injection H as <-. Qed.
Lemma descend_frames s t i flags m t' s' : descend s t i flags m = Ok (t', s') → same_frames s s'.
Proof.
  unfold descend. intros H. apply bind_Ok in H as (e & _ & H). destruct (has (get_flags e) PRESENT).
  - destruct (has flags USER); [|by injection H as <- <-]. apply bind_Ok in H as (s1 & E & H). injection H as <- <-.
    by eapply ent_st_frames.
  - apply bind_Ok in H as ([p s1] & E1 & H). apply bind_Ok in H as (s2 & E2 & H). apply bind_Ok in H as (e' & _ & H).
    apply bind_Ok in H as (s3 & E3 & H). injection H as <- <-.
    etrans; [by eapply allocpage_frames|]. etrans; by eapply ent_st_frames.
Qed.
Lemma clear_nxs_frames l : ∀ s s', clear_nxs s l = Ok s' → same_frames s s'.
Proof.
  induction l as [|[t i] l IH]; intros s s' H; [by injection H as <-|]. cbn [clear_nxs] in H.
  apply bind_Ok in H as (s1 & E & H). unfold clear_nx in E. apply bind_Ok in E as (e & _ & E).
  etrans; [by eapply ent_st_frames|by apply IH].
Qed.
Lemma write_leaf_frames s t i phys m fl above s' : write_leaf s t i phys m fl above = Ok s' → same_frames s s'.
Proof.
  unfold write_leaf. intros H. apply bind_Ok in H as (s1 & E1 & H). apply bind_Ok in H as (s2 & E2 & H).
  apply bind_Ok in H as (e & _ & H). etrans; [by eapply ent_st_frames|]. etrans; [|by eapply ent_st_frames].
  destruct (m =? 0); [by eapply clear_nxs_frames|by injection E2 as <-].
Qed.
Lemma map_page_frames s cr3 virt phys flags cache s' : map_page s cr3 virt phys flags cache = Ok s' → same_frames s s'.
Proof.
  unfold map_page. destruct (if has flags s2M then _ else _) as [[ph vi] size]. intros H.
  apply bind_Ok in H as ([pdp s1] & E1 & H). apply descend_frames in E1. etrans; [exact E1|].
  destruct (size =? 2); [by eapply write_leaf_frames|].
  apply bind_Ok in H as ([pd s2] & E2 & H). apply descend_frames in E2. etrans; [exact E2|].
  destruct (size =? 1); [by eapply write_leaf_frames|].
  apply bind_Ok in H as ([pt s3] & E3 & H). apply descend_frames in E3. etrans; [exact E3|by eapply write_leaf_frames].
Qed.

(** A page frame for the tables' owner: the allocator's step keeps the tree. *)
Definition frame_step (s s' : paging) : Prop := tabs s' = tabs s ∧
  wm_cursor (mem s') = wm_cursor (mem s) ∧ wm_free (mem s') = wm_free (mem s) ∧ wm_mutex (mem s') = wm_mutex (mem s).
Lemma frame_tree s s' root e path : frame_step s s' → tree s root e path → tree s' root e path.
Proof.
  intros (Et & Ec & Ef & Em) [T1 T2 T3 T4 [W1 W2 W3] T6]. unfold entry in *. split; unfold entry; rewrite ?Et, ?Ec; try done.
  split; rewrite ?Ec, ?Ef, ?Em; done.
Qed.
Lemma pmm_alloc_frame s size p m : pmm_alloc (mem s) size = Ok (p, m) → frame_step s (mkPaging (tabs s) m).
Proof.
  unfold pmm_alloc, alloc_from. intros H. apply bind_Ok in H as (l & _ & H). apply bind_Ok in H as ([b bm] & _ & H).
  destruct (b =? NPOS); [done|]. injection H as <- <-. done.
Qed.

(** ** Translations *)

Section Area.
Context (root e : Z).
Implicit Types (s : paging) (path : gmap Z (list Z)).

(** No huge pages below the entry [k] of the top-level table. *)
Definition flat s path (k : Z) : Prop := ∀ t q i x, path !! t = Some (k :: q) → (length q < 2)%nat →
  entry s t i = Some x → present x = true → huge x = false.

Lemma flat_keep s path s' path' k : no_new_big s path s' path' → flat s path k → flat s' path' k.
Proof.
  intros Hn Hf t q i y Hq Hl Hy Py. destruct (huge y) eqn:Hh; [|done].
  destruct (Hn t (k :: q) i y) as (x & Hx1 & Hx2 & Hx3 & Hx4); [done|simpl; lia|done..|].
  unfold big in Hx4. by rewrite (Hf t q i x Hx1 Hl Hx2 Hx3), andb_false_r in Hx4.
Qed.

Lemma flat_clear s path w : tree s root e path → flat s path (ADDR_PML4I w) → clear_way s root [] (take 3 (ixs w)).
Proof.
  intros Ht Hf. unfold ixs. cbn [take clear_way]. intros x Hx Px. split; [done|].
  pose proof (tree_next _ _ _ _ Ht root [] _ x (tree_root _ _ _ _ Ht) ltac:(simpl; lia) Hx Px eq_refl) as P1.
  intros y Hy Py. pose proof (Hf _ [] _ y P1 ltac:(simpl; lia) Hy Py) as Hh.
  assert (big ([] ++ [ADDR_PML4I w]) y = false) as B by (unfold big; by rewrite Hh, andb_false_r). split; [done|].
  pose proof (tree_next _ _ _ _ Ht _ _ _ y P1 ltac:(simpl; lia) Hy Py B) as P2.
  intros z Hz Pz. pose proof (Hf _ [_] _ z P2 ltac:(simpl; lia) Hz Pz) as Hh2. split; [|done].
  unfold big. by rewrite Hh2, andb_false_r.
Qed.

Lemma look_total s path ks : ∀ t p i w, tree s root e path → path !! t = Some p → (length p + length ks = 3)%nat →
  Forall (λ j, 0 ≤ j < 512) (ks ++ [i]) → clear_way s t p ks → ∃ v, look s t p (ks ++ [i]) w = Ok v.
Proof.
  induction ks as [|k ks IH]; intros t p i w Ht Hp Hl Hi Hc.
  - cbn [app] in Hi. apply Forall_cons in Hi as [Hi _]. destruct (tree_entry root e s path t p i Ht Hp Hi) as [x Hx].
    cbn [look app]. rewrite (ent_ld_Ok _ _ _ _ Hx). cbn [mbind res_bind]. destruct (negb (present x)); by eexists.
  - cbn [app] in Hi. apply Forall_cons in Hi as [Hk Hi]. destruct (tree_entry root e s path t p k Ht Hp Hk) as [x Hx].
    cbn [look app]. rewrite (ent_ld_Ok _ _ _ _ Hx). cbn [mbind res_bind]. destruct (present x) eqn:Px; [|by eexists].
    destruct (Hc x Hx Px) as [B Hc']. cbn [negb]. rewrite B. cbn [length] in Hl.
    destruct (IH (next_table x) (p ++ [k]) i w Ht) as [v Hv]; [eapply tree_next; try done; lia|rewrite length_app; simpl; lia|done..|].
    exists v. destruct (ks ++ [i]) eqn:E; [by destruct ks|done].
Qed.

Lemma lookup_total s path w : tree s root e path → flat s path (ADDR_PML4I w) → ∃ v, look s root [] (ixs w) w = Ok v.
Proof.
  intros Ht Hf. apply (look_total s path (take 3 (ixs w)) root [] (ADDR_PTI w) w Ht (tree_root _ _ _ _ Ht)); [done|apply (ixs_range w)|].
  by eapply flat_clear.
Qed.

(** Only a missing entry translates to -1. *)
Lemma look_npos s ks : ∀ t p w w', look s t p ks w = Ok NPOS → look s t p ks w' = Ok NPOS.
Proof.
  assert (∀ a, no_nx a ≠ NPOS) as Hn.
  { intros a. unfold no_nx. intros E. pose proof (f_equal (λ z, Z.testbit z 63) E) as E'. cbn beta in E'.
    rewrite Z.land_spec in E'. change (Z.testbit (notN 64 (Z.shiftl 1 63)) 63) with false in E'. by rewrite andb_false_r in E'. }
  induction ks as [|k ks IH]; intros t p w w' H; cbn [look] in H |- *; [done|].
  apply bind_Ok in H as (x & Hx & H). rewrite Hx. cbn [mbind res_bind].
  destruct (negb (present x)); [done|]. destruct ks as [|k' ks].
  - injection H as H. by destruct (Hn _ H).
  - destruct (big p x); [|by eapply IH]. destruct (decide _); [done|]. injection H as H. by destruct (Hn _ H).
Qed.
End Area.

(** The indices of an address depend on its page only. *)
Lemma ixs_page w w' : w / 4096 = w' / 4096 → ixs w = ixs w'.
Proof.
  intros H. unfold ixs, ADDR_PML4I, ADDR_PDPI, ADDR_PDI, ADDR_PTI.
  assert (Z.shiftr w 12 = Z.shiftr w' 12) as E by (rewrite !Z.shiftr_div_pow2 by lia; exact H).
  assert (∀ n, 0 ≤ n → Z.shiftr w (12 + n) = Z.shiftr w' (12 + n)) as En by (intros n Hn; by rewrite <- !Z.shiftr_shiftr, E by lia).
  change 21 with (12 + 9). change 30 with (12 + 18). change 39 with (12 + 27). by rewrite !En, E by lia.
Qed.

(** The state in which pages below the entry [k] of the top-level table can be mapped. *)
Definition space_ok (root e k : Z) (s : paging) : Prop := ∃ path, tree s root e path ∧ flat s path k ∧ pmm_ok (mem s).
Definition lives (root : Z) (s : paging) (w : Z) : Prop := ∃ v, look s root [] (ixs w) w = Ok v ∧ v ≠ NPOS.
Definition keeps_live (root : Z) (s s' : paging) : Prop :=
  ∀ w v, look s root [] (ixs w) w = Ok v → v ≠ NPOS → look s' root [] (ixs w) w = Ok v.
#[global] Instance keeps_live_po root : PreOrder (keeps_live root).
Proof. split; [by intros s w v|]. intros s1 s2 s3 H1 H2 w v Hv Hn. apply H2; [by apply H1|done]. Qed.
Lemma lives_keep root s s' w : keeps_live root s s' → lives root s w → lives root s' w.
Proof. intros Hk (v & Hv & Hn). exists v. split; [by apply Hk|done]. Qed.

(** Mapping a page that is not mapped to a frame. *)
Lemma map_free_page root e k s virt phys flags cache :
  space_ok root e k s → is_u64 virt → ADDR_PML4I virt = k → look s root [] (ixs virt) virt = Ok NPOS → 0 ≤ phys < 2 ^ 62 →
  has flags PRESENT = true → has flags HUGE = false → has flags s2M = false → has flags s1G = false →
  map_page s root virt phys flags cache = oom ∨
  ∃ s', map_page s root virt phys flags cache = Ok s' ∧ space_ok root e k s' ∧ keeps_live root s s' ∧
    ∀ w, w / 4096 = virt / 4096 → look s' root [] (ixs w) w = Ok (page_of 12 phys + w `mod` 4096).
Proof.
  intros (path & Ht & Hf & Hp) Hv Hk Hl Hph F1 F2 F3 F4. subst k.
  destruct (map_4k_Ok s root e path virt phys flags cache Ht Hv F1 F2 F3 F4 ltac:(lia)) as
    [->|(s' & path' & E & T & Hr & Hkp & Hb)]; [by eapply flat_clear|by left|].
  right. exists s'. split; [done|]. destruct (map_page_frames _ _ _ _ _ _ _ E) as [E1 E2]. split; [|split].
  - exists path'. split_and!; [done|by eapply flat_keep|]. destruct Hp as [P1 P2 P3]. split; rewrite ?E1, ?E2; done.
  - intros w v Hw Hn. destruct (decide (ixs w = ixs virt)) as [Ew|Ew]; [|by apply Hkp].
    rewrite Ew in Hw. apply (look_npos s _ _ _ virt w) in Hl. congruence.
  - intros w Hw. apply Hr. by apply ixs_page.
Qed.

(** ** Mapping what is missing *)

(** [pmm_alloc] on the allocator the page tables draw on. *)
Definition new_frame (s : paging) : res (Z * paging) :=
  '(p, m) ← pmm_alloc (Paging.mem s) PMM_PAGESIZE; Ok (p, mkPaging (tabs s) m).
(** A page that does not translate gets a frame of its own. *)
Definition map_missing (cr3 virt flags : Z) (s : paging) : res paging :=
  p ← paging_lookup s cr3 virt;
  if negb (p =? NPOS) then Ok s else
  '(frame, s) ← new_frame s;
  map_page s cr3 virt (PHYSICAL frame) flags WB.

Section Missing.
Context (pml4 e k : Z).

Definition no_frame : res paging := Fatal "PMM failed to allocate".

Lemma new_frame_Ok s : space_ok pml4 e k s →
  new_frame s = Fatal "PMM failed to allocate" ∨
  ∃ p s', new_frame s = Ok (VIRTUAL (4096 * p), s') ∧ 0 ≤ p < 2 ^ 34 ∧ space_ok pml4 e k s' ∧
    ∀ t q ixs w, look s' t q ixs w = look s t q ixs w.
Proof.
  intros (path & Ht & Hf & Hp). unfold new_frame.
  destruct (alloc_from_0 (Paging.mem s) PMM_PAGESIZE Hp) as [(p & m & E & H1 & H2 & _ & _ & _ & Hok & _)|[E _]];
    [unfold PMM_PAGESIZE, P4K; lia| |change (alloc_from 0) with pmm_alloc in E; rewrite E; by left].
  change (alloc_from 0) with pmm_alloc in E. right. rewrite E. cbn [mbind res_bind].
  pose proof (pmm_alloc_frame s _ _ _ E) as Hs. pose proof (ok_addr _ Hp). change (pages PMM_PAGESIZE) with 1 in H2.
  exists p, (mkPaging (tabs s) m). split; [done|]. split; [lia|]. split.
  - exists path. split_and!; [by eapply frame_tree|exact Hf|done].
  - intros t q ks w. revert t q. induction ks as [|i ks IH]; intros t q; [done|]. cbn [look].
    change (ent_ld (mkPaging (tabs s) m) t i) with (ent_ld s t i). destruct (ent_ld s t i); try done. cbn [mbind res_bind].
    destruct (negb _); [done|]. destruct ks; [done|]. destruct (big q a); [done|]. apply IH.
Qed.

Lemma frame_not_npos p w : 0 ≤ p < 2 ^ 34 → page_of 12 (4096 * p) + w `mod` 4096 ≠ NPOS.
Proof.
  intros Hp. rewrite page_of_div by lia.
  assert (4096 * p / 2 ^ 12 * 2 ^ 12 ≤ 4096 * p) by (rewrite Z.mul_comm; apply Z.mul_div_le; lia).
  pose proof (Z.mod_pos_bound w 4096 ltac:(lia)). unfold NPOS. lia.
Qed.
(** All bytes of a page that is there translate. *)
Lemma page_lives s path virt v w : tree s pml4 e path → flat s path (ADDR_PML4I virt) → look s pml4 [] (ixs virt) virt = Ok v →
  v ≠ NPOS → w / 4096 = virt / 4096 → lives pml4 s w.
Proof.
  intros Ht Hf Hv Hn Ew. assert (ixs w = ixs virt) as Ei by (by apply ixs_page).
  destruct (lookup_total pml4 e s path w Ht) as [v' Hv'].
  { assert (ADDR_PML4I w = ADDR_PML4I virt) as -> by (unfold ixs in Ei; by injection Ei). done. }
  exists v'. split; [done|]. intros ->. rewrite Ei in Hv'. apply (look_npos s _ _ _ w virt) in Hv'. congruence.
Qed.

Lemma map_missing_Ok s virt flags : space_ok pml4 e k s → is_u64 virt → ADDR_PML4I virt = k →
  has flags PRESENT = true → has flags HUGE = false → has flags s2M = false → has flags s1G = false →
  map_missing pml4 virt flags s = no_frame ∨ map_missing pml4 virt flags s = oom ∨
  ∃ s', map_missing pml4 virt flags s = Ok s' ∧ space_ok pml4 e k s' ∧ keeps_live pml4 s s' ∧
    ∀ w, w / 4096 = virt / 4096 → lives pml4 s' w.
Proof.
  intros Hs Hu Hk F1 F2 F3 F4. unfold map_missing.
  pose proof Hs as (path & Ht & Hf & _). destruct (lookup_total pml4 e s path virt Ht ltac:(by rewrite Hk)) as [v Hv].
  rewrite lookup_look, Hv by (by eapply look_no_1g). cbn [mbind res_bind].
  destruct (Z.eqb_spec v NPOS) as [->|Hn]; cbn [negb].
  - destruct (new_frame_Ok s Hs) as [->|(p & s1 & -> & Hp & Hs1 & Hl)]; [by left|]. cbn [mbind res_bind]. right.
    rewrite PHYSICAL_VIRTUAL by lia.
    destruct (map_free_page pml4 e k s1 virt (4096 * p) flags WB Hs1 Hu Hk) as [->|(s2 & -> & Hs2 & Hk2 & Hw)];
      [by rewrite Hl|lia|done..|by left|]. right. exists s2. split_and!; [done|done| |].
    + intros w v Hwv. apply Hk2. by rewrite Hl.
    + intros w Ew. eexists. split; [by apply Hw|]. by apply frame_not_npos.
  - right. right. exists s. split_and!; [done|done|by intros w|].
    intros w Ew. eapply (page_lives s path virt); try done. by rewrite Hk.
Qed.
End Missing.

(** The tables of the examples. *)
Lemma boot_space k : space_ok root0 (HHDM + 0x4100000) k boot_tables.
Proof.
  exists {[ root0 := [] ]}. split_and!; [apply boot_tree| |].
  - intros t q i x Hq. apply lookup_singleton_Some in Hq as [_ Hq]. discriminate.
  - exact (Build_pmm_ok boot_mem (ok_wf _ pmm_demo_ok) (ok_addr _ pmm_demo_ok) eq_refl).
Qed.
