(* ===== verification/Sched.v ===== *)
(** The round-robin scheduler ([scheduler/scheduler.cc], [scheduler.hh]): the ring of tasks, the
    timer tick that saves the interrupted context and loads the next one, and the operations that
    add and end tasks.

    The 512-byte SSE save area of a task is an object of its own, named by its allocation number;
    the current processor's number, the address [kmalloc] gives for a stack and the kernel's page
    table are arguments. *)
From S2P Require Import Prelude Async LinkedList.

(** ** Data *)

(** [cpu_state_amd64_t] *)
Record cpu_state := mkCpu {
  cr3 : Z; r15 : Z; r14 : Z; r13 : Z; r12 : Z; r11 : Z; r10 : Z; r9 : Z; r8 : Z; cr2 : Z;
  rbp : Z; rsi : Z; rdi : Z; rdx : Z; rcx : Z; rbx : Z; rax : Z; exc : Z; rflexc : Z; err : Z;
  rip : Z; cs : Z; rfl : Z; rsp : Z; ss : Z }.
Definition cpu_zero : cpu_state := mkCpu 0 0 0 0 0 0 0 0 0 0 0 0 0 0 0 0 0 0 0 0 0 0 0 0 0.
(** The fields the code fills in for a new task; all others start as 0. *)
Definition new_state (cr3 rip cs rfl rsp rdi ss : Z) : cpu_state :=
  mkCpu cr3 0 0 0 0 0 0 0 0 0 rsp 0 rdi 0 0 0 0 0 0 0 rip cs rfl rsp ss.

Inductive TaskType := PROCESS | THREAD.
Record task := mkTask {
  state : cpu_state; ssestate : nat; id : Z; parent : Z; type : TaskType; scheduled_for_deletion : bool }.

Record sched := mkSched {
  sched_tasks : LinkedList task;
  sched_m : MutexSimple;
  sched_running : bool;
  sched_cpus : list (option nat);      (* the link each processor runs *)
  sched_current_pid : Z;
  sse : list (list Z);                 (* the kmalloc'ed save areas *)
  sse_state : list Z;                  (* the SSE image of the interrupted context *)
  stacks : gmap Z Z }.                 (* words written to new stacks *)

Definition with_tasks s l := mkSched l (sched_m s) (sched_running s) (sched_cpus s) (sched_current_pid s) (sse s) (sse_state s) (stacks s).
Definition with_m s v := mkSched (sched_tasks s) v (sched_running s) (sched_cpus s) (sched_current_pid s) (sse s) (sse_state s) (stacks s).
Definition sched_setrunning s b := mkSched (sched_tasks s) (sched_m s) b (sched_cpus s) (sched_current_pid s) (sse s) (sse_state s) (stacks s).
Definition with_pid s v := mkSched (sched_tasks s) (sched_m s) (sched_running s) (sched_cpus s) v (sse s) (sse_state s) (stacks s).
Definition with_sse s v := mkSched (sched_tasks s) (sched_m s) (sched_running s) (sched_cpus s) (sched_current_pid s) v (sse_state s) (stacks s).
Definition with_sse_state s v := mkSched (sched_tasks s) (sched_m s) (sched_running s) (sched_cpus s) (sched_current_pid s) (sse s) v (stacks s).
Definition with_stacks s v := mkSched (sched_tasks s) (sched_m s) (sched_running s) (sched_cpus s) (sched_current_pid s) (sse s) (sse_state s) v.

(** [sched_cpus[cpuid_xapic_id()] = p] *)
Definition set_cpu (s : sched) (cpu : nat) (p : option nat) : res sched :=
  deref (sched_cpus s !! cpu);;
  Ok (mkSched (sched_tasks s) (sched_m s) (sched_running s) (<[cpu := p]> (sched_cpus s))
        (sched_current_pid s) (sse s) (sse_state s) (stacks s)).
(** [sched_cpus[cpuid_xapic_id()]->data]: the link and its task. *)
Definition current (s : sched) (cpu : nat) : res (nat * Link task) :=
  p ← deref (sched_cpus s !! cpu); k ← deref p; x ← ld (sched_tasks s) p; Ok (k, x).
(** [p->data = t] *)
Definition set_task (s : sched) (k : nat) (t : task) : res sched :=
  l ← st (sched_tasks s) (Some k) (set_data t); Ok (with_tasks s l).
(** [(u8* )kmalloc(512)]: a new save area, whose contents do not matter before the first write. *)
Definition new_sse (s : sched) : nat * sched := (length (sse s), with_sse s (sse s ++ [replicate 512 0])).
(** [memcpy(area, sse_state, 512)] *)
Definition save_sse (s : sched) (a : nat) : res sched :=
  deref (sse s !! a);; Ok (with_sse s (<[a := sse_state s]> (sse s))).

(** ** The tick *)

(** [sched_tick(state, force, eoi)]: the result is the context that is loaded, or none when the
    interrupted one continues. *)
Definition sched_tick (s : sched) (cpu : nat) (frame : cpu_state) (force : bool) : res (sched * option cpu_state) :=
  if negb (sched_running s) && negb force then Ok (s, None) else
  v ← lock (sched_m s);
  let s := with_m s v in
  '(k, ctask) ← current s cpu;
  let t := data ctask in
  s ← (if scheduled_for_deletion t then
         let next := next ctask in
         l ← remove (sched_tasks s) (Some k);
         set_cpu (with_tasks s l) cpu next
       else
         s ← set_task s k (mkTask frame (ssestate t) (id t) (parent t) (type t) (scheduled_for_deletion t));
         s ← save_sse s (ssestate t);
         set_cpu s cpu (next ctask));
  '(_, n) ← current s cpu;
  area ← deref (sse s !! ssestate (data n));
  let s := with_sse_state s area in
  let s := with_m s (unlock (sched_m s)) in
  '(_, n) ← current s cpu;
  Ok (s, Some (state (data n))).

(** ** Starting, adding and ending tasks *)

Definition sched_start (s : sched) (cpu : nat) (frame : cpu_state) : res (sched * option cpu_state) :=
  assert_ (LinkedList.size (sched_tasks s) =? 0) "!sched_tasks.size";;
  v ← lock (sched_m s);
  let s := sched_setrunning (with_m s v) false in
  let '(a, s) := new_sse s in
  l ← push_front (sched_tasks s)
        (mkTask (new_state 0 0 0x08 0 0 0 0x10) a (sched_current_pid s) 0 PROCESS false);
  let s := with_pid (with_tasks s l) (u32 (sched_current_pid s + 1)) in
  s ← set_cpu s cpu (first (sched_tasks s));
  let s := with_m s (unlock (sched_m s)) in
  (* int $0x41 *)
  '(s, c) ← sched_tick s cpu frame true;
  Ok (sched_setrunning s true, c).

(** The body of [sched_exit_thread] in front of [pause()]. *)
Definition exit_mark (s : sched) (cpu : nat) : res sched :=
  v ← lock (sched_m s);
  let s := sched_setrunning (with_m s v) false in
  '(k, x) ← current s cpu;
  let t := data x in
  s ← set_task s k (mkTask (state t) (ssestate t) (id t) (parent t) (type t) true);
  Ok (sched_setrunning (with_m s (unlock (sched_m s))) true).

(** [pause()] is [while (1) { cli; hlt }]: the processor stops and takes no further interrupt.  Only a timer interrupt that
    arrives between the last store and the [cli], with the frame [tick], gets in before. *)
Definition sched_exit_thread (s : sched) (cpu : nat) (tick : option cpu_state) : res (sched * option cpu_state) :=
  s ← exit_mark s cpu;
  match tick with Some frame => sched_tick s cpu frame false | None => Hang end.

(** The part the two ways of adding a task share: the guards, the save area and the push. *)
Definition add_task (s : sched) (st : cpu_state) (ty : TaskType) : res sched :=
  v ← lock (sched_m s);
  let s := sched_setrunning (with_m s v) false in
  let '(a, s) := new_sse s in
  let t := mkTask st a (sched_current_pid s) 0 ty false in
  let s := with_pid s (u32 (sched_current_pid s + 1)) in
  s ← save_sse s a;
  l ← push_back (sched_tasks s) t;
  let s := with_tasks s l in
  Ok (sched_setrunning (with_m s (unlock (sched_m s))) true).

Definition sched_add_user_process (s : sched) (cr3 stackptr entry : Z) : res sched :=
  assert_ (sched_running s) "sched_running";;
  add_task s (new_state cr3 entry (Z.lor 0x20 3) 0x202 stackptr 0 (Z.lor 0x18 3)) PROCESS.

(** [fun] is the address of the closure, [code] of its call operator; [exit] is the address of
    [sched_exit_thread], which is left on the new stack as the return address. *)
Definition sched_add_thread (s : sched) (code fun_ stack kcr3 exit : Z) : res sched :=
  let top := u64 (stack + 0x8000) in
  let rsp := u64 (top - 8) in
  let st := mkCpu kcr3 0 0 0 0 0 0 0 0 0 top 0 fun_ 0 0 0 0 0 0 0 code 0x08 0x202 rsp 0x10 in
  add_task (with_stacks s (<[rsp := exit]> (stacks s))) st THREAD.

(** ** The queue the ring stands for *)

Section Ring.
Context {X : Type}.
Implicit Types ns : list X.

Definition rot (i : nat) ns : list X := drop i ns ++ take i ns.

Lemma rot_head i ns x : ns !! i = Some x → rot i ns = x :: (drop (S i) ns ++ take i ns).
Proof. intros Hi. unfold rot. by rewrite (drop_S _ _ _ Hi). Qed.

Lemma rot_step i ns x y : ns !! i = Some x →
  rot (succ_ix (length ns) i) (<[i := y]> ns) = (drop (S i) ns ++ take i ns) ++ [y].
Proof.
  intros Hi. pose proof (lookup_lt_Some _ _ _ Hi) as Hlt.
  assert (take (S i) (<[i := y]> ns) = take i ns ++ [y]) as Ht.
  { erewrite take_S_r by (by apply list_lookup_insert_eq). by rewrite take_insert_ge by lia. }
  unfold rot, succ_ix. case_decide as Hd.
  - rewrite drop_0, take_0, app_nil_r. rewrite (drop_ge ns) by lia. simpl. rewrite <- Ht.
    by rewrite take_ge by (rewrite length_insert; lia).
  - rewrite Ht, drop_insert_lt by lia. by rewrite app_assoc.
Qed.
End Ring.

(** The context a task will be resumed with. *)
Abbreviation context := (cpu_state * list Z)%type.
Definition saved (s : sched) (x : nat * task) (c : context) : Prop :=
  state x.2 = c.1 ∧ sse s !! ssestate x.2 = Some c.2.

(** Processor [cpu] runs the first task of the queue; no task is about to end. *)
Definition runs (s : sched) (cpu : nat) (q : list context) : Prop :=
  ∃ ns fl i x, circ (sched_tasks s) ns fl ∧ ns !! i = Some x ∧
    sched_cpus s !! cpu = Some (Some x.1) ∧
    Forall2 (saved s) (rot i ns) q ∧
    Forall (λ y, scheduled_for_deletion y.2 = false) ns ∧
    NoDup ((λ y, ssestate y.2) <$> ns) ∧
    sched_m s = 0.

Lemma current_Ok s cpu ns fl i x : circ (sched_tasks s) ns fl → ns !! i = Some x →
  sched_cpus s !! cpu = Some (Some x.1) →
  ∃ p y b, current s cpu = Ok (x.1, mkLink p (Some y.1) x.2 b) ∧ ns !! succ_ix (length ns) i = Some y.
Proof.
  intros Hc Hi Hcpu. destruct (circ_next _ _ _ _ _ Hc Hi) as (p & y & b & Hx & Hy). exists p, y, b. split; [|done].
  unfold current. rewrite Hcpu. cbn [deref mbind res_bind]. by rewrite (ll_ld_Ok _ _ _ Hx).
Qed.

Lemma set_task_Ok s ns fl i k t t' : circ (sched_tasks s) ns fl → ns !! i = Some (k, t) →
  ∃ l, set_task s k t' = Ok (with_tasks s l) ∧ circ l (<[i := (k, t')]> ns) fl.
Proof.
  intros Hc Hi. destruct (circ_set _ _ _ _ _ _ t' Hc Hi) as (l & E & Hc'). exists l.
  unfold set_task. by rewrite E.
Qed.

#[local] Arguments current : simpl never.
#[local] Arguments set_task : simpl never.
#[local] Arguments save_sse : simpl never.
#[local] Arguments set_cpu : simpl never.

Lemma succ_ix_lt n i : (i < n)%nat → (succ_ix n i < n)%nat.
Proof. unfold succ_ix. case_decide; lia. Qed.

Lemma rot_perm {X} i (ns : list X) : rot i ns ≡ₚ ns.
Proof. unfold rot. rewrite Permutation_app_comm. by rewrite take_drop. Qed.

(** The other tasks' areas are not the one that is written. *)
Lemma saved_others s s' a img (r : list (nat * task)) q :
  sse s' = <[a := img]> (sse s) → a ∉ ((λ y, ssestate y.2) <$> r) →
  Forall2 (saved s) r q → Forall2 (saved s') r q.
Proof.
  intros E Ha Hq. induction Hq as [|x c r q [H1 H2] Hq IH]; [done|].
  rewrite fmap_cons, not_elem_of_cons in Ha. destruct Ha as [Hx Ha].
  constructor; [|by apply IH]. split; [done|]. by rewrite E, list_lookup_insert_ne.
Qed.

(** The state after the context [(frame, img)] is saved for the task [t] and the next one chosen. *)
Lemma saved_runs s s' cpu ns fl i k t y frame img c q :
  circ (sched_tasks s') (<[i := (k, mkTask frame (ssestate t) (id t) (parent t) (type t) false)]> ns) fl →
  ns !! i = Some (k, t) → ns !! succ_ix (length ns) i = Some y →
  sched_cpus s' !! cpu = Some (Some y.1) → sse s' = <[ssestate t := img]> (sse s) →
  Forall2 (saved s) (rot i ns) (c :: q) → Forall (λ y, scheduled_for_deletion y.2 = false) ns →
  NoDup ((λ y, ssestate y.2) <$> ns) → sched_m s' = 0 → runs s' cpu (q ++ [(frame, img)]).
Proof.
  intros Hc Hi Hy Hcpu Hsse Hq Hl Hd Hm. set (t' := mkTask _ _ _ _ _ _) in *.
  assert (∃ z, <[i := (k, t')]> ns !! succ_ix (length ns) i = Some z ∧ z.1 = y.1) as (z & Hz & Ez).
  { destruct (decide (succ_ix (length ns) i = i)) as [Ej|Ej].
    - rewrite Ej in Hy |- *. rewrite list_lookup_insert_eq by (by eapply lookup_lt_Some).
      eexists. split; [done|]. rewrite Hi in Hy. by injection Hy as <-.
    - rewrite list_lookup_insert_ne by done. by exists y. }
  pose proof (rot_perm i ns) as Hp. rewrite (rot_head _ _ _ Hi) in Hq, Hp.
  apply Forall2_cons in Hq as [[_ Hold] Hq]. simpl in Hold.
  exists (<[i := (k, t')]> ns), fl, (succ_ix (length ns) i), z. split_and!; try done.
  - by rewrite Ez.
  - rewrite (rot_step _ _ _ _ Hi). apply Forall2_app.
    + eapply saved_others; [exact Hsse| |exact Hq]. rewrite <- Hp in Hd. rewrite fmap_cons in Hd. by apply NoDup_cons in Hd as [? _].
    + apply Forall2_cons. split; [|done]. split; [done|]. simpl. rewrite Hsse.
      apply list_lookup_insert_eq. by eapply lookup_lt_Some.
  - by apply Forall_insert.
  - rewrite list_fmap_insert. rewrite list_insert_id; [done|]. by rewrite list_lookup_fmap, Hi.
Qed.

(** One tick: the interrupted context goes to the end of the queue, the new head is loaded. *)
Lemma tick_Ok s cpu c q frame img force : runs s cpu (c :: q) → sched_running s || force = true →
  ∃ s' c', sched_tick (with_sse_state s img) cpu frame force = Ok (s', Some c'.1) ∧
    runs s' cpu (q ++ [(frame, img)]) ∧ hd_error (q ++ [(frame, img)]) = Some c' ∧ sse_state s' = c'.2 ∧
    sched_running s' = sched_running s.
Proof.
  intros (ns & fl & i & [k t] & Hc & Hi & Hcpu & Hq & Hl & Hd & Hm) Hrun.
  unfold sched_tick. replace (negb (sched_running (with_sse_state s img)) && negb force) with false
    by (simpl; by destruct (sched_running s), force).
  simpl sched_m. rewrite Hm. cbn [lock Z.eqb mbind res_bind].
  destruct (current_Ok (with_m (with_sse_state s img) 1) cpu ns fl i (k, t) Hc Hi Hcpu) as (p & y & b & E & Hy).
  rewrite E. cbn [mbind res_bind fst snd data next].
  assert (scheduled_for_deletion t = false) as Hsd by (apply (Forall_lookup_1 _ _ _ _ Hl Hi)). rewrite Hsd.
  set (t' := mkTask frame (ssestate t) (id t) (parent t) (type t) false).
  destruct (set_task_Ok (with_m (with_sse_state s img) 1) ns fl i k t t' Hc Hi) as (l & E2 & Hc2). rewrite E2.
  cbn [mbind res_bind].
  assert (is_Some (sse s !! ssestate t)) as [old Hold].
  { rewrite (rot_head _ _ _ Hi) in Hq. apply Forall2_cons in Hq as [[_ H] _]. by eexists. }
  unfold save_sse. simpl sse. rewrite Hold. cbn [deref mbind res_bind]. unfold set_cpu. simpl sched_cpus. rewrite Hcpu.
  cbn [deref mbind res_bind].
  match goal with |- context [current ?x cpu] => set (s3 := x) end.
  assert (runs (with_m s3 0) cpu (q ++ [(frame, img)])) as Hr.
  { eapply (saved_runs s (with_m s3 0) cpu ns fl i k t y); try done.
    simpl. apply list_lookup_insert_eq. by eapply lookup_lt_Some. }
  pose proof Hr as (ns' & fl' & i' & z & Hc3 & Hi3 & Hcpu3 & Hq3 & _ & _ & _).
  destruct (current_Ok s3 cpu ns' fl' i' z Hc3 Hi3 Hcpu3) as (p3 & y3 & b3 & E3 & _). rewrite E3.
  cbn [mbind res_bind data]. rewrite (rot_head _ _ _ Hi3) in Hq3.
  destruct (q ++ [(frame, img)]) as [|c' q'] eqn:Eq; [by apply app_nil in Eq as [_ ?]|].
  apply Forall2_cons in Hq3 as [[Hz1 Hz2] _]. change (sse (with_m s3 0)) with (sse s3) in Hz2. rewrite Hz2.
  cbn [deref mbind res_bind].
  match goal with |- context [current ?x cpu] => set (s4 := x) end.
  destruct (current_Ok s4 cpu ns' fl' i' z Hc3 Hi3 Hcpu3) as (p4 & y4 & b4 & E4 & _). rewrite E4. cbn [mbind res_bind data].
  exists s4, c'. rewrite Hz1. split_and!; try done.
Qed.

(** Timer interrupts: each arrives with a context and leaves with the one that is loaded. *)
Fixpoint ticks (s : sched) (cpu : nat) (ins : list context) : res (sched * list context) :=
  match ins with
  | [] => Ok (s, [])
  | (frame, img) :: ins =>
      '(s, o) ← sched_tick (with_sse_state s img) cpu frame false;
      st ← deref o;
      let out := (st, sse_state s) in
      '(s, outs) ← ticks s cpu ins;
      Ok (s, out :: outs)
  end.

(** Round robin: while no task ends, every timer tick returns; with [q] the other tasks' contexts in ring
    order, the contexts loaded by the ticks are first those of [q] and then, each exactly one round of
    the ring after it was saved, the contexts the ticks themselves interrupted. *)
Lemma ticks_Ok cpu ins : ∀ s c q, runs s cpu (c :: q) → sched_running s = true →
  ∃ s', ticks s cpu ins = Ok (s', take (length ins) (q ++ ins)) ∧ sched_running s' = true ∧
    runs s' cpu (drop (length ins) (c :: q ++ ins)).
Proof.
  induction ins as [|[frame img] ins IH]; intros s c q Hr Hrun.
  { exists s. rewrite app_nil_r. done. }
  destruct (tick_Ok s cpu c q frame img false Hr) as (s1 & c1 & E & Hr1 & Hh & Hs1 & Hrun1); [by rewrite Hrun|].
  cbn [ticks]. rewrite E. cbn [mbind res_bind deref]. rewrite Hs1.
  destruct (q ++ [(frame, img)]) as [|c' q'] eqn:Eq; [done|]. injection Hh as ->.
  destruct (IH s1 c1 q' Hr1) as (s2 & E2 & Hrun2 & Hr2); [by rewrite Hrun1|].
  assert (q ++ (frame, img) :: ins = c1 :: q' ++ ins) as Eq2.
  { transitivity ((q ++ [(frame, img)]) ++ ins); [by rewrite <- app_assoc|by rewrite Eq]. }
  rewrite E2. cbn [mbind res_bind]. exists s2. rewrite Eq2. split_and!; [|done|done].
  cbn [length take]. by destruct c1.
Qed.

(** ** Ending a task *)

Lemma rot_remove {X} i (ns : list X) x y : ns !! i = Some x → ns !! succ_ix (length ns) i = Some y →
  (1 < length ns)%nat →
  ∃ j, (take i ns ++ drop (S i) ns) !! j = Some y ∧
    rot j (take i ns ++ drop (S i) ns) = drop (S i) ns ++ take i ns.
Proof.
  intros Hi Hy Hl. pose proof (lookup_lt_Some _ _ _ Hi) as Hlt. unfold succ_ix in Hy. case_decide as Hd.
  - exists 0%nat. rewrite (drop_ge ns) by lia. rewrite app_nil_r. unfold rot. rewrite take_0, drop_0, app_nil_r.
    rewrite lookup_take_lt by lia. done.
  - exists i. assert (length (take i ns) = i) as Ht by (rewrite length_take; lia). split.
    + rewrite lookup_app_r by lia. rewrite Ht, Nat.sub_diag, lookup_drop. by rewrite Nat.add_0_r.
    + unfold rot. by rewrite drop_app_length', take_app_length' by lia.
Qed.

#[local] Arguments remove : simpl never.

(** [exit_mark] marks the running task and nothing else. *)
Lemma exit_Ok s cpu ns fl i k t : circ (sched_tasks s) ns fl → ns !! i = Some (k, t) →
  sched_cpus s !! cpu = Some (Some k) → sched_m s = 0 →
  ∃ l, exit_mark s cpu = Ok (sched_setrunning (with_m (with_tasks s l) 0) true) ∧
    circ l (<[i := (k, mkTask (state t) (ssestate t) (id t) (parent t) (type t) true)]> ns) fl.
Proof.
  intros Hc Hi Hcpu Hm. unfold exit_mark. rewrite Hm. cbn [lock Z.eqb mbind res_bind].
  destruct (current_Ok (sched_setrunning (with_m s 1) false) cpu ns fl i (k, t) Hc Hi Hcpu) as (p & y & b & E & _).
  rewrite E. cbn [mbind res_bind fst snd data].
  set (t' := mkTask _ _ _ _ _ true).
  destruct (set_task_Ok (sched_setrunning (with_m s 1) false) ns fl i k t t' Hc Hi) as (l & E2 & Hc2).
  rewrite E2. cbn [mbind res_bind]. exists l. split; [done|]. exact Hc2.
Qed.

(** The tick that finds the running task marked unlinks it and loads its successor. *)
Lemma tick_exit s cpu ns fl i k t frame : circ (sched_tasks s) ns fl → ns !! i = Some (k, t) →
  sched_cpus s !! cpu = Some (Some k) → sched_m s = 0 → sched_running s = true →
  scheduled_for_deletion t = true → (1 < length ns)%nat →
  (∀ j x, ns !! j = Some x → is_Some (sse s !! ssestate x.2)) →
  ∃ s' y j img, sched_tick s cpu frame false = Ok (s', Some (state y.2)) ∧
    sse s !! ssestate y.2 = Some img ∧ sse_state s' = img ∧ sse s' = sse s ∧
    circ (sched_tasks s') (take i ns ++ drop (S i) ns) (cut_flag (take i ns) (drop (S i) ns) fl) ∧
    (take i ns ++ drop (S i) ns) !! j = Some y ∧
    rot j (take i ns ++ drop (S i) ns) = drop (S i) ns ++ take i ns ∧
    sched_cpus s' !! cpu = Some (Some y.1) ∧ sched_m s' = 0 ∧ sched_running s' = true.
Proof.
  intros Hc Hi Hcpu Hm Hrun Hsd Hlen Hsse. unfold sched_tick. rewrite Hrun, Hm. cbn [negb andb lock Z.eqb mbind res_bind].
  destruct (current_Ok (with_m s 1) cpu ns fl i (k, t) Hc Hi Hcpu) as (p & y & b & E & Hy).
  rewrite E. cbn [mbind res_bind fst snd data next]. rewrite Hsd.
  pose proof Hc as Hc'. rewrite <- (take_drop_middle _ _ _ Hi) in Hc'.
  destruct (remove_Ok _ _ _ _ _ Hc') as (l & E2 & Hc2). simpl in E2. simpl sched_tasks. rewrite E2. cbn [mbind res_bind].
  unfold set_cpu. simpl sched_cpus. rewrite Hcpu. cbn [deref mbind res_bind].
  destruct (rot_remove i ns (k, t) y Hi Hy Hlen) as (j & Hj & Hrot).
  assert (<[cpu := Some y.1]> (sched_cpus s) !! cpu = Some (Some y.1)) as Hcpu2
    by (apply list_lookup_insert_eq; by eapply lookup_lt_Some).
  match goal with |- context [current ?x cpu] => set (s3 := x) end.
  destruct (current_Ok s3 cpu _ _ j y Hc2 Hj Hcpu2) as (p3 & y3 & b3 & E3 & _). rewrite E3. cbn [mbind res_bind data].
  destruct (Hsse _ _ Hy) as [img Himg]. simpl sse. rewrite Himg. cbn [deref mbind res_bind].
  match goal with |- context [current ?x cpu] => set (s4 := x) end.
  destruct (current_Ok s4 cpu _ _ j y Hc2 Hj Hcpu2) as (p4 & y4 & b4 & E4 & _). rewrite E4. cbn [mbind res_bind data].
  exists s4, y, j, img. split_and!; done.
Qed.

(** C25: a task that is not the only one and ends by [sched_exit_thread] is unlinked only when a timer tick arrives before
    [pause()] disables interrupts: that tick loads the context of the next task in the ring and leaves the other tasks
    queued in their order, with the ended one gone.  Without such a tick the processor halts for good, and the ended task
    stays in the ring. *)
Theorem exit_removes s cpu c c1 q : runs s cpu (c :: c1 :: q) →
  sched_exit_thread s cpu None = Hang ∧
  ∀ frame, ∃ s2, sched_exit_thread s cpu (Some frame) = Ok (s2, Some c1.1) ∧ sse_state s2 = c1.2 ∧ runs s2 cpu (c1 :: q).
Proof.
  intros (ns & fl & i & [k t] & Hc & Hi & Hcpu & Hq & Hl & Hd & Hm).
  destruct (exit_Ok s cpu ns fl i k t Hc Hi Hcpu Hm) as (l & E1 & Hc1). unfold sched_exit_thread. rewrite E1. cbn [mbind res_bind]. split; [done|].
  intros frame. set (t' := mkTask _ _ _ _ _ true) in *. set (ns1 := <[i := (k, t')]> ns) in *.
  pose proof (Forall2_length _ _ _ Hq) as Hlen. unfold rot in Hlen. rewrite length_app, length_drop, length_take in Hlen. simpl in Hlen.
  pose proof (lookup_lt_Some _ _ _ Hi) as Hlt.
  assert (ns1 !! i = Some (k, t')) as Hi1 by (by apply list_lookup_insert_eq).
  assert (take i ns1 = take i ns ∧ drop (S i) ns1 = drop (S i) ns) as [Et Ed]
    by (split; [by apply take_insert_ge|by apply drop_insert_lt; lia]).
  assert (∀ j x, ns !! j = Some x → is_Some (sse s !! ssestate x.2)) as Hss.
  { intros j x Hx. assert (x ∈ rot i ns) as Hin by (rewrite rot_perm; by eapply list_elem_of_lookup_2).
    apply list_elem_of_lookup in Hin as [j' Hj']. destruct (Forall2_lookup_l _ _ _ _ _ Hq Hj') as (? & _ & _ & H). by eexists. }
  destruct (tick_exit (sched_setrunning (with_m (with_tasks s l) 0) true) cpu ns1 fl i k t' frame Hc1 Hi1 Hcpu)
    as (s2 & y & j & img & E2 & Himg & Hst & Hsse2 & Hc2 & Hj & Hrot & Hcpu2 & Hm2 & _); try done.
  { unfold ns1. rewrite length_insert. lia. }
  { intros j x Hx. simpl. destruct (decide (i = j)) as [<-|Hne].
    - rewrite Hi1 in Hx. injection Hx as <-. by apply (Hss i (k, t)).
    - unfold ns1 in Hx. rewrite list_lookup_insert_ne in Hx by done. by eapply Hss. }
  rewrite Et, Ed in Hc2, Hj, Hrot. rewrite (rot_head _ _ _ Hi) in Hq. apply Forall2_cons in Hq as [_ Hq].
  rewrite <- Hrot, (rot_head _ _ _ Hj) in Hq. apply Forall2_cons in Hq as [Hy Hq]. pose proof Hy as [Hy1 Hy2].
  simpl in Himg, Hsse2. rewrite Himg in Hy2. injection Hy2 as Hy2.
  exists s2. split_and!; [by rewrite E2, Hy1|by rewrite Hst|].
  eexists _, _, j, y. split_and!; [exact Hc2|exact Hj|done| | | |done].
  - rewrite (rot_head _ _ _ Hj). unfold saved in *. rewrite Hsse2. constructor; done.
  - apply Forall_app. split; [by apply Forall_take|by apply Forall_drop].
  - rewrite <- (take_drop_middle _ _ _ Hi), fmap_app, fmap_cons in Hd. rewrite fmap_app.
    apply NoDup_app in Hd as (D1 & D2 & D3). apply NoDup_cons in D3 as [_ D3]. apply NoDup_app.
    split_and!; [done| |done]. intros a Ha Hb. apply (D2 a Ha). by right.
Qed.

(** When the running task is the one added last, its end leaves the ring without a link that
    is marked as last: after the tick that removes it, adding any task stops in the assertion of
    [push_back]. *)
Lemma newest_exit_breaks s cpu ns k t frame : circ (sched_tasks s) (ns ++ [(k, t)]) true → ns ≠ [] →
  sched_cpus s !! cpu = Some (Some k) → sched_m s = 0 →
  Forall (λ x, is_Some (sse s !! ssestate x.2)) (ns ++ [(k, t)]) →
  ∃ s2 c, sched_exit_thread s cpu (Some frame) = Ok (s2, Some c) ∧
    (∀ st ty, add_task s2 st ty = Fatal "first->prev->last").
Proof.
  intros Hc Hne Hcpu Hm Hss. set (i := length ns).
  assert ((ns ++ [(k, t)]) !! i = Some (k, t)) as Hi by (unfold i; by rewrite list_lookup_middle).
  destruct (exit_Ok s cpu _ true i k t Hc Hi Hcpu Hm) as (l & E1 & Hc1).
  set (t' := mkTask _ _ _ _ _ true) in *.
  assert (<[i := (k, t')]> (ns ++ [(k, t)]) = ns ++ [(k, t')]) as Eq
    by (unfold i; rewrite insert_app_r_alt, Nat.sub_diag by lia; done).
  rewrite Eq in Hc1.
  assert ((ns ++ [(k, t')]) !! i = Some (k, t')) as Hi1 by (unfold i; by rewrite list_lookup_middle).
  destruct (tick_exit (sched_setrunning (with_m (with_tasks s l) 0) true) cpu (ns ++ [(k, t')]) true i k t' frame Hc1 Hi1 Hcpu)
    as (s2 & y & j & img & E2 & _ & _ & _ & Hc2 & _ & _ & _ & Hm2 & _); try done.
  { rewrite length_app. destruct ns; [done|]. simpl. lia. }
  { intros j x Hx. simpl. apply Forall_app in Hss as [Hs1 Hs2]. apply Forall_cons in Hs2 as [Hs2 _]. simpl in Hs2.
    apply lookup_app_Some in Hx as [Hx|[_ Hx]]; [by apply (Forall_lookup_1 _ _ _ _ Hs1 Hx)|].
    apply list_lookup_singleton_Some in Hx as [_ <-]. exact Hs2. }
  eexists s2, _. split; [unfold sched_exit_thread; rewrite E1; exact E2|].
  intros st ty. unfold add_task. rewrite Hm2. cbn [lock Z.eqb mbind res_bind new_sse].
  assert (take i (ns ++ [(k, t')]) = ns ∧ drop (S i) (ns ++ [(k, t')]) = []) as [Et Ed].
  { unfold i. rewrite take_app_length. split; [done|]. apply drop_ge. rewrite length_app. simpl. lia. }
  rewrite Et, Ed, app_nil_r in Hc2. assert (cut_flag ns [] true = false) as Hfl by (by destruct ns). rewrite Hfl in Hc2.
  unfold save_sse. simpl. rewrite list_lookup_middle by done. cbn [deref mbind res_bind]. simpl.
  by rewrite (push_back_unflagged _ _ _ Hc2 Hne).
Qed.

(** Two tasks in the ring, the first one running on processor 0. *)
Definition demo_task (n : Z) (a : nat) : task := mkTask (new_state 0 n 8 0x202 0 0 0x10) a n 0 PROCESS false.
Definition demo_list : LinkedList task :=
  mkList [Some (mkLink (Some 1%nat) (Some 1%nat) (demo_task 1 0) false);
          Some (mkLink (Some 0%nat) (Some 0%nat) (demo_task 2 1) true)] (Some 0%nat) 2 0.
Definition demo_sched (cur : nat) : sched := mkSched demo_list 0 true [Some cur] 3 [[10]; [20]] [] ∅.

Lemma demo_circ : circ demo_list [(0%nat, demo_task 1 0); (1%nat, demo_task 2 1)] true.
Proof. split; simpl; try done. repeat constructor; set_solver. Qed.

Definition demo_ctx (n : Z) (img : list Z) : context := (new_state 0 n 8 0x202 0 0 0x10, img).
Lemma demo_runs : runs (demo_sched 0) 0 [demo_ctx 1 [10]; demo_ctx 2 [20]].
Proof.
  exists [(0%nat, demo_task 1 0); (1%nat, demo_task 2 1)], true, 0%nat, (0%nat, demo_task 1 0).
  split_and!; [exact demo_circ|done|done|repeat constructor|repeat constructor|repeat constructor; set_solver|done].
Qed.

Lemma demo_ticks : ∃ s', ticks (demo_sched 0) 0 [demo_ctx 7 [70]; demo_ctx 8 [80]; demo_ctx 9 [90]] =
  Ok (s', [demo_ctx 2 [20]; demo_ctx 7 [70]; demo_ctx 8 [80]]).
Proof.
  destruct (ticks_Ok 0 [demo_ctx 7 [70]; demo_ctx 8 [80]; demo_ctx 9 [90]] (demo_sched 0) (demo_ctx 1 [10])
    [demo_ctx 2 [20]] demo_runs eq_refl) as (s' & E & _).
  exists s'. exact E.
Defined.

Lemma exit_removes_witness : sched_exit_thread (demo_sched 0) 0 None = Hang ∧
  ∃ s2, sched_exit_thread (demo_sched 0) 0 (Some cpu_zero) = Ok (s2, Some (demo_ctx 2 [20]).1).
Proof.
  destruct (exit_removes (demo_sched 0) 0 (demo_ctx 1 [10]) (demo_ctx 2 [20]) [] demo_runs) as [E1 E2].
  split; [exact E1|]. destruct (E2 cpu_zero) as (s2 & E & _). exists s2. exact E.
Defined.

Lemma newest_exit_breaks_witness : ∃ s2 c, sched_exit_thread (demo_sched 1) 0 (Some cpu_zero) = Ok (s2, Some c) ∧ add_task s2 cpu_zero THREAD = Fatal "first->prev->last".
Proof.
  destruct (newest_exit_breaks (demo_sched 1) 0 [(0%nat, demo_task 1 0)] 1 (demo_task 2 1) cpu_zero demo_circ
    ltac:(done) eq_refl eq_refl ltac:(repeat constructor; by eexists)) as (s2 & c & E & H).
  exists s2, c. split; [exact E|apply H].
Defined.

(** The only task of the ring cannot end: the tick goes on with the deleted link. *)
Example last_task_exit_faults :
  (s ← sched_start (mkSched empty 0 false [None] 0 [] [] ∅) 0 cpu_zero;
   sched_exit_thread s.1 0 (Some cpu_zero)) = Fault.
Proof. by vm_compute. Qed.
