(* ===== verification/Input.v ===== *)
(** Keyboard input: the line buffer and key state of [devmgr/input/input.cc] and the PS/2 driver
    ([modules/ps2/src/ps2.cc]) that feeds it scan codes.

    What is done with a finished line (the command line) and the i8042 controller behind the
    ports are arguments. *)
From S2P Require Import Prelude Arith Bitmap.

(** ** Scan codes *)

(** The named values of [ScanCode] the code compares with, and [NUM_SCANCODES]. *)
Definition N0 : Z := 48.
Definition Apostrophe : Z := 39.
Definition Comma : Z := 44.
Definition Minus : Z := 45.
Definition Period : Z := 46.
Definition Slash : Z := 47.
Definition Semicolon : Z := 59.
Definition Equal : Z := 61.
Definition LeftBracket : Z := 91.
Definition Backslash : Z := 92.
Definition RightBracket : Z := 93.
Definition Grave : Z := 96.
Definition Tilde : Z := 126.
(** After [Tilde] come 12 function keys, 6 editing keys, 4 arrows, 3 locks, 9 modifiers, [Menu]
    included, [PrintScreen] and [Pause], and 16 keypad keys. *)
Definition NUM_SCANCODES : Z := Tilde + 1 + 12 + 6 + 4 + 3 + 9 + 2 + 16.

Definition kbd_translate_hu (c : Z) : Z :=
  if c =? RightBracket then 0x151 else if c =? LeftBracket then 0xfa
  else if c =? Semicolon then 0xe9 else if c =? Apostrophe then 0xe1 else if c =? Backslash then 0x171
  else if c =? Comma then 44 else if c =? Period then 46 else if c =? Slash then 45
  else if c =? Grave then 48 else if c =? N0 then 0xf6 else if c =? Minus then 0xfc
  else if c =? Equal then 0xf3 else c.
Definition kbd_translate_en (c : Z) : Z := c.

(** ** The line buffer *)

Definition INPUT_BUFFER_MAX_SIZE : Z := 4096.

Record input := mkInput {
  input_buffer : list Z;
  input_buffer_size : Z;
  kbd_state : Bitmap;
  kbd_lastpressed_key : Z;
  kbd_lastpressed_time : Z;
  echo : list Z }.                       (* the characters printed *)

Definition put (s : input) (i c : Z) : res input :=
  deref (zlookup (input_buffer s) i);;
  Ok (mkInput (zinsert (input_buffer s) i c) (input_buffer_size s) (kbd_state s)
        (kbd_lastpressed_key s) (kbd_lastpressed_time s) (echo s)).
Definition with_size (s : input) (n : Z) : input :=
  mkInput (input_buffer s) n (kbd_state s) (kbd_lastpressed_key s) (kbd_lastpressed_time s) (echo s).
Definition with_echo (s : input) (c : Z) : input :=
  mkInput (input_buffer s) (input_buffer_size s) (kbd_state s) (kbd_lastpressed_key s) (kbd_lastpressed_time s) (echo s ++ [c]).
Definition with_keys (s : input) (b : Bitmap) : input :=
  mkInput (input_buffer s) (input_buffer_size s) b (kbd_lastpressed_key s) (kbd_lastpressed_time s) (echo s).

(** [input_init()]; [mem] and [bits] are the blocks [wm_alloc] returned. *)
Definition input_init (mem bits : list Z) : res input :=
  b ← Bitmap.init bits NUM_SCANCODES false;
  Ok (mkInput mem 0 b 0 0 []).

Section Input.
(** What a finished line is given to: its buffer and its length. *)
Context {W : Type} (cmdline_evaluate_buffer : W → list Z → Z → res W).

Definition append_char (w : W) (s : input) (sc : Z) : res (W * input) :=
  let c := kbd_translate_hu sc in
  if negb (Z.shiftr c 24 =? 0) then Fatal "UTF-8 characters with more than 3 code points are not supported!" else
  if input_buffer_size s =? INPUT_BUFFER_MAX_SIZE - 1 then Ok (w, s) else
  if negb (Z.land c (notN 32 0x7f) =? 0) then Ok (w, s) else
  let s := if (negb (input_buffer_size s =? 0) && (c =? 8)) || negb (c =? 8) then with_echo s c else s in
  if c =? 10 then
    s ← put s (input_buffer_size s) 0;
    w ← cmdline_evaluate_buffer w (input_buffer s) (input_buffer_size s);
    s ← put (with_size s 0) 0 0;
    Ok (w, s)
  else if c =? 8 then
    if 0 <? input_buffer_size s then
      let s := with_size s (input_buffer_size s - 1) in
      s ← put s (input_buffer_size s) 0; Ok (w, s)
    else Ok (w, s)
  else
    let n := input_buffer_size s in
    s ← put (with_size s (n + 1)) n c; Ok (w, s).

Definition kbd_onrepeat (w : W) (s : input) : res (W * input) :=
  b ← get (kbd_state s) (kbd_lastpressed_key s);
  if b : bool then append_char w s (kbd_lastpressed_key s) else Ok (w, s).

(** [now] is [tmr_counter]. *)
Definition kbd_press (w : W) (s : input) (c now : Z) : res (W * input) :=
  b ← get (kbd_state s) c;
  if b : bool then Ok (w, s) else
  let s := mkInput (input_buffer s) (input_buffer_size s) (kbd_state s) c now (echo s) in
  k ← set (kbd_state s) c true;
  append_char w (with_keys s k) c.

Definition kbd_release (s : input) (c : Z) : res input :=
  k ← set (kbd_state s) c false; Ok (with_keys s k).

(** ** The PS/2 driver *)

Definition scancode_set2_to_ascii : list Z :=
  [0; 0; 0; 0; 0; 0; 0; 0; 0; 0; 0; 0; 0; 9; 96; 0;
   0; 0; 0; 0; 0; 113; 49; 0; 0; 0; 122; 115; 97; 119; 50; 0;
   0; 99; 120; 100; 101; 52; 51; 0; 0; 32; 118; 102; 116; 114; 53; 0;
   0; 110; 98; 104; 103; 121; 54; 0; 0; 0; 109; 106; 117; 55; 56; 0;
   0; 44; 107; 105; 111; 48; 57; 0; 0; 46; 47; 108; 59; 112; 45; 0;
   0; 0; 39; 0; 91; 61; 0; 0; 0; 0; 10; 93; 0; 92; 0; 0;
   0; 0; 0; 0; 0; 0; 8; 0; 0; 0; 0; 0; 0; 0; 0; 0] ++ replicate 144 0.

(** [handlekb], given the byte [read()] returned; [released] is the driver's flag. *)
Definition handlekb (w : W) (s : input) (released : bool) (code now : Z) : res (W * input * bool) :=
  if code =? 0xf0 then Ok (w, s, true) else
  if 0x6f <? code then Ok (w, s, released) else
  c ← deref (zlookup scancode_set2_to_ascii code);
  if released then s ← kbd_release s c; Ok (w, s, false)
  else '(w, s) ← kbd_press w s c now; Ok (w, s, false).

(** Interrupts, one received byte each. *)
Fixpoint receive (w : W) (s : input) (released : bool) (codes : list Z) (now : Z) : res (W * input * bool) :=
  match codes with
  | [] => Ok (w, s, released)
  | code :: codes => '(w, s, released) ← handlekb w s released code now; receive w s released codes now
  end.
End Input.

(** ** The i8042 controller *)

Definition CMD : Z := 0x64.
Definition DATA : Z := 0x60.
Definition READ_CFG : Z := 0x20.
Definition WRITE_CFG : Z := 0x60.
Definition SELF_TEST : Z := 0xaa.
Definition ENABLE_FIRST : Z := 0xae.
Definition DISABLE_FIRST : Z := 0xad.
Definition ENABLE_SECOND : Z := 0xa8.
Definition DISABLE_SECOND : Z := 0xa7.
Definition TEST_FIRST : Z := 0xab.
Definition TEST_SECOND : Z := 0xa9.

(** The ports and the passing of 10 ms, for a controller in state [D]. *)
Class Ports (D : Type) := {
  inb : D → Z → Z * D;
  outb : D → Z → Z → D;
  arch_sleep : D → D }.

(** The fields of [i8042_sts] and [config_byte]. *)
Definition output_buf_full (sts : Z) : bool := Z.testbit sts 0.
Definition input_buf_full (sts : Z) : bool := Z.testbit sts 1.
Definition set_field (raw n : Z) (b : bool) : Z := u8 (bitset raw n b).
Definition irq_kb : Z := 0.
Definition irq_mouse : Z := 1.
Definition clock_kb : Z := 4.
Definition clock_mouse : Z := 5.
Definition first_port_translation : Z := 6.

Section Ps2.
Context {D : Type} `{Ports D}.

Fixpoint poll_data_loop (d : D) (tries : nat) : nat * D :=
  let '(sts, d) := inb d CMD in
  if output_buf_full sts then (tries, d) else
  match tries with O => (O, d) | S tries => poll_data_loop (arch_sleep d) tries end.
Definition poll_data_available (d : D) : bool * D :=
  let '(tries, d) := poll_data_loop d 10 in (negb (Nat.eqb tries 0), d).

Fixpoint poll_standby_loop (d : D) (tries : nat) : nat * D :=
  let '(sts, d) := inb d CMD in
  if negb (input_buf_full sts) then (tries, d) else
  match tries with O => (O, d) | S tries => poll_standby_loop (arch_sleep d) tries end.
Definition poll_standby (d : D) : res D :=
  let '(tries, d) := poll_standby_loop d 10 in
  if Nat.eqb tries 0 then Fatal "Input buffer is not getting cleared!" else Ok d.

Definition read (d : D) : Z * D :=
  let '(ok, d) := poll_data_available d in if ok : bool then inb d DATA else (0, d).
Definition write (d : D) (data : Z) : res D := d ← poll_standby d; Ok (outb d DATA data).
Definition command (d : D) (cmd : Z) : res D := d ← poll_standby d; Ok (outb d CMD cmd).

(** [command(c); x = read()] *)
Definition ask (d : D) (c : Z) : res (Z * D) := d ← command d c; Ok (read d).
(** [command(WRITE_CFG); write(cfg)] *)
Definition write_cfg (d : D) (cfg : Z) : res D := d ← command d WRITE_CFG; write d cfg.

(** The result says whether the interrupt handlers were installed. *)
Definition mod_main (d : D) : res (bool * D) :=
  d ← command d DISABLE_FIRST;
  d ← command d DISABLE_SECOND;
  let '(_, d) := inb d DATA in
  '(cfg, d) ← ask d READ_CFG;
  let cfg := set_field (set_field (set_field cfg clock_kb false) irq_kb false) first_port_translation false in
  d ← write_cfg d cfg;
  '(r, d) ← ask d SELF_TEST;
  if negb (r =? 0x55) then Ok (false, d) else
  d ← write_cfg d cfg;
  d ← command d ENABLE_SECOND;
  '(cfg, d) ← ask d READ_CFG;
  '(cfg, d) ← (if Z.testbit cfg clock_mouse then d ← command d DISABLE_SECOND; ask d READ_CFG else Ok (cfg, d));
  '(r1, d) ← ask d TEST_FIRST;
  let port1 := r1 =? 0 in
  '(r2, d) ← ask d TEST_SECOND;
  let port2 := r2 =? 0 in
  d ← (if port1 then
         d ← command d ENABLE_FIRST;
         '(cfg, d) ← ask d READ_CFG;
         write_cfg d (set_field (set_field (set_field cfg clock_kb false) irq_kb true) first_port_translation false)
       else Ok d);
  d ← (if port2 then
         d ← command d ENABLE_SECOND;
         '(cfg, d) ← ask d READ_CFG;
         write_cfg d (set_field (set_field cfg clock_mouse false) irq_mouse true)
       else Ok d);
  Ok (true, d).
End Ps2.

(** ** Editing a line *)

(** The effect of a key on the line typed so far, the Enter key apart. *)
Definition edit (line : list Z) (sc : Z) : list Z :=
  let c := kbd_translate_hu sc in
  if 128 <=? c then line else if c =? 8 then removelast line else line ++ [c].

(** The buffer holds [line]. *)
Record holds (s : input) (line : list Z) : Prop := {
  holds_len : length (input_buffer s) = 4096%nat;
  holds_size : input_buffer_size s = zlen line;
  holds_line : take (length line) (input_buffer s) = line }.

Lemma translate_small c : 0 ≤ c < 128 → 0 ≤ kbd_translate_hu c < 512.
Proof. intros Hc. unfold kbd_translate_hu. repeat case_match; lia. Qed.

Lemma high_mask c : 0 ≤ c < 512 → negb (Z.land c (notN 32 0x7f) =? 0) = (128 <=? c).
Proof.
  intros Hc. assert (Z.land c (notN 32 127) = c - c `mod` 128) as ->.
  { change (notN 32 127) with (Z.ldiff (Z.ones 32) (Z.ones 7)).
    assert (Z.land c (Z.ldiff (Z.ones 32) (Z.ones 7)) = Z.ldiff (Z.land c (Z.ones 32)) (Z.ones 7)) as ->.
    { apply Z.bits_inj'. intros i Hi. rewrite !Z.ldiff_spec, !Z.land_spec, Z.ldiff_spec. by rewrite andb_assoc. }
    rewrite Z.land_ones, Z.ldiff_ones_r by lia. rewrite (Z.mod_small c) by lia.
    rewrite Z.shiftl_mul_pow2, Z.shiftr_div_pow2 by lia. change (2 ^ 7) with 128. pose proof (Z.div_mod c 128). lia. }
  pose proof (Z.div_mod c 128). pose proof (Z.mod_pos_bound c 128).
  destruct (Z.leb_spec 128 c); destruct (Z.eqb_spec (c - c `mod` 128) 0); simpl; try done.
  - assert (c / 128 = 0) by lia. lia.
  - rewrite Z.mod_small in * by lia. lia.
Qed.

Section Line.
Context {W : Type} (evaluate : W → list Z → Z → res W).

Lemma input_put_Ok s i c : 0 ≤ i < zlen (input_buffer s) →
  ∃ s', put s i c = Ok s' ∧ input_buffer s' = <[Z.to_nat i := c]> (input_buffer s) ∧
    input_buffer_size s' = input_buffer_size s ∧ kbd_state s' = kbd_state s.
Proof.
  intros Hi. destruct (zlookup_in (input_buffer s) i Hi) as [x Hx]. unfold put. rewrite Hx. cbn.
  eexists. split; [done|]. simpl. by rewrite zinsert_Z by lia.
Qed.

Lemma append_edit w s line sc : holds s line → zlen line < 4095 → 0 ≤ sc < 128 → kbd_translate_hu sc ≠ 10 →
  ∃ s', append_char evaluate w s sc = Ok (w, s') ∧ holds s' (edit line sc) ∧ kbd_state s' = kbd_state s.
Proof.
  intros [Hl Hs Ht] Hn Hsc H10. unfold append_char, edit. set (c := kbd_translate_hu sc) in *.
  pose proof (translate_small sc Hsc) as Hc. fold c in Hc.
  rewrite Z.shiftr_div_pow2, Z.div_small by (simpl; lia). cbn [Z.eqb negb].
  case (Z.eqb_spec (input_buffer_size s) (INPUT_BUFFER_MAX_SIZE - 1)) as [E|_]; [unfold INPUT_BUFFER_MAX_SIZE in E; lia|].
  rewrite high_mask by lia. destruct (128 <=? c); [by exists s|].
  set (s1 := if _ || _ then with_echo s c else s).
  assert (holds s1 line ∧ kbd_state s1 = kbd_state s) as [[Hl1 Hs1 Ht1] Hk] by (subst s1; case_match; done).
  clearbody s1. case (Z.eqb_spec c 10) as [?|_]; [done|]. case (Z.eqb_spec c 8) as [_|_].
  - destruct line as [|x line _] using rev_ind.
    { rewrite Hs1. cbn. by exists s1. }
    rewrite Hs1, length_app, removelast_last. simpl length. case (Z.ltb_spec 0 (Z.of_nat (length line + 1))) as [_|?]; [|lia].
    destruct (input_put_Ok (with_size s1 (Z.of_nat (length line + 1) - 1)) (Z.of_nat (length line + 1) - 1) 0) as (s2 & E & B2 & S2 & K2).
    { simpl. rewrite Hl1. rewrite length_app in Hn. simpl in Hn. lia. }
    simpl in E |- *. rewrite E. cbn. exists s2. split; [done|]. split; [|by rewrite K2]. split.
    + rewrite B2, length_insert. done.
    + rewrite S2. simpl. lia.
    + rewrite B2. simpl. rewrite take_insert_ge by lia. rewrite length_app in Ht1.
      apply (f_equal (take (length line))) in Ht1. rewrite take_take, take_app_length in Ht1. simpl in Ht1.
      by rewrite Nat.min_l in Ht1 by lia.
  - destruct (input_put_Ok (with_size s1 (input_buffer_size s1 + 1)) (input_buffer_size s1) c) as (s2 & E & B2 & S2 & K2).
    { simpl. rewrite Hl1, Hs1. lia. }
    rewrite E. cbn. exists s2. split; [done|]. split; [|by rewrite K2]. split.
    + rewrite B2, length_insert. done.
    + rewrite S2. simpl. rewrite Hs1, length_app. simpl. lia.
    + rewrite B2. simpl. rewrite length_app, Hs1, Nat2Z.id. simpl. rewrite Nat.add_1_r.
      erewrite take_S_r by (apply list_lookup_insert_eq; rewrite Hl1; lia). rewrite take_insert_ge by lia. by rewrite Ht1.
Qed.

(** The Enter key hands the terminated line over and empties the buffer. *)
Lemma append_enter w s line : holds s line → zlen line < 4095 →
  ∃ b s', append_char evaluate w s 10 = (w' ← evaluate w b (zlen line); Ok (w', s')) ∧
    take (length line) b = line ∧ b !! length line = Some 0 ∧ holds s' [] ∧ kbd_state s' = kbd_state s.
Proof.
  intros [Hl Hs Ht] Hn. unfold append_char. change (kbd_translate_hu 10) with 10.
  case (Z.eqb_spec (input_buffer_size s) (INPUT_BUFFER_MAX_SIZE - 1)) as [E|_]; [unfold INPUT_BUFFER_MAX_SIZE in E; lia|].
  cbn [Z.shiftr Z.shiftl Z.opp Z.eqb negb]. change (Z.land 10 (notN 32 127)) with 0. cbn [Z.eqb negb Pos.eqb].
  rewrite orb_true_r.
  destruct (input_put_Ok (with_echo s 10) (input_buffer_size s) 0) as (s1 & E1 & B1 & S1 & K1).
  { simpl. rewrite Hl, Hs. lia. }
  change (input_buffer_size (with_echo s 10)) with (input_buffer_size s). rewrite E1. cbn [mbind res_bind].
  destruct (input_put_Ok (with_size s1 0) 0 0) as (s2 & E2 & B2 & S2 & K2).
  { simpl. rewrite B1, length_insert. simpl. rewrite Hl. lia. }
  exists (input_buffer s1), s2. rewrite S1. simpl input_buffer_size. rewrite Hs. split_and!.
  - destruct (evaluate w _ _); try done. cbn. by rewrite E2.
  - rewrite B1. simpl. rewrite Hs, Nat2Z.id. by rewrite take_insert_ge by lia.
  - rewrite B1. simpl. rewrite Hs, Nat2Z.id. apply list_lookup_insert_eq. rewrite Hl. lia.
  - split; [|by rewrite S2|done]. rewrite B2, length_insert. simpl. rewrite B1, length_insert. done.
  - rewrite K2. simpl. by rewrite K1.
Qed.

Definition keys_up (s : input) : Prop :=
  wf (kbd_state s) ∧ sz (kbd_state s) = 128 ∧ ∀ j, 0 ≤ j < 128 → bit (kbd_state s) j = false.

Lemma table_range k : 0 ≤ k ≤ 0x6f → ∃ c, zlookup scancode_set2_to_ascii k = Some c ∧ 0 ≤ c < 128.
Proof.
  intros Hk. assert (Forall (λ c, 0 ≤ c < 128) scancode_set2_to_ascii) as Hf.
  { apply Forall_app. split; [repeat (apply Forall_cons; split; [lia|]); done|]. apply Forall_replicate. lia. }
  destruct (zlookup_in scancode_set2_to_ascii k) as [c Hc]; [simpl; lia|]. exists c. split; [done|].
  apply (zlookup_Forall (λ c, 0 ≤ c < 128) _ k c Hf Hc).
Qed.

(** Pressing a key whose key is up. *)
Lemma press_Ok w s c now : keys_up s → 0 ≤ c < 128 →
  ∃ s1, kbd_press evaluate w s c now = append_char evaluate w s1 c ∧
    (∀ line, holds s line → holds s1 line) ∧ wf (kbd_state s1) ∧ sz (kbd_state s1) = 128 ∧
    (∀ j, 0 ≤ j < 128 → bit (kbd_state s1) j = (c =? j)).
Proof.
  intros (Hw & Hz & Hb) Hc. unfold kbd_press. rewrite get_Ok, Hb by (done || lia). cbn [mbind res_bind].
  destruct (set_Ok (kbd_state s) c true Hw) as (k & E & Hw' & Hz' & _ & Hb'); [lia|]. simpl kbd_state. rewrite E. cbn.
  eexists. split; [done|]. simpl. split_and!; [|done|by rewrite Hz'|].
  - by intros line [H1 H2 H3].
  - intros j Hj. rewrite Hb' by lia. destruct (c =? j); [done|]. by apply Hb.
Qed.
Lemma release_Ok s c : wf (kbd_state s) → sz (kbd_state s) = 128 → 0 ≤ c < 128 →
  (∀ j, 0 ≤ j < 128 → bit (kbd_state s) j = (c =? j)) →
  ∃ s1, kbd_release s c = Ok s1 ∧ (∀ line, holds s line → holds s1 line) ∧ keys_up s1.
Proof.
  intros Hw Hz Hc Hb. unfold kbd_release.
  destruct (set_Ok (kbd_state s) c false Hw) as (k & E & Hw' & Hz' & _ & Hb'); [lia|]. rewrite E. cbn.
  eexists. split; [done|]. split; [by intros line [H1 H2 H3]|]. split_and!; simpl; [done|by rewrite Hz'|].
  intros j Hj. rewrite Hb' by lia. destruct (Z.eqb_spec c j) as [|Hne]; [done|]. rewrite Hb by lia. by apply Z.eqb_neq.
Qed.

(** Pressing and releasing a key. *)
Definition stroke (k : Z) : list Z := [k; 0xf0; k].

Lemma receive_stroke w s k c now r : 0 ≤ k ≤ 0x6f → zlookup scancode_set2_to_ascii k = Some c →
  receive evaluate w s false (stroke k ++ r) now =
  ('(w, s) ← kbd_press evaluate w s c now; s ← kbd_release s c; receive evaluate w s false r now).
Proof.
  intros Hk Hc. unfold stroke. cbn [app receive].
  assert (∀ w s rel, handlekb evaluate w s rel k now =
    if rel : bool then s ← kbd_release s c; Ok (w, s, false)
    else '(w, s) ← kbd_press evaluate w s c now; Ok (w, s, false)) as Hh.
  { intros w0 s0 rel. unfold handlekb.
    case (Z.eqb_spec k 0xf0) as [?|_]; [lia|]. case (Z.ltb_spec 0x6f k) as [?|_]; [lia|]. by rewrite Hc. }
  rewrite Hh. destruct (kbd_press evaluate w s c now) as [[w1 s1]| | | |]; try done. cbn [mbind res_bind].
  change (handlekb evaluate w1 s1 false 0xf0 now) with (Ok (w1, s1, true)). cbn [mbind res_bind].
  rewrite Hh. by destruct (kbd_release s1 c).
Qed.

Definition char_of (k : Z) : Z := default 0 (zlookup scancode_set2_to_ascii k).

Lemma strokes_edit w now ks r : ∀ s line, holds s line → keys_up s → zlen line + zlen ks < 4096 →
  Forall (λ k, 0 ≤ k ≤ 0x6f ∧ char_of k ≠ 10) ks →
  ∃ s', receive evaluate w s false (concat (stroke <$> ks) ++ r) now = receive evaluate w s' false r now ∧
    holds s' (foldl edit line (char_of <$> ks)) ∧ keys_up s'.
Proof.
  induction ks as [|k ks IH]; intros s line Hh Hk Hl Hf; [by exists s|].
  apply Forall_cons in Hf as [[Hkr H10] Hf]. destruct (table_range k Hkr) as (c & Hc & Hcr).
  assert (char_of k = c) as Ec by (unfold char_of; by rewrite Hc). rewrite Ec in H10. simpl length in Hl.
  rewrite fmap_cons. cbn [concat]. rewrite <- app_assoc, (receive_stroke _ _ _ c) by done.
  destruct (press_Ok w s c now Hk Hcr) as (s1 & E1 & H1 & W1 & Z1 & B1). rewrite E1.
  assert (kbd_translate_hu c ≠ 10) as Ht.
  { unfold kbd_translate_hu. repeat case_match; try lia. }
  destruct (append_edit w s1 line c (H1 _ Hh)) as (s2 & E2 & Hh2 & K2); [lia|done|done|].
  rewrite E2. cbn [mbind res_bind].
  destruct (release_Ok s2 c) as (s3 & E3 & H3 & Hk3); [by rewrite K2|by rewrite K2|done|by rewrite K2|].
  rewrite E3. cbn [mbind res_bind].
  destruct (IH s3 (edit line c)) as (s' & E & Hh' & Hk'); [by apply H3|done| |done|].
  { unfold edit. repeat case_match; try lia; rewrite ?length_app; simpl; try lia.
    assert (length (removelast line) ≤ length line)%nat; [|lia].
    destruct line as [|x line _] using rev_ind; [done|]. rewrite removelast_last, length_app. lia. }
  exists s'. split; [by rewrite E|]. rewrite fmap_cons, Ec. done.
Qed.
End Line.

(** C26: typing on the PS/2 keyboard.  From an empty line with all keys up, pressing and releasing
    keys edits the line as expected (a character is appended, Backspace removes the last one, keys
    without an ASCII translation change nothing), and Enter passes the line with its terminator to
    the command line exactly once and leaves the line empty and all keys up again. *)
Theorem typing_submits_line {W} (evaluate : W → list Z → Z → res W) w s now ks :
  holds s [] → keys_up s → zlen ks < 4095 → Forall (λ k, 0 ≤ k ≤ 0x6f ∧ char_of k ≠ 10) ks →
  let line := foldl edit [] (char_of <$> ks) in
  ∃ b s', receive evaluate w s false (concat (stroke <$> ks) ++ stroke 0x5a) now =
      (w' ← evaluate w b (zlen line); Ok (w', s', false)) ∧
    take (length line) b = line ∧ b !! length line = Some 0 ∧ holds s' [] ∧ keys_up s'.
Proof.
  intros Hh Hk Hl Hf line. rewrite <- (app_nil_r (stroke 0x5a)).
  destruct (strokes_edit evaluate w now ks (stroke 0x5a ++ []) s [] Hh Hk) as (s1 & E1 & Hh1 & Hk1); [simpl; lia|done|].
  fold line in Hh1. rewrite E1, (receive_stroke _ _ _ _ 10) by (lia || done).
  destruct (press_Ok evaluate w s1 10 now Hk1) as (s2 & E2 & H2 & W2 & Z2 & B2); [lia|]. rewrite E2.
  assert (zlen line < 4095) as Hn.
  { assert (∀ l cs, (length (foldl edit l cs) ≤ length l + length cs)%nat) as Hle.
    { intros l cs. revert l. induction cs as [|c cs IH]; intros l; simpl; [lia|]. rewrite IH. unfold edit.
      repeat case_match; rewrite ?length_app; simpl; try lia. destruct l as [|x l _] using rev_ind; [simpl; lia|].
      rewrite removelast_last, length_app. lia. }
    specialize (Hle [] (char_of <$> ks)). rewrite length_fmap in Hle. fold line in Hle. simpl in Hle. lia. }
  destruct (append_enter evaluate w s2 line (H2 _ Hh1) Hn) as (b & s3 & E3 & T3 & L3 & Hh3 & K3). rewrite E3.
  destruct (release_Ok s3 10) as (s4 & E4 & H4 & Hk4); [by rewrite K3|by rewrite K3|lia|by rewrite K3|].
  exists b, s4. split_and!; try done; [|by apply H4].
  destruct (evaluate w b (zlen line)) as [w'| | | |]; try done. cbn [mbind res_bind]. by rewrite E4.
Qed.

(** A new line buffer, and a command line that keeps the lines it is given. *)
Definition fresh : input := mkInput (replicate 4096 0) 0 (mkBitmap [0; 0] 128) 0 0 [].
Definition keep (w : list (list Z)) (b : list Z) (n : Z) : res (list (list Z)) := Ok (w ++ [take (Z.to_nat n) b]).

Lemma fresh_up : keys_up fresh.
Proof.
  split_and!; [split; simpl; [repeat constructor; lia|unfold NPOS; lia|lia]|done|].
  intros j Hj. unfold bit, fresh. cbn [kbd_state buffer]. destruct (zlookup [0; 0] (j / 64)) as [x|] eqn:E; [|done].
  assert (x = 0) as ->; [|apply Z.bits_0].
  apply (zlookup_Forall (λ x, x = 0) [0; 0] (j / 64)); [repeat constructor|done].
Qed.

(** "hi", a typing error corrected with Backspace. *)
Lemma typing_submits_line_witness : ∃ s',
  receive keep [] fresh false (concat (stroke <$> [0x33; 0x1c; 0x66; 0x43]) ++ stroke 0x5a) 0 = Ok ([[104; 105]], s', false).
Proof.
  destruct (typing_submits_line keep [] fresh 0 [0x33; 0x1c; 0x66; 0x43]) as (b & s' & E & Hb & _).
  - split; [apply length_replicate|done|done].
  - apply fresh_up.
  - simpl. lia.
  - repeat (apply Forall_cons; split; [split; [lia|done]|]). done.
  - assert (foldl edit [] (char_of <$> [0x33; 0x1c; 0x66; 0x43]) = [104; 105]) as El by (vm_compute; reflexivity).
    rewrite El in E, Hb. exists s'. rewrite E. unfold keep. cbn [mbind res_bind].
    change (Z.to_nat (zlen [104; 105])) with 2%nat. cbn [length] in Hb. by rewrite Hb.
Defined.

(** A line of 4095 characters is full: no key has any effect on it any more, neither Enter
    nor Backspace, so the line can no longer be finished or corrected. *)
Lemma full_line_stuck {W} (evaluate : W → list Z → Z → res W) w s sc :
  input_buffer_size s = INPUT_BUFFER_MAX_SIZE - 1 → 0 ≤ sc < 128 → append_char evaluate w s sc = Ok (w, s).
Proof.
  intros Hs Hsc. unfold append_char. pose proof (translate_small sc Hsc) as Hc.
  rewrite Z.shiftr_div_pow2, Z.div_small by (simpl; lia). rewrite Hs. by rewrite Z.eqb_refl.
Qed.

Lemma full_line_stuck_witness : append_char keep [] (with_size fresh 4095) 10 = Ok ([], with_size fresh 4095).
Proof. apply (full_line_stuck keep [] (with_size fresh 4095) 10); [reflexivity|lia]. Defined.

(** Releasing a key whose code is above 0x6f (here F7, 0x83) leaves the driver waiting for a
    release: the next key press is taken for one and nothing is typed. *)
Example release_swallowed : ∃ s', receive keep [] fresh false [0xf0; 0x83; 0x1c] 0 = Ok ([], s', false) ∧
  input_buffer_size s' = 0.
Proof. eexists. split; [vm_compute; reflexivity|reflexivity]. Qed.

(** A controller that answers at once: its configuration byte, the command whose argument it waits
    for, and the byte it offers. *)
Record i8042 := mkI8042 { cfg : Z; waiting : bool; offer : option Z }.
Definition i8042_command (d : i8042) (c : Z) : i8042 :=
  if c =? READ_CFG then mkI8042 (cfg d) false (Some (cfg d))
  else if c =? WRITE_CFG then mkI8042 (cfg d) true None
  else if c =? SELF_TEST then mkI8042 (cfg d) false (Some 0x55)
  else if (c =? TEST_FIRST) || (c =? TEST_SECOND) then mkI8042 (cfg d) false (Some 0)
  else d.
#[global] Instance i8042_ports : Ports i8042 := {|
  inb d p := if p =? DATA then (default 0 (offer d), mkI8042 (cfg d) (waiting d) None)
             else (match offer d with Some _ => 1 | None => 0 end, d);
  outb d p v := if p =? CMD then i8042_command d v
                else if waiting d then mkI8042 v false None else d;
  arch_sleep d := d |}.

(** On it the driver ends with both interrupts on, both clocks running and no translation. *)
Example mod_main_configures : mod_main (mkI8042 0x70 false None) = Ok (true, mkI8042 0x03 false None).
Proof. by vm_compute. Qed.
