(* ===== verification/Pci.v ===== *)
(** PCI configuration space ([pci/pci.cc], [pci.hh]): register access through the legacy ports or
    the memory-mapped area, device enumeration, BARs and message-signalled interrupts.

    The hardware behind the ports and the mapped area is an argument of the model. *)
From S2P Require Import Prelude Arith Async Bitmap Pmm Paging.

(** ** Registers *)

(** [pci_register_t] *)
Record pci_register_t := mkReg { offset : Z; bits : Z }.
Definition bar_register (barnum : Z) : pci_register_t := mkReg (0x10 + barnum * 4) 32.

(** [PciRegs] *)
Definition VENDOR := mkReg 0x00 16.
Definition PRODUCT := mkReg 0x02 16.
Definition PCI_CMD := mkReg 0x04 16.
Definition STS := mkReg 0x06 16.
Definition PROGIF := mkReg 0x09 8.
Definition SUBCLASS := mkReg 0x0a 8.
Definition CLASS := mkReg 0x0b 8.
Definition HDRTYPE := mkReg 0x0e 8.
Definition PRIMARYBUS := mkReg 0x18 8.
Definition SECONDARYBUS := mkReg 0x19 8.
Definition CAPSPTR := mkReg 0x34 8.

Definition numbits (x : Z) : Z := Z.shiftl 1 x - 1.

(** A function's place on the bus. *)
Record location := mkLoc { bus : Z; slot : Z; func : Z }.
#[global] Instance location_eq_dec : EqDecision location.
Proof. solve_decision. Defined.

(** ** The hardware *)

Definition CFG_ADDR : Z := 0xcf8.
Definition CFG_DATA : Z := 0xcfc.

Class PciHw (D : Type) := {
  outl : D → Z → Z → D;
  inl : D → Z → Z * D;
  mmio_read : D → Z → Z * D;
  mmio_write : D → Z → Z → D }.

(** The address in [CFG_ADDR], and the offset in the mapped area. *)
Definition legacy_address (l : location) (off : Z) : Z :=
  u32 (Z.lor (Z.lor (Z.lor (Z.lor (Z.shiftl (bus l) 16) (Z.shiftl (slot l) 11)) (Z.shiftl (func l) 8)) off) 0x80000000).
Definition mapped_offset (l : location) (off : Z) : Z :=
  Z.shiftl (bus l) 20 + Z.shiftl (slot l) 15 + Z.shiftl (func l) 12 + off.

(** [mcfg]: the base of the mapped area when there is one; the page tables and their root are
    used by [check_page]. *)
Record pci (D : Type) := mkPci { hw : D; mcfg : option Z; pages : paging; pml4 : Z }.
Arguments mkPci {_} _ _ _ _.
Arguments hw {_} _.
Arguments mcfg {_} _.
Arguments pages {_} _.
Arguments pml4 {_} _.

Section Pci.
Context {D : Type} `{PciHw D}.
Implicit Types s : pci D.

Definition with_hw s (d : D) : pci D := mkPci d (mcfg s) (pages s) (pml4 s).
Definition with_pages s p : pci D := mkPci (hw s) (mcfg s) p (pml4 s).

Definition pci_read32 s (l : location) (off : Z) : res (Z * pci D) :=
  match mcfg s with
  | Some base =>
      let mmio := u64 (VIRTUAL base + mapped_offset l off) in
      p ← check_page (pages s) (pml4 s) mmio UC;
      let '(v, d) := mmio_read (hw s) mmio in
      Ok (v, with_hw (with_pages s p) d)
  | None =>
      let '(v, d) := inl (outl (hw s) CFG_ADDR (legacy_address l off)) CFG_DATA in
      Ok (v, with_hw s d)
  end.

Definition pci_write32 s (l : location) (off data : Z) : res (pci D) :=
  match mcfg s with
  | Some base =>
      let mmio := u64 (VIRTUAL base + mapped_offset l off) in
      p ← check_page (pages s) (pml4 s) mmio UC;
      Ok (with_hw (with_pages s p) (mmio_write (hw s) mmio data))
  | None => Ok (with_hw s (outl (outl (hw s) CFG_ADDR (legacy_address l off)) CFG_DATA data))
  end.

(** A register that crosses a double word is only reported. *)
Definition pci_read s (l : location) (reg : pci_register_t) : res (Z * pci D) :=
  let realoffset := align_down (offset reg) 4 in
  '(data, s) ← pci_read32 s l realoffset;
  let data := Z.shiftr data ((offset reg - realoffset) * 8) in
  Ok (Z.land data (numbits (bits reg)), s).

(** The mask is not shifted to the register's place. *)
Definition pci_write s (l : location) (reg : pci_register_t) (data : Z) : res (pci D) :=
  let realoffset := align_down (offset reg) 4 in
  '(value, s) ← pci_read32 s l realoffset;
  let new_value := Z.land value (notN 64 (numbits (bits reg))) in
  let new_value := Z.lor new_value (u32 (Z.shiftl data (Z.land (offset reg) 3 * 8))) in
  pci_write32 s l realoffset new_value.

(** ** Enumeration *)

(** [device_t_PCI] as it is given to [devmgr_add_device]. *)
Record device := mkDevice {
  vendor : Z; product : Z; class_ : Z; subclass : Z; progif : Z; place : location }.

Definition read_device s (l : location) : res (device * pci D) :=
  '(v, s) ← pci_read s l VENDOR;
  '(p, s) ← pci_read s l PRODUCT;
  '(c, s) ← pci_read s l CLASS;
  '(sc, s) ← pci_read s l SUBCLASS;
  '(pi, s) ← pci_read s l PROGIF;
  Ok (mkDevice (u16 v) (u16 p) (u8 c) (u8 sc) (u8 pi) l, s).

(** The 256 functions of a bus, in the order of the two loops. *)
Definition functions (b : Z) : list location :=
  flat_map (λ j, map (λ i, mkLoc b (Z.of_nat j) (Z.of_nat i)) (seq 0 8)) (seq 0 32).

(** [check_bus]: the recursion into secondary buses is not bounded by the code. *)
Fixpoint check_bus (fuel : nat) s (b : Z) {struct fuel} : res (list device * pci D) :=
  match fuel with
  | O => NoFuel
  | S fuel =>
      (fix go (ls : list location) s : res (list device * pci D) :=
         match ls with
         | [] => Ok ([], s)
         | l :: ls =>
             '(v, s) ← pci_read s l VENDOR;
             if v =? 0xffff then go ls s else
             '(hdrt, s) ← pci_read s l HDRTYPE;
             '(d, s) ← read_device s l;
             '(below, s) ← (if Z.land hdrt 3 =? 1 then
                              '(sec, s) ← pci_read s l SECONDARYBUS; check_bus fuel s (u8 sec)
                            else Ok ([], s));
             '(rest, s) ← go ls s;
             Ok (d :: below ++ rest, s)
         end) (functions b) s
  end.

(** [pci_init]; [spaces] is the number of areas in the MCFG table. *)
Definition pci_init (fuel : nat) s (spaces : Z) : res (list device * pci D) :=
  match mcfg s with
  | Some _ => if 1 <? spaces then Fatal "only 1 segment group supproted" else Ok tt
  | None => Ok tt
  end;;
  (fix go (fs : list Z) s : res (list device * pci D) :=
     match fs with
     | [] => Ok ([], s)
     | f :: fs =>
         let l := mkLoc 0 0 f in
         '(v, s) ← pci_read s l VENDOR;
         if v =? 0xffff then go fs s else
         '(cl, s) ← pci_read s l CLASS;
         '(scl, s) ← pci_read s l SUBCLASS;
         '(ds, s) ← (if (u8 cl =? 6) && (u8 scl =? 4) then
                       '(pb, s) ← pci_read s l PRIMARYBUS;
                       '(d1, s) ← check_bus fuel s (u8 pb);
                       '(sb, s) ← pci_read s l SECONDARYBUS;
                       '(d2, s) ← check_bus fuel s (u8 sb);
                       Ok (d1 ++ d2, s)
                     else if (u8 cl =? 6) && (u8 scl =? 0) then check_bus fuel s f
                     else Ok ([], s));
         '(rest, s) ← go fs s;
         Ok (ds ++ rest, s)
     end) [0; 1; 2; 3; 4; 5; 6; 7] s.

Definition pci_setup_cmd_reg s (l : location) : res (pci D) :=
  '(pcicmd, s) ← pci_read s l PCI_CMD;
  pci_write s l PCI_CMD (Z.lor (Z.lor (Z.lor pcicmd 4) 2) 1).

(** ** BARs *)

Record pci_bar := mkBar { bar_addr : Z; io : bool }.

Definition map_bar s (addr size cache : Z) : res (pci D) :=
  p ← for_rounds (λ i p, map_page p (pml4 s) (u64 (VIRTUAL addr + i)) (u64 (addr + i)) 3 cache)
        0 0x1000 (rounds (align64 size 0x1000) 0x1000) (pages s);
  Ok (with_pages s p).

Definition pci_prepare_bar s (l : location) (barnum : Z) : res (pci_bar * pci D) :=
  let barreg := bar_register barnum in
  '(orig, s) ← pci_read s l barreg;
  let isio := Z.testbit orig 0 in
  let type := Z.land (Z.shiftr orig 1) 3 in
  let prefetchable := Z.testbit orig 3 in
  let addr := Z.land orig (notN 64 15) in
  if isio then Ok (mkBar addr true, s) else
  s ← pci_write s l barreg 0xffffffff;
  '(m, s) ← pci_read s l barreg;
  let size := u32 (notN 32 (Z.land m (notN 32 15)) + 1) in
  s ← pci_write s l barreg orig;
  '(addr, s) ← (if type =? 2 then
                  if barnum =? 5 then Fatal "BAR5 is 64 bit?" else
                  '(addr2, s) ← pci_read s l (bar_register (barnum + 1));
                  let addr2 := Z.land addr2 (notN 64 15) in
                  Ok (Z.lor addr (u64 (Z.shiftl addr2 32)), s)
                else Ok (addr, s));
  s ← map_bar s addr size (if prefetchable then WT else UC);
  Ok (mkBar (VIRTUAL addr) false, s).

(** ** Message-signalled interrupts *)

(** The fields of [pci_msi_data], [pci_msi_addr] and [pci_msi_control] as they are filled in. *)
Definition msi_data_raw (vector : Z) : Z := Z.land vector 0xff.
Definition msi_addr_raw : Z := Z.lor (Z.shiftl 1 3) (Z.shiftl 0xfee 20).
Definition msi_control_raw (ctl : Z) : Z := bitset (Z.land (Z.lor ctl 1) (notN 32 0x70)) 8 false.

Definition msi_setup s (l : location) (caps vector : Z) : res (pci D) :=
  '(ctl, s) ← pci_read s l (mkReg (caps + 2) 16);
  let bits64 := Z.testbit ctl 7 in
  s ← (if bits64 then pci_write s l (mkReg (caps + 8) 32) 0 else Ok s);
  s ← pci_write s l (if bits64 then mkReg (caps + 12) 16 else mkReg (caps + 8) 16) (msi_data_raw vector);
  s ← pci_write s l (mkReg (caps + 4) 32) msi_addr_raw;
  s ← pci_write s l (mkReg (caps + 2) 16) (msi_control_raw ctl);
  if bits64 then pci_write s l (mkReg (caps + 16) 32) 0 else Ok s.

(** The walk over the capability list; [id] is the last one seen. *)
Fixpoint msi_walk (fuel : nat) s (l : location) (caps id vector : Z) : res (Z * pci D) :=
  if caps =? 0 then Ok (id, s) else
  match fuel with
  | O => NoFuel
  | S fuel =>
      '(id, s) ← pci_read s l (mkReg caps 8);
      if id =? 0x05 then s ← msi_setup s l caps vector; Ok (id, s)
      else if id =? 0x11 then Fatal "MSI-X"
      else '(next, s) ← pci_read s l (mkReg (caps + 1) 8); msi_walk fuel s l next id vector
  end.

Definition pci_enable_msi (fuel : nat) s (l : location) (vector : Z) : res (pci D) :=
  '(sts, s) ← pci_read s l STS;
  if negb (Z.testbit sts 4) then Ok s else
  '(caps, s) ← pci_read s l CAPSPTR;
  '(id, s) ← msi_walk fuel s l caps 0 vector;
  if negb (id =? 0x05) && negb (id =? 0x11) then Fatal "MSI not available for this device!" else
  '(pcicmd, s) ← pci_read s l PCI_CMD;
  pci_write s l PCI_CMD (Z.lor pcicmd (Z.shiftl 1 10)).
End Pci.

(** ** Addresses *)

Definition valid_loc (l : location) : Prop := 0 ≤ bus l < 256 ∧ 0 ≤ slot l < 32 ∧ 0 ≤ func l < 8.

Lemma lor_shift_add a b n : 0 ≤ n → 0 ≤ a < 2 ^ n → Z.lor (Z.shiftl b n) a = b * 2 ^ n + a.
Proof.
  intros Hn Ha. rewrite <- Z.shiftl_mul_pow2 by lia. rewrite Z.add_nocarry_lxor, Z.lxor_lor; [done| |];
  (apply Z.bits_inj'; intros i Hi; rewrite Z.land_spec, Z.bits_0; destruct (decide (i < n));
   [by rewrite Z.shiftl_spec_low by lia|by rewrite (is_uN_high n a i) by (unfold is_uN; lia); rewrite andb_false_r]).
Qed.

Lemma legacy_address_sum l off : valid_loc l → 0 ≤ off < 256 →
  legacy_address l off = 2 ^ 31 + bus l * 2 ^ 16 + slot l * 2 ^ 11 + func l * 2 ^ 8 + off.
Proof.
  intros (Hb & Hs & Hf) Ho. unfold legacy_address.
  replace (Z.shiftl (bus l) 16) with (Z.shiftl (Z.shiftl (bus l) 5) 11) by (by rewrite Z.shiftl_shiftl by lia).
  rewrite <- Z.shiftl_lor, (lor_shift_add (slot l) (bus l) 5) by lia.
  replace (Z.shiftl (bus l * 2 ^ 5 + slot l) 11) with (Z.shiftl (Z.shiftl (bus l * 2 ^ 5 + slot l) 3) 8)
    by (by rewrite Z.shiftl_shiftl by lia).
  rewrite <- Z.shiftl_lor, (lor_shift_add (func l) _ 3), (lor_shift_add off _ 8) by lia.
  rewrite Z.lor_comm. change 0x80000000 with (Z.shiftl 1 31). rewrite lor_shift_add by (pow_norm; lia).
  rewrite uN_small by (unfold is_uN; lia). lia.
Qed.

(** No two registers share a configuration address. *)
Lemma legacy_address_inj l off l' off' : valid_loc l → valid_loc l' → 0 ≤ off < 256 → 0 ≤ off' < 256 →
  legacy_address l off = legacy_address l' off' → l = l' ∧ off = off'.
Proof.
  intros Hl Hl' Ho Ho'. rewrite !legacy_address_sum by done. destruct l as [b s f], l' as [b' s' f'].
  unfold valid_loc in *. simpl in *. intros E. assert (b = b' ∧ s = s' ∧ f = f' ∧ off = off') as (-> & -> & -> & ->) by lia.
  done.
Qed.
Lemma mapped_offset_inj l off l' off' : valid_loc l → valid_loc l' → 0 ≤ off < 4096 → 0 ≤ off' < 4096 →
  mapped_offset l off = mapped_offset l' off' → l = l' ∧ off = off'.
Proof.
  intros Hl Hl' Ho Ho'. unfold mapped_offset. rewrite !Z.shiftl_mul_pow2 by lia.
  destruct l as [b s f], l' as [b' s' f']. unfold valid_loc in *. simpl in *. intros E.
  assert (b = b' ∧ s = s' ∧ f = f' ∧ off = off') as (-> & -> & -> & ->) by lia. done.
Qed.

(** ** Registers that behave as storage *)

(** Configuration mechanism #1: the address latched in [CFG_ADDR] selects the double word that
    [CFG_DATA] reads and writes. *)
Class PciStorage (D : Type) `{PciHw D} := {
  cell : D → Z → Z;
  cell_read : ∀ d a, ∃ d', inl (outl d CFG_ADDR a) CFG_DATA = (cell d a, d') ∧ ∀ b, cell d' b = cell d b;
  cell_write : ∀ d a v b, cell (outl (outl d CFG_ADDR a) CFG_DATA v) b = if decide (b = a) then v else cell d b }.

Lemma numbits_ones n : 0 ≤ n → numbits n = Z.ones n.
Proof. intros. unfold numbits. by rewrite Z.shiftl_1_l, Z.ones_equiv. Qed.

(** Replacing the low [n] bits of a double word. *)
Lemma low_field n v data : 0 ≤ n ≤ 32 → is_u32 v → 0 ≤ data < 2 ^ n →
  let w := Z.lor (Z.land v (notN 64 (numbits n))) data in
  Z.land w (numbits n) = data ∧ (∀ i, n ≤ i → Z.testbit w i = Z.testbit v i).
Proof.
  intros Hn Hv Hd w. subst w. rewrite numbits_ones by lia.
  assert (∀ i, 0 ≤ i → Z.testbit (Z.lor (Z.land v (notN 64 (Z.ones n))) data) i =
    if bool_decide (i < n) then Z.testbit data i else Z.testbit v i) as Hb.
  { intros i Hi. rewrite Z.lor_spec, Z.land_spec, notN_testbit, Z.testbit_ones_nonneg by lia.
    destruct (Z.ltb_spec i n) as [Hl|Hg].
    - rewrite (bool_decide_eq_true_2 (i < n)) by done. cbn [negb]. by rewrite !andb_false_r.
    - rewrite (bool_decide_eq_false_2 (i < n)) by lia. rewrite (is_uN_high n data i) by (unfold is_uN; lia).
      rewrite orb_false_r, andb_true_r. case_bool_decide; [by rewrite andb_true_r|].
      rewrite (is_uN_high 32 v i) by (done || lia). done. }
  split.
  - apply Z.bits_inj'. intros i Hi. rewrite Z.land_spec, Hb, Z.testbit_ones_nonneg by lia.
    case_bool_decide; destruct (Z.ltb_spec i n); try lia; [by rewrite andb_true_r|].
    rewrite andb_false_r. symmetry. apply (is_uN_high n); unfold is_uN; lia.
  - intros i Hi. rewrite Hb by lia. by rewrite bool_decide_eq_false_2 by lia.
Qed.

(** On storage-like registers accessed through the ports, writing a register that starts at a
    double word and reading it back gives the written value; the bits of the double word above
    the register keep their values, and no other double word of any function changes. *)
Lemma pci_write_read {D} `{PciStorage D} (s : pci D) l reg data :
  mcfg s = None → valid_loc l → offset reg `mod` 4 = 0 → 0 ≤ offset reg < 256 → 0 ≤ bits reg ≤ 32 →
  0 ≤ data < 2 ^ bits reg → is_u32 (cell (hw s) (legacy_address l (offset reg))) →
  ∃ s' s'', pci_write s l reg data = Ok s' ∧ pci_read s' l reg = Ok (data, s'') ∧
    (∀ i, bits reg ≤ i → Z.testbit (cell (hw s') (legacy_address l (offset reg))) i =
                         Z.testbit (cell (hw s) (legacy_address l (offset reg))) i) ∧
    (∀ l' off', valid_loc l' → 0 ≤ off' < 256 → (l', off') ≠ (l, offset reg) →
       cell (hw s') (legacy_address l' off') = cell (hw s) (legacy_address l' off')).
Proof.
  intros Hm Hl Ha Ho Hb Hd Hv. pose proof (align_down_id (offset reg) 4 ltac:(lia) Ha) as Ealign.
  unfold pci_write, pci_read, pci_read32, pci_write32. rewrite Ealign, Hm.
  set (a := legacy_address l (offset reg)) in *.
  destruct (cell_read (hw s) a) as (d1 & E1 & C1). rewrite E1. cbn [mbind res_bind].
  assert (Z.land (offset reg) 3 = 0) as ->.
  { change 3 with (Z.ones 2). rewrite Z.land_ones by lia. exact Ha. }
  change (0 * 8) with 0. rewrite Z.shiftl_0_r, (uN_small 32 data).
  2: { unfold is_uN. split; [lia|]. eapply Z.lt_le_trans; [apply Hd|]. apply Z.pow_le_mono_r; lia. }
  destruct (low_field (bits reg) (cell (hw s) a) data Hb Hv Hd) as [Hr Hk].
  set (v' := Z.lor _ data) in *. simpl mcfg. rewrite Hm.
  set (s1 := with_hw _ (outl (outl _ CFG_ADDR a) CFG_DATA v')). exists s1.
  assert (∀ b, cell (hw s1) b = if decide (b = a) then v' else cell (hw s) b) as Hc.
  { intros b. unfold s1. simpl. rewrite cell_write. case_decide; [done|]. apply C1. }
  destruct (cell_read (hw s1) a) as (d2 & E2 & _).
  eexists. split; [done|]. cbn [mcfg s1]. change (mcfg s1) with (mcfg s). rewrite Hm, E2. cbn [mbind res_bind].
  rewrite Z.sub_diag. change (0 * 8) with 0. rewrite Z.shiftr_0_r, Hc, decide_True by done. split_and!.
  - by rewrite Hr.
  - intros i Hi. by apply Hk.
  - intros l' off' Hl' Ho' Hne. rewrite Hc, decide_False; [done|]. intros E.
    destruct (legacy_address_inj l' off' l (offset reg)) as [-> ->]; done.
Qed.

(** A configuration space of plain storage: the latched address and the double words. *)
Record cfg_ram := mkCfg { latch : Z; words : gmap Z Z }.
#[global] Instance cfg_ram_hw : PciHw cfg_ram := {|
  outl d p v := if p =? CFG_ADDR then mkCfg v (words d) else mkCfg (latch d) (<[latch d := v]> (words d));
  inl d p := (default 0 (words d !! latch d), d);
  mmio_read d a := (0, d);
  mmio_write d a v := d |}.
#[global] Program Instance cfg_ram_storage : PciStorage cfg_ram := {| cell d a := default 0 (words d !! a) |}.
Next Obligation. intros d a. eexists. split; [reflexivity|]. done. Qed.
Next Obligation.
  intros d a v b. cbn. case_decide as Hd; [subst; by rewrite lookup_insert_eq|by rewrite lookup_insert_ne].
Qed.

Definition cfg_demo : pci cfg_ram :=
  mkPci (mkCfg 0 {[ legacy_address (mkLoc 0 2 0) 4 := 0x02100003 ]}) None boot_tables root0.

Lemma pci_write_read_witness : ∃ s' s'',
  pci_write cfg_demo (mkLoc 0 2 0) PCI_CMD 0x407 = Ok s' ∧ pci_read s' (mkLoc 0 2 0) PCI_CMD = Ok (0x407, s'').
Proof.
  destruct (pci_write_read cfg_demo (mkLoc 0 2 0) PCI_CMD 0x407) as (s' & s'' & E1 & E2 & _).
  - reflexivity.
  - unfold valid_loc. simpl. lia.
  - reflexivity.
  - simpl. lia.
  - simpl. lia.
  - simpl. lia.
  - vm_compute. split; [discriminate|reflexivity].
  - exists s', s''. split; [exact E1|exact E2].
Defined.

(** Writing a 16-bit register in the upper half of a double word clears the lower half and adds
    the new bits to the old ones: the status register after writing 1 to it, and the command
    register below it. *)
Example pci_write_upper_half :
  (s ← pci_write cfg_demo (mkLoc 0 2 0) STS 1;
   '(sts, s) ← pci_read s (mkLoc 0 2 0) STS;
   '(cmd, _) ← pci_read s (mkLoc 0 2 0) PCI_CMD; Ok (sts, cmd)) = Ok (0x0211, 0).
Proof. by vm_compute. Qed.
