(* ===== verification/Arena.v ===== *)
(** [HeapBitmap] ([util/heapbitmap.hh]) and [Arena<T>] ([util/arena.hh]): items in slots named by
    handles, with a bitmap of the used slots.

    The arena constructs its items directly in the vector's buffer, so the vector's own [size]
    stays 0; the same holds for the words of a new [HeapBitmap]. *)
From S2P Require Import Prelude Arith Bitmap Vector.

(** ** HeapBitmap *)

(** The bitmap over the words of a [Vector<u64>], of which the vector itself counts [wsize]. *)
Record HeapBitmap := mkHeapBitmap { bits : Bitmap; wsize : Z }.

Definition words_for (elems : Z) : Z := align64 elems 64 / 64.

Definition HeapBitmap_new (elems : Z) (defa : bool) : res HeapBitmap :=
  b ← init (replicate (Z.to_nat (words_for elems)) 0) elems defa; Ok (mkHeapBitmap b 0).

(** [data.resize(n)]: only the counted words are kept, the others are set to 0. *)
Definition resize_words (b : HeapBitmap) (n : Z) : list Z :=
  if n <? wsize b then take (Z.to_nat n) (buffer (bits b))
  else take (Z.to_nat (wsize b)) (buffer (bits b)) ++ replicate (Z.to_nat (n - wsize b)) 0.
Definition HeapBitmap_resize (b : HeapBitmap) (newsize : Z) : HeapBitmap :=
  let n := words_for newsize in
  mkHeapBitmap (mkBitmap (resize_words b n) newsize) n.

(** ** Arena *)

Record Arena (A : Type) := mkArena { store : Vector A; free_slots : HeapBitmap }.
Arguments mkArena {_} _ _.
Arguments store {_} _.
Arguments free_slots {_} _.

Section Arena.
Context {A : Type} (sizeT : Z).
Implicit Types a : Arena A.

Definition Arena_new (cap : Z) : res (Arena A) :=
  b ← HeapBitmap_new cap false; Ok (mkArena (new_cap sizeT cap) b).

Definition Arena_resize (inplace : bool) a (newsize : Z) : res (Arena A) :=
  v ← reserve sizeT inplace (store a) newsize;
  Ok (mkArena v (HeapBitmap_resize (free_slots a) newsize)).

(** [free_slots.find_and_set()] *)
Definition take_slot a : res (Z * Arena A) :=
  '(i, b) ← find_and_set (bits (free_slots a)) 0;
  Ok (i, mkArena (store a) (mkHeapBitmap b (wsize (free_slots a)))).

(** [push_back] and [emplace_back] differ in the size they grow to. *)
Definition insert_item (inplace : bool) a (grown : Z) (item : A) : res (Z * Arena A) :=
  '(idx, a) ← take_slot a;
  '(idx, a) ← (if idx =? NPOS then a ← Arena_resize inplace a grown; take_slot a else Ok (idx, a));
  v ← wr (store a) idx item;
  Ok (u32 idx, mkArena v (free_slots a)).
Definition push_back (inplace : bool) a (item : A) : res (Z * Arena A) :=
  insert_item inplace a (growfun (capacity (store a))) item.
Definition emplace_back (inplace : bool) a (item : A) : res (Z * Arena A) :=
  insert_item inplace a (u64 (capacity (store a) * 4)) item.

Fixpoint Arena_init (inplace : bool) a (l : list A) : res (Arena A) :=
  match l with [] => Ok a | x :: l => '(_, a) ← push_back inplace a x; Arena_init inplace a l end.
(** [Arena(std::initializer_list<T> init)] *)
Definition Arena_of (inplace : bool) (l : list A) : res (Arena A) :=
  a ← Arena_new (zlen l); Arena_init inplace a l.

Definition remove a (handle : Z) : res (Arena A) :=
  v ← destroy (store a) handle;
  b ← set (bits (free_slots a)) handle false;
  Ok (mkArena v (mkHeapBitmap b (wsize (free_slots a)))).

(** [operator[]] *)
Definition item_at a (handle : Z) : res A := rd (store a) handle.

(** [begin()]: the first used slot; without one the bitmap's bounds check stops the search. *)
Fixpoint first_used (fuel : nat) a (i : Z) : res Z :=
  b ← get (bits (free_slots a)) i;
  if b : bool then Ok i else match fuel with O => NoFuel | S fuel => first_used fuel a (i + 1) end.
(** [++it] *)
Fixpoint next_used (fuel : nat) a (i : Z) : res Z :=
  if capacity (store a) <=? i then Ok i else
  b ← get (bits (free_slots a)) i;
  if b : bool then Ok i else match fuel with O => NoFuel | S fuel => next_used fuel a (i + 1) end.
(** [for (auto& item : arena)] *)
Fixpoint items_from (fuel : nat) a (i : Z) : res (list A) :=
  if i =? capacity (store a) then Ok [] else
  match fuel with
  | O => NoFuel
  | S fuel =>
      x ← item_at a i;
      j ← next_used (Z.to_nat (capacity (store a))) a (i + 1);
      r ← items_from fuel a j; Ok (x :: r)
  end.
Definition items a : res (list A) :=
  i ← first_used (Z.to_nat (sz (bits (free_slots a)))) a 0;
  items_from (Z.to_nat (capacity (store a))) a i.

(** ** Inserting without growing *)

Lemma wr_cell (v : Vector A) buf i x : data v = Some buf → 0 ≤ i < zlen buf →
  ∃ v', wr v i x = Ok v' ∧ capacity v' = capacity v ∧ size v' = size v ∧
    (∀ j, 0 ≤ j → rd v' j = if i =? j then Ok x else rd v j).
Proof.
  intros Hd Hi. unfold wr, rd. rewrite Hd. cbn. destruct (zlookup_in buf i Hi) as [c Hc]. rewrite Hc. cbn.
  eexists. split; [done|]. split_and!; [done|done|]. intros j Hj. cbn. rewrite zlookup_zinsert by done.
  by destruct (i =? j).
Qed.
End Arena.

(** As long as the bitmap has a free slot inside the buffer, [push_back] returns the lowest
    free slot as the handle: the item can be read back through it, the slot is marked used, and
    the items and marks of all other slots are unchanged. *)
Lemma arena_push_back {A} sizeT inplace (a : Arena A) buf item i :
  wf (bits (free_slots a)) → data (store a) = Some buf → sz (bits (free_slots a)) ≤ zlen buf →
  sz (bits (free_slots a)) < 2 ^ 32 →
  0 ≤ i < sz (bits (free_slots a)) → bit (bits (free_slots a)) i = false →
  (∀ j, 0 ≤ j < i → bit (bits (free_slots a)) j = true) →
  ∃ a', push_back sizeT inplace a item = Ok (i, a') ∧ item_at a' i = Ok item ∧
    (∀ j, 0 ≤ j → j ≠ i → item_at a' j = item_at a j) ∧
    (∀ j, 0 ≤ j → bit (bits (free_slots a')) j = (i =? j) || bit (bits (free_slots a)) j).
Proof.
  intros Hw Hd Hb Hlt Hi Hfree Hused. unfold push_back, insert_item, take_slot, find_and_set.
  destruct (find_and_set_multiple_Ok (bits (free_slots a)) 1 0 Hw) as ([c b] & E & Hr); [lia|lia|].
  assert (c = i ∧ marks (bits (free_slots a)) b i 1) as [-> Hm].
  { assert (free_run (bits (free_slots a)) i 1) as Hfr by (intros j Hj; by replace j with i by lia).
    destruct Hr as [[Hc Hr]|[Hno _]]; [|by destruct (Hno i); [lia..|]].
    destruct Hr as [(c1 & b1 & [= <- <-] & H1 & H2 & H3 & Hmin & Hmk)|[[= -> _] _]]; [|done].
    assert (c = i) as ->; [|done]. destruct (Z.lt_trichotomy c i) as [Hl|[?|Hg]]; [|done|].
    - specialize (H3 c ltac:(lia)). by rewrite Hused in H3 by lia.
    - by destruct (Hmin i ltac:(lia)). }
  rewrite E. cbn. pose proof (wf_size _ Hw) as Hsz. destruct (Z.eqb_spec i NPOS) as [?|_]; [lia|]. cbn.
  destruct (wr_cell (store a) buf i item Hd) as (v & Ev & _ & _ & Hv); [lia|]. rewrite Ev. cbn.
  eexists. split; [by rewrite uN_small by (unfold is_uN; lia)|]. unfold item_at. simpl. split_and!.
  - rewrite Hv by lia. by rewrite Z.eqb_refl.
  - intros j Hj Hne. rewrite Hv by lia. by destruct (Z.eqb_spec i j).
  - intros j Hj. rewrite (marks_bit _ _ _ _ Hm) by lia.
    destruct (Z.eqb_spec i j) as [->|]; repeat case_bool_decide; try lia; done.
Qed.

Definition arena_demo : Arena Z :=
  mkArena (mkVec (Some [Some 10; None; Some 30; None]) 0 4) (mkHeapBitmap (mkBitmap [5] 4) 1).

Lemma arena_push_back_witness : ∃ a', push_back 8 true arena_demo 99 = Ok (1, a') ∧ item_at a' 1 = Ok 99.
Proof.
  destruct (arena_push_back 8 true arena_demo [Some 10; None; Some 30; None] 99 1) as (a' & E & Hr & _).
  - split; simpl; [repeat constructor; lia|unfold NPOS; lia|lia].
  - reflexivity.
  - simpl. lia.
  - simpl. lia.
  - simpl. lia.
  - reflexivity.
  - intros j Hj. replace j with 0 by lia. reflexivity.
  - exists a'. split; [exact E|exact Hr].
Defined.

(** A full arena that cannot grow in place: the new buffer receives none of the items, since the
    vector counts none. *)
Example arena_grow_loses :
  ('(_, a) ← push_back 8 false (mkArena (mkVec (Some [Some 10; Some 20]) 0 2) (mkHeapBitmap (mkBitmap [3] 2) 1)) 30;
   item_at a 0) = Fault.
Proof. by vm_compute. Qed.

(** The first growth of an arena made for 64 items forgets the used slots, since the words of the
    new bitmap are not counted either: the 65th item overwrites the first. *)
Example arena_grow_reuses :
  (a ← Arena_new (A := Z) 8 64;
   a ← Arena_init 8 true a (replicate 64 1);
   '(h, a) ← push_back 8 true a 2; x ← item_at a 0; Ok (h, x)) = Ok (0, 2).
Proof. by vm_compute. Qed.
