(* ===== verification/Cmdline.v ===== *)
(** The debug command line ([cmdline/cmdline.cc], [cmdline.hh]): the table of commands and the
    evaluation of a line.  What a command prints is its result; reading memory at a mapped address
    is an argument. *)
From S2P Require Import Prelude Arith Async Bitmap Strings Vector KString Pmm Paging Arena.

(** ** Data *)

(** The lines the built-in commands print. *)
Inductive out :=
| CommandLine (name desc : list Z)            (* a line of "help" *)
| MemoryUse (pmm_used pmm_free vmm_used vmm_free : Z)
| Translated (virt phys : Z)
| NonCanonical
| NotMapped
| Contents (virt value : Z)
| Nonsense
| Prompt.

(** What the callbacks look at: the page tables, memory by address and width in bytes, and the
    counters of the two allocators. *)
Record machine := mkMachine {
  tables : paging; root : Z; peek_mem : Z → Z → Z;
  pmm_used : Z; pmm_free_ : Z; vmm_used : Z; vmm_free : Z }.

(** [Command]; a callback sees the names and descriptions in the table (for "help"), the machine
    and the iterator. *)
Record Command := mkCommand {
  name : list Z;
  callback : list (list Z * list Z) → machine → split_iter → res (list out);
  desc : list Z }.

(** ** The built-in commands *)

Definition space : Z := 32.

(** [StringView a = *args; a.to_uint()] *)
Definition uint_arg (args : split_iter) : res Z := v ← split_deref args space; Ok (to_uint v 10).

Definition help_ : list (list Z * list Z) → machine → split_iter → res (list out) :=
  λ table _ _, Ok (map (λ c, CommandLine c.1 c.2) table).

Definition mem_ : list (list Z * list Z) → machine → split_iter → res (list out) :=
  λ _ mc _, Ok [MemoryUse (bytes2kibs (pmm_used mc)) (bytes2kibs (pmm_free_ mc))
                          (bytes2kibs (vmm_used mc)) (bytes2kibs (vmm_free mc))].

Definition lookup_ : list (list Z * list Z) → machine → split_iter → res (list out) :=
  λ _ mc args, virt ← uint_arg args; phys ← paging_lookup (tables mc) (root mc) virt; Ok [Translated virt phys].

(** "xq", "xl", "xw" and "xb" differ in the width only. *)
Definition x_ (width : Z) : list (list Z * list Z) → machine → split_iter → res (list out) :=
  λ _ mc args,
    virt ← uint_arg args;
    let upper := u32 (Z.shiftr virt 47) in
    if negb (upper =? 0xffff8) && negb (upper =? 0) then Ok [NonCanonical] else
    phys ← paging_lookup (tables mc) (root mc) virt;
    if phys =? NPOS then Ok [NotMapped] else Ok [Contents virt (peek_mem mc virt width)].

Definition builtin : list Command :=
  [mkCommand (bytes_of "help") help_ (bytes_of "Displays all commands");
   mkCommand (bytes_of "mem") mem_ (bytes_of "Show memory usage");
   mkCommand (bytes_of "lookup") lookup_ (bytes_of "Translate virtual memory address to physical");
   mkCommand (bytes_of "xq") (x_ 8) (bytes_of "Read memory address (QWORD)");
   mkCommand (bytes_of "xl") (x_ 4) (bytes_of "Read memory address (DWORD)");
   mkCommand (bytes_of "xw") (x_ 2) (bytes_of "Read memory address (WORD)");
   mkCommand (bytes_of "xb") (x_ 1) (bytes_of "Read memory address (BYTE)")].

(** ** The command line *)

Record cmdline := mkCmdline { cmdline_active : bool; cmds : Arena Command }.

Definition cmdline_activate (s : cmdline) : cmdline * list out := (mkCmdline true (cmds s), [Prompt]).
Definition cmdline_deactivate (s : cmdline) : cmdline := mkCmdline false (cmds s).

(** [sizeof(Command)]: three pointers. *)
Definition cmdline_add_command (inplace : bool) (s : cmdline) (c : Command) : res (Z * cmdline) :=
  '(h, a) ← push_back 24 inplace (cmds s) c; Ok (h, mkCmdline (cmdline_active s) a).
Definition cmdline_remove_command (s : cmdline) (handle : Z) : res cmdline :=
  a ← remove (cmds s) handle; Ok (mkCmdline (cmdline_active s) a).

(** The search through the table: the first command whose name is the first word. *)
Fixpoint dispatch (table : list Command) (all : list (list Z * list Z)) (mc : machine) (cmd : split_iter) : res (list out) :=
  match table with
  | [] => Ok [Nonsense]
  | c :: table =>
      w ← split_deref cmd space;
      eq ← view_eq w (name c);
      if eq : bool then args ← split_next cmd space; callback c all mc args
      else dispatch table all mc cmd
  end.

(** [buf] is the line up to its terminator, [sz] its length. *)
Definition cmdline_evaluate_buffer (s : cmdline) (mc : machine) (buf : list Z) (sz : Z) : res (list out) :=
  if negb (cmdline_active s) then Ok [] else
  if sz =? 0 then Ok [Prompt] else
  table ← items (cmds s);
  o ← dispatch table (map (λ c, (name c, desc c)) table) mc (Some buf);
  Ok (o ++ [Prompt]).

(** ** Dispatch *)

Definition word (s : list Z) : Prop := cstr s ∧ space ∉ s.

Lemma token_word w r : word w → token (w ++ space :: r) space = w ∧ token w space = w.
Proof.
  intros [_ Hs]. induction w as [|c w IH]; [done|].
  rewrite not_elem_of_cons in Hs. destruct Hs as [Hc Hs]. destruct (IH Hs) as [E1 E2]. cbn [app token].
  case (Z.eqb_spec c space) as [?|_]; [congruence|]. by rewrite E1, E2.
Qed.
Lemma skip_word w r : word w → skip_token (w ++ space :: r) space = Some r.
Proof.
  intros [_ Hs]. induction w as [|c w IH]; [done|].
  rewrite not_elem_of_cons in Hs. destruct Hs as [Hc Hs]. cbn [app skip_token].
  case (Z.eqb_spec c space) as [?|_]; [congruence|]. by apply IH.
Qed.

Lemma dispatch_Ok all mc w args table c : word w → cstr args → Forall (λ c, cstr (name c)) table →
  list_find (λ c, name c = w) table = Some c →
  dispatch table all mc (Some (w ++ space :: args)) = callback c.2 all mc (Some args).
Proof.
  intros Hw Ha Hf. revert c. induction table as [|d table IH]; intros c Hc; [done|].
  apply Forall_cons in Hf as [Hd Hf]. cbn [dispatch]. unfold split_deref. cbn [deref mbind res_bind].
  destruct (token_word w args Hw) as [Et _]. rewrite Et. unfold view_eq. cbn [str vsize]. rewrite Nat2Z.id.
  assert (cstr (w ++ space :: args)) as Hl.
  { destruct Hw as [Hw _]. apply Forall_app. split; [done|]. apply Forall_cons. split; [unfold space; lia|done]. }
  rewrite view_eq_loop_Ok by (done || rewrite length_app; lia). rewrite take_app_length. cbn [mbind res_bind].
  cbn [list_find] in Hc. case_decide as Hn.
  - injection Hc as <-. rewrite bool_decide_eq_true_2 by done. unfold split_next. cbn [deref mbind res_bind].
    by rewrite skip_word.
  - rewrite bool_decide_eq_false_2 by congruence.
    destruct (list_find (λ c, name c = w) table) as [[i x]|] eqn:E; [|done]. injection Hc as <-. by apply (IH Hf (i, x)).
Qed.

(** An active command line that is given "word arguments" runs the first command of the table
    with that name on the arguments, and then prompts again. *)
Lemma cmdline_dispatch s mc table w args n c :
  cmdline_active s = true → items (cmds s) = Ok table → Forall (λ c, cstr (name c)) table →
  word w → cstr args → n ≠ 0 → list_find (λ c, name c = w) table = Some c →
  cmdline_evaluate_buffer s mc (w ++ space :: args) n =
  (o ← callback c.2 (map (λ c, (name c, desc c)) table) mc (Some args); Ok (o ++ [Prompt])).
Proof.
  intros Hact Hi Hf Hw Ha Hn Hc. unfold cmdline_evaluate_buffer. rewrite Hact, Hi. cbn [negb mbind res_bind].
  case (Z.eqb_spec n 0) as [?|_]; [done|]. by rewrite (dispatch_Ok _ _ _ _ _ c).
Qed.

(** The memory commands refuse every address from 2^47 on as non-canonical, so also all of the
    kernel's own addresses: [virt >> 47] has 17 bits and is never 0xffff8. *)
Lemma x_rejects_kernel width all mc args virt :
  uint_arg args = Ok virt → 2 ^ 47 ≤ virt < 2 ^ 64 → x_ width all mc args = Ok [NonCanonical].
Proof.
  intros Ha Hv. unfold x_. rewrite Ha. cbn [mbind res_bind]. rewrite Z.shiftr_div_pow2 by lia.
  assert (1 ≤ virt / 2 ^ 47) by (apply Z.div_le_lower_bound; lia).
  assert (virt / 2 ^ 47 < 2 ^ 17) by (apply Z.div_lt_upper_bound; lia).
  rewrite uN_small by (unfold is_uN; lia).
  case (Z.eqb_spec (virt / 2 ^ 47) 0xffff8) as [?|_]; [lia|].
  case (Z.eqb_spec (virt / 2 ^ 47) 0) as [?|_]; [lia|]. done.
Qed.

(** The built-in table on an empty address space. *)
Definition demo_machine : machine := mkMachine boot_tables root0 (λ _ _, 0) 0x400000 0 0 0.
Definition demo_cmdline : cmdline :=
  mkCmdline true (match Arena_of 24 true builtin with Ok a => a | _ => mkArena new_default (mkHeapBitmap (mkBitmap [] 0) 0) end).

Lemma cstr_bytes (l : list Z) : forallb (λ c, (0 <? c) && (c <? 256)) l = true → cstr l.
Proof.
  intros H. apply Forall_forall. intros c Hc. rewrite forallb_forall in H. specialize (H c).
  apply list_elem_of_In in Hc. specialize (H Hc). lia.
Qed.

Lemma cmdline_dispatch_witness : ∃ c,
  name c = bytes_of "mem" ∧
  cmdline_evaluate_buffer demo_cmdline demo_machine (bytes_of "mem" ++ space :: []) 4 =
  (o ← callback c (map (λ c, (name c, desc c)) builtin) demo_machine (Some []); Ok (o ++ [Prompt])).
Proof.
  exists (mkCommand (bytes_of "mem") mem_ (bytes_of "Show memory usage")). split; [reflexivity|].
  apply (cmdline_dispatch demo_cmdline demo_machine builtin (bytes_of "mem") [] 4
    (1%nat, mkCommand (bytes_of "mem") mem_ (bytes_of "Show memory usage"))).
  - reflexivity.
  - reflexivity.
  - unfold builtin. repeat (apply Forall_cons; split; [apply cstr_bytes; reflexivity|]). constructor.
  - split; [apply cstr_bytes; reflexivity|]. apply (bool_decide_unpack (space ∉ bytes_of "mem")). vm_compute. exact I.
  - constructor.
  - lia.
  - vm_compute. reflexivity.
Defined.

Lemma x_rejects_kernel_witness : x_ 8 [] demo_machine (Some (bytes_of "0xffff800000000000")) = Ok [NonCanonical].
Proof.
  apply (x_rejects_kernel 8 [] demo_machine (Some (bytes_of "0xffff800000000000")) 0xffff800000000000).
  - vm_compute. reflexivity.
  - lia.
Defined.

(** A line without an argument leaves the iterator behind the terminator: "lookup" reads there. *)
Example lookup_without_argument :
  cmdline_evaluate_buffer demo_cmdline demo_machine (bytes_of "lookup") 6 = Fault.
Proof. by vm_compute. Qed.
