(* ===== verification/Fs.v ===== *)
(** File systems ([fs/fs.cc], [fs/vfs.cc]): paths, the mount table and the in-memory file system.

    A directory of the in-memory file system is a [HashMap<String, vfs_entry>], used through the
    table that [HashMap.hash_map_is_table] shows it to be. *)
From S2P Require Import Prelude Arith Strings KString HashMap.

(** ** Paths *)

Definition slash : Z := 47.

(** [path_sanitize]: runs of slashes become one; [skip] is set inside the inner loop. *)
Fixpoint sanitize_loop (p : list Z) (skip : bool) : list Z :=
  match p with
  | [] => []
  | c :: p =>
      if c =? slash then if skip then sanitize_loop p true else c :: sanitize_loop p true
      else c :: sanitize_loop p false
  end.
Definition path_sanitize (p : list Z) : list Z := sanitize_loop p false.

(** [path_basename] works on the characters in place, terminator included, and returns the
    changed characters and where the name starts. *)
Fixpoint back_to_slash (path : list Z) (i : nat) : res nat :=
  c ← deref (path !! i);
  match i with
  | O => Ok O
  | S k => if c =? slash then Ok i else back_to_slash path k
  end.
Fixpoint name_end (path : list Z) (i fuel : nat) : res nat :=
  c ← deref (path !! i);
  if (c =? 0) || (c =? slash) then Ok i else
  match fuel with O => Fault | S fuel => name_end path (S i) fuel end.
Definition path_basename (path : list Z) : res (list Z * nat) :=
  let len := strlen (removelast path) in
  if len =? 0 then Fault else
  let i := Z.to_nat (len - 1) in
  c ← deref (path !! i);
  '(path, i) ← (if c =? slash then match i with O => Fault | S k => Ok (<[i := 0]> path, k) end else Ok (path, i));
  i ← back_to_slash path i;
  c ← deref (path !! i);
  let i := if c =? slash then S i else i in
  j ← name_end path i (length path);
  c ← deref (path !! j);
  Ok (if c =? slash then <[j := 0]> path else path, i).

(** [String(const char* )] keeps [strlen] characters. *)
Definition to_String (s : list Z) : list Z := take (Z.to_nat (strlen s)) s.

Definition path_join (path1 path2 : list Z) : res (list Z) :=
  let ret := to_String path1 in
  match last ret with
  | None => Fatal "Vector: index out of bounds"
  | Some c => Ok ((if c =? slash then ret else ret ++ [slash]) ++ to_String path2)
  end.

(** ** Mounts *)

Record fs_entry := mkFsEntry { ename : list Z; dir : bool }.

(** [fs_calltable] over the state [W] of all file systems; [buf] is [None] for a null pointer. *)
Record fs_calltable (W : Type) := mkCalls {
  fc_read : W → list Z → Z → Z → bool → res (Z * list Z);
  fc_write : W → list Z → Z → list Z → res (Z * W);
  fc_remove : W → list Z → res W;
  fc_create : W → list Z → bool → res W;
  fc_readdir : W → list Z → res (list fs_entry);
  fc_readmeta : W → list Z → res (option fs_entry) }.
Arguments fc_read {_} _ _ _ _ _ _.
Arguments fc_write {_} _ _ _ _ _.
Arguments fc_remove {_} _ _ _.
Arguments fc_create {_} _ _ _ _.
Arguments fc_readdir {_} _ _ _.
Arguments fc_readmeta {_} _ _ _.

Record mountpoint (W : Type) := mkMount { calls : fs_calltable W; mpath : list Z }.
Arguments mkMount {_} _ _.
Arguments calls {_} _.
Arguments mpath {_} _.

Section Mounts.
Context {W : Type}.
Implicit Types ms : list (mountpoint W).

(** The loop compares the path with its own sanitized form, not with the mount point. *)
Fixpoint find_mnt_loop ms (p san : list Z) (closest : mountpoint W) : mountpoint W :=
  match ms with
  | [] => closest
  | m :: ms =>
      if zlen san <? zlen (mpath m) then find_mnt_loop ms p san closest
      else if strncmp p san (zlen (mpath m)) =? 0 then
        find_mnt_loop ms p san (if zlen (mpath closest) <? zlen (mpath m) then m else closest)
      else find_mnt_loop ms p san closest
  end.
Definition fs_find_mnt ms (p : list Z) : res (mountpoint W) :=
  match ms with
  | [] => Fatal "mountpts.size"
  | m :: _ => Ok (find_mnt_loop ms p (path_sanitize p) m)
  end.

(** [path2]: what is left of the path behind the mount point. *)
Definition inner_path (m : mountpoint W) (p : list Z) : res (list Z) :=
  if zlen p <? zlen (mpath m) then Fault else
  let path2 := drop (length (mpath m)) p in
  Ok (if decide (path2 = []) then [slash] else path2).

Definition fs_mount ms (mnt : list Z) (calls : fs_calltable W) : list (mountpoint W) :=
  ms ++ [mkMount calls (path_sanitize mnt)].

Definition fs_create ms (w : W) (path : list Z) (mkdir : bool) : res W :=
  m ← fs_find_mnt ms path;
  path2 ← inner_path m path;
  meta ← fc_readmeta (calls m) w path2;
  match meta with
  | Some _ => Fatal "File already exists!"
  | None => fc_create (calls m) w path2 mkdir
  end.
Definition fs_readmeta ms (w : W) (p : list Z) : res (option fs_entry) :=
  m ← fs_find_mnt ms p; path2 ← inner_path m p; fc_readmeta (calls m) w path2.
Definition fs_readdir ms (w : W) (p : list Z) : res (list fs_entry) :=
  m ← fs_find_mnt ms p; path2 ← inner_path m p; fc_readdir (calls m) w path2.
Definition fs_write ms (w : W) (p : list Z) (offset : Z) (buf : list Z) : res (Z * W) :=
  m ← fs_find_mnt ms p; path2 ← inner_path m p; fc_write (calls m) w path2 offset buf.
Definition fs_read ms (w : W) (p : list Z) (offset bytes : Z) (buf : bool) : res (Z * list Z) :=
  m ← fs_find_mnt ms p; path2 ← inner_path m p; fc_read (calls m) w path2 offset bytes buf.
End Mounts.

(** ** The in-memory file system *)

(** [vfs_entry]: its name and the active alternative of its content, if any.  A directory whose table has been freed is an
    alternative of its own: every use of the table is a use of freed memory. *)
Inductive vfs_entry :=
| EDir (name : list Z) (tab : list (option (list Z * vfs_entry)))
| EFile (name : list Z) (content : list Z)
| EFreed (name : list Z)
| ENone.
Definition entry_name (e : vfs_entry) : list Z := match e with EDir n _ | EFile n _ | EFreed n => n | ENone => [] end.
(** [content.active]: 0 for a directory. *)
Definition active (e : vfs_entry) : Z := match e with EDir _ _ | EFreed _ => 0 | EFile _ _ => 1 | ENone => 255 end.

Abbreviation vfs_dir := (list (option (list Z * vfs_entry))).
Definition new_dir : vfs_dir := replicate (Z.to_nat defsize) None.

(** [content.get<vfs_dir>()] and [content.get<Vector<u8>>()] *)
Definition get_dir (e : vfs_entry) : res vfs_dir :=
  match e with EDir _ t => Ok t | EFreed _ => Fault | EFile _ _ => Fatal "Type mismatch!" | ENone => Fatal "variant has no active element!" end.
Definition get_file (e : vfs_entry) : res (list Z) :=
  match e with EFile _ c => Ok c | EDir _ _ | EFreed _ => Fatal "Type mismatch!" | ENone => Fatal "variant has no active element!" end.

(** The map operations, in the table's words. *)
Definition dir_call (t : vfs_dir) (c : call) : res (nat * vfs_dir * reply) :=
  i ← hash_String (call_key c) (zlen t);
  '(t, r) ← spec_call ENone t (Z.to_nat i) c; Ok (Z.to_nat i, t, r).
Definition dir_has (t : vfs_dir) (k : list Z) : res bool :=
  '(_, _, r) ← dir_call t (Has k); Ok (match r with RBool b => b | _ => false end).
(** [&hashmap[name]]: the slot. *)
Definition dir_slot (t : vfs_dir) (k : list Z) : res (nat * vfs_dir * vfs_entry) :=
  '(i, t, r) ← dir_call t (Get k); match r with RValue e => Ok (i, t, e) | _ => Fault end.
Definition dir_assign (t : vfs_dir) (k : list Z) (e : vfs_entry) : res vfs_dir :=
  '(_, t, _) ← dir_call t (Assign k e); Ok t.
Definition dir_remove (t : vfs_dir) (k : list Z) : res vfs_dir :=
  '(_, t, _) ← dir_call t (Remove k); Ok t.

(** A pointer to an entry is the slots that lead to it from the root. *)
Fixpoint entry_at (e : vfs_entry) (a : list nat) : option vfs_entry :=
  match a with
  | [] => Some e
  | i :: a => match e with EDir _ t => match t !! i with Some (Some x) => entry_at x.2 a | _ => None end | _ => None end
  end.
Fixpoint store_at (e : vfs_entry) (a : list nat) (v : vfs_entry) : option vfs_entry :=
  match a with
  | [] => Some v
  | i :: a =>
      match e with
      | EDir n t => match t !! i with
                    | Some (Some x) => y ← store_at x.2 a v; Some (EDir n (<[i := Some (x.1, y)]> t))
                    | _ => None
                    end
      | _ => None
      end
  end.

(** [vfs_lookup] from entry [e] on; [None] is the null pointer. *)
Fixpoint vfs_walk (fuel : nat) (e : vfs_entry) (path : list Z) : res (option (list nat)) :=
  match path with
  | [] => Ok (Some [])
  | c :: path' =>
      let path := if c =? slash then path' else path in
      match path with
      | [] => Ok (Some [])
      | _ =>
          match fuel with
          | O => NoFuel
          | S fuel =>
              let name := token path slash in
              t ← get_dir e;
              h ← dir_has t name;
              if negb h then Ok None else
              '(i, _, e) ← dir_slot t name;
              r ← vfs_walk fuel e (drop (length name) path);
              Ok (match r with Some a => Some (i :: a) | None => None end)
          end
      end
  end.
(** Every round consumes a character, or the name is empty and the path starts with two slashes,
    of which it consumes one. *)
Definition vfs_lookup (root : vfs_entry) (path : list Z) : res (option (list nat)) :=
  vfs_walk (length path) root path.

(** [min(a, b)] *)
Definition vfs_read (root : vfs_entry) (path : list Z) (offset bytes : Z) (buf : bool) : res (Z * list Z) :=
  p ← vfs_lookup root path; a ← deref p; e ← deref (entry_at root a);
  if active e =? 0 then Ok (NPOS, []) else
  content ← get_file e;
  if negb buf then Ok (u64 (zlen content - offset), []) else
  if decide (content = []) then Ok (0, []) else
  if bytes =? 0 then Ok (0, []) else
  if zlen content <? offset then Ok (NPOS, []) else
  if zlen content <? u64 (offset + bytes) then Ok (NPOS, []) else
  let toread := Z.min bytes (zlen content) in
  if zlen content <? offset + toread then Fault else
  Ok (toread, take (Z.to_nat toread) (drop (Z.to_nat offset) content)).

(** [buf] is what the caller's buffer holds; [resize] fills with zeros, in runs in which the heap has
    room for the grown file. *)
Definition write_content (content : list Z) (offset : Z) (buf : list Z) : list Z :=
  let c := content ++ replicate (Z.to_nat (u64 (offset + zlen buf)) - length content) 0 in
  take (Z.to_nat offset) c ++ buf ++ drop (Z.to_nat offset + length buf) c.
Definition vfs_write (root : vfs_entry) (path : list Z) (offset : Z) (buf : list Z) : res (Z * vfs_entry) :=
  p ← vfs_lookup root path; a ← deref p; e ← deref (entry_at root a);
  if active e =? 0 then Ok (NPOS, root) else
  content ← get_file e;
  if decide (buf = []) then Ok (0, root) else
  if u64 (offset + zlen buf) <? offset + zlen buf then Fault else
  root ← deref (store_at root a (EFile (entry_name e) (write_content content offset buf)));
  Ok (zlen buf, root).

(** The folder part and the name of a path, as [path_basename] leaves them. *)
Definition split_path (path : list Z) : res (list Z * list Z) :=
  '(p, i) ← path_basename (path ++ [0]);
  Ok (take i p, token (drop i p) 0).

Definition change_dir (root : vfs_entry) (folder : list Z) (f : vfs_dir → res vfs_dir) : res vfs_entry :=
  p ← vfs_lookup root folder; a ← deref p; e ← deref (entry_at root a);
  t ← get_dir e; t ← f t;
  deref (store_at root a (EDir (entry_name e) t)).

(** The destructor of a removed directory frees its table. *)
Definition vfs_remove (root : vfs_entry) (path : list Z) : res vfs_entry :=
  '(folder, name) ← split_path path;
  change_dir root folder (λ t,
    h ← dir_has t name; if negb h then Ok t else
    '(_, _, e) ← dir_slot t name;
    match e with EFreed _ => Fault | _ => dir_remove t name end).

(** The new entry is assigned from a temporary.  A [variant] has no assignment of its own, so that its bytes are copied, and
    the temporary's destructor then frees what they point to: nothing for an empty file, the table of a directory. *)
Definition assigned (e : vfs_entry) : vfs_entry := match e with EDir n _ => EFreed n | _ => e end.
Definition vfs_create (root : vfs_entry) (path : list Z) (mkdir : bool) : res vfs_entry :=
  '(folder, name) ← split_path path;
  change_dir root folder (λ t, dir_assign t name (assigned (if mkdir then EDir name new_dir else EFile name []))).

(** [vfs_mount]: a new file system has an empty root directory. *)
Definition vfs_mount : vfs_entry := EDir [] new_dir.

(** The flag reported as [dir] is [(bool)active]. *)
Definition vfs_meta (e : vfs_entry) : fs_entry := mkFsEntry (entry_name e) (negb (active e =? 0)).
Definition vfs_readdir (root : vfs_entry) (path : list Z) : res (list fs_entry) :=
  p ← vfs_lookup root path; a ← deref p; e ← deref (entry_at root a);
  t ← get_dir e; Ok (map (λ x, vfs_meta x.2) (omap id t)).
Definition vfs_readmeta (root : vfs_entry) (path : list Z) : res (option fs_entry) :=
  p ← vfs_lookup root path;
  match p with Some a => e ← deref (entry_at root a); Ok (Some (vfs_meta e)) | None => Ok None end.

Definition vfs_calls : fs_calltable vfs_entry :=
  mkCalls vfs_entry vfs_read vfs_write vfs_remove vfs_create vfs_readdir vfs_readmeta.

(** ** Entries and pointers *)

Lemma store_at_Some e a v : ∀ x, entry_at e a = Some x → ∃ e', store_at e a v = Some e' ∧ entry_at e' a = Some v.
Proof.
  revert e. induction a as [|i a IH]; intros e x Hx; [by exists v|]. cbn [entry_at store_at] in *.
  destruct e as [n t| | |]; try done. destruct (t !! i) as [[y|]|] eqn:Et; try done.
  destruct (IH y.2 x Hx) as (z & Ez & Hz). rewrite Ez. simpl. eexists. split; [done|]. cbn [entry_at].
  rewrite list_lookup_insert_eq by (by eapply lookup_lt_Some). done.
Qed.

(** Storing through a pointer changes nothing that is neither above nor below it. *)
Lemma store_at_other e a v e' b : store_at e a v = Some e' → ¬ a `prefix_of` b → ¬ b `prefix_of` a →
  entry_at e' b = entry_at e b.
Proof.
  revert e e' b. induction a as [|i a IH]; intros e e' b Hs Hab Hba; [by destruct Hab; apply prefix_nil|].
  destruct b as [|j b]; [by destruct Hba; apply prefix_nil|]. cbn [store_at] in Hs.
  destruct e as [n t| | |]; try done. destruct (t !! i) as [[y|]|] eqn:Et; try done.
  destruct (store_at y.2 a v) as [z|] eqn:Ez; [|done]. simpl in Hs. injection Hs as <-. cbn [entry_at].
  destruct (decide (i = j)) as [<-|Hne]; [|by rewrite list_lookup_insert_ne].
  rewrite list_lookup_insert_eq by (by eapply lookup_lt_Some). rewrite Et. simpl.
  apply (IH y.2 z b Ez); intros Hp; [apply Hab|apply Hba]; by apply prefix_cons.
Qed.

(** A name that is found sits in the slot it hashes to. *)
Lemma dir_has_true t k : dir_has t k = Ok true ↔
  ∃ i e, hash_String k (zlen t) = Ok (Z.of_nat i) ∧ t !! i = Some (Some (k, e)).
Proof.
  unfold dir_has, dir_call. cbn [call_key]. split.
  - intros H. apply bind_Ok in H as ([[i t'] r] & H & Hr). apply bind_Ok in H as (z & Hz & H).
    assert (0 ≤ z) as Hz0.
    { unfold hash_String, hash_u64 in Hz. destruct (Z.eqb_spec (zlen t) 0); [done|]. injection Hz as <-.
      apply Z.mod_pos_bound. lia. }
    apply bind_Ok in H as ([t1 r1] & H & E). injection E as <- <- <-. unfold spec_call in H.
    apply bind_Ok in H as (s & Hs & H). apply deref_Ok in Hs. destruct s as [[k' e]|]; injection H as <- <-; [|done].
    simpl in Hr. injection Hr as Hr. apply bool_decide_eq_true in Hr. subst k'.
    exists (Z.to_nat z), e. by rewrite Z2Nat.id by lia.
  - intros (i & e & Hz & Hi). rewrite Hz. cbn [mbind res_bind]. unfold spec_call. rewrite Nat2Z.id, Hi. cbn.
    by rewrite bool_decide_eq_true_2.
Qed.
Lemma dir_slot_Ok t k i e : hash_String k (zlen t) = Ok (Z.of_nat i) → t !! i = Some (Some (k, e)) →
  dir_slot t k = Ok (i, t, e).
Proof.
  intros Hz Hi. unfold dir_slot, dir_call. cbn [call_key]. rewrite Hz. cbn [mbind res_bind].
  unfold spec_call. rewrite Nat2Z.id, Hi. cbn. by rewrite decide_True.
Qed.

#[local] Arguments dir_has : simpl never.
#[local] Arguments dir_slot : simpl never.

(** A path without the slash a round skips. *)
Definition strip (path : list Z) : list Z :=
  match path with c :: p => if c =? slash then p else path | [] => [] end.

Lemma vfs_walk_unfold fuel e path : strip path ≠ [] →
  vfs_walk (S fuel) e path =
  (t ← get_dir e; h ← dir_has t (token (strip path) slash);
   if negb h then Ok None else
   '(i, _, e) ← dir_slot t (token (strip path) slash);
   r ← vfs_walk fuel e (drop (length (token (strip path) slash)) (strip path));
   Ok (match r with Some a => Some (i :: a) | None => None end)).
Proof.
  intros Hs. destruct path as [|c p]; [done|]. cbn [vfs_walk strip] in *. destruct (c =? slash); [|done].
  by destruct p.
Qed.
Lemma vfs_walk_end fuel e path : strip path = [] → vfs_walk fuel e path = Ok (Some []).
Proof.
  intros Hs. destruct path as [|c p]; [by destruct fuel|]. cbn [strip] in Hs.
  destruct fuel; cbn [vfs_walk]; by destruct (c =? slash); [subst|].
Qed.

(** A walk is a walk through directories: its first slot and the rest. *)
Lemma vfs_walk_inv fuel e path a : vfs_walk fuel e path = Ok (Some a) → strip path ≠ [] →
  ∃ fuel' n t i x b, fuel = S fuel' ∧ a = i :: b ∧ e = EDir n t ∧
    hash_String (token (strip path) slash) (zlen t) = Ok (Z.of_nat i) ∧
    t !! i = Some (Some (token (strip path) slash, x)) ∧
    vfs_walk fuel' x (drop (length (token (strip path) slash)) (strip path)) = Ok (Some b).
Proof.
  intros Hw Hs. destruct fuel as [|fuel].
  { destruct path as [|c p]; [done|]. cbn [vfs_walk strip] in *. destruct (c =? slash); [by destruct p|done]. }
  rewrite vfs_walk_unfold in Hw by done. apply bind_Ok in Hw as (t & Ht & Hw). destruct e as [n t0| | |]; try done.
  injection Ht as ->. apply bind_Ok in Hw as (h & Hh & Hw). destruct h; [|done]. cbn [negb] in Hw.
  apply dir_has_true in Hh as (i & x & Hz & Hi). rewrite (dir_slot_Ok _ _ _ _ Hz Hi) in Hw. cbn [mbind res_bind] in Hw.
  apply bind_Ok in Hw as (r & Hr & Hw). destruct r as [b|]; [|done]. injection Hw as <-.
  by exists fuel, n, t, i, x, b.
Qed.
Lemma vfs_walk_cons fuel n t path i x b : strip path ≠ [] →
  hash_String (token (strip path) slash) (zlen t) = Ok (Z.of_nat i) →
  t !! i = Some (Some (token (strip path) slash, x)) →
  vfs_walk fuel x (drop (length (token (strip path) slash)) (strip path)) = Ok (Some b) →
  vfs_walk (S fuel) (EDir n t) path = Ok (Some (i :: b)).
Proof.
  intros Hs Hz Hi Hb. rewrite vfs_walk_unfold by done. cbn [get_dir mbind res_bind].
  assert (dir_has t (token (strip path) slash) = Ok true) as -> by (apply dir_has_true; eauto). cbn [negb mbind res_bind].
  rewrite (dir_slot_Ok _ _ _ _ Hz Hi). cbn [mbind res_bind]. by rewrite Hb.
Qed.

(** The same path leads to the same place after a store there. *)
Lemma walk_store fuel : ∀ e path a v e', vfs_walk fuel e path = Ok (Some a) → store_at e a v = Some e' →
  vfs_walk fuel e' path = Ok (Some a).
Proof.
  induction fuel as [|fuel IH]; intros e path a v e' Hw Hs; destruct (decide (strip path = [])) as [Hp|Hp].
  1,3: rewrite vfs_walk_end in Hw |- * by done; done.
  - by apply vfs_walk_inv in Hw as (? & ? & ? & ? & ? & ? & ? & _).
  - apply vfs_walk_inv in Hw as (f & n & t & i & x & b & [= <-] & -> & -> & Hz & Hi & Hb); [|done].
    cbn [store_at] in Hs. rewrite Hi in Hs. cbn [fst snd] in Hs.
    destruct (store_at x b v) as [y|] eqn:Ey; [|done]. simpl in Hs. injection Hs as <-.
    eapply vfs_walk_cons; [done|by rewrite length_insert| |by eapply IH].
    apply list_lookup_insert_eq. by eapply lookup_lt_Some.
Qed.

(** ** Writing and reading *)

Lemma write_content_Ok c offset buf : 0 ≤ offset → offset + zlen buf < 2 ^ 64 →
  let c' := write_content c offset buf in
  zlen c' = Z.max (zlen c) (offset + zlen buf) ∧
  take (length buf) (drop (Z.to_nat offset) c') = buf ∧
  (∀ j, (j < length c)%nat → (Z.of_nat j < offset ∨ offset + zlen buf ≤ Z.of_nat j) → c' !! j = c !! j).
Proof.
  intros Ho Hl. unfold write_content. rewrite uN_small by (unfold is_uN; lia).
  set (d := c ++ replicate _ 0). set (o := Z.to_nat offset).
  assert (length d = Nat.max (length c) (o + length buf)) as Hd
    by (unfold d; rewrite length_app, length_replicate; unfold o; lia).
  assert (length (take o d) = o) as Ht by (rewrite length_take; lia). split_and!.
  - rewrite !length_app, Ht, length_drop, Hd. lia.
  - rewrite drop_app_length' by done. by rewrite take_app_length.
  - intros j Hj Hr. transitivity (d !! j); [|unfold d; by rewrite lookup_app_l].
    destruct Hr as [Hr|Hr].
    + rewrite lookup_app_l by lia. by rewrite lookup_take_lt by lia.
    + rewrite lookup_app_r, Ht, lookup_app_r, lookup_drop by lia. f_equal. lia.
Qed.

(** C28: bytes written to a file of the in-memory file system are read back: the write returns
    their number, the file is long enough and holds them at the offset with all its other bytes
    kept, reading the same range gives them, the path still leads to the file, and no entry
    elsewhere in the tree changes. *)
Theorem vfs_write_read root path a n c offset buf :
  vfs_lookup root path = Ok (Some a) → entry_at root a = Some (EFile n c) →
  buf ≠ [] → 0 ≤ offset → offset + zlen buf < 2 ^ 64 →
  ∃ root' c', vfs_write root path offset buf = Ok (zlen buf, root') ∧
    vfs_lookup root' path = Ok (Some a) ∧ entry_at root' a = Some (EFile n c') ∧
    zlen c' = Z.max (zlen c) (offset + zlen buf) ∧
    (∀ j, (j < length c)%nat → (Z.of_nat j < offset ∨ offset + zlen buf ≤ Z.of_nat j) → c' !! j = c !! j) ∧
    vfs_read root' path offset (zlen buf) true = Ok (zlen buf, buf) ∧
    (∀ b, ¬ a `prefix_of` b → ¬ b `prefix_of` a → entry_at root' b = entry_at root b).
Proof.
  intros Hp Ha Hb Ho Hl. destruct (write_content_Ok c offset buf Ho Hl) as (W1 & W2 & W3).
  set (c' := write_content c offset buf) in *.
  destruct (store_at_Some root a (EFile n c') _ Ha) as (root' & Hs & Ha').
  assert (vfs_lookup root' path = Ok (Some a)) as Hp' by (by eapply walk_store).
  exists root', c'. split_and!; try done.
  - unfold vfs_write. rewrite Hp. cbn [deref mbind res_bind]. rewrite Ha. cbn [deref mbind res_bind active Z.eqb get_file].
    rewrite decide_False by done. rewrite uN_small by (unfold is_uN; lia). rewrite Z.ltb_irrefl.
    cbn [entry_name]. fold c'. by rewrite Hs.
  - unfold vfs_read. rewrite Hp'. cbn [deref mbind res_bind]. rewrite Ha'. cbn [deref mbind res_bind active Z.eqb get_file negb].
    assert (0 < zlen buf) by (destruct buf; simpl; [done|lia]).
    rewrite decide_False by (intros E; rewrite E in W1; simpl in W1; lia).
    case (Z.eqb_spec (zlen buf) 0) as [?|_]; [lia|]. case (Z.ltb_spec (zlen c') offset) as [?|_]; [lia|].
    rewrite uN_small by (unfold is_uN; lia). case (Z.ltb_spec (zlen c') (offset + zlen buf)) as [?|_]; [lia|].
    rewrite Z.min_l by lia. case (Z.ltb_spec (zlen c') (offset + zlen buf)) as [?|_]; [lia|]. rewrite Nat2Z.id. by rewrite W2.
  - intros b. by eapply store_at_other.
Qed.

(** ** Creating *)

Definition plain (s : list Z) : Prop := cstr s ∧ slash ∉ s.

Lemma back_to_slash_Ok path i k : (k ≤ i)%nat → (i < length path)%nat →
  path !! k = Some slash → (∀ j, (k < j ≤ i)%nat → path !! j ≠ Some slash) →
  back_to_slash path i = Ok k.
Proof.
  intros Hk Hi Hs Hn. induction i as [|i IH]; cbn [back_to_slash].
  - replace k with 0%nat in Hs |- * by lia. by rewrite Hs.
  - destruct (lookup_lt_is_Some_2 path (S i) Hi) as [c Hc]. rewrite Hc. cbn [deref mbind res_bind].
    destruct (decide (k = S i)) as [->|Hne].
    + rewrite Hs in Hc. injection Hc as <-. done.
    + case (Z.eqb_spec c slash) as [->|_]; [by destruct (Hn (S i) ltac:(lia))|].
      apply IH; [lia|lia|]. intros j Hj. apply Hn. lia.
Qed.

Lemma name_end_Ok path name : ∀ i fuel, plain name → (length name ≤ fuel)%nat → drop i path = name ++ [0] →
  name_end path i fuel = Ok (i + length name)%nat.
Proof.
  induction name as [|c name IH]; intros i fuel Hp Hf Hd; simpl length in *.
  - assert (path !! i = Some 0) as Hi by (rewrite <- (Nat.add_0_r i), <- lookup_drop, Hd; done).
    destruct fuel; cbn [name_end]; rewrite Hi; cbn; by rewrite Nat.add_0_r.
  - destruct Hp as [Hc Hs]. apply Forall_cons in Hc as [Hc0 Hc]. rewrite not_elem_of_cons in Hs. destruct Hs as [Hcs Hs].
    assert (path !! i = Some c) as Hi by (rewrite <- (Nat.add_0_r i), <- lookup_drop, Hd; done).
    destruct fuel as [|fuel]; [lia|]. cbn [name_end]. rewrite Hi. cbn [deref mbind res_bind].
    case (Z.eqb_spec c 0) as [?|_]; [lia|]. case (Z.eqb_spec c slash) as [?|_]; [congruence|]. cbn [orb].
    rewrite (IH (S i) fuel); [f_equal; lia|done|lia|].
    rewrite <- Nat.add_1_r, <- drop_drop, Hd. done.
Qed.

Lemma token_plain s d r : d ∉ s → token (s ++ d :: r) d = s.
Proof.
  induction s as [|c s IH]; cbn [token app]; [by rewrite Z.eqb_refl|]. rewrite not_elem_of_cons. intros [Hc Hs].
  case (Z.eqb_spec c d) as [->|_]; [done|]. by rewrite IH.
Qed.
Lemma token_all s d : d ∉ s → token s d = s.
Proof.
  induction s as [|c s IH]; cbn [token]; [done|]. rewrite not_elem_of_cons. intros [Hc Hs].
  case (Z.eqb_spec c d) as [->|_]; [done|]. by rewrite IH.
Qed.

(** Below 256 characters, [path_basename] splits a path behind its last slash. *)
Lemma split_path_Ok pre name : cstr pre → plain name → name ≠ [] → zlen pre + zlen name + 1 < 256 →
  split_path ((pre ++ [slash]) ++ name) = Ok (pre ++ [slash], name).
Proof.
  intros Hpre Hn Hne Hl. set (folder := pre ++ [slash]).
  assert (length folder = S (length pre)) as Hlf by (unfold folder; rewrite length_app; simpl; lia).
  assert (0 < length name)%nat by (destruct name; [done|simpl; lia]).
  unfold split_path, path_basename. rewrite removelast_last.
  assert (cstr (folder ++ name)) as Hcs.
  { apply Forall_app. split; [|apply Hn]. apply Forall_app. split; [done|]. by repeat constructor. }
  rewrite strlen_small by (rewrite ?length_app; lia). rewrite length_app.
  case (Z.eqb_spec (Z.of_nat (length folder + length name)) 0) as [?|_]; [lia|].
  set (i := Z.to_nat _). assert (i = length folder + (length name - 1))%nat as Ei by (unfold i; lia).
  set (path := (folder ++ name) ++ [0]).
  assert (∀ j, path !! (length folder + j)%nat = (name ++ [0]) !! j) as Hlk.
  { intros j. unfold path. rewrite <- app_assoc, lookup_app_r by lia. f_equal. lia. }
  assert (∀ j c, (name ++ [0]) !! j = Some c → c ≠ slash) as Hns.
  { intros j c Hj. apply list_elem_of_lookup_2 in Hj. rewrite elem_of_app, list_elem_of_singleton in Hj.
    destruct Hn as [_ Hn]. intros ->. by destruct Hj. }
  assert (∃ c, path !! i = Some c ∧ c ≠ slash) as (c & Hc & Hcs').
  { rewrite Ei, Hlk. destruct (lookup_lt_is_Some_2 (name ++ [0]) (length name - 1)) as [c Hc].
    { rewrite length_app. lia. } exists c. split; [done|by eapply Hns]. }
  rewrite Hc. cbn [deref mbind res_bind]. case (Z.eqb_spec c slash) as [?|_]; [done|]. cbn [mbind res_bind].
  assert (path !! length pre = Some slash) as Hsl.
  { unfold path, folder. rewrite <- !app_assoc. by apply list_lookup_middle. }
  assert (length path = length folder + length name + 1)%nat by (unfold path; rewrite !length_app; simpl; lia).
  rewrite (back_to_slash_Ok path i (length pre)); [|lia|lia|done|].
  2:{ intros j Hj E. replace j with (length folder + (j - length folder))%nat in E by lia. rewrite Hlk in E. by eapply Hns. }
  cbn [mbind res_bind]. rewrite Hsl. cbn [deref mbind res_bind]. rewrite Z.eqb_refl, <- Hlf.
  assert (drop (length folder) path = name ++ [0]) as Hd
    by (unfold path; rewrite <- app_assoc; by rewrite drop_app_length).
  rewrite (name_end_Ok _ name); [|done|lia|done]. cbn [mbind res_bind]. rewrite Hlk, list_lookup_middle by done.
  cbn [deref mbind res_bind]. change (0 =? slash) with false. cbn iota beta. rewrite Hd. f_equal. f_equal.
  - unfold path. rewrite <- app_assoc. by rewrite take_app_length.
  - apply token_plain. intros Hz. destruct Hn as [Hn _]. unfold cstr in Hn. rewrite Forall_forall in Hn.
    specialize (Hn 0 Hz). lia.
Qed.

Lemma token_app s r : slash ∈ s → token (s ++ r) slash = token s slash.
Proof.
  induction s as [|c s IH]; cbn [token app]; [by intros ?%not_elem_of_nil|].
  case (Z.eqb_spec c slash) as [->|Hc]; [done|]. rewrite elem_of_cons. intros [?|Hs]; [done|]. by rewrite IH.
Qed.
Lemma token_length s : (length (token s slash) ≤ length s)%nat.
Proof. induction s as [|c s IH]; simpl; [lia|]. destruct (c =? slash); simpl; lia. Qed.
Lemma drop_token s : slash ∈ s → ∃ r, s = token s slash ++ slash :: r.
Proof.
  induction s as [|c s IH]; cbn [token]; [by intros ?%not_elem_of_nil|].
  case (Z.eqb_spec c slash) as [->|Hc]; [by exists s|]. rewrite elem_of_cons. intros [?|Hs]; [done|].
  destruct (IH Hs) as [r Hr]. exists r. by rewrite Hr at 1.
Qed.

(** What a round leaves of a path that ends with a slash ends with a slash. *)
Lemma token_rest s : last s = Some slash → last (drop (length (token s slash)) s) = Some slash.
Proof.
  intros Hs. assert (slash ∈ s) as Hin by (by eapply last_Some_elem_of).
  destruct (drop_token s Hin) as [r Hr]. rewrite Hr at 2. rewrite drop_app_length.
  rewrite Hr, last_app in Hs. by destruct (last (slash :: r)) eqn:E; [|by apply last_None in E].
Qed.

(** A walk into a directory goes on to the entries of that directory. *)
Lemma walk_append fuel : ∀ e folder a n t name i x fuel', last folder = Some slash →
  vfs_walk fuel e folder = Ok (Some a) → entry_at e a = Some (EDir n t) →
  name ≠ [] → slash ∉ name →
  hash_String name (zlen t) = Ok (Z.of_nat i) → t !! i = Some (Some (name, x)) → (fuel < fuel')%nat →
  vfs_walk fuel' e (folder ++ name) = Ok (Some (a ++ [i])).
Proof.
  induction fuel as [|fuel IH]; intros e folder a n t name i x fuel' Hl Hw Ha Hne Hns Hz Hi Hf;
    (destruct (decide (strip folder = [])) as [Hp|Hp]; [|pose proof (vfs_walk_inv _ _ _ _ Hw Hp) as
      (f & m & u & j & y & b & Ef & -> & -> & Hzj & Hj & Hb); try done]).
  1,2: rewrite vfs_walk_end in Hw by done; injection Hw as <-; injection Ha as ->;
    destruct fuel' as [|fuel']; [lia|];
    destruct folder as [|c [|c' folder]]; try done;
    [cbn in Hl; injection Hl as ->| cbn [strip] in Hp; destruct (c =? slash); done];
    assert (strip ([slash] ++ name) = name) as Es by done;
    apply (vfs_walk_cons _ _ _ _ i x []); rewrite Es, ?token_all by done; try done;
    rewrite drop_all; by destruct fuel'.
  injection Ef as <-. destruct fuel' as [|fuel']; [lia|]. cbn [entry_at] in Ha. rewrite Hj in Ha. cbn [snd] in Ha.
  assert (strip (folder ++ name) = strip folder ++ name ∧ last (strip folder) = Some slash) as [Es Hls].
  { destruct folder as [|c folder]; [done|]. cbn [strip app] in *. destruct (c =? slash); [|done].
    split; [done|]. by destruct folder. }
  assert (slash ∈ strip folder) as Hin by (by eapply last_Some_elem_of).
  rewrite <- app_comm_cons. apply (vfs_walk_cons _ _ _ _ j y); rewrite Es, ?(token_app _ _ Hin); try done.
  - by destruct (strip folder).
  - rewrite drop_app_le by apply token_length. eapply IH; try done; [by apply token_rest|lia].
Qed.

Lemma entry_at_app a : ∀ e c, entry_at e (a ++ c) = x ← entry_at e a; entry_at x c.
Proof.
  induction a as [|i a IH]; intros e c; [done|]. cbn [entry_at app]. destruct e as [n t| | |]; try done.
  by destruct (t !! i) as [[y|]|].
Qed.
Lemma store_at_store a : ∀ e v w e', store_at e a v = Some e' → store_at e' a w = store_at e a w.
Proof.
  induction a as [|i a IH]; intros e v w e' Hs; [done|]. cbn [store_at] in *. destruct e as [n t| | |]; try done.
  destruct (t !! i) as [[y|]|] eqn:Et; try done. destruct (store_at y.2 a v) as [z|] eqn:Ez; [|done].
  simpl in Hs. injection Hs as <-. rewrite list_lookup_insert_eq by (by eapply lookup_lt_Some). cbn [fst snd].
  rewrite (IH _ _ w _ Ez). destruct (store_at y.2 a w); [|done]. simpl. by rewrite list_insert_insert_eq.
Qed.

(** Changing a directory that a path leads to. *)
Lemma change_dir_Ok root folder a n t t' f : vfs_lookup root folder = Ok (Some a) →
  entry_at root a = Some (EDir n t) → f t = Ok t' →
  ∃ root', change_dir root folder f = Ok root' ∧ store_at root a (EDir n t') = Some root' ∧
    vfs_lookup root' folder = Ok (Some a) ∧ entry_at root' a = Some (EDir n t').
Proof.
  intros Hl Ha Hf. destruct (store_at_Some root a (EDir n t') _ Ha) as (root' & Hs & Ha').
  exists root'. unfold change_dir. rewrite Hl. cbn [deref mbind res_bind]. rewrite Ha. cbn [deref mbind res_bind get_dir].
  rewrite Hf. cbn [mbind res_bind entry_name]. rewrite Hs. split_and!; try done. by eapply walk_store.
Qed.

(** In a directory the name's free slot takes the new entry, and gives it up on removal. *)
Lemma dir_assign_Ok t k e i : hash_String k (zlen t) = Ok (Z.of_nat i) → t !! i = Some None →
  dir_assign t k e = Ok (<[i := Some (k, e)]> t).
Proof.
  intros Hz Hi. unfold dir_assign, dir_call. cbn [call_key]. rewrite Hz. cbn [mbind res_bind].
  unfold spec_call. by rewrite Nat2Z.id, Hi.
Qed.
Lemma dir_remove_Ok t k e i : hash_String k (zlen t) = Ok (Z.of_nat i) → t !! i = Some (Some (k, e)) →
  dir_remove t k = Ok (<[i := None]> t).
Proof.
  intros Hz Hi. unfold dir_remove, dir_call. cbn [call_key]. rewrite Hz. cbn [mbind res_bind].
  unfold spec_call. rewrite Nat2Z.id, Hi. cbn. by rewrite decide_True.
Qed.

(** Creating an entry under an existing directory, in whose table the name's slot is free. *)
Section Create.
Context (root : vfs_entry) (pre name : list Z) (a : list nat) (n : list Z) (t : vfs_dir) (i : nat) (mkdir : bool).
Context (Hl : vfs_lookup root (pre ++ [slash]) = Ok (Some a)) (Ha : entry_at root a = Some (EDir n t)).
Context (Hpre : cstr pre) (Hn : plain name) (Hne : name ≠ []) (Hlen : zlen pre + zlen name + 1 < 256).
Context (Hz : hash_String name (zlen t) = Ok (Z.of_nat i)) (Hi : t !! i = Some None).
Let path := (pre ++ [slash]) ++ name.
Let new := assigned (if mkdir then EDir name new_dir else EFile name []).
Let t' := <[i := Some (name, new)]> t.

Lemma create_Ok : ∃ root', vfs_create root path mkdir = Ok root' ∧ vfs_lookup root' path = Ok (Some (a ++ [i])) ∧
    entry_at root' (a ++ [i]) = Some new ∧ vfs_lookup root' (pre ++ [slash]) = Ok (Some a) ∧ entry_at root' a = Some (EDir n t') ∧
    (∀ w, store_at root' a w = store_at root a w) ∧
    (∀ b, ¬ (a ++ [i]) `prefix_of` b → ¬ b `prefix_of` a → entry_at root' b = entry_at root b).
Proof using Hl Ha Hpre Hn Hne Hlen Hz Hi.
  pose proof (split_path_Ok pre name Hpre Hn Hne Hlen) as Hsp. pose proof (dir_assign_Ok t name new i Hz Hi) as Hda. fold t' in Hda.
  pose proof (lookup_lt_Some _ _ _ Hi) as Hit.
  assert (t' !! i = Some (Some (name, new))) as Hi' by (by apply list_lookup_insert_eq).
  assert (hash_String name (zlen t') = Ok (Z.of_nat i)) as Hz' by (unfold t'; by rewrite length_insert).
  destruct (change_dir_Ok root _ a n t t' (λ t, dir_assign t name new) Hl Ha Hda) as (root' & Hc & Hs & Hl' & Ha').
  exists root'. unfold vfs_create. unfold path. rewrite Hsp. cbn [mbind res_bind]. fold new. split_and!; [done| | |done|done| |].
  - unfold vfs_lookup in *. eapply walk_append; try done; [by rewrite last_snoc|apply Hn|].
    rewrite (length_app (pre ++ [slash]) name). destruct name; [done|simpl; lia].
  - rewrite entry_at_app, Ha'. simpl. by rewrite Hi'.
  - intros w. by eapply store_at_store.
  - intros b Hb1 Hb2. destruct (decide (a `prefix_of` b)) as [[c ->]|Hab]; [|by eapply store_at_other].
    rewrite !entry_at_app, Ha, Ha'. simpl. destruct c as [|j c]; [by destruct Hb2; rewrite app_nil_r|].
    cbn [entry_at]. assert (i ≠ j) by (intros <-; destruct Hb1; exists c; by rewrite <- app_assoc).
    unfold t'. by rewrite list_lookup_insert_ne.
Qed.

(** The removal of the new entry finds it in its slot. *)
Lemma remove_finds root' : vfs_lookup root' (pre ++ [slash]) = Ok (Some a) → entry_at root' a = Some (EDir n t') →
  vfs_remove root' path = if mkdir then Fault else deref (store_at root' a (EDir n t)).
Proof using Hpre Hn Hne Hlen Hz Hi.
  intros Hl' Ha'. pose proof (lookup_lt_Some _ _ _ Hi) as Hit.
  assert (t' !! i = Some (Some (name, new))) as Hi' by (by apply list_lookup_insert_eq).
  assert (hash_String name (zlen t') = Ok (Z.of_nat i)) as Hz' by (unfold t'; by rewrite length_insert).
  unfold vfs_remove, path. rewrite (split_path_Ok pre name Hpre Hn Hne Hlen). cbn [mbind res_bind]. unfold change_dir. rewrite Hl'. cbn [deref mbind res_bind].
  rewrite Ha'. cbn [deref mbind res_bind get_dir]. assert (dir_has t' name = Ok true) as -> by (apply dir_has_true; eauto). cbn [mbind res_bind negb].
  rewrite (dir_slot_Ok t' name i new Hz' Hi'). cbn [mbind res_bind]. rewrite (dir_remove_Ok t' name new i Hz' Hi').
  unfold new. destruct mkdir; [done|]. cbn [assigned mbind res_bind entry_name]. unfold t'. by rewrite list_insert_insert_eq, list_insert_id.
Qed.
End Create.


(** A directory that is created has a freed table: removing it frees the table a second time. *)
Lemma created_dir_dangles root pre name a n t i :
  vfs_lookup root (pre ++ [slash]) = Ok (Some a) → entry_at root a = Some (EDir n t) →
  cstr pre → plain name → name ≠ [] → zlen pre + zlen name + 1 < 256 →
  hash_String name (zlen t) = Ok (Z.of_nat i) → t !! i = Some None →
  let path := (pre ++ [slash]) ++ name in
  ∃ root', vfs_create root path true = Ok root' ∧ entry_at root' (a ++ [i]) = Some (EFreed name) ∧ vfs_remove root' path = Fault.
Proof.
  intros Hl Ha Hpre Hn Hne Hlen Hz Hi path.
  destruct (create_Ok root pre name a n t i true Hl Ha Hpre Hn Hne Hlen Hz Hi) as (root' & E & Hp & He & Hl' & Ha' & _).
  exists root'. split_and!; try done. exact (remove_finds pre name a n t i true Hpre Hn Hne Hlen Hz Hi root' Hl' Ha').
Qed.
(** So does creating something in it. *)
Example created_dir_unusable : (r ← vfs_create vfs_mount (bytes_of "/d") true; vfs_create r (bytes_of "/d/f") false) = Fault.
Proof. vm_compute. reflexivity. Qed.

(** ** Mount points *)

Lemma strncmp_loop_same s n : strncmp_loop s s n = 0.
Proof. revert s. induction n as [|n IH]; intros [|c s]; try done. cbn [strncmp_loop]. by rewrite Z.eqb_refl, IH. Qed.
Lemma strncmp_same s n : 0 < n → strncmp s s n = 0.
Proof.
  intros Hn. unfold strncmp. rewrite Z.eqb_refl. case (Z.eqb_spec n 0) as [?|_]; [lia|]. apply strncmp_loop_same.
Qed.

Lemma find_mnt_loop_Ok {W} (p : list Z) (ms : list (mountpoint W)) : ∀ c, zlen (mpath c) ≤ zlen p →
  let m := find_mnt_loop ms p p c in
  (m = c ∨ m ∈ ms) ∧ zlen (mpath c) ≤ zlen (mpath m) ≤ zlen p ∧
  ∀ x, x ∈ ms → zlen (mpath x) ≤ zlen p → zlen (mpath x) ≤ zlen (mpath m).
Proof.
  induction ms as [|y ms IH]; intros c Hc; cbn [find_mnt_loop].
  - split_and!; try (by left || lia). by intros x ?%not_elem_of_nil.
  - destruct (Z.ltb_spec (zlen p) (zlen (mpath y))) as [Hy|Hy].
    { destruct (IH c Hc) as (H1 & H2 & H3). rewrite elem_of_cons. split_and!; try lia; [naive_solver|].
      intros x [->|Hx]%elem_of_cons Hl; [lia|by apply H3]. }
    destruct (Z.eqb_spec (strncmp p p (zlen (mpath y))) 0) as [Hs|Hs].
    + destruct (Z.ltb_spec (zlen (mpath c)) (zlen (mpath y))) as [Hcy|Hcy].
      * destruct (IH y Hy) as (H1 & H2 & H3). rewrite elem_of_cons. split_and!; try lia; [naive_solver|].
        intros x [->|Hx]%elem_of_cons Hl; [lia|by apply H3].
      * destruct (IH c Hc) as (H1 & H2 & H3). rewrite elem_of_cons. split_and!; try lia; [naive_solver|].
        intros x [->|Hx]%elem_of_cons Hl; [lia|by apply H3].
    + assert (zlen (mpath y) = 0) as H0.
      { destruct (decide (0 < zlen (mpath y))) as [H0|H0]; [by rewrite strncmp_same in Hs|lia]. }
      destruct (IH c Hc) as (H1 & H2 & H3). rewrite elem_of_cons. split_and!; try lia; [naive_solver|].
      intros x [->|Hx]%elem_of_cons Hl; [lia|by apply H3].
Qed.

(** Sanitizing leaves no two slashes in a row, so doing it twice changes nothing. *)
Lemma sanitize_idem p b : sanitize_loop (sanitize_loop p b) b = sanitize_loop p b.
Proof.
  revert b. induction p as [|c p IH]; intros b; [done|]. cbn [sanitize_loop].
  destruct (c =? slash) eqn:Ec; [destruct b|].
  - apply IH.
  - cbn [sanitize_loop]. by rewrite Ec, IH.
  - cbn [sanitize_loop]. by rewrite Ec, IH.
Qed.

(** For a path without doubled slashes (what [path_sanitize] returns), with the file system
    mounted first on a path no longer than it, [fs_find_mnt] returns a mount point that fits in
    the path and is the longest of all that fit; when those that fit are prefixes of the path it
    is therefore the innermost one, and the operation on it gets the rest of the path, [/] when
    nothing is left. *)
Lemma fs_find_mnt_longest {W} (m0 : mountpoint W) ms q :
  let p := path_sanitize q in
  zlen (mpath m0) ≤ zlen p →
  ∃ m, fs_find_mnt (m0 :: ms) p = Ok m ∧ m ∈ m0 :: ms ∧ zlen (mpath m) ≤ zlen p ∧
    (∀ x, x ∈ m0 :: ms → zlen (mpath x) ≤ zlen p → zlen (mpath x) ≤ zlen (mpath m)) ∧
    (∀ rest, p = mpath m ++ rest → inner_path m p = Ok (if decide (rest = []) then [slash] else rest)).
Proof.
  intros p Hm. unfold fs_find_mnt. assert (path_sanitize p = p) as -> by apply sanitize_idem.
  destruct (find_mnt_loop_Ok p (m0 :: ms) m0 Hm) as (H1 & H2 & H3).
  set (m := find_mnt_loop (m0 :: ms) p p m0) in *. exists m. split_and!; try done; try lia.
  - destruct H1 as [->|?]; [by left|done].
  - intros rest Hr. unfold inner_path. case (Z.ltb_spec (zlen p) (zlen (mpath m))) as [?|_]; [lia|].
    by rewrite Hr, drop_app_length.
Qed.

(** ** Concrete runs *)

(** Of the mounts [/] and [/mnt], a file of the former is looked up in the latter: the mount
    points are compared with the path by length only. *)
Example find_mnt_by_length : let c := vfs_calls in
  match fs_find_mnt [mkMount c (bytes_of "/"); mkMount c (bytes_of "/mnt")] (bytes_of "/home/x") with
  | Ok m => mpath m = bytes_of "/mnt"
  | _ => False
  end.
Proof. reflexivity. Qed.

Lemma fs_find_mnt_longest_witness : let c := vfs_calls in
  zlen (bytes_of "/") ≤ zlen (path_sanitize (bytes_of "//mnt///a")) ∧
  ∃ m, fs_find_mnt [mkMount c (bytes_of "/"); mkMount c (bytes_of "/mnt")] (bytes_of "/mnt/a") = Ok m.
Proof.
  split; [by vm_compute|].
  destruct (fs_find_mnt_longest (mkMount vfs_calls (bytes_of "/")) [mkMount vfs_calls (bytes_of "/mnt")]
    (bytes_of "//mnt///a")) as (m & Hm & _); [by vm_compute|]. by exists m.
Defined.

(** Making the file [/f], writing to it and reading it back through the mount table. *)
Definition demo_ops : res (Z * list Z) :=
  let ms := fs_mount [] (bytes_of "/") vfs_calls in
  w ← fs_create ms vfs_mount (bytes_of "/f") false;
  '(_, w) ← fs_write ms w (bytes_of "/f") 2 [65; 66; 67];
  fs_read ms w (bytes_of "/f") 1 3 true.
Example demo_ops_run : demo_ops = Ok (3, [0; 65; 66]).
Proof. vm_compute. reflexivity. Qed.

Definition demo_slot (k : string) : nat :=
  match hash_String (bytes_of k) (zlen new_dir) with Ok z => Z.to_nat z | _ => O end.
Definition demo_root : vfs_entry :=
  match vfs_create vfs_mount (bytes_of "/f") false with Ok r => r | _ => vfs_mount end.


Lemma vfs_write_read_witness : vfs_lookup demo_root (bytes_of "/f") = Ok (Some [demo_slot "f"]) ∧
  ∃ root', vfs_write demo_root (bytes_of "/f") 4 [1; 2] = Ok (2, root') ∧
    vfs_read root' (bytes_of "/f") 4 2 true = Ok (2, [1; 2]).
Proof.
  assert (vfs_lookup demo_root (bytes_of "/f") = Ok (Some [demo_slot "f"])) as Hl by (vm_compute; reflexivity).
  assert (entry_at demo_root [demo_slot "f"] = Some (EFile (bytes_of "f") [])) as He by (vm_compute; reflexivity).
  split; [exact Hl|].
  pose proof (vfs_write_read demo_root (bytes_of "/f") [demo_slot "f"] (bytes_of "f") [] 4 [1; 2] Hl He) as Hw.
  destruct Hw as (r & c & H1 & _ & _ & _ & _ & H2 & _); [discriminate|lia|simpl; lia|].
  exists r. exact (conj H1 H2).
Defined.
