(* ===== verification/Printf.v ===== *)
(** The formatted output of [util/printf.cc]: integers, strings and floating-point numbers into a
    buffer or to a character device.

    The output function and the object it writes to are arguments; [_out_buffer], [_out_null] and
    the character device are its instances.  A [double] is a binary64 number of the Standard
    Library's [SpecFloat]; the kernel is built for amd64, where [long], [long long], [size_t] and
    pointers have 64 bits. *)
From Stdlib Require Import Floats.SpecFloat.
From S2P Require Import Prelude Arith Mem Strings.

(** ** Flags *)

Definition FLAGS_ZEROPAD : Z := Z.shiftl 1 0.
Definition FLAGS_LEFT : Z := Z.shiftl 1 1.
Definition FLAGS_PLUS : Z := Z.shiftl 1 2.
Definition FLAGS_SPACE : Z := Z.shiftl 1 3.
Definition FLAGS_HASH : Z := Z.shiftl 1 4.
Definition FLAGS_UPPERCASE : Z := Z.shiftl 1 5.
Definition FLAGS_CHAR : Z := Z.shiftl 1 6.
Definition FLAGS_SHORT : Z := Z.shiftl 1 7.
Definition FLAGS_LONG : Z := Z.shiftl 1 8.
Definition FLAGS_LONG_LONG : Z := Z.shiftl 1 9.
Definition FLAGS_PRECISION : Z := Z.shiftl 1 10.
Definition FLAGS_ADAPT_EXP : Z := Z.shiftl 1 11.
Definition has (flags f : Z) : bool := negb (Z.land flags f =? 0).
Definition clear (flags f : Z) : Z := Z.land flags (notN 32 f).

Definition NTOA_BUFFER_SIZE : nat := 32.
Definition FTOA_BUFFER_SIZE : nat := 32.
Definition DEFAULT_FLOAT_PRECISION : Z := 6.

(** ** Doubles *)

Definition double : Type := spec_float.
Definition dadd : double → double → double := SFadd 53 1024.
Definition dsub : double → double → double := SFsub 53 1024.
Definition dmul : double → double → double := SFmul 53 1024.
Definition ddiv : double → double → double := SFdiv 53 1024.
Definition of_int (z : Z) : double := binary_normalize 53 1024 z 0 false.
(** The literal [m / 10^k]. *)
Definition lit (m : Z) (k : nat) : double := ddiv (of_int m) (of_int (10 ^ Z.of_nat k)).
(** Conversion to an integer type, toward zero. *)
Definition trunc (d : double) : Z :=
  match d with
  | S754_finite s m e =>
      let z := if e <? 0 then Z.shiftr (Zpos m) (- e) else Z.shiftl (Zpos m) e in if s then - z else z
  | _ => 0
  end.
Definition is_nan (d : double) : bool := match d with S754_nan => true | _ => false end.
(** [DBL_MAX]: only the infinities lie beyond it. *)
Definition DBL_MAX : double := S754_finite false (Z.to_pos (2 ^ 53 - 1)) 971.

(** The [union] of a [uint64_t] and a [double]. *)
Definition double_bits (d : double) : Z :=
  let sign (s : bool) := if s then Z.shiftl 1 63 else 0 in
  match d with
  | S754_zero s => sign s
  | S754_infinity s => Z.lor (sign s) (Z.shiftl 0x7ff 52)
  | S754_nan => Z.shiftl 0xfff 51
  | S754_finite s m e =>
      if Zpos m <? 2 ^ 52 then Z.lor (sign s) (Zpos m)
      else Z.lor (sign s) (Z.lor (Z.shiftl (e + 1075) 52) (Zpos m - 2 ^ 52))
  end.
Definition bits_double (u : Z) : double :=
  let s := Z.testbit u 63 in
  let e := Z.land (Z.shiftr u 52) 0x7ff in
  let m := Z.land u (2 ^ 52 - 1) in
  if e =? 0 then if m =? 0 then S754_zero s else S754_finite s (Z.to_pos m) (-1074)
  else if e =? 0x7ff then if m =? 0 then S754_infinity s else S754_nan
  else S754_finite s (Z.to_pos (m + 2 ^ 52)) (e - 1075).

(** ** Reading the format *)

Definition _is_digit (c : Z) : bool := (48 <=? c) && (c <=? 57).

Fixpoint _atoi_loop (s : list Z) (i : Z) : Z * list Z :=
  match s with
  | c :: s' => if _is_digit c then _atoi_loop s' (u32 (i * 10 + (c - 48))) else (i, s)
  | [] => (i, [])
  end.
Definition _atoi (s : list Z) : Z * list Z := _atoi_loop s 0.

Fixpoint _strnlen_s (s : list Z) (maxsize : Z) : Z :=
  match s with
  | [] => 0
  | _ :: s => if maxsize =? 0 then 0 else 1 + _strnlen_s s (maxsize - 1)
  end.

Definition flag_of (c : Z) : option Z :=
  if c =? 48 then Some FLAGS_ZEROPAD else if c =? 45 then Some FLAGS_LEFT else
  if c =? 43 then Some FLAGS_PLUS else if c =? 32 then Some FLAGS_SPACE else
  if c =? 35 then Some FLAGS_HASH else None.
Fixpoint flags_loop (s : list Z) (flags : Z) : Z * list Z :=
  match s with
  | c :: s' => match flag_of c with Some f => flags_loop s' (Z.lor flags f) | None => (flags, s) end
  | [] => (flags, [])
  end.

(** The variable arguments. *)
Inductive arg := AInt (z : Z) | AStr (s : list Z) | ADouble (d : double).
Definition va_int (va : list arg) : res (Z * list arg) :=
  match va with AInt z :: va => Ok (z, va) | _ => Fault end.
(** A pointer to a string; the null pointer is a 0. *)
Definition va_str (va : list arg) : res (option (list Z) * list arg) :=
  match va with AStr s :: va => Ok (Some s, va) | AInt 0 :: va => Ok (None, va) | _ => Fault end.
Definition va_double (va : list arg) : res (double * list arg) :=
  match va with ADouble d :: va => Ok (d, va) | _ => Fault end.

(** [width]: flags, width, and what is left of the format and the arguments. *)
Definition width_field (s : list Z) (va : list arg) (flags : Z) : res (Z * Z * list Z * list arg) :=
  if _is_digit (ch s) then let '(w, s) := _atoi s in Ok (flags, w, s, va)
  else if ch s =? 42 then
    '(w, va) ← va_int va;
    let w := i32 w in
    Ok (if w <? 0 then Z.lor flags FLAGS_LEFT else flags, u32 (Z.abs w), tail s, va)
  else Ok (flags, 0, s, va).

Definition precision_field (s : list Z) (va : list arg) (flags : Z) : res (Z * Z * list Z * list arg) :=
  if ch s =? 46 then
    let flags := Z.lor flags FLAGS_PRECISION in
    let s := tail s in
    if _is_digit (ch s) then let '(p, s) := _atoi s in Ok (flags, p, s, va)
    else if ch s =? 42 then
      '(p, va) ← va_int va;
      let p := i32 p in Ok (flags, if 0 <? p then p else 0, tail s, va)
    else Ok (flags, 0, s, va)
  else Ok (flags, 0, s, va).

Definition length_field (s : list Z) (flags : Z) : Z * list Z :=
  let c := ch s in
  if c =? 108 then
    let '(flags, s) := (Z.lor flags FLAGS_LONG, tail s) in
    if ch s =? 108 then (Z.lor flags FLAGS_LONG_LONG, tail s) else (flags, s)
  else if c =? 104 then
    let '(flags, s) := (Z.lor flags FLAGS_SHORT, tail s) in
    if ch s =? 104 then (Z.lor flags FLAGS_CHAR, tail s) else (flags, s)
  else if (c =? 116) || (c =? 106) || (c =? 122) then (Z.lor flags FLAGS_LONG, tail s)
  else (flags, s).

(** ** Converting *)

Section Out.
Context {S : Type} (out : Z → S → Z → Z → S) (maxlen : Z).

(** [idx] and what the output function writes to. *)
Abbreviation sink := (Z * S)%type.
Implicit Types o : sink.

(** [out(c, buffer, idx++, maxlen)] *)
Definition put (c : Z) o : sink := (u64 (o.1 + 1), out c o.2 o.1 maxlen).
Fixpoint spaces (n : nat) o : sink := match n with O => o | Datatypes.S n => spaces n (put 32 o) end.
Fixpoint puts (l : list Z) o : sink := match l with [] => o | c :: l => puts l (put c o) end.

(** [while (idx - start_idx < width)]: every round writes a character. *)
Fixpoint pad_to (fuel : nat) (start width : Z) o : sink :=
  match fuel with
  | O => o
  | Datatypes.S fuel => if u64 (o.1 - start) <? width then pad_to fuel start width (put 32 o) else o
  end.

Definition _out_rev o (buf : list Z) (width flags : Z) : sink :=
  let start_idx := o.1 in
  let o := if negb (has flags FLAGS_LEFT) && negb (has flags FLAGS_ZEROPAD)
           then spaces (Z.to_nat (width - zlen buf)) o else o in
  let o := puts (rev buf) o in
  if has flags FLAGS_LEFT then pad_to (Z.to_nat width) start_idx width o else o.

(** [buf[len++] = c] as long as there is room. *)
Definition room (size : nat) (buf : list Z) (c : Z) : list Z := if (length buf <? size)%nat then buf ++ [c] else buf.

Definition _ntoa_format o (buf : list Z) (negative : bool) (base prec width flags : Z) : sink :=
  let '(buf, width) :=
    if has flags FLAGS_LEFT then (buf, width) else
    let width := if negb (width =? 0) && has flags FLAGS_ZEROPAD &&
                    (negative || has flags (Z.lor FLAGS_PLUS FLAGS_SPACE)) then width - 1 else width in
    let buf := buf ++ replicate (Nat.min (Z.to_nat prec) NTOA_BUFFER_SIZE - length buf) 48 in
    let buf := if has flags FLAGS_ZEROPAD
               then buf ++ replicate (Nat.min (Z.to_nat width) NTOA_BUFFER_SIZE - length buf) 48 else buf in
    (buf, width) in
  let buf :=
    if negb (has flags FLAGS_HASH) then buf else
    let buf := if negb (has flags FLAGS_PRECISION) && negb (zlen buf =? 0) && ((zlen buf =? prec) || (zlen buf =? width))
               then let buf := removelast buf in
                    if negb (zlen buf =? 0) && (base =? 16) then removelast buf else buf
               else buf in
    let buf := if (base =? 16) && negb (has flags FLAGS_UPPERCASE) then room NTOA_BUFFER_SIZE buf 120
               else if (base =? 16) && has flags FLAGS_UPPERCASE then room NTOA_BUFFER_SIZE buf 88
               else if base =? 2 then room NTOA_BUFFER_SIZE buf 98 else buf in
    room NTOA_BUFFER_SIZE buf 48 in
  let buf := if negative then room NTOA_BUFFER_SIZE buf 45
             else if has flags FLAGS_PLUS then room NTOA_BUFFER_SIZE buf 43
             else if has flags FLAGS_SPACE then room NTOA_BUFFER_SIZE buf 32 else buf in
  _out_rev o buf width flags.

(** The digits, lowest first; [fuel] is the room left in the buffer. *)
Fixpoint ntoa_digits (fuel : nat) (value base flags : Z) : list Z :=
  match fuel with
  | O => []
  | Datatypes.S fuel =>
      let digit := value `mod` base in
      (if digit <? 10 then 48 + digit else (if has flags FLAGS_UPPERCASE then 65 else 97) + digit - 10) ::
      (if value / base =? 0 then [] else ntoa_digits fuel (value / base) base flags)
  end.

Definition _ntoa_long o (value : Z) (negative : bool) (base prec width flags : Z) : sink :=
  let flags := if value =? 0 then clear flags FLAGS_HASH else flags in
  let buf := if negb (has flags FLAGS_PRECISION) || negb (value =? 0)
             then ntoa_digits NTOA_BUFFER_SIZE value base flags else [] in
  _ntoa_format o buf negative base prec width flags.

(** [long long] is as wide as [long]. *)
Definition _ntoa_long_long o (value : Z) (negative : bool) (base prec width flags : Z) : sink :=
  let flags := if value =? 0 then clear flags FLAGS_HASH else flags in
  let buf := if negb (has flags FLAGS_PRECISION) || negb (value =? 0)
             then ntoa_digits NTOA_BUFFER_SIZE value base flags else [] in
  _ntoa_format o buf negative base prec width flags.

(** *** Floating point *)

Definition pow10 : list double := map (λ k, of_int (10 ^ Z.of_nat k)) (seq 0 10).
Definition half : double := lit 5 1.

Fixpoint dec_digits (fuel : nat) (n : Z) : list Z :=
  match fuel with
  | O => []
  | Datatypes.S fuel => (48 + n `mod` 10) :: if n / 10 =? 0 then [] else dec_digits fuel (n / 10)
  end.

(** The whole and the fractional part, rounded; [scale] is [pow10[prec]]. *)
Definition split_double (value scale : double) (prec : Z) : Z * Z :=
  let whole := i32 (trunc value) in
  let tmp := dmul (dsub value (of_int whole)) scale in
  let frac := u64 (trunc tmp) in
  let diff := dsub tmp (of_int frac) in
  let '(whole, frac) :=
    if SFltb half diff then
      let frac := u64 (frac + 1) in
      if SFleb scale (of_int frac) then (i32 (whole + 1), 0) else (whole, frac)
    else if SFltb diff half then (whole, frac)
    else if (frac =? 0) || Z.testbit frac 0 then (whole, u64 (frac + 1)) else (whole, frac) in
  if prec =? 0 then
    let diff := dsub value (of_int whole) in
    if (negb (SFltb diff half) || SFltb half diff) && Z.testbit whole 0 then (i32 (whole + 1), frac) else (whole, frac)
  else (whole, frac).

(** The decimal exponent of a positive [value] and the power of ten it stands for. *)
Definition decimal_exponent (value : double) : Z * double :=
  let U := double_bits value in
  let exp2 := Z.land (Z.shiftr U 52) 0x7ff - 1023 in
  let F := bits_double (Z.lor (Z.land U (2 ^ 52 - 1)) (Z.shiftl 1023 52)) in
  let expval := i32 (trunc (dadd (dadd (lit 1760912590558 13) (dmul (of_int exp2) (lit 301029995663981 15)))
                                 (dmul (dsub F (lit 15 1)) (lit 289529654602168 15)))) in
  let exp2 := i32 (trunc (dadd (dmul (of_int expval) (lit 3321928094887362 15)) half)) in
  let z := dsub (dmul (of_int expval) (lit 2302585092994046 15)) (dmul (of_int exp2) (lit 6931471805599453 16)) in
  let z2 := dmul z z in
  let F := bits_double (u64 (Z.shiftl (u64 (exp2 + 1023)) 52)) in
  let F := dmul F (dadd (of_int 1) (ddiv (dmul (of_int 2) z)
             (dadd (dsub (of_int 2) z) (ddiv z2 (dadd (of_int 6) (ddiv z2 (dadd (of_int 10) (ddiv z2 (of_int 14))))))))) in
  if SFltb value F then (expval - 1, ddiv F (of_int 10)) else (expval, F).

(** Precision, flags, width and value of the exponent field: [%g] may fall back to [%f]. *)
Definition adapt_exponent (value : double) (prec flags expval : Z) : Z * Z * Z * Z :=
  let minwidth := if (expval <? 100) && (-100 <? expval) then 4 else 5 in
  if negb (has flags FLAGS_ADAPT_EXP) then (prec, flags, minwidth, expval)
  else if SFleb (lit 1 4) value && SFltb value (of_int (10 ^ 6)) then
    (if expval <? i32 prec then u32 (i32 prec - expval - 1) else 0, Z.lor flags FLAGS_PRECISION, 0, 0)
  else (if (0 <? prec) && has flags FLAGS_PRECISION then prec - 1 else prec, flags, minwidth, expval).

(** [_etoa]; the call back into [_ftoa] is an argument. *)
Definition etoa_with (ftoa : sink → double → Z → Z → Z → res sink) o (value : double) (prec width flags : Z) : res sink :=
  if is_nan value || SFltb DBL_MAX value || SFltb value (SFopp DBL_MAX) then ftoa o value prec width flags else
  let negative := SFltb value (of_int 0) in
  let value := if negative then SFopp value else value in
  let prec := if has flags FLAGS_PRECISION then prec else DEFAULT_FLOAT_PRECISION in
  let '(expval, F) := decimal_exponent value in
  let '(prec, flags, minwidth, expval) := adapt_exponent value prec flags expval in
  let fwidth := if minwidth <? width then width - minwidth else 0 in
  let fwidth := if has flags FLAGS_LEFT && negb (minwidth =? 0) then 0 else fwidth in
  let value := if expval =? 0 then value else ddiv value F in
  let start_idx := o.1 in
  o ← ftoa o (if negative then SFopp value else value) prec fwidth (clear flags FLAGS_ADAPT_EXP);
  if minwidth =? 0 then Ok o else
  let o := put (if has flags FLAGS_UPPERCASE then 69 else 101) o in
  let o := _ntoa_long o (Z.abs expval) (expval <? 0) 10 0 (minwidth - 1) (Z.lor FLAGS_ZEROPAD FLAGS_PLUS) in
  Ok (if has flags FLAGS_LEFT then pad_to (Z.to_nat width) start_idx width o else o).

(** Every call of [_ftoa] from [_etoa] is on a special value or on one below [printfMAX_FLOAT]. *)
Fixpoint _ftoa (fuel : nat) o (value : double) (prec width flags : Z) : res sink :=
  if is_nan value then Ok (_out_rev o (bytes_of "nan") width flags) else
  if SFltb value (SFopp DBL_MAX) then Ok (_out_rev o (bytes_of "fni-") width flags) else
  if SFltb DBL_MAX value then
    Ok (_out_rev o (if has flags FLAGS_PLUS then bytes_of "fni+" else bytes_of "fni") width flags) else
  if SFltb (of_int (10 ^ 9)) value || SFltb value (SFopp (of_int (10 ^ 9))) then
    match fuel with O => NoFuel | Datatypes.S fuel => etoa_with (_ftoa fuel) o value prec width flags end else
  let negative := SFltb value (of_int 0) in
  let value := if negative then dsub (of_int 0) value else value in
  let prec := if has flags FLAGS_PRECISION then prec else DEFAULT_FLOAT_PRECISION in
  let zeros := Nat.min (Z.to_nat (prec - 9)) FTOA_BUFFER_SIZE in
  let buf := replicate zeros 48 in
  let prec := prec - Z.of_nat zeros in
  scale ← deref (pow10 !! Z.to_nat prec);
  let '(whole, frac) := split_double value scale prec in
  let buf :=
    if prec =? 0 then buf else
    let ds := dec_digits (FTOA_BUFFER_SIZE - length buf) frac in
    let buf := buf ++ ds in
    let count := u32 (prec - zlen ds) in
    let buf := buf ++ replicate (Nat.min (FTOA_BUFFER_SIZE - length buf) (Z.to_nat count)) 48 in
    room FTOA_BUFFER_SIZE buf 46 in
  let buf := buf ++ dec_digits (FTOA_BUFFER_SIZE - length buf) whole in
  let '(buf, width) :=
    if negb (has flags FLAGS_LEFT) && has flags FLAGS_ZEROPAD then
      let width := if negb (width =? 0) && (negative || has flags (Z.lor FLAGS_PLUS FLAGS_SPACE)) then width - 1 else width in
      (buf ++ replicate (Nat.min (Z.to_nat width) FTOA_BUFFER_SIZE - length buf) 48, width)
    else (buf, width) in
  let buf := if negative then room FTOA_BUFFER_SIZE buf 45
             else if has flags FLAGS_PLUS then room FTOA_BUFFER_SIZE buf 43
             else if has flags FLAGS_SPACE then room FTOA_BUFFER_SIZE buf 32 else buf in
  Ok (_out_rev o buf width flags).
Definition _etoa := etoa_with (_ftoa 1).

(** *** Directives *)

Definition int_base (c : Z) : Z :=
  if (c =? 120) || (c =? 88) then 16 else if c =? 111 then 8 else if c =? 98 then 2 else 10.
Definition int_flags (c flags : Z) : Z :=
  let flags := if int_base c =? 10 then clear flags FLAGS_HASH else flags in
  let flags := if c =? 88 then Z.lor flags FLAGS_UPPERCASE else flags in
  let flags := if negb (c =? 105) && negb (c =? 100) then clear flags (Z.lor FLAGS_PLUS FLAGS_SPACE) else flags in
  if has flags FLAGS_PRECISION then clear flags FLAGS_ZEROPAD else flags.

Definition conv_int o (c : Z) (va : list arg) (flags precision width : Z) : res (sink * list arg) :=
  let base := int_base c in
  let flags := int_flags c flags in
  '(raw, va) ← va_int va;
  if (c =? 105) || (c =? 100) then
    if has flags FLAGS_LONG_LONG then
      let value := i64 raw in
      Ok (_ntoa_long_long o (u64 (if 0 <? value then value else 0 - value)) (value <? 0) base precision width flags, va)
    else if has flags FLAGS_LONG then
      let value := i64 raw in
      Ok (_ntoa_long o (u64 (if 0 <? value then value else 0 - value)) (value <? 0) base precision width flags, va)
    else
      let value := if has flags FLAGS_CHAR then iN 8 raw else if has flags FLAGS_SHORT then iN 16 raw else i32 raw in
      Ok (_ntoa_long o (u32 (if 0 <? value then value else 0 - value)) (value <? 0) base precision width flags, va)
  else
    if has flags FLAGS_LONG_LONG then Ok (_ntoa_long_long o (u64 raw) false base precision width flags, va)
    else if has flags FLAGS_LONG then Ok (_ntoa_long o (u64 raw) false base precision width flags, va)
    else
      let value := if has flags FLAGS_CHAR then u8 raw else if has flags FLAGS_SHORT then u16 raw else u32 raw in
      Ok (_ntoa_long o value false base precision width flags, va).

Definition conv_char o (va : list arg) (flags width : Z) : res (sink * list arg) :=
  let pad := Z.to_nat (width - 1) in
  let o := if has flags FLAGS_LEFT then o else spaces pad o in
  '(c, va) ← va_int va;
  let o := put (u8 c) o in
  Ok (if has flags FLAGS_LEFT then spaces pad o else o, va).

Definition conv_str o (va : list arg) (flags precision width : Z) : res (sink * list arg) :=
  '(p, va) ← va_str va;
  let p := default (bytes_of "(null)") p in
  let l := u32 (_strnlen_s p (if precision =? 0 then 2 ^ 64 - 1 else precision)) in
  let l := if has flags FLAGS_PRECISION then Z.min l precision else l in
  let pad := Z.to_nat (width - l) in
  let o := if has flags FLAGS_LEFT then o else spaces pad o in
  let o := puts (if has flags FLAGS_PRECISION then take (Z.to_nat precision) p else p) o in
  Ok (if has flags FLAGS_LEFT then spaces pad o else o, va).

Definition conv_ptr o (va : list arg) (flags precision : Z) : res (sink * list arg) :=
  '(raw, va) ← va_int va;
  Ok (_ntoa_long_long o (u64 raw) false 16 precision 16 (Z.lor flags (Z.lor FLAGS_ZEROPAD FLAGS_UPPERCASE)), va).

Definition is_int_conv (c : Z) : bool :=
  (c =? 100) || (c =? 105) || (c =? 117) || (c =? 120) || (c =? 88) || (c =? 111) || (c =? 98).

(** The specifier [c]. *)
Definition convert o (c : Z) (va : list arg) (flags precision width : Z) : res (sink * list arg) :=
  if is_int_conv c then conv_int o c va flags precision width
  else if (c =? 102) || (c =? 70) then
    '(d, va) ← va_double va;
    o ← _ftoa 2 o d precision width (if c =? 70 then Z.lor flags FLAGS_UPPERCASE else flags); Ok (o, va)
  else if (c =? 101) || (c =? 69) || (c =? 103) || (c =? 71) then
    let flags := if (c =? 103) || (c =? 71) then Z.lor flags FLAGS_ADAPT_EXP else flags in
    let flags := if (c =? 69) || (c =? 71) then Z.lor flags FLAGS_UPPERCASE else flags in
    '(d, va) ← va_double va; o ← _etoa o d precision width flags; Ok (o, va)
  else if c =? 99 then conv_char o va flags width
  else if c =? 115 then conv_str o va flags precision width
  else if c =? 112 then conv_ptr o va flags precision
  else Ok (put c o, va).

(** The loop over the format; a format that ends inside a directive is read past its terminator. *)
Fixpoint vs_loop (fuel : nat) (format : list Z) (va : list arg) o : res sink :=
  match format with
  | [] => Ok o
  | c :: format =>
      match fuel with
      | O => NoFuel
      | Datatypes.S fuel =>
          if negb (c =? 37) then vs_loop fuel format va (put c o) else
          let '(flags, format) := flags_loop format 0 in
          '(flags, width, format, va) ← width_field format va flags;
          '(flags, precision, format, va) ← precision_field format va flags;
          let '(flags, format) := length_field format flags in
          match format with
          | [] => Fault
          | c :: format => '(o, va) ← convert o c va flags precision width; vs_loop fuel format va o
          end
      end
  end.
End Out.

Definition _out_null {S} (c : Z) (s : S) (idx maxlen : Z) : S := s.

Definition _vsnprintf {S} (out : Z → S → Z → Z → S) (null : bool) (maxlen : Z) (format : list Z) (va : list arg) (s : S)
    : res (Z * S) :=
  let out := if null then _out_null else out in
  o ← vs_loop out maxlen (length format) format va (0, s);
  let '(idx, s) := o in
  Ok (i32 idx, out 0 s (if idx <? maxlen then idx else u64 (maxlen - 1)) maxlen).

(** ** Output functions and entry points *)

Definition _out_buffer (buffer : Z) (c : Z) (m : mem) (idx maxlen : Z) : mem :=
  if idx <? maxlen then store8 m (u64 (buffer + idx)) c else m.
(** [_out_char], [_out_char2] and [_out_fct]: a device that takes characters other than 0. *)
Definition _out_char {S} (putchar : Z → S → S) (c : Z) (s : S) (idx maxlen : Z) : S :=
  if c =? 0 then s else putchar c s.

Definition vsnprintf (m : mem) (buffer count : Z) (format : list Z) (va : list arg) : res (Z * mem) :=
  _vsnprintf (_out_buffer buffer) (buffer =? 0) count format va m.
Definition snprintf (m : mem) (buffer count : Z) (format : list Z) (va : list arg) : res (Z * mem) :=
  _vsnprintf (_out_buffer buffer) (buffer =? 0) count format va m.
Definition sprintf (m : mem) (buffer : Z) (format : list Z) (va : list arg) : res (Z * mem) :=
  _vsnprintf (_out_buffer buffer) (buffer =? 0) (2 ^ 64 - 1) format va m.
Definition vfctprintf {S} (out : Z → S → S) (s : S) (format : list Z) (va : list arg) : res (Z * S) :=
  _vsnprintf (_out_char out) false (2 ^ 64 - 1) format va s.
Definition fctprintf {S} (out : Z → S → S) (s : S) (format : list Z) (va : list arg) : res (Z * S) :=
  vfctprintf out s format va.
(** The console ([con_putc]) and the serial port ([sputc]) are devices. *)
Definition vprintf {S} (con_putc : Z → S → S) (s : S) (format : list Z) (va : list arg) : res (Z * S) :=
  _vsnprintf (_out_char con_putc) false (2 ^ 64 - 1) format va s.
Definition printf {S} (con_putc : Z → S → S) (s : S) (format : list Z) (va : list arg) : res (Z * S) :=
  _vsnprintf (_out_char con_putc) false (2 ^ 64 - 1) format va s.
Definition vprintf2 {S} (sputc : Z → S → S) (s : S) (format : list Z) (va : list arg) : res (Z * S) :=
  _vsnprintf (_out_char sputc) false (2 ^ 64 - 1) format va s.

(** ** Examples *)

(** What is printed to a device that records it. *)
Definition printed (format : string) (va : list arg) : res (list Z) :=
  '(_, l) ← vfctprintf (λ c l, l ++ [c]) [] (bytes_of format) va; Ok l.

Example print_ints :
  printed "%d|%5d|%-5d|%05d|%+d|%x|%#X|%o|%hhu|%lld" (map AInt [-42; 7; 7; -7; 3; 255; 255; 8; 300; -1]) =
  Ok (bytes_of "-42|    7|7    |-0007|+3|ff|0XFF|10|44|-1").
Proof. vm_compute. reflexivity. Qed.
Example print_text : printed "%s %.2s%% %3c %p" [AStr (bytes_of "abc"); AStr (bytes_of "abc"); AInt 65; AInt 0xdead] =
  Ok (bytes_of "abc ab%   A 000000000000DEAD").
Proof. vm_compute. reflexivity. Qed.
Example print_doubles : printed "%f %.2f %e %g %.0f" (map ADouble [lit 314159265 8; lit (-2675) 3; lit 12345678 3; lit 25 5; lit 15 1]) =
  Ok (bytes_of "3.141593 -2.67 1.234568e+04 0.000250000 2").
Proof. vm_compute. reflexivity. Qed.
