(* ===== verification/PrintfSpec.v ===== *)
(** What formatted output produces, whatever it is written to: the output function only ever sees
    one list of characters, in order.  From this: a bounded buffer holds the truncated output, and
    printing a number and reading it back with the parsers of [util/string.hh] is the identity. *)
From S2P Require Import Prelude Arith Mem Strings Printf.

(** ** Two sinks *)

(** Runs that end the same way, with related results. *)
Definition res_rel {A B} (P : A → B → Prop) (r1 : res A) (r2 : res B) : Prop :=
  match r1, r2 with
  | Ok a, Ok b => P a b
  | Fatal s, Fatal s' => s = s'
  | Fault, Fault | Hang, Hang | NoFuel, NoFuel => True
  | _, _ => False
  end.

Lemma res_rel_bind {A B A' B'} (P : A → B → Prop) (Q : A' → B' → Prop) r1 r2 k1 k2 :
  res_rel P r1 r2 → (∀ a b, P a b → res_rel Q (k1 a) (k2 b)) → res_rel Q (r1 ≫= k1) (r2 ≫= k2).
Proof. destruct r1, r2; simpl; eauto; done. Qed.
Lemma res_rel_same {A A' B'} (Q : A' → B' → Prop) (r : res A) k1 k2 :
  (∀ a, res_rel Q (k1 a) (k2 a)) → res_rel Q (r ≫= k1) (r ≫= k2).
Proof. destruct r; simpl; auto. Qed.

Section Sim.
Context {S1 S2 : Type} (out1 : Z → S1 → Z → Z → S1) (max1 : Z) (out2 : Z → S2 → Z → Z → S2) (max2 : Z).
Context (R : Z → S1 → S2 → Prop).
Hypothesis Hout : ∀ c i s1 s2, R i s1 s2 → R (u64 (i + 1)) (out1 c s1 i max1) (out2 c s2 i max2).

Definition sim (o1 : Z * S1) (o2 : Z * S2) : Prop := o1.1 = o2.1 ∧ R o1.1 o1.2 o2.2.
Definition sim_va (r1 : (Z * S1) * list arg) (r2 : (Z * S2) * list arg) : Prop := sim r1.1 r2.1 ∧ r1.2 = r2.2.

Lemma put_sim c o1 o2 : sim o1 o2 → sim (put out1 max1 c o1) (put out2 max2 c o2).
Proof using Hout. intros [E H]. unfold put, sim. simpl. rewrite <- E. auto. Qed.
Lemma spaces_sim n : ∀ o1 o2, sim o1 o2 → sim (spaces out1 max1 n o1) (spaces out2 max2 n o2).
Proof using Hout. induction n; intros; cbn [spaces]; [done|]. auto using put_sim. Qed.
Lemma puts_sim l : ∀ o1 o2, sim o1 o2 → sim (puts out1 max1 l o1) (puts out2 max2 l o2).
Proof using Hout. induction l; intros; cbn [puts]; [done|]. auto using put_sim. Qed.
Lemma pad_to_sim n start w : ∀ o1 o2, sim o1 o2 → sim (pad_to out1 max1 n start w o1) (pad_to out2 max2 n start w o2).
Proof using Hout.
  induction n; intros o1 o2 H; cbn [pad_to]; [done|]. destruct (H) as [-> _]. case_match; auto using put_sim.
Qed.
Lemma out_rev_sim buf w f o1 o2 : sim o1 o2 → sim (_out_rev out1 max1 o1 buf w f) (_out_rev out2 max2 o2 buf w f).
Proof using Hout.
  intros H. unfold _out_rev. destruct (H) as [-> _]. repeat case_match; auto using spaces_sim, puts_sim, pad_to_sim.
Qed.
Lemma ntoa_format_sim buf neg b p w f o1 o2 : sim o1 o2 →
  sim (_ntoa_format out1 max1 o1 buf neg b p w f) (_ntoa_format out2 max2 o2 buf neg b p w f).
Proof using Hout. intros H. unfold _ntoa_format. case_match. by apply out_rev_sim. Qed.
Lemma ntoa_long_sim v neg b p w f o1 o2 : sim o1 o2 →
  sim (_ntoa_long out1 max1 o1 v neg b p w f) (_ntoa_long out2 max2 o2 v neg b p w f).
Proof using Hout. intros H. by apply ntoa_format_sim. Qed.
Lemma ntoa_long_long_sim v neg b p w f o1 o2 : sim o1 o2 →
  sim (_ntoa_long_long out1 max1 o1 v neg b p w f) (_ntoa_long_long out2 max2 o2 v neg b p w f).
Proof using Hout. intros H. by apply ntoa_format_sim. Qed.

Lemma etoa_with_sim ftoa1 ftoa2 v p w f o1 o2 :
  (∀ v p w f o1 o2, sim o1 o2 → res_rel sim (ftoa1 o1 v p w f) (ftoa2 o2 v p w f)) → sim o1 o2 →
  res_rel sim (etoa_with out1 max1 ftoa1 o1 v p w f) (etoa_with out2 max2 ftoa2 o2 v p w f).
Proof using Hout.
  intros IH H. unfold etoa_with. case_match; [by apply IH|]. cbv zeta. destruct (decimal_exponent _) as [e F].
  destruct (adapt_exponent _ _ _ _) as [[[??]?]?]. destruct (H) as [-> _].
  eapply res_rel_bind; [by apply IH|]. intros x y Hxy. case_match; [done|].
  simpl. repeat case_match; auto using ntoa_long_sim, pad_to_sim, put_sim.
Qed.
Lemma ftoa_sim fuel : ∀ v p w f o1 o2, sim o1 o2 →
  res_rel sim (_ftoa out1 max1 fuel o1 v p w f) (_ftoa out2 max2 fuel o2 v p w f).
Proof using Hout.
  induction fuel as [|fuel IH]; intros v p w f o1 o2 H; cbn [_ftoa]; repeat (case_match; [by apply out_rev_sim|]).
  all: case_match; [by try apply etoa_with_sim|].
  all: cbv zeta; apply res_rel_same; intros scale; destruct (split_double _ _ _) as [??];
    match goal with |- context [match ?E with pair _ _ => _ end] => destruct E as [??] end; by apply out_rev_sim.
Qed.
Lemma etoa_sim v p w f o1 o2 : sim o1 o2 → res_rel sim (_etoa out1 max1 o1 v p w f) (_etoa out2 max2 o2 v p w f).
Proof using Hout. intros H. apply etoa_with_sim; [|done]. intros. by apply ftoa_sim. Qed.

Lemma convert_sim c va f p w o1 o2 : sim o1 o2 →
  res_rel sim_va (convert out1 max1 o1 c va f p w) (convert out2 max2 o2 c va f p w).
Proof using Hout.
  intros H. unfold convert, conv_int, conv_char, conv_str, conv_ptr.
  repeat first [apply res_rel_same; intros [??] | case_match | eapply res_rel_bind; [by apply ftoa_sim|]; intros
    | eapply res_rel_bind; [by apply etoa_sim|]; intros];
  (split; [cbn [fst]|done]); auto using ntoa_long_sim, ntoa_long_long_sim, put_sim, spaces_sim, puts_sim.
Qed.

Lemma vs_loop_sim fuel : ∀ format va o1 o2, sim o1 o2 →
  res_rel sim (vs_loop out1 max1 fuel format va o1) (vs_loop out2 max2 fuel format va o2).
Proof using Hout.
  induction fuel as [|fuel IH]; intros [|c format] va o1 o2 H; cbn [vs_loop]; try done.
  case_match; [by apply IH, put_sim|]. case_match. apply res_rel_same; intros [[[??]?]?].
  apply res_rel_same; intros [[[??]?]?]. case_match. case_match; [done|].
  eapply res_rel_bind; [by apply convert_sim|]. intros [??] [??] [??]. simpl in *. subst. by apply IH.
Qed.
End Sim.

(** ** The output *)

(** The characters a format and its arguments stand for. *)
Definition output (format : list Z) (va : list arg) : res (list Z) :=
  o ← vs_loop (λ c l _ _, l ++ [c]) 0 (length format) format va (0, []); Ok o.2.

(** Memory [m] with the characters [l] at [a]. *)
Definition written (m : mem) (a : Z) (l : list Z) : mem :=
  λ x, if a <=? x then match l !! Z.to_nat (x - a) with Some c => u8 c | None => m x end else m x.

Lemma written_nil m a x : written m a [] x = m x.
Proof. unfold written. by destruct (a <=? x). Qed.

(** Storing behind the characters, or over the last of them. *)
Lemma written_store m a l r c x : 
  store8 (written m a (l ++ r)) (a + zlen l) c x = written m a (l ++ c :: tail r) x.
Proof.
  unfold store8, written. case (Z.eqb_spec x (a + zlen l)) as [->|Hx].
  - rewrite (proj2 (Z.leb_le a (a + zlen l))) by lia. replace (Z.to_nat (a + zlen l - a)) with (length l) by lia.
    by rewrite list_lookup_middle.
  - case (Z.leb_spec a x) as [Ha|]; [|done]. destruct (decide (Z.to_nat (x - a) < length l)%nat).
    + by rewrite !lookup_app_l by done.
    + rewrite !lookup_app_r by lia. destruct (Z.to_nat (x - a) - length l)%nat as [|k] eqn:Ek; [lia|].
      destruct r; [by rewrite !lookup_nil|done].
Qed.

Section Buffer.
Context (m0 : mem) (buffer maxlen N : Z).
Hypothesis Hbuf : 0 ≤ buffer.
Hypothesis Hmax : 0 ≤ maxlen.
Hypothesis HN : N < 2 ^ 64 - 1.
Hypothesis Hfit : buffer + Z.min maxlen (N + 1) ≤ 2 ^ 64.

(** As long as the output has at most [N] characters, the buffer holds its first [maxlen]. *)
Definition buffered (i : Z) (m : mem) (l : list Z) : Prop :=
  zlen l ≤ N → i = zlen l ∧ ∀ x, m x = written m0 buffer (take (Z.to_nat maxlen) l) x.

Lemma out_buffer_step c i m l : buffered i m l →
  buffered (u64 (i + 1)) (_out_buffer buffer c m i maxlen) (l ++ [c]).
Proof using Hbuf Hmax HN Hfit.
  intros H Hl. rewrite length_app in Hl. simpl in Hl. destruct H as [-> Hm]; [lia|]. split.
  - rewrite length_app. simpl. u_small. lia.
  - intros x. unfold _out_buffer. case (Z.ltb_spec (zlen l) maxlen) as [Hlt|Hge].
    + rewrite uN_small by (unfold is_uN; lia). rewrite take_ge by (rewrite length_app; simpl; lia).
      rewrite <- (written_store m0 buffer l [] c). rewrite app_nil_r. unfold store8. case_match; [done|].
      rewrite Hm. by rewrite take_ge by lia.
    + rewrite take_app_le by lia. apply Hm.
Qed.
End Buffer.

(** What ends up in a buffer of [count] bytes. *)
Lemma vsnprintf_buffer m buffer count format va l :
  0 < buffer → 0 < count < 2 ^ 64 → output format va = Ok l → zlen l < 2 ^ 64 - 1 →
  buffer + Z.min count (zlen l + 1) ≤ 2 ^ 64 →
  ∃ m', vsnprintf m buffer count format va = Ok (i32 (zlen l), m') ∧
    ∀ x, m' x = written m buffer (take (Z.to_nat (count - 1)) l ++ [0]) x.
Proof.
  intros Hb Hc Ho Hl Hfit. unfold output in Ho. apply bind_Ok in Ho as ([i0 l0] & Ho & E). injection E as <-.
  simpl in Hl, Hfit. unfold vsnprintf, _vsnprintf. replace (buffer =? 0) with false by lia.
  pose proof (vs_loop_sim (_out_buffer buffer) count (λ c l _ _, l ++ [c]) 0 (buffered m buffer count (zlen l0))
    (out_buffer_step m buffer count (zlen l0) ltac:(lia) ltac:(lia) Hl Hfit)
    (length format) format va (0, m) (0, [])) as Hsim.
  rewrite Ho in Hsim. specialize (Hsim ltac:(split; [done|]; intros _; split; [done|]; intros x; cbn [fst snd]; by rewrite take_nil, written_nil)).
  destruct (vs_loop (_out_buffer buffer) count _ _ _ _) as [[i m1]| | | |]; try done. destruct Hsim as [Ei Hs].
  simpl in Ei, Hs. destruct Hs as [-> Hm]; [lia|]. cbn [mbind res_bind]. eexists. split; [done|]. intros x.
  unfold _out_buffer. case (Z.ltb_spec (zlen l0) count) as [Hlt|Hge].
  - replace (zlen l0 <? count) with true by lia. rewrite uN_small by (unfold is_uN; lia).
    rewrite (take_ge l0) by lia. rewrite <- (written_store m buffer l0 [] 0), app_nil_r. unfold store8.
    case_match; [done|]. rewrite Hm. by rewrite take_ge by lia.
  - rewrite (uN_small _ (count - 1)) by (unfold is_uN; lia). replace (count - 1 <? count) with true by lia.
    rewrite uN_small by (unfold is_uN; lia). set (k := Z.to_nat (count - 1)).
    assert (∃ c, take (Z.to_nat count) l0 = take k l0 ++ [c]) as [c Hk].
    { destruct (lookup_lt_is_Some_2 l0 k) as [c Hcc]; [lia|]. exists c.
      replace (Z.to_nat count) with (S k) by lia. by apply take_S_r. }
    assert (zlen (take k l0) = count - 1) as Hlk by (rewrite length_take; lia).
    rewrite <- (written_store m buffer (take k l0) [c] 0), Hlk, <- Hk. unfold store8. case_match; [done|]. apply Hm.
Qed.

(** ** Numbers *)

(** The digits are those of the numeral, lowest first. *)
Lemma ntoa_digits_numeral base fl : 2 ≤ base ≤ 36 → has fl FLAGS_UPPERCASE = false → ∀ f1 f2 n acc,
  (f1 ≤ f2)%nat → (0 < f1)%nat → 0 ≤ n < base ^ Z.of_nat f1 →
  digits_aux f2 base n acc = rev (ntoa_digits f1 n base fl) ++ acc.
Proof.
  intros Hb Hfl. induction f1 as [|f1 IH]; intros [|f2] n acc Hf H0 Hn; try lia. cbn [ntoa_digits digits_aux].
  rewrite Hfl. cbv zeta. change (rev (?a :: ?l)) with (rev l ++ [a]). rewrite <- app_assoc. cbn [app].
  fold (digit_chr (n `mod` base)). case (Z.eqb_spec (n / base) 0) as [E|E]; [done|].
  assert (0 ≤ n / base < base ^ Z.of_nat f1) as Hd.
  { split; [by apply Z.div_pos; lia|]. apply Z.div_lt_upper_bound; [lia|].
    rewrite Nat2Z.inj_succ, Z.pow_succ_r in Hn by lia. lia. }
  apply IH; [lia| |done]. destruct f1; [|lia]. simpl in Hd. lia.
Qed.
Lemma digits_ntoa base fl n : 8 ≤ base ≤ 16 → has fl FLAGS_UPPERCASE = false → 0 ≤ n < 2 ^ 64 →
  rev (ntoa_digits NTOA_BUFFER_SIZE n base fl) = digits base n.
Proof.
  intros Hb Hfl Hn. unfold digits. rewrite (ntoa_digits_numeral base fl ltac:(lia) Hfl NTOA_BUFFER_SIZE); [|by vm_compute; lia..|].
  - by rewrite app_nil_r.
  - split; [lia|]. apply Z.lt_le_trans with (8 ^ 32); [lia|]. apply Z.pow_le_mono_l. simpl; lia.
Qed.
Lemma ntoa_digits_short base fl n fuel : 8 ≤ base → 0 ≤ n → ∀ k, (0 < k)%nat → n < 8 ^ Z.of_nat k →
  (length (ntoa_digits fuel n base fl) ≤ k)%nat.
Proof.
  intros Hb. revert n. induction fuel as [|fuel IH]; intros n H0 k Hk Hn; simpl; [lia|].
  case (Z.eqb_spec (n / base) 0) as [E|E]; simpl; [lia|]. destruct k as [|k]; [lia|].
  rewrite Nat2Z.inj_succ, Z.pow_succ_r in Hn by lia.
  assert (0 ≤ n / base) by (apply Z.div_pos; lia).
  assert (n / base < 8 ^ Z.of_nat k) as Hlt by (apply Z.div_lt_upper_bound; [lia|]; nia).
  apply le_n_S, (IH (n / base)); [done| |done]. destruct k; [|lia]. simpl in Hlt. lia.
Qed.

(** [%lld] and its relatives: no width, no precision, no flags but the length. *)
Lemma ntoa_plain {S} (out : Z → S → Z → Z → S) maxlen o n (neg : bool) base : 8 ≤ base ≤ 16 → 0 ≤ n < 2 ^ 64 →
  _ntoa_long_long out maxlen o n neg base 0 0 (Z.lor FLAGS_LONG FLAGS_LONG_LONG) =
  puts out maxlen ((if neg then [45] else []) ++ digits base n) o.
Proof.
  intros Hb Hn. unfold _ntoa_long_long.
  set (fl := Z.lor FLAGS_LONG FLAGS_LONG_LONG).
  assert ((if n =? 0 then clear fl FLAGS_HASH else fl) = fl) as -> by (by destruct (n =? 0)).
  change (negb (has fl FLAGS_PRECISION)) with true. cbn [orb].
  pose proof (digits_ntoa base fl n Hb eq_refl Hn) as Hd.
  pose proof (ntoa_digits_short base fl n NTOA_BUFFER_SIZE ltac:(lia) ltac:(lia) 22%nat ltac:(lia) ltac:(simpl; lia)) as Hl.
  set (buf := ntoa_digits _ _ _ _) in *. unfold _ntoa_format. change (has fl FLAGS_LEFT) with false.
  change (has fl FLAGS_ZEROPAD) with false. change (has fl FLAGS_HASH) with false.
  change (has fl FLAGS_PLUS) with false. change (has fl FLAGS_SPACE) with false. cbn [negb andb Z.eqb].
  change (Z.to_nat 0 `min` NTOA_BUFFER_SIZE - length buf)%nat with 0%nat. cbn [replicate]. rewrite app_nil_r.
  unfold _out_rev. change (has fl FLAGS_LEFT) with false. change (has fl FLAGS_ZEROPAD) with false. cbn [negb andb].
  replace (Z.to_nat (0 - zlen _)) with 0%nat by lia. cbn [spaces]. f_equal. destruct neg; [|done].
  unfold room. replace (length buf <? NTOA_BUFFER_SIZE)%nat with true.
  - by rewrite rev_unit, Hd.
  - symmetry. apply Nat.ltb_lt. unfold NTOA_BUFFER_SIZE. lia.
Qed.
Lemma puts_list l : ∀ i acc, (puts (λ c l _ _, l ++ [c]) 0 l (i, acc)).2 = acc ++ l.
Proof.
  induction l as [|c l IH]; intros i acc; cbn [puts]; [by rewrite app_nil_r|]. unfold put. cbn [fst snd].
  rewrite IH. by rewrite <- app_assoc.
Qed.

Lemma i64_small v : - 2 ^ 63 ≤ v < 2 ^ 63 → i64 v = v.
Proof.
  intros Hv. unfold iN, uN. destruct (decide (0 ≤ v)).
  - rewrite Z.mod_small by lia. replace (v <? _) with true by (symmetry; apply Z.ltb_lt; simpl; lia). done.
  - rewrite <- (Z.mod_add v 1), Z.mod_small by lia.
    replace (_ <? _) with false by (symmetry; apply Z.ltb_ge; simpl; lia). lia.
Qed.
Lemma output_llu v : 0 ≤ v < 2 ^ 64 → output (bytes_of "%llu") [AInt v] = Ok (digits 10 v).
Proof.
  intros Hv. transitivity (Ok (_ntoa_long_long (λ c l _ _, l ++ [c]) 0 (0, []) (u64 v) false 10 0 0
    (Z.lor FLAGS_LONG FLAGS_LONG_LONG)).2); [reflexivity|].
  rewrite uN_small by (unfold is_uN; lia). by rewrite ntoa_plain, puts_list by lia.
Qed.
Lemma output_0xllx v : 0 ≤ v < 2 ^ 64 → output (bytes_of "0x%llx") [AInt v] = Ok (48 :: 120 :: digits 16 v).
Proof.
  intros Hv. transitivity (Ok (_ntoa_long_long (λ c l _ _, l ++ [c]) 0 (2, [48; 120]) (u64 v) false 16 0 0
    (Z.lor FLAGS_LONG FLAGS_LONG_LONG)).2); [reflexivity|].
  rewrite uN_small by (unfold is_uN; lia). by rewrite ntoa_plain, puts_list by lia.
Qed.
Lemma output_lld v : - 2 ^ 63 ≤ v < 2 ^ 63 →
  output (bytes_of "%lld") [AInt v] = Ok ((if v <? 0 then [45] else []) ++ digits 10 (Z.abs v)).
Proof.
  intros Hv. transitivity (Ok (_ntoa_long_long (λ c l _ _, l ++ [c]) 0 (0, [])
    (u64 (if 0 <? i64 v then i64 v else 0 - i64 v)) (i64 v <? 0) 10 0 0
    (Z.lor FLAGS_LONG FLAGS_LONG_LONG)).2); [reflexivity|].
  rewrite (i64_small v Hv).
  replace (u64 _) with (Z.abs v) by (destruct (Z.ltb_spec 0 v); rewrite uN_small by (unfold is_uN; lia); lia).
  by rewrite ntoa_plain, puts_list by lia.
Qed.

(** [sprintf] leaves the output as a C string. *)
Lemma sprintf_holds m buffer format va l : 0 < buffer → output format va = Ok l → cstr l → zlen l < 2 ^ 31 →
  buffer + zlen l + 1 ≤ 2 ^ 64 →
  ∃ m', sprintf m buffer format va = Ok (zlen l, m') ∧ holds m' buffer l ∧
    ∀ x, x < buffer ∨ buffer + zlen l < x → m' x = m x.
Proof.
  intros Hb Ho Hl Hlen Hfit. destruct (vsnprintf_buffer m buffer (2 ^ 64 - 1) format va l) as (m' & E & Hm); try done; try lia.
  exists m'. change (sprintf m buffer format va) with (vsnprintf m buffer (2 ^ 64 - 1) format va). rewrite E.
  assert (i32 (zlen l) = zlen l) as ->.
  { unfold iN. rewrite uN_small by (unfold is_uN; lia). by replace (zlen l <? 2 ^ (32 - 1)) with true by lia. }
  rewrite take_ge in Hm by lia. unfold written in Hm. split_and!; [done| |].
  - split; [intros i c Hi|]; rewrite Hm.
    + rewrite (proj2 (Z.leb_le buffer _)) by lia. replace (Z.to_nat _) with i by lia.
      rewrite lookup_app_l by (by eapply lookup_lt_Some). rewrite Hi. apply uN_small.
      apply (Forall_lookup_1 _ _ _ _ Hl) in Hi. unfold is_uN. lia.
    + rewrite (proj2 (Z.leb_le buffer _)) by lia. replace (Z.to_nat _) with (length l) by lia.
      by rewrite list_lookup_middle.
  - intros x Hx. rewrite Hm. case (Z.leb_spec buffer x) as [Ha|]; [|done].
    by rewrite lookup_ge_None_2 by (rewrite length_app; simpl; lia).
Qed.

Lemma digits_cstr base n : 8 ≤ base ≤ 16 → 0 ≤ n < 2 ^ 64 → cstr (digits base n) ∧ zlen (digits base n) ≤ 22.
Proof.
  intros Hb Hn. destruct (digits_spec base n ltac:(lia) Hn) as (H1 & _). split.
  - eapply Forall_impl; [exact H1|]. intros c (d & Hd & ->). destruct (digit_chr_val d); lia.
  - rewrite <- (digits_ntoa base 0) by done. rewrite length_rev.
    pose proof (ntoa_digits_short base 0 n NTOA_BUFFER_SIZE ltac:(lia) ltac:(lia) 22%nat ltac:(lia) ltac:(simpl; lia)). lia.
Qed.

(** Reading digits at 64-bit two's complement. *)
Lemma to_int_loop_horner base s : ∀ r, Forall (λ c, digit_ok base c = true) s → s ≠ [] →
  to_int_loop s base r = i64 (foldl (λ r c, r * base + digit_val c) r s).
Proof.
  assert (∀ r1 r2, u64 r1 = u64 r2 → Forall (λ c, digit_ok base c = true) s → i64 (to_int_loop s base r1) = i64 (foldl (λ r c, r * base + digit_val c) r2 s)) as Hgen.
  { induction s as [|c s IH]; intros r1 r2 Hr Hs; simpl; [by apply iN_uN|]. apply Forall_cons in Hs as [Hc Hs]. rewrite Hc.
    apply IH; [|done]. rewrite uN_iN, <- uN_add_l, uN_iN, uN_add_l. unfold uN in *. rewrite <- Zplus_mod_idemp_l.
    rewrite <- Zmult_mod_idemp_l, Hr, Zmult_mod_idemp_l. by rewrite Zplus_mod_idemp_l. }
  intros r Hs Hne. rewrite <- (Hgen r r eq_refl Hs). destruct s as [|c s]; [done|]. cbn [to_int_loop].
  apply Forall_cons in Hs as [-> Hs]. clear Hne Hgen.
  assert (∀ t, ∃ z, i64 t = t → to_int_loop s base t = i64 z) as Hi.
  { induction s as [|c' s IH]; intros t; simpl; [by exists t|]. apply Forall_cons in Hs as [-> Hs].
    destruct (IH Hs (i64 (i64 (t * base) + digit_val c'))) as [z Hz]. exists z. intros _. apply Hz. apply iN_uN, uN_iN. }
  destruct (Hi (i64 (i64 (r * base) + digit_val c))) as [z ->]; [apply iN_uN; by rewrite uN_iN|apply iN_uN, uN_iN].
Qed.

Lemma str_to_int_decimal v : - 2 ^ 63 ≤ v < 2 ^ 63 →
  str_to_int ((if v <? 0 then [45] else []) ++ digits 10 (Z.abs v)) 10 = i64 v.
Proof.
  intros Hv. assert (0 ≤ Z.abs v < 2 ^ 64) as Hn by lia. set (n := Z.abs v) in *.
  destruct (digits_spec 10 n ltac:(lia) Hn) as (H1 & H2 & H3 & H4).
  assert (to_int_loop (digits 10 n) 10 0 = i64 n) as Hl.
  { rewrite to_int_loop_horner; [by rewrite H2| |].
    - eapply Forall_impl; [exact H1|]. intros c (d & Hd & ->). by apply digit_chr_ok.
    - destruct (decide (n = 0)) as [->|]; [by rewrite H4|]. by destruct H3 as (? & ? & -> & _); [lia|]. }
  assert (match digits 10 n with 45 :: s => (true, s) | _ => (false, digits 10 n) end = (false, digits 10 n) ∧
          match digits 10 n with 48 :: 120 :: s => (16, s) | _ => (10, digits 10 n) end = (10, digits 10 n)) as [E1 E2].
  { destruct (decide (n = 0)) as [->|Hn0]; [by rewrite H4|]. destruct H3 as (d & ds & -> & Hd); [lia|].
    assert (d = 1 ∨ d = 2 ∨ d = 3 ∨ d = 4 ∨ d = 5 ∨ d = 6 ∨ d = 7 ∨ d = 8 ∨ d = 9) as Hc by lia.
    by destruct Hc as [->|[->|[->|[->|[->|[->|[->|[->| ->]]]]]]]]. }
  unfold str_to_int. destruct (Z.ltb_spec v 0); cbn [app].
  - rewrite E2, Hl. apply iN_uN. rewrite <- (uN_iN 64 v).
    assert (v = n * -1) as Hvn by lia. rewrite Hvn. unfold uN. rewrite <- Zmult_mod_idemp_l. fold (uN 64 (i64 n)).
    rewrite uN_iN. fold (uN 64 (i64 (n * -1))). rewrite uN_iN. unfold uN. by rewrite Zmult_mod_idemp_l.
  - rewrite E1, E2, Hl. f_equal. lia.
Qed.

(** ** Calls that return *)

(** What a specifier takes from the arguments. *)
Inductive takes := TInt | TStr | TDouble | TNothing.
Definition taken_by (c : Z) : takes :=
  if is_int_conv c || (c =? 99) || (c =? 112) then TInt
  else if (c =? 102) || (c =? 70) || (c =? 101) || (c =? 69) || (c =? 103) || (c =? 71) then TDouble
  else if c =? 115 then TStr else TNothing.

(** The check a compiler does for [__attribute__((format(printf, ...)))], for calls without
    floating-point conversions: every directive is complete and finds an argument of its type. *)
Fixpoint fits (fuel : nat) (format : list Z) (va : list arg) : bool :=
  match format, fuel with
  | [], _ => true
  | _ :: _, O => false
  | c :: format, S fuel =>
      if negb (c =? 37) then fits fuel format va else
      let '(flags, format) := flags_loop format 0 in
      match width_field format va flags with
      | Ok (flags, _, format, va) =>
          match precision_field format va flags with
          | Ok (flags, _, format, va) =>
              match (length_field format flags).2 with
              | [] => false
              | c :: format =>
                  match taken_by c, va with
                  | TInt, AInt _ :: va | TStr, AStr _ :: va => fits fuel format va
                  | TNothing, va => fits fuel format va
                  | _, _ => false
                  end
              end
          | _ => false
          end
      | _ => false
      end
  end.

Lemma flags_loop_length s : ∀ f, (length (flags_loop s f).2 ≤ length s)%nat.
Proof. induction s as [|c s IH]; intros f; simpl; [lia|]. case_match; simpl; [|lia]. pose proof (IH (Z.lor f z)). lia. Qed.
Lemma atoi_length s : ∀ i, (length (_atoi_loop s i).2 ≤ length s)%nat.
Proof. induction s as [|c s IH]; intros i; simpl; [lia|]. case_match; simpl; [|lia]. pose proof (IH (u32 (i * 10 + (c - 48)))). lia. Qed.
Lemma tail_length {A} (s : list A) : (length (tail s) ≤ length s)%nat.
Proof. destruct s; simpl; lia. Qed.
Lemma width_field_length s va f r : width_field s va f = Ok r → (length r.1.2 ≤ length s)%nat.
Proof.
  unfold width_field, _atoi. pose proof (atoi_length s 0). pose proof (tail_length s).
  destruct (_is_digit _); [|destruct (_ =? _)]; intros E; [|apply bind_Ok in E as ([??] & _ & E)|].
  - destruct (_atoi_loop s 0). by injection E as <-.
  - by injection E as <-.
  - by injection E as <-.
Qed.
Lemma precision_field_length s va f r : precision_field s va f = Ok r → (length r.1.2 ≤ length s)%nat.
Proof.
  unfold precision_field, _atoi. pose proof (atoi_length (tail s) 0). pose proof (tail_length s).
  pose proof (tail_length (tail s)). destruct (_ =? _); [|intros E; by injection E as <-].
  destruct (_is_digit _); [|destruct (_ =? _)]; intros E; [|apply bind_Ok in E as ([??] & _ & E)|].
  - destruct (_atoi_loop _ 0). injection E as <-. simpl in *. lia.
  - injection E as <-. simpl. lia.
  - injection E as <-. simpl. lia.
Qed.
Lemma length_field_length s f : (length (length_field s f).2 ≤ length s)%nat.
Proof.
  unfold length_field. pose proof (tail_length s). pose proof (tail_length (tail s)).
  repeat case_match; simpl; lia.
Qed.

(** The length of the format is fuel enough: more changes nothing. *)
Lemma fits_fuel f1 : ∀ f2 format va, (length format ≤ f1)%nat → (length format ≤ f2)%nat → fits f1 format va = fits f2 format va.
Proof.
  induction f1 as [|f1 IH]; intros [|f2] [|c format] va H1 H2; simpl in *; try lia; try done.
  destruct (negb (c =? 37)); [apply IH; lia|]. pose proof (flags_loop_length format 0) as Hl.
  destruct (flags_loop format 0) as [fl fmt].
  destruct (width_field fmt va fl) as [[[[fl1 w] fmt1] va1]| | | |] eqn:Ew; try done. apply width_field_length in Ew.
  destruct (precision_field fmt1 va1 fl1) as [[[[fl2 p] fmt2] va2]| | | |] eqn:Ep; try done. apply precision_field_length in Ep.
  pose proof (length_field_length fmt2 fl2) as Hlen. simpl in *.
  destruct (length_field fmt2 fl2).2 as [|c' fmt3]; [done|]. simpl in Hlen.
  destruct (taken_by c'), va2 as [|[] va2]; try done; apply IH; lia.
Qed.

(** A conversion that finds its argument succeeds. *)
Lemma convert_Ok {S} (out : Z → S → Z → Z → S) maxlen o c va f p w :
  match taken_by c, va with
  | TInt, AInt _ :: va' | TStr, AStr _ :: va' => ∃ o', convert out maxlen o c va f p w = Ok (o', va')
  | TNothing, _ => ∃ o', convert out maxlen o c va f p w = Ok (o', va)
  | _, _ => True
  end.
Proof.
  unfold taken_by, convert, conv_int, conv_char, conv_str, conv_ptr.
  destruct (is_int_conv c); cbn [orb].
  { destruct va as [|[]]; try done. simpl. repeat case_match; by eexists. }
  destruct (c =? 99) eqn:E99; cbn [orb].
  { apply Z.eqb_eq in E99 as ->. destruct va as [|[]]; try done. simpl. by eexists. }
  destruct (c =? 112) eqn:E112; cbn [orb].
  { apply Z.eqb_eq in E112 as ->. destruct va as [|[]]; try done. simpl. by eexists. }
  destruct (c =? 102), (c =? 70), (c =? 101), (c =? 69), (c =? 103), (c =? 71); cbn [orb]; try done.
  destruct (c =? 115); [|by eexists]. destruct va as [|[]]; try done. simpl. by eexists.
Qed.

Lemma vs_loop_Ok {S} (out : Z → S → Z → Z → S) maxlen fuel : ∀ format va o,
  fits fuel format va = true → ∃ o', vs_loop out maxlen fuel format va o = Ok o'.
Proof.
  induction fuel as [|fuel IH]; intros [|c format] va o Hf; cbn [vs_loop fits] in *; try done; [by eexists..|].
  destruct (negb (c =? 37)); [by apply IH|]. destruct (flags_loop format 0) as [fl fmt].
  destruct (width_field fmt va fl) as [[[[fl1 w] fmt1] va1]| | | |]; try done. cbn [mbind res_bind].
  destruct (precision_field fmt1 va1 fl1) as [[[[fl2 p] fmt2] va2]| | | |]; try done. cbn [mbind res_bind].
  destruct (length_field fmt2 fl2) as [fl3 [|c' fmt3]]; [done|]. cbn [snd] in Hf.
  pose proof (convert_Ok out maxlen o c' va2 fl3 p w) as Hc.
  destruct (taken_by c'), va2 as [|[] va2]; try done; destruct Hc as [o' ->]; by apply IH.
Qed.

(** The characters a device takes. *)
Definition taken {S} (putchar : Z → S → S) (s : S) (l : list Z) : S :=
  foldl (λ s c, if c =? 0 then s else putchar c s) s l.

Lemma vfctprintf_device {S} (putchar : Z → S → S) s format va l :
  output format va = Ok l → zlen l < 2 ^ 64 - 1 →
  vfctprintf putchar s format va = Ok (i32 (zlen l), taken putchar s l).
Proof.
  intros Ho Hl. unfold output in Ho. apply bind_Ok in Ho as ([i0 l0] & Ho & E). injection E as <-. simpl in Hl.
  set (P := λ i (s' : S) (l : list Z), zlen l ≤ zlen l0 → i = zlen l ∧ s' = taken putchar s l).
  assert (∀ c i s' l, P i s' l → P (u64 (i + 1)) (_out_char putchar c s' i (2 ^ 64 - 1)) (l ++ [c])) as Hstep.
  { intros c i s' l HP Hll. rewrite length_app in *. simpl in *. destruct HP as [-> ->]; [lia|].
    split; [u_small; lia|]. unfold taken, _out_char. by rewrite foldl_app. }
  pose proof (vs_loop_sim (_out_char putchar) (2 ^ 64 - 1) (λ c l _ _, l ++ [c]) 0 P Hstep
    (length format) format va (0, s) (0, [])) as Hsim.
  rewrite Ho in Hsim. specialize (Hsim ltac:(split; [done|]; by intros _)).
  unfold vfctprintf, _vsnprintf. destruct (vs_loop (_out_char putchar) _ _ _ _ _) as [[i s1]| | | |]; try done.
  destruct Hsim as [Ei Hs]. simpl in Ei, Hs. destruct Hs as [-> ->]; [lia|]. reflexivity.
Qed.

(** ** Properties *)

(** C29: a format and its arguments stand for one list of characters, whatever they are printed to:
    a device is given these characters in order, and a buffer of [count] bytes holds the first
    [count - 1] of them followed by a terminator.  Nothing outside the buffer is written, however
    long the output is, and the returned number is the length of the whole output. *)
Theorem vsnprintf_truncates m buffer count format va l :
  0 < buffer → 0 < count < 2 ^ 64 → buffer + count ≤ 2 ^ 64 →
  output format va = Ok l → zlen l < 2 ^ 31 →
  (∃ m', vsnprintf m buffer count format va = Ok (zlen l, m') ∧
    (∀ x, m' x = written m buffer (take (Z.to_nat (count - 1)) l ++ [0]) x) ∧
    (∀ x, x < buffer ∨ buffer + count ≤ x → m' x = m x)) ∧
  (∀ S (putchar : Z → S → S) s, vfctprintf putchar s format va = Ok (zlen l, taken putchar s l)).
Proof.
  intros Hb Hc Hfit Ho Hl.
  assert (i32 (zlen l) = zlen l) as Hi.
  { unfold iN. rewrite uN_small by (unfold is_uN; lia). by replace (zlen l <? 2 ^ (32 - 1)) with true by lia. }
  split.
  - destruct (vsnprintf_buffer m buffer count format va l) as (m' & E & Hm); try done; try lia.
    exists m'. rewrite E, Hi. split_and!; [done|done|]. intros x Hx. rewrite Hm. unfold written.
    case (Z.leb_spec buffer x) as [Ha|]; [|done].
    by rewrite lookup_ge_None_2 by (rewrite length_app, length_take; simpl; lia).
  - intros S putchar s. rewrite <- Hi. apply vfctprintf_device; [done|lia].
Qed.

Lemma vsnprintf_truncates_witness : output (bytes_of "%s=%d") [AStr (bytes_of "answer"); AInt 42] = Ok (bytes_of "answer=42") ∧
  ∃ m', vsnprintf (λ _, 7) 4096 5 (bytes_of "%s=%d") [AStr (bytes_of "answer"); AInt 42] = Ok (9, m') ∧ m' 4101 = 7.
Proof.
  assert (output (bytes_of "%s=%d") [AStr (bytes_of "answer"); AInt 42] = Ok (bytes_of "answer=42")) as Ho by (vm_compute; reflexivity).
  split; [exact Ho|].
  destruct (vsnprintf_truncates (λ _, 7) 4096 5 (bytes_of "%s=%d") [AStr (bytes_of "answer"); AInt 42] (bytes_of "answer=42"))
    as [(m' & H1 & _ & H3) _]; [lia|lia|lia|exact Ho|vm_compute; reflexivity|].
  exists m'. split; [exact H1|]. apply H3. right. lia.
Defined.

(** A call without floating-point conversions whose directives are complete and find arguments of
    their types always returns, whatever it prints to: there is an output. *)
Lemma printf_total format va : fits (length format) format va = true →
  ∃ l, output format va = Ok l ∧
    ∀ S (out : Z → S → Z → Z → S) null maxlen s, ∃ r, _vsnprintf out null maxlen format va s = Ok r.
Proof.
  intros Hf. destruct (vs_loop_Ok (λ c l _ _, l ++ [c]) 0 (length format) format va (0, []) Hf) as [o Ho].
  exists o.2. split; [unfold output; by rewrite Ho|]. intros S out null maxlen s. unfold _vsnprintf.
  destruct (vs_loop_Ok (if null then _out_null else out) maxlen (length format) format va (0, s) Hf) as [[i s'] ->].
  by eexists.
Qed.

Lemma printf_total_witness : fits 12 (bytes_of "%-8s|%04llx%") [AStr (bytes_of "rip"); AInt 255] = false ∧
  ∃ l, output (bytes_of "%-8s|%04llx|") [AStr (bytes_of "rip"); AInt 255] = Ok l.
Proof.
  split; [vm_compute; reflexivity|].
  destruct (printf_total (bytes_of "%-8s|%04llx|") [AStr (bytes_of "rip"); AInt 255]) as (l & H & _);
    [vm_compute; reflexivity|]. exists l. exact H.
Defined.

(** C31: printing and parsing agree.  What [sprintf] writes for [%llu] and for [0x%llx] is read
    back as the same number by [str_to_uint], for every 64-bit value, and what it writes for [%lld]
    by [str_to_int] for every signed 64-bit value, the smallest one included; only the bytes of
    the string are written. *)
Theorem sprintf_parse m buffer v : 0 < buffer → buffer + 32 ≤ 2 ^ 64 →
  (0 ≤ v < 2 ^ 64 → ∃ m' s, sprintf m buffer (bytes_of "%llu") [AInt v] = Ok (zlen s, m') ∧
    holds m' buffer s ∧ str_to_uint s 10 = Ok v ∧ ∀ x, x < buffer ∨ buffer + 32 ≤ x → m' x = m x) ∧
  (0 ≤ v < 2 ^ 64 → ∃ m' s, sprintf m buffer (bytes_of "0x%llx") [AInt v] = Ok (zlen s, m') ∧
    holds m' buffer s ∧ str_to_uint s 10 = Ok v ∧ ∀ x, x < buffer ∨ buffer + 32 ≤ x → m' x = m x) ∧
  (- 2 ^ 63 ≤ v < 2 ^ 63 → ∃ m' s, sprintf m buffer (bytes_of "%lld") [AInt v] = Ok (zlen s, m') ∧
    holds m' buffer s ∧ str_to_int s 10 = v ∧ ∀ x, x < buffer ∨ buffer + 32 ≤ x → m' x = m x).
Proof.
  intros Hb Hfit. split_and!; intros Hv.
  - destruct (digits_cstr 10 v ltac:(lia) Hv) as [Hc Hl].
    destruct (sprintf_holds m buffer _ _ _ Hb (output_llu v Hv) Hc) as (m' & E & Hh & Ho); [lia|lia|].
    exists m', (digits 10 v). split_and!; [done|done|by apply str_to_uint_decimal|]. intros x Hx. apply Ho. lia.
  - destruct (digits_cstr 16 v ltac:(lia) Hv) as [Hc Hl].
    destruct (sprintf_holds m buffer _ _ _ Hb (output_0xllx v Hv)) as (m' & E & Hh & Ho); [by repeat constructor|simpl; lia|simpl; lia|].
    exists m', (48 :: 120 :: digits 16 v). split_and!; [done|done| |intros x Hx; apply Ho; simpl; lia].
    unfold str_to_uint. cbn. f_equal. apply to_uint_digits; lia.
  - destruct (digits_cstr 10 (Z.abs v) ltac:(lia) ltac:(lia)) as [Hc Hl].
    destruct (sprintf_holds m buffer _ _ _ Hb (output_lld v Hv)) as (m' & E & Hh & Ho);
      [by destruct (v <? 0); [constructor|]|destruct (v <? 0); simpl; lia..|].
    exists m', ((if v <? 0 then [45] else []) ++ digits 10 (Z.abs v)). split_and!; [done|done| |].
    + rewrite str_to_int_decimal by done. apply i64_small. lia.
    + intros x Hx. apply Ho. destruct (v <? 0); simpl in *; lia.
Qed.

Lemma sprintf_parse_witness : ∃ m' s, sprintf (λ _, 0) 4096 (bytes_of "%lld") [AInt (- 2 ^ 63)] = Ok (zlen s, m') ∧
  str_to_int s 10 = - 2 ^ 63.
Proof.
  destruct (sprintf_parse (λ _, 0) 4096 (- 2 ^ 63)) as (_ & _ & H); [lia|lia|].
  destruct H as (m' & s & H1 & _ & H2 & _); [lia|]. exists m', s. exact (conj H1 H2).
Defined.
