(* ===== verification/Msd.v ===== *)
(** Mass storage ([devmgr/msd/msd.cc], [msd.hh]): byte-granular reads over a driver that reads
    sectors, the GPT partition table, and the GUIDs of [util/guid.hh].

    The driver is the interface [Disk]; the memory a read fills is its result, and whether the
    caller's buffer is aligned to a sector is an argument. *)
From S2P Require Import Prelude Arith Vector Strings Printf.

(** ** Little-endian fields *)

Fixpoint le_word (bytes : list Z) : Z :=
  match bytes with [] => 0 | b :: bytes => b + 256 * le_word bytes end.
(** The [n]-byte field at offset [o] of a structure in memory. *)
Definition field (bytes : list Z) (o n : nat) : Z := le_word (take n (drop o bytes)).

(** ** GUIDs *)

Record GUID := mkGuid { Data1 : Z; Data2 : Z; Data3 : Z; Data4 : list Z }.

Definition getraw (g : GUID) : Z :=
  foldl Z.lor (Z.lor (Z.lor (Data1 g) (Z.shiftl (Data2 g) 32)) (Z.shiftl (Data3 g) 48))
    (imap (λ i b, Z.shiftl b (64 + 8 * Z.of_nat i)) (Data4 g)).

Definition parse_hex_digit (c : Z) : res Z :=
  if (48 <=? c) && (c <=? 57) then Ok (c - 48)
  else if (97 <=? c) && (c <=? 102) then Ok (10 + c - 97)
  else if (65 <=? c) && (c <=? 70) then Ok (10 + c - 65)
  else Fatal "he".

(** [parse_hex<T>] for a [T] of [w] bits: [4 * (digits - i - 1)] is [4 * k]. *)
Fixpoint parse_hex_loop (w : Z) (k : nat) (ptr : list Z) (result : Z) : res Z :=
  match k with
  | O => Ok result
  | S k =>
      match ptr with
      | [] => Fault
      | c :: ptr => d ← parse_hex_digit c; parse_hex_loop w k ptr (uN w (Z.lor result (Z.shiftl d (4 * Z.of_nat k))))
      end
  end.
Definition parse_hex (w : Z) (ptr : list Z) : res Z := parse_hex_loop w (Z.to_nat (w / 4)) ptr 0.

Fixpoint parse_bytes (n : nat) (ptr : list Z) : res (list Z) :=
  match n with
  | O => Ok []
  | S n => b ← parse_hex 8 ptr; l ← parse_bytes n (drop 2 ptr); Ok (b :: l)
  end.
Definition make_guid_helper (begin : list Z) : res GUID :=
  d1 ← parse_hex 32 begin;
  let begin := drop (8 + 1) begin in
  d2 ← parse_hex 16 begin;
  let begin := drop (4 + 1) begin in
  d3 ← parse_hex 16 begin;
  let begin := drop (4 + 1) begin in
  b0 ← parse_hex 8 begin;
  let begin := drop 2 begin in
  b1 ← parse_hex 8 begin;
  let begin := drop (2 + 1) begin in
  l ← parse_bytes 6 begin;
  Ok (mkGuid d1 d2 d3 (b0 :: b1 :: l)).

(** [make_guid(str)]: with or without braces; other lengths do not compile. *)
Definition make_guid (str : list Z) : res GUID :=
  if decide (length str = 38%nat) then
    if negb (ch str =? 123) || negb (ch (drop 37 str) =? 125) then Fatal "he2" else make_guid_helper (drop 1 str)
  else if decide (length str = 36%nat) then make_guid_helper str else Fault.

(** The variable arguments and the format of [guid2string]. *)
Definition guid_format : list Z := bytes_of "%08x-%04x-%04x-%02x%02x-%02x%02x%02x%02x%02x%02x".
Definition guid_args (guid : list Z) : list arg :=
  map AInt ([field guid 0 4; field guid 4 2; field guid 6 2] ++ map (λ o, field guid o 1) (seq 8 8)).
(** [sprintf] into the 46 characters of the new string. *)
Definition guid2string (guid : list Z) : res (list Z) :=
  '(_, s) ← _vsnprintf (λ c s idx _, <[Z.to_nat idx := c]> s) false (2 ^ 64 - 1) guid_format (guid_args guid) (replicate 47 0);
  Ok (take 46 s).

Inductive PartitionType := OTHER | EFI_SYSTEM_PARTITION | MICROSOFT_BASIC_DATA | MICROSOFT_RESERVED | LINUX_FILESYSTEM.
Definition guid_const (s : string) : Z := match make_guid (bytes_of s) with Ok g => getraw g | _ => 0 end.
Definition guid2parttype (guid : list Z) : PartitionType :=
  let g := field guid 0 16 in
  if g =? guid_const "C12A7328-F81F-11D2-BA4B-00A0C93EC93B" then EFI_SYSTEM_PARTITION
  else if g =? guid_const "0FC63DAF-8483-4772-8E79-3D69D8477DE4" then LINUX_FILESYSTEM
  else if g =? guid_const "EBD0A0A2-B9E5-4433-87C0-68B6B72699C7" then MICROSOFT_BASIC_DATA
  else if g =? guid_const "E3C9E316-0B5C-4DB8-817D-F92DF00215AE" then MICROSOFT_RESERVED
  else OTHER.

(** ** The driver *)

(** [msd_call_table::read]: the bytes of [sectors] sectors from [lba] on. *)
Class Disk (D : Type) := { disk_read : D → Z → Z → res (list Z) }.

Definition bytes_at (f : Z → Z) (a : Z) (n : nat) : list Z := map (λ i, f (a + Z.of_nat i)) (seq 0 n).

(** What a driver promises: the bytes of the medium, for reads of at least one sector and at most [max_read]. *)
Class DiskLaws (D : Type) `{Disk D} := {
  medium : D → Z → Z;
  sectors : D → Z;
  max_read : D → Z;
  max_read_one : ∀ d, 1 ≤ max_read d;
  medium_byte : ∀ d a, 0 ≤ medium d a < 256;
  disk_read_Ok : ∀ d lba n, 0 ≤ lba → 0 < n ≤ max_read d → lba + n ≤ sectors d →
    disk_read d lba n = Ok (bytes_at (medium d) (lba * 512) (Z.to_nat (n * 512))) }.

(** [msd_read]; [aligned] tells whether the caller's buffer is. *)
Definition msd_read {D} `{Disk D} (d : D) (offset bytes : Z) (aligned : bool) : res (list Z) :=
  if isaligned offset 512 && isaligned bytes 512 && aligned then disk_read d (offset / 512) (bytes / 512)
  else
    bounce ← disk_read d (offset / 512) (align64 bytes 512 / 512);
    let from := drop (Z.to_nat (offset `mod` 512)) bounce in
    if zlen from <? bytes then Fault else Ok (take (Z.to_nat bytes) from).

(** ** The partition table *)

Record Partition := mkPart { ptype : PartitionType; poffset : Z; psize : Z; pname : list Z }.

(** A character array up to its terminator. *)
Fixpoint c_string (s : list Z) : res (list Z) :=
  match s with [] => Fault | c :: s => if c =? 0 then Ok [] else l ← c_string s; Ok (c :: l) end.

(** [GPTEntry] *)
Definition entry_start (e : list Z) : Z := field e 32 8.
Definition entry_end (e : list Z) : Z := field e 40 8.
Definition entry_type (e : list Z) : Z := field e 0 16.
Definition partition_of (e : list Z) : res Partition :=
  name ← c_string (drop 56 e);
  let name := take (Z.to_nat (strlen name)) name in
  Ok (mkPart OTHER (u64 (entry_start e * 512)) (u64 (u64 (u64 (entry_end e + 1) - entry_start e) * 512)) name).

(** The device's vector of partitions -- its elements, its capacity and the block of the heap they lie in -- and the pointer
    [fs_mount] was given, a block and an index in it; [None] while the static [mounted] is false. *)
Record msd_state := mkMsd { parts : list Partition; parts_cap : Z; parts_block : nat; mounted : option (nat * nat) }.
(** A device nobody has looked at. *)
Definition no_parts : msd_state := mkMsd [] 0 0 None.

(** What the mounted file system's [Partition*] points to; the block the vector has left is freed. *)
Definition mounted_part (s : msd_state) : res Partition :=
  '(b, i) ← deref (mounted s); if decide (b = parts_block s) then deref (parts s !! i) else Fault.

Section Scout.
Context {D : Type} `{Disk D}.
(** Whether [_gtryrealloc] finds room behind a vector of so many elements. *)
Context (inplace : Z → bool).

(** [parts.emplace_back] and [fs_mount] of the new element. *)
Definition emplace_part (s : msd_state) (p : Partition) : msd_state :=
  let n := zlen (parts s) in
  let s := if n <? parts_cap s then s else
    mkMsd (parts s) (growfun (parts_cap s)) (if negb (parts_cap s =? 0) && inplace n then parts_block s else S (parts_block s)) (mounted s) in
  mkMsd (parts s ++ [p]) (parts_cap s) (parts_block s)
    (match mounted s with Some m => Some m | None => Some (parts_block s, length (parts s)) end).

(** [ents] keeps its contents between the rounds. *)
Fixpoint scout_loop (k : nat) (d : D) (startlba i : Z) (ents : list Z) (s : msd_state) : res msd_state :=
  match k with
  | O => Ok s
  | S k =>
      ents ← (if i `mod` 4 =? 0 then msd_read d (u64 (u64 (startlba + alignN 32 i 4 / 4) * 512)) 512 true else Ok ents);
      let e := drop (Z.to_nat (i `mod` 4) * 128) ents in
      if entry_type e =? 0 then scout_loop k d startlba (i + 1) ents s else
      guid2string (take 16 e);;
      p ← partition_of e;
      scout_loop k d startlba (i + 1) ents (emplace_part s p)
  end.

Definition msd_scout (d : D) (s : msd_state) : res msd_state :=
  hdr ← msd_read d 512 512 true;
  if negb (bool_decide (take 8 hdr = bytes_of "EFI PART")) then Ok s else
  scout_loop (Z.to_nat (field hdr 80 4)) d (field hdr 72 8) 0 [] s.
End Scout.

(** ** Reading *)

Lemma bytes_at_length f a n : length (bytes_at f a n) = n.
Proof. unfold bytes_at. by rewrite length_map, length_seq. Qed.
Lemma bytes_at_lookup f a n i : (i < n)%nat → bytes_at f a n !! i = Some (f (a + Z.of_nat i)).
Proof. intros Hi. unfold bytes_at. rewrite list_lookup_fmap, lookup_seq_lt by done. done. Qed.
Lemma bytes_at_app f a n m : bytes_at f a (n + m) = bytes_at f a n ++ bytes_at f (a + Z.of_nat n) m.
Proof.
  unfold bytes_at. rewrite seq_app, map_app. f_equal. apply list_eq. intros i. rewrite !list_lookup_fmap.
  destruct (decide (i < m)%nat).
  - rewrite !lookup_seq_lt by done. simpl. f_equal. f_equal. lia.
  - by rewrite !lookup_seq_ge by lia.
Qed.
Lemma bytes_at_sub f a n o k : (o + k ≤ n)%nat → take k (drop o (bytes_at f a n)) = bytes_at f (a + Z.of_nat o) k.
Proof.
  intros Hok. replace n with (o + (k + (n - o - k)))%nat by lia. rewrite !bytes_at_app.
  rewrite drop_app_length' by (by rewrite bytes_at_length). by rewrite take_app_length' by (by rewrite bytes_at_length).
Qed.

Lemma bytes_at_drop f a n o : drop o (bytes_at f a n) = bytes_at f (a + Z.of_nat o) (n - o).
Proof.
  destruct (decide (o ≤ n)%nat).
  - rewrite <- (bytes_at_sub f a n o (n - o)) by lia. rewrite take_ge; [done|]. rewrite length_drop, bytes_at_length. lia.
  - rewrite drop_ge by (rewrite bytes_at_length; lia). by replace (n - o)%nat with 0%nat by lia.
Qed.
Section Reading.
Context {D : Type} `{DiskLaws D}.

Lemma medium_bytes (d : D) a n : Forall (λ b, 0 ≤ b < 256) (bytes_at (medium d) a n).
Proof. apply Forall_fmap, Forall_true. intros i. apply medium_byte. Qed.

(** The bytes asked for, unless they lie in more sectors than their number rounds up to. *)
Lemma msd_read_Ok (d : D) offset bytes aligned : 0 ≤ offset → 0 < bytes < 2 ^ 63 → align64 bytes 512 / 512 ≤ max_read d →
  offset `mod` 512 + bytes ≤ align64 bytes 512 → offset / 512 + align64 bytes 512 / 512 ≤ sectors d →
  msd_read d offset bytes aligned = Ok (bytes_at (medium d) offset (Z.to_nat bytes)).
Proof.
  intros Ho Hb Hmax Hfit Hs. pose proof (Z.div_mod offset 512) as Hd. pose proof (Z.mod_pos_bound offset 512) as Hm.
  assert (align64 bytes 512 = (bytes + 511) / 512 * 512) as Ha.
  { by rewrite alignN_exact by lia. }
  unfold msd_read. destruct (isaligned offset 512 && isaligned bytes 512 && aligned) eqn:E.
  - unfold isaligned in E.
    assert (offset `mod` 512 = 0 ∧ bytes `mod` 512 = 0) as [E1 E2] by (rewrite !andb_true_iff, !Z.eqb_eq in E; tauto).
    assert (bytes = bytes / 512 * 512) by (pose proof (Z.div_mod bytes 512); lia).
    assert (align64 bytes 512 = bytes) as Hab.
    { rewrite Ha. replace (bytes + 511) with (511 + bytes / 512 * 512) by lia.
      rewrite Z.div_add by lia. change (511 / 512) with 0. lia. }
    rewrite Hab in Hs, Hmax. rewrite disk_read_Ok; [|apply Z.div_pos; lia|lia|done]. do 2 f_equal; lia.
  - assert (0 < align64 bytes 512 / 512) by (rewrite Ha, Z.div_mul by lia; apply Z.div_str_pos; lia).
    rewrite disk_read_Ok; [|apply Z.div_pos; lia|done|done]. cbn [mbind res_bind].
    assert (align64 bytes 512 / 512 * 512 = align64 bytes 512) as -> by (rewrite Ha, Z.div_mul by lia; lia).
    rewrite length_drop, bytes_at_length. match goal with |- context [?x <? bytes] => destruct (Z.ltb_spec x bytes) as [?|_]; [lia|] end.
    rewrite bytes_at_sub by lia. do 2 f_equal. lia.
Qed.

(** Up to a sector at a time. *)
Lemma msd_read_sector (d : D) offset bytes aligned : 0 ≤ offset → 0 < bytes → offset `mod` 512 + bytes ≤ 512 → offset / 512 < sectors d →
  msd_read d offset bytes aligned = Ok (bytes_at (medium d) offset (Z.to_nat bytes)).
Proof.
  intros Ho Hb Hfit Hs. pose proof (Z.mod_pos_bound offset 512 ltac:(lia)) as Hm. pose proof (max_read_one d) as H1.
  assert (align64 bytes 512 = 512) as E.
  { rewrite alignN_exact by lia. replace (bytes + (512 - 1)) with ((bytes - 1) + 1 * 512) by lia. rewrite Z.div_add, Z.div_small by lia. done. }
  apply msd_read_Ok; rewrite ?E; change (512 / 512) with 1; lia.
Qed.
End Reading.
