(* ===== verification/MsdSpec.v ===== *)
(** Mass storage against what is on the medium: GUIDs are printed and parsed without loss, and
    scanning the partition table finds exactly the used entries. *)
From S2P Require Import Prelude Arith Strings Printf PrintfSpec Msd.

(** ** Hexadecimal fields *)

Definition hex_digit (v : Z) (i : nat) : Z := digit_chr ((v / 16 ^ Z.of_nat i) `mod` 16).
(** The [k] low digits, lowest first. *)
Definition hex_rev (k : nat) (v : Z) : list Z := map (hex_digit v) (seq 0 k).
Definition hex (k : nat) (v : Z) : list Z := rev (hex_rev k v).

Lemma hex_rev_S k v : 0 ≤ v → hex_rev (S k) v = digit_chr (v `mod` 16) :: hex_rev k (v / 16).
Proof.
  intros Hv. unfold hex_rev. cbn [seq map]. f_equal.
  - unfold hex_digit. change (16 ^ Z.of_nat 0) with 1. by rewrite Z.div_1_r.
  - rewrite <- seq_shift, map_map. apply map_ext. intros i. unfold hex_digit.
    by rewrite Nat2Z.inj_succ, Z.pow_succ_r, Z.div_div by lia.
Qed.
Lemma hex_rev_0 k : hex_rev k 0 = replicate k 48.
Proof. induction k as [|k IH]; [done|]. rewrite hex_rev_S by lia. simpl. by rewrite Zdiv_0_l, IH. Qed.
Lemma hex_S k v : hex (S k) v = hex_digit v k :: hex k v.
Proof. unfold hex, hex_rev. rewrite seq_S, map_app. simpl. by rewrite rev_app_distr. Qed.
Lemma hex_length k v : length (hex k v) = k.
Proof. unfold hex, hex_rev. by rewrite length_rev, length_map, length_seq. Qed.

(** Padded with zeros, the digits of [_ntoa_long] are these. *)
Lemma ntoa_digits_hex fl k : has fl FLAGS_UPPERCASE = false → ∀ fuel v, (k ≤ fuel)%nat → (0 < k)%nat → 0 ≤ v < 16 ^ Z.of_nat k →
  (length (ntoa_digits fuel v 16 fl) ≤ k)%nat ∧
  ntoa_digits fuel v 16 fl ++ replicate (k - length (ntoa_digits fuel v 16 fl)) 48 = hex_rev k v.
Proof.
  intros Hfl. induction k as [|k IH]; intros [|fuel] v Hf Hk Hv; try lia.
  rewrite hex_rev_S by lia. cbn [ntoa_digits]. rewrite Hfl. fold (digit_chr (v `mod` 16)).
  rewrite Nat2Z.inj_succ, Z.pow_succ_r in Hv by lia.
  case (Z.eqb_spec (v / 16) 0) as [E|E].
  - simpl. split; [lia|]. rewrite E, hex_rev_0. by rewrite Nat.sub_0_r.
  - assert (0 ≤ v / 16 < 16 ^ Z.of_nat k) as Hd by (split; [apply Z.div_pos; lia|apply Z.div_lt_upper_bound; lia]).
    destruct (IH fuel (v / 16)) as [H1 H2]; [lia|destruct k; simpl in Hd; lia|done|].
    simpl. split; [lia|]. by rewrite H2.
Qed.
Lemma ntoa_hex {S} (out : Z → S → Z → Z → S) maxlen o v k : (0 < k ≤ 8)%nat → 0 ≤ v < 16 ^ Z.of_nat k →
  _ntoa_long out maxlen o v false 16 0 (Z.of_nat k) FLAGS_ZEROPAD = puts out maxlen (hex k v) o.
Proof.
  intros Hk Hv. unfold _ntoa_long. set (fl := FLAGS_ZEROPAD).
  assert ((if v =? 0 then clear fl FLAGS_HASH else fl) = fl) as -> by (by destruct (v =? 0)).
  change (negb (has fl FLAGS_PRECISION)) with true. cbn [orb].
  destruct (ntoa_digits_hex fl k eq_refl NTOA_BUFFER_SIZE v) as [Hl Hd]; [unfold NTOA_BUFFER_SIZE; lia|lia|done|].
  set (buf := ntoa_digits _ _ _ _) in *. unfold _ntoa_format. change (has fl FLAGS_LEFT) with false.
  change (has fl FLAGS_ZEROPAD) with true. change (has fl FLAGS_HASH) with false.
  change (has fl (Z.lor FLAGS_PLUS FLAGS_SPACE)) with false.
  change (has fl FLAGS_PLUS) with false. change (has fl FLAGS_SPACE) with false. rewrite andb_false_r.
  change (Z.to_nat 0 `min` NTOA_BUFFER_SIZE - length buf)%nat with 0%nat. cbn [replicate negb andb]. rewrite app_nil_r.
  replace (Z.to_nat (Z.of_nat k) `min` NTOA_BUFFER_SIZE)%nat with k by (unfold NTOA_BUFFER_SIZE; lia). rewrite Hd.
  unfold _out_rev. change (has fl FLAGS_LEFT) with false. change (has fl FLAGS_ZEROPAD) with true. reflexivity.
Qed.

(** Parsing them gives the number back. *)
Lemma parse_hex_digit_chr d : 0 ≤ d < 16 → parse_hex_digit (digit_chr d) = Ok d.
Proof.
  intros Hd. unfold parse_hex_digit, digit_chr. destruct (Z.ltb_spec d 10).
  - replace ((48 <=? 48 + d) && (48 + d <=? 57)) with true by lia. f_equal. lia.
  - replace ((48 <=? 97 + d - 10) && (97 + d - 10 <=? 57)) with false by lia.
    replace ((97 <=? 97 + d - 10) && (97 + d - 10 <=? 102)) with true by lia. f_equal. lia.
Qed.
Lemma mod_split v k : 0 ≤ k → v `mod` 2 ^ (k + 4) = Z.lor (Z.shiftl ((v / 2 ^ k) `mod` 16) k) (v `mod` 2 ^ k).
Proof.
  intros Hk. apply Z.bits_inj'. intros n Hn. rewrite Z.lor_spec, Z.shiftl_spec by lia. change 16 with (2 ^ 4).
  rewrite !Z.testbit_mod_pow2 by lia. destruct (Z.ltb_spec n k).
  - rewrite (Z.testbit_neg_r _ (n - k)) by lia. rewrite andb_false_r. simpl. by replace (n <? k + 4) with true by lia.
  - rewrite andb_false_l, orb_false_r. rewrite <- Z.shiftr_div_pow2, Z.shiftr_spec by lia.
    replace (n - k + k) with n by lia. f_equal. lia.
Qed.
Lemma parse_hex_loop_Ok w v k : ∀ r acc, is_uN w acc → 4 * Z.of_nat k ≤ w → 0 ≤ v →
  parse_hex_loop w k (hex k v ++ r) acc = Ok (Z.lor acc (v `mod` 2 ^ (4 * Z.of_nat k))).
Proof.
  induction k as [|k IH]; intros r acc Ha Hw Hv.
  - simpl. by rewrite Z.mod_1_r, Z.lor_0_r.
  - rewrite hex_S. cbn [app parse_hex_loop]. unfold hex_digit.
    assert (16 ^ Z.of_nat k = 2 ^ (4 * Z.of_nat k)) as -> by (rewrite Z.pow_mul_r by lia; done).
    pose proof (Z.mod_pos_bound (v / 2 ^ (4 * Z.of_nat k)) 16 ltac:(lia)) as Hd.
    rewrite parse_hex_digit_chr by done. cbn [mbind res_bind]. set (d := _ `mod` 16) in *.
    assert (uN w (Z.lor acc (Z.shiftl d (4 * Z.of_nat k))) = Z.lor acc (Z.shiftl d (4 * Z.of_nat k))) as ->.
    { apply uN_small, is_uN_lor; [lia|done|]. rewrite Z.shiftl_mul_pow2 by lia. split; [nia|].
      apply Z.lt_le_trans with (2 ^ (4 + 4 * Z.of_nat k)); [rewrite Z.pow_add_r by lia; nia|]. apply Z.pow_le_mono_r; lia. }
    rewrite IH; [|apply is_uN_lor; [lia|done|]|lia|done].
    + rewrite <- Z.lor_assoc. f_equal. unfold d. rewrite <- mod_split by lia. f_equal. f_equal. f_equal. lia.
    + rewrite Z.shiftl_mul_pow2 by lia. split; [nia|].
      apply Z.lt_le_trans with (2 ^ (4 + 4 * Z.of_nat k)); [rewrite Z.pow_add_r by lia; nia|]. apply Z.pow_le_mono_r; lia.
Qed.
Lemma parse_hex_Ok k v r : (0 < k)%nat → 0 ≤ v < 2 ^ (4 * Z.of_nat k) → parse_hex (4 * Z.of_nat k) (hex k v ++ r) = Ok v.
Proof.
  intros Hk Hv. unfold parse_hex. replace (Z.to_nat (4 * Z.of_nat k / 4)) with k by (rewrite Z.mul_comm, Z.div_mul by lia; lia).
  rewrite parse_hex_loop_Ok by (try lia; split; lia || apply Z.pow_pos_nonneg; lia). rewrite Z.lor_0_l, Z.mod_small by lia. done.
Qed.

(** ** GUIDs *)

(** Printing into an array that is long enough. *)
Lemma vsnprintf_array format va l s0 : output format va = Ok l → (length l < length s0)%nat → zlen s0 < 2 ^ 63 →
  _vsnprintf (λ c s idx _, <[Z.to_nat idx := c]> s) false (2 ^ 64 - 1) format va s0 =
  Ok (i32 (zlen l), l ++ 0 :: drop (S (length l)) s0).
Proof.
  intros Ho Hl Hs. unfold output in Ho. apply bind_Ok in Ho as ([i0 l0] & Ho & E). injection E as <-. cbn [snd] in *.
  set (out := λ c s idx (_ : Z), <[Z.to_nat idx := c]> s).
  set (P := λ i (s l : list Z), zlen l ≤ zlen l0 → i = zlen l ∧ s = l ++ drop (length l) s0).
  assert (∀ l c, (length l < length s0)%nat → <[length l := c]> (l ++ drop (length l) s0) = l ++ c :: drop (S (length l)) s0) as Hins.
  { intros l c Hll. destruct (drop (length l) s0) as [|x r] eqn:Ed.
    - apply (f_equal length) in Ed. rewrite length_drop in Ed. simpl in Ed. lia.
    - rewrite insert_app_r_alt, Nat.sub_diag by lia. simpl. f_equal. f_equal.
      by rewrite <- Nat.add_1_r, <- drop_drop, Ed. }
  assert (∀ c i s l, P i s l → P (u64 (i + 1)) (out c s i (2 ^ 64 - 1)) (l ++ [c])) as Hstep.
  { intros c i s l HP Hll. rewrite length_app in *. simpl in *. destruct HP as [-> ->]; [lia|].
    split; [u_small; lia|]. unfold out. rewrite Nat2Z.id, Hins, <- app_assoc by lia. simpl. by rewrite Nat.add_1_r. }
  pose proof (vs_loop_sim out (2 ^ 64 - 1) (λ c l _ _, l ++ [c]) 0 P Hstep (length format) format va (0, s0) (0, [])) as Hsim.
  rewrite Ho in Hsim. specialize (Hsim ltac:(split; [done|]; by intros _)).
  unfold _vsnprintf. destruct (vs_loop out _ _ _ _ _) as [[i s1]| | | |]; try done.
  destruct Hsim as [Ei Hp]. simpl in Ei, Hp. destruct Hp as [-> ->]; [lia|]. cbn [mbind res_bind].
  rewrite (proj2 (Z.ltb_lt (zlen l0) (2 ^ 64 - 1))) by lia. unfold out. by rewrite Nat2Z.id, Hins.
Qed.

Lemma puts_app {S} (out : Z → S → Z → Z → S) maxlen l1 : ∀ l2 o,
  puts out maxlen l2 (puts out maxlen l1 o) = puts out maxlen (l1 ++ l2) o.
Proof. induction l1 as [|c l1 IH]; intros l2 o; simpl; [done|]. apply IH. Qed.

(** The text of a GUID with the given fields. *)
Definition guid_text (d1 d2 d3 : Z) (b : list Z) : list Z :=
  hex 8 d1 ++ [45] ++ hex 4 d2 ++ [45] ++ hex 4 d3 ++ [45] ++ mjoin (map (hex 2) (take 2 b)) ++ [45] ++
  mjoin (map (hex 2) (drop 2 b)).

#[local] Arguments hex : simpl never.

Lemma guid_text_length d1 d2 d3 b0 b1 b2 b3 b4 b5 b6 b7 :
  length (guid_text d1 d2 d3 [b0; b1; b2; b3; b4; b5; b6; b7]) = 36%nat.
Proof. unfold guid_text. cbn [take drop map mjoin list_join]. repeat rewrite ?length_app, ?hex_length. reflexivity. Qed.
Lemma drop_hex k v r : drop k (hex k v ++ r) = r.
Proof. by rewrite drop_app_length' by (by rewrite hex_length). Qed.
Lemma drop_hex_dash k v c r : drop (k + 1) (hex k v ++ [c] ++ r) = r.
Proof. by rewrite <- drop_drop, drop_hex. Qed.

Lemma parse_bytes_Ok bs r : Forall (λ b, 0 ≤ b < 256) bs → parse_bytes (length bs) (mjoin (map (hex 2) bs) ++ r) = Ok bs.
Proof.
  induction 1 as [|b bs Hb Hbs IH]; [done|]. cbn [length parse_bytes].
  change (mjoin (map (hex 2) (b :: bs))) with (hex 2 b ++ mjoin (map (hex 2) bs)). rewrite <- app_assoc.
  change 8 with (4 * Z.of_nat 2). rewrite parse_hex_Ok by (simpl; lia). cbn [mbind res_bind].
  rewrite drop_hex, IH. done.
Qed.

(** The parser reads the fields of the text. *)
Lemma make_guid_text d1 d2 d3 b0 b1 b2 b3 b4 b5 b6 b7 : 0 ≤ d1 < 2 ^ 32 → 0 ≤ d2 < 2 ^ 16 → 0 ≤ d3 < 2 ^ 16 →
  Forall (λ b, 0 ≤ b < 256) [b0; b1; b2; b3; b4; b5; b6; b7] →
  make_guid (guid_text d1 d2 d3 [b0; b1; b2; b3; b4; b5; b6; b7]) = Ok (mkGuid d1 d2 d3 [b0; b1; b2; b3; b4; b5; b6; b7]).
Proof.
  intros H1 H2 H3 Hb. unfold make_guid. rewrite guid_text_length. rewrite decide_False by done. rewrite decide_True by done.
  unfold make_guid_helper, guid_text. cbn [take drop map].
  change 32 with (4 * Z.of_nat 8). rewrite parse_hex_Ok by (simpl; lia). cbn [mbind res_bind].
  rewrite drop_hex_dash. change 16 with (4 * Z.of_nat 4). rewrite parse_hex_Ok by (simpl; lia). cbn [mbind res_bind].
  rewrite drop_hex_dash. rewrite parse_hex_Ok by (simpl; lia). cbn [mbind res_bind]. rewrite drop_hex_dash.
  pose proof Hb as Hb'. rewrite !Forall_cons in Hb'. destruct Hb' as (?&?&?&?&?&?&?&?&_).
  change (mjoin [hex 2 b0; hex 2 b1]) with (hex 2 b0 ++ hex 2 b1 ++ []). rewrite <- !app_assoc.
  change 8 with (4 * Z.of_nat 2). rewrite parse_hex_Ok by (simpl; lia). cbn [mbind res_bind].
  rewrite drop_hex, app_nil_l. rewrite parse_hex_Ok by (simpl; lia). cbn [mbind res_bind]. rewrite drop_hex_dash.
  pose proof (parse_bytes_Ok [b2; b3; b4; b5; b6; b7] []) as Hp. rewrite app_nil_r in Hp.
  cbn [length map] in Hp. cbn [map]. rewrite Hp; [done|]. repeat (constructor; [done|]). constructor.
Qed.

Lemma guid_output d1 d2 d3 b0 b1 b2 b3 b4 b5 b6 b7 : 0 ≤ d1 < 2 ^ 32 → 0 ≤ d2 < 2 ^ 16 → 0 ≤ d3 < 2 ^ 16 →
  Forall (λ b, 0 ≤ b < 256) [b0; b1; b2; b3; b4; b5; b6; b7] →
  output guid_format (map AInt [d1; d2; d3; b0; b1; b2; b3; b4; b5; b6; b7]) =
  Ok (guid_text d1 d2 d3 [b0; b1; b2; b3; b4; b5; b6; b7]).
Proof.
  intros H1 H2 H3 Hb. set (L := λ (c : Z) (l : list Z) (_ _ : Z), l ++ [c]).
  set (H := λ (k v : Z) o, _ntoa_long L 0 o (u32 v) false 16 0 k FLAGS_ZEROPAD).
  transitivity (Ok (H 2 b7 (H 2 b6 (H 2 b5 (H 2 b4 (H 2 b3 (H 2 b2 (put L 0 45 (H 2 b1 (H 2 b0 (put L 0 45
    (H 4 d3 (put L 0 45 (H 4 d2 (put L 0 45 (H 8 d1 (0, [])))))))))))))))).2); [reflexivity|].
  assert (∀ (k : nat) v o, (0 < k ≤ 8)%nat → 0 ≤ v < 16 ^ Z.of_nat k → v < 2 ^ 32 → H (Z.of_nat k) v o = puts L 0 (hex k v) o) as HH.
  { intros k v o Hk Hv Hv2. unfold H. rewrite uN_small by (unfold is_uN; lia). by apply ntoa_hex. }
  rewrite !Forall_cons in Hb. destruct Hb as (?&?&?&?&?&?&?&?&_).
  change 2 with (Z.of_nat 2). change 4 with (Z.of_nat 4). change 8 with (Z.of_nat 8).
  rewrite !HH by (simpl; lia).
  change (put L 0 45) with (puts L 0 [45]). rewrite !puts_app. unfold L. rewrite puts_list. reflexivity.
Qed.

(** Bytes of a field below its size. *)
Lemma le_word_range l : Forall (λ b, 0 ≤ b < 256) l → 0 ≤ le_word l < 2 ^ (8 * zlen l).
Proof.
  induction 1 as [|b l Hb Hl IH]; [simpl; lia|]. cbn [le_word length]. rewrite Nat2Z.inj_succ.
  replace (8 * Z.succ (zlen l)) with (8 + 8 * zlen l) by lia. rewrite Z.pow_add_r by lia. lia.
Qed.
Lemma lor_high a b k : 0 ≤ k → 0 ≤ a < 2 ^ k → Z.lor a (Z.shiftl b k) = a + b * 2 ^ k.
Proof.
  intros Hk Ha. rewrite <- Z.shiftl_mul_pow2 by done. apply Z.bits_inj'. intros n Hn. 
  rewrite Z.add_nocarry_lxor, Z.lor_spec, Z.lxor_spec; [|apply Z.bits_inj'; intros m Hm; rewrite Z.land_spec, Z.bits_0].
  - rewrite Z.shiftl_spec by done. destruct (Z.ltb_spec n k).
    + rewrite (Z.testbit_neg_r b) by lia. by rewrite orb_false_r, xorb_false_r.
    + rewrite (is_uN_high k a n) by done. by rewrite xorb_false_l.
  - rewrite Z.shiftl_spec by done. destruct (Z.ltb_spec m k).
    + rewrite (Z.testbit_neg_r b) by lia. by rewrite andb_false_r.
    + by rewrite (is_uN_high k a m) by done.
Qed.

(** The text of the 16 bytes of a GUID: three little-endian fields, then the last eight bytes in their order. *)
Definition guid_bytes_text (guid : list Z) : list Z :=
  guid_text (le_word (take 4 guid)) (le_word (take 2 (drop 4 guid))) (le_word (take 2 (drop 6 guid))) (drop 8 guid).

Lemma guid_text_parses guid : length guid = 16%nat → Forall (λ b, 0 ≤ b < 256) guid →
  guid2string guid = Ok (guid_bytes_text guid ++ replicate 10 0) ∧
  ∃ g, make_guid (guid_bytes_text guid) = Ok g ∧ getraw g = le_word guid.
Proof.
  intros Hl Hb. do 16 (destruct guid as [|? guid]; [done|]). destruct guid; [|done]. clear Hl.
  set (g16 := [_; _; _; _; _; _; _; _; _; _; _; _; _; _; _; _]) in *.
  assert (∀ o n, (o + n ≤ 16)%nat → 0 ≤ field g16 o n < 2 ^ (8 * Z.of_nat n)) as Hf.
  { intros o n Hon. unfold field. pose proof (le_word_range (take n (drop o g16))) as Hr.
    rewrite length_take, length_drop in Hr. change (length g16) with 16%nat in Hr.
    replace (n `min` (16 - o))%nat with n in Hr by lia. apply Hr. by apply Forall_take, Forall_drop. }
  assert (output guid_format (guid_args g16) = Ok (guid_text (field g16 0 4) (field g16 4 2) (field g16 6 2)
            (map (λ o, field g16 o 1) (seq 8 8)))) as Ho.
  { apply guid_output; [apply (Hf 0 4)%nat; lia|apply (Hf 4 2)%nat; lia|apply (Hf 6 2)%nat; lia|].
    repeat (constructor; [apply (Hf _ 1%nat); lia|]). constructor. }
  assert (map (λ o, field g16 o 1) (seq 8 8) = drop 8 g16) as Hlast.
  { unfold g16, field. cbn. rewrite ?Z.mul_0_r, ?Z.add_0_r. reflexivity. }
  rewrite Hlast in Ho. set (txt := guid_text _ _ _ _) in *. change (guid_bytes_text g16) with txt.
  assert (length txt = 36%nat) as Hlen by apply guid_text_length.
  split; [|exists (mkGuid (field g16 0 4) (field g16 4 2) (field g16 6 2) (drop 8 g16)); split].
  - unfold guid2string. rewrite (vsnprintf_array _ _ txt) by (try done; rewrite ?length_replicate, ?Hlen; lia).
    cbn [mbind res_bind]. rewrite take_app_ge, Hlen by lia. reflexivity.
  - apply make_guid_text; [apply (Hf 0 4)%nat; lia|apply (Hf 4 2)%nat; lia|apply (Hf 6 2)%nat; lia|].
    change (Forall (λ b, 0 ≤ b < 256) (drop 8 g16)). by apply Forall_drop.
  - clear - Hb. unfold g16 in *. rewrite !Forall_cons in Hb. destruct Hb as (?&?&?&?&?&?&?&?&?&?&?&?&?&?&?&?&_).
    unfold getraw, field. cbn. rewrite (lor_high _ _ 32), (lor_high _ _ 48) by lia.
    rewrite (lor_high _ _ (64 + 8 * Z.of_nat 0)), (lor_high _ _ (64 + 8 * Z.of_nat 1)), (lor_high _ _ (64 + 8 * Z.of_nat 2)), (lor_high _ _ (64 + 8 * Z.of_nat 3)),
      (lor_high _ _ (64 + 8 * Z.of_nat 4)), (lor_high _ _ (64 + 8 * Z.of_nat 5)), (lor_high _ _ (64 + 8 * Z.of_nat 6)), (lor_high _ _ (64 + 8 * Z.of_nat 7)) by lia.
    lia.
Qed.

(** C30: a GUID survives printing and parsing.  For every 16 bytes [guid2string] gives the standard text (the three
    little-endian fields in 8, 4 and 4 hexadecimal digits, then the last eight bytes, with dashes), and [make_guid] reads
    that text as the GUID with the same 128-bit value. *)
Theorem guid_roundtrip guid : length guid = 16%nat → Forall (λ b, 0 ≤ b < 256) guid →
  guid2string guid = Ok (guid_bytes_text guid ++ replicate 10 0) ∧
  ∃ g, make_guid (guid_bytes_text guid) = Ok g ∧ getraw g = le_word guid.
Proof. apply guid_text_parses. Qed.

Lemma guid_roundtrip_witness : guid_bytes_text (map Z.of_nat (seq 100 16)) = bytes_of "67666564-6968-6b6a-6c6d-6e6f70717273" ∧
  guid2string (map Z.of_nat (seq 100 16)) = Ok (guid_bytes_text (map Z.of_nat (seq 100 16)) ++ replicate 10 0).
Proof.
  split; [vm_compute; reflexivity|].
  apply (guid_roundtrip (map Z.of_nat (seq 100 16))); [reflexivity|].
  cbn. repeat (constructor; [lia|]). constructor.
Defined.
Example guid_bytes_order :
  guid2string [0x28; 0x73; 0x2a; 0xc1; 0x1f; 0xf8; 0xd2; 0x11; 0xba; 0x4b; 0x00; 0xa0; 0xc9; 0x3e; 0xc9; 0x3b] =
    Ok (bytes_of "c12a7328-f81f-11d2-ba4b-00a0c93ec93b" ++ replicate 10 0) ∧
  guid2parttype [0x28; 0x73; 0x2a; 0xc1; 0x1f; 0xf8; 0xd2; 0x11; 0xba; 0x4b; 0x00; 0xa0; 0xc9; 0x3e; 0xc9; 0x3b] =
    EFI_SYSTEM_PARTITION.
Proof. split; vm_compute; reflexivity. Qed.

(** ** The partition table on the medium *)




(** ** Scanning it *)


Section ScoutSpec.
Context {D : Type} `{DiskLaws D} (d : D) (inplace : Z → bool) (start : Z).

End ScoutSpec.

(** The ninth moves them all, unless there is room behind them: the mounted file system's partition is freed memory. *)
Lemma mounted_dangles f s p i : zlen (parts s) = parts_cap s → 0 < parts_cap s → f (parts_cap s) = false → mounted s = Some (parts_block s, i) →
  mounted_part (emplace_part f s p) = Fault.
Proof.
  intros Hn Hc Hf Hm. unfold mounted_part, emplace_part. rewrite Hn, Z.ltb_irrefl, Hf, andb_false_r. cbn [mounted parts_block parts parts_cap]. rewrite Hm.
  cbn [deref mbind res_bind]. by rewrite decide_False by lia.
Qed.



(** A disk image, zero behind its end. *)
Record image := mkImage { content : list Z }.
#[global] Instance image_disk : Disk image :=
  {| disk_read d lba n := Ok (bytes_at (λ a, u8 (default 0 (content d !! Z.to_nat a))) (lba * 512) (Z.to_nat (n * 512))) |}.
#[global, refine] Instance image_laws : DiskLaws image :=
  {| medium d a := u8 (default 0 (content d !! Z.to_nat a)); sectors d := 2 ^ 40; max_read d := 2 ^ 40 |}.
Proof. - intros d. lia. - intros d a. apply uN_range. lia. - done. Defined.

Definition le_bytes (n : nat) (z : Z) : list Z := map (λ i, Z.shiftr z (8 * Z.of_nat i) `mod` 256) (seq 0 n).
(** A disk whose table has entries of [esize] bytes: two partitions and an unused entry between them. *)
Definition gpt_entry (t a b : Z) (name : list Z) : list Z :=
  replicate 16 t ++ replicate 16 7 ++ le_bytes 8 a ++ le_bytes 8 b ++ replicate 8 0 ++ name ++ replicate (72 - length name) 0.
Definition gpt_header (esize : Z) : list Z :=
  bytes_of "EFI PART" ++ replicate 64 0 ++ le_bytes 8 2 ++ le_bytes 4 3 ++ le_bytes 4 esize ++ replicate 424 0.



(** The size of an entry in the header is not read: in a table of 256-byte entries the second half of the first entry is taken
    for an entry, and the third entry for none. *)
Example entry_size_ignored :
  (λ r, match r with Ok s => map poffset (parts s) | _ => [] end)
    (msd_scout (λ _, false) (mkImage (replicate 512 0 ++ gpt_header 256 ++ gpt_entry 1 34 99 [] ++ gpt_entry 5 7 7 [] ++ gpt_entry 2 100 149 [] ++ replicate 128 0 ++
      gpt_entry 3 200 249 [])) no_parts) = [34 * 512; 7 * 512; 100 * 512].
Proof. vm_compute. reflexivity. Qed.
(** A GPT name is UTF-16: what is kept of it is its first letter. *)
Example utf16_name_cut :
  (λ r, match r with Ok s => map pname (parts s) | _ => [] end)
    (msd_scout (λ _, false) (mkImage (replicate 512 0 ++ gpt_header 128 ++ gpt_entry 1 34 99 [98; 0; 111; 0; 111; 0; 116; 0])) no_parts) = [bytes_of "b"].
Proof. vm_compute. reflexivity. Qed.
