(* ===== verification/Fat.v ===== *)
(** The FAT32 driver ([modules/fat/src/fat.cc], [fat.hh]): mounting a volume, following cluster
    chains, looking paths up and listing directories.

    The disk is any driver behind [Msd.Disk]; a buffer is the bytes it is filled with, and its
    address only decides whether a read goes through the bounce buffer. *)
From S2P Require Import Prelude Arith Strings KString Fs Msd MsdSpec.

(** ** On-disk structures *)

Module FatAttrs.
Definition RO : Z := 0x01.
Definition HIDDEN : Z := 0x02.
Definition SYSTEM : Z := 0x04.
Definition VOLUME_ID : Z := 0x08.
Definition DIRECTORY : Z := 0x10.
Definition LFN : Z := Z.lor RO (Z.lor HIDDEN (Z.lor SYSTEM VOLUME_ID)).
End FatAttrs.

(** [fat_entry]: the fields the driver uses. *)
Record fat_entry := mkEntry { attrs : Z; cluster_lo16 : Z; cluster_hi16 : Z; size : Z }.

(** The entry at [e] in memory; what follows it stays readable. *)
Definition entry_attrs (e : list Z) : Z := field e 11 1.
Definition read_entry (e : list Z) : fat_entry := mkEntry (entry_attrs e) (field e 26 2) (field e 20 2) (field e 28 4).

(** [fat_fshandle], with the two fields of the BPB that are used after mounting. *)
Record fat_fshandle := mkHandle {
  bytespersector : Z; sectorspercluster : Z; fat : list Z; fatsize : Z; dataoffset : Z }.

(** ** Clusters *)

Definition clusterfrom (lo hi : Z) : Z := Z.lor lo (u32 (Z.shiftl hi 16)).
(** In 32-bit arithmetic up to the last addition. *)
Definition clusteroff (h : fat_fshandle) (lo hi : Z) : Z :=
  u64 (dataoffset h + u32 (u32 (u32 (clusterfrom lo hi - 2) * bytespersector h) * sectorspercluster h)).
Definition diskoffset (h : fat_fshandle) (cluster : Z) : res Z :=
  assert_ (2 <=? cluster) "cluster >= 2";;
  Ok (u64 (dataoffset h + u32 (u32 (cluster - 2) * 512))).

Definition EOC : Z := 0x0ffffff8.
Definition next_cluster (h : fat_fshandle) (cluster : Z) : res Z :=
  e ← deref (fat h !! Z.to_nat cluster); Ok (Z.land e 0x0fffffff).

Section Driver.
Context {D : Type} `{Disk D}.
Implicit Types (d : D) (h : fat_fshandle).

Fixpoint skip_clusters (k : nat) h (cluster : Z) : res Z :=
  match k with
  | O => Ok cluster
  | S k =>
      fatent ← next_cluster h cluster;
      if EOC <=? cluster then Fatal "File not big enough to skip to offset" else skip_clusters k h fatent
  end.

(** The loop over the clusters: bytes read so far and what was put into the buffer.  Without a
    buffer it only counts. *)
Fixpoint chain_loop (fuel : nat) d h (bpc cluster off bytes : Z) (buf : option Z) (bytes_read : Z) : res (Z * list Z) :=
  match fuel with
  | O => NoFuel
  | S fuel =>
      if bytes =? 0 then Ok (bytes_read, []) else
      let readlen := Z.min bytes (u64 (bpc - off)) in
      data ← match buf with
             | Some a => o ← diskoffset h cluster; msd_read d (u64 (o + off)) readlen (isaligned a 512)
             | None => Ok []
             end;
      let bytes_read := u64 (bytes_read + readlen) in
      fatent ← next_cluster h cluster;
      if EOC <=? fatent then Ok (bytes_read, data) else
      '(n, rest) ← match buf with
                   | Some a => chain_loop fuel d h bpc fatent 0 (bytes - readlen) (Some (u64 (a + readlen))) bytes_read
                   | None => chain_loop fuel d h bpc fatent 0 bytes None bytes_read
                   end;
      Ok (n, data ++ rest)
  end.

Definition chainread (fuel : nat) d h (cluster offset bytes : Z) (buf : option Z) : res (Z * list Z) :=
  let bytespercluster := bytespersector h * sectorspercluster h in
  let bytes := match buf with Some _ => bytes | None => 2 ^ 32 - 1 end in
  if bytespercluster =? 0 then Fault else
  cluster ← skip_clusters (Z.to_nat (offset / bytespercluster)) h cluster;
  chain_loop fuel d h bytespercluster cluster (offset `mod` bytespercluster) bytes buf 0.

(** ** Names *)

(** [ucs2_to_asciin(in, buf + pos, n)] into the 256 characters of a long name. *)
Definition put_chars (buf : list Z) (pos : Z) (units : list Z) : res (list Z) :=
  if (pos <? 0) || (zlen buf <=? pos + zlen units) then Fault else
  let buf := <[(Z.to_nat pos + length units)%nat := 0]> buf in
  Ok (take (Z.to_nat pos) buf ++ map u8 units ++ drop (Z.to_nat pos + length units) buf).

(** [count] 16-bit units at offset [o] of an entry. *)
Definition units (e : list Z) (o count : nat) : list Z := map (λ i, field e (o + 2 * i) 2) (seq 0 count).

(** A long-name entry: thirteen characters at the place its order gives. *)
Definition lfn_store (longname e : list Z) : res (list Z) :=
  let pos := (Z.land (field e 0 1) 0x1f - 1) * 13 in
  b ← put_chars longname pos (units e 1 5);
  b ← put_chars b (pos + 5) (units e 14 6);
  put_chars b (pos + 11) (units e 28 2).

Fixpoint space_at (s : list Z) : res nat :=
  match s with [] => Fault | c :: s => if c =? 32 then Ok O else n ← space_at s; Ok (S n) end.

(** [fat32_getname]: [None] for an entry without a usable name. *)
Definition fat32_getname (longname e : list Z) : res (option (list Z)) :=
  if negb (ch longname =? 0) then n ← c_string longname; Ok (Some (to_String n)) else
  let simplename := token e 0 in
  if strncmp simplename (bytes_of ".") 1 =? 0 then Ok None else
  if strncmp simplename (bytes_of "..") 2 =? 0 then Ok None else
  if ch e =? 32 then Ok None else
  if 128 <? ch e then Ok None else
  len ← space_at e;
  if decide (len = O) then Ok None else Ok (Some (take len e)).

(** ** Lookup *)

(** The buffer with a directory's first sector, the long name collected so far, the rest of the
    path, and whether this segment was found. *)
Record lookup_state := mkLookup { ent : list Z; longname : list Z; path : list Z; found : bool }.

(** The loop over the 16 entries of a sector.  After a match that is not the end of the path it
    goes on with the following entry of the directory it has just read. *)
Fixpoint scan_entries (k : nat) (i : nat) d h (basename : list Z) (s : lookup_state) : res (fat_entry + lookup_state) :=
  match k with
  | O => Ok (inr s)
  | S k =>
      let e := drop (32 * i) (ent s) in
      if entry_attrs e =? 0 then Ok (inr s) else
      if entry_attrs e =? FatAttrs.LFN then
        l ← lfn_store (longname s) e;
        scan_entries k (S i) d h basename (mkLookup (ent s) l (path s) (found s))
      else if negb (Z.land (entry_attrs e) FatAttrs.VOLUME_ID =? 0) then scan_entries k (S i) d h basename s
      else
        name ← fat32_getname (longname s) e;
        match name with
        | Some n =>
            if strcmp basename n =? 0 then
              if (length (path s) <? length basename)%nat then Fault else
              let p := drop (length basename) (path s) in
              if decide (p = []) then Ok (inl (read_entry e)) else
              let en := read_entry e in
              sec ← msd_read d (clusteroff h (cluster_lo16 en) (cluster_hi16 en)) 512 true;
              scan_entries k (S i) d h basename (mkLookup sec (<[O := 0]> (longname s)) p true)
            else scan_entries k (S i) d h basename s
        | None => scan_entries k (S i) d h basename s
        end
  end.

Fixpoint skip_slashes (p : list Z) : list Z :=
  match p with [] => [] | c :: p' => if c =? slash then skip_slashes p' else p end.

Fixpoint lookup_loop (fuel : nat) d h (s : lookup_state) : res fat_entry :=
  match path s with
  | [] => Fatal "File not found!"
  | _ =>
      match fuel with
      | O => NoFuel
      | S fuel =>
          let p := skip_slashes (path s) in
          if decide (p = []) then Ok (read_entry (ent s)) else
          r ← scan_entries 16 0 d h (token p slash) (mkLookup (ent s) (longname s) p false);
          match r with
          | inl e => Ok e
          | inr s => if found s then lookup_loop fuel d h s else Fatal "No such file or folder"
          end
      end
  end.

(** The entry of the root directory stands for the root itself, once its cluster is filled in. *)
Definition root_sector (sec : list Z) : list Z :=
  <[27%nat := 0]> (<[26%nat := 2]> (<[21%nat := 0]> (<[20%nat := 0]> sec))).
Definition fat32_lookup d h (p : list Z) : res fat_entry :=
  sec ← msd_read d (dataoffset h) 512 true;
  lookup_loop (length p) d h (mkLookup (root_sector sec) (replicate 256 0) p false).

(** ** Files and directories *)

Definition fat32_read (fuel : nat) d h (p : list Z) (offset bytes : Z) (buf : option Z) : res (Z * list Z) :=
  e ← fat32_lookup d h p;
  match buf with
  | None =>
      assert_ (Z.land (attrs e) FatAttrs.DIRECTORY =? 0) "(e.attrs & FatAttrs::DIRECTORY) == 0";;
      Ok (size e, [])
  | Some _ =>
      assert_ (offset <=? size e) "offset <= e.size";;
      chainread fuel d h (clusterfrom (cluster_lo16 e) (cluster_hi16 e)) offset bytes buf
  end.

(** The entries of a directory in memory; reading past the buffer is a [Fault]. *)
Fixpoint list_entries (fuel : nat) (en longname : list Z) : res (list fs_entry) :=
  match fuel with
  | O => Fault
  | S fuel =>
      if zlen en <? 32 then Fault else
      let a := entry_attrs en in
      if a =? 0 then Ok [] else
      if a =? FatAttrs.LFN then l ← lfn_store longname en; list_entries fuel (drop 32 en) l
      else if negb (Z.land a FatAttrs.VOLUME_ID =? 0) then list_entries fuel (drop 32 en) longname
      else
        let isdir := 0 <? Z.land a FatAttrs.DIRECTORY in
        name ← fat32_getname longname en;
        rest ← list_entries fuel (drop 32 en) (<[O := 0]> longname);
        Ok (match name with Some n => mkFsEntry n isdir :: rest | None => rest end)
  end.

(** [tmp] is the address of the copy, [garbage] what the new name buffer holds. *)
Definition fat32_readdir (fuel : nat) d h (p : list Z) (tmp : Z) (garbage : list Z) : res (list fs_entry) :=
  fat32_lookup d h [slash];; fat32_lookup d h p;;
  e ← fat32_lookup d h p;
  let cluster := clusterfrom (cluster_lo16 e) (cluster_hi16 e) in
  '(bytes, _) ← chainread fuel d h cluster 0 (2 ^ 64 - 1) None;
  '(_, data) ← chainread fuel d h cluster 0 bytes (Some tmp);
  list_entries (S (length data / 32)) data (<[O := 0]> garbage).

Definition fat32_write : res (Z * D) := Fatal "Not implemented!".
Definition fat32_remove : res D := Fatal "Not implemented!".
Definition fat32_create : res D := Fatal "Not implemented!".
Definition fat32_readmeta : res (option fs_entry) := Fatal "yes".

(** ** Mounting *)

Fixpoint le_words (n : nat) (bytes : list Z) : list Z :=
  match n with O => [] | S n => le_word (take 4 bytes) :: le_words n (drop 4 bytes) end.

(** [mod_main] for the partition that starts at byte [off]; [aligned] for the buffer of the FAT. *)
Definition mod_main d (fshandle : option fat_fshandle) (off : Z) (aligned : bool) : res (option fat_fshandle) :=
  if decide (fshandle ≠ None) then Fatal "Filesystem is already scanned!" else
  if off =? 0 then Fatal "FAT volume at the start of the drive?" else
  bpb ← msd_read d off 512 true;
  let bps := field bpb 11 2 in
  let spc := field bpb 13 1 in
  let num_fats := field bpb 16 1 in
  let sectorsperfat := field bpb 36 4 in
  if (bps <? 512) || (0x1000 <? bps) then Ok None else
  if spc =? 0 then Ok None else
  if negb (num_fats =? 1) && negb (num_fats =? 2) then Ok None else
  let fatsize := u32 (sectorsperfat * bps) in
  let fatoffset := u64 (off + u32 (field bpb 14 2 * bps)) in
  table ← msd_read d fatoffset fatsize aligned;
  Ok (Some (mkHandle bps spc (le_words (Z.to_nat (fatsize / 4)) table) fatsize
              (u64 (fatoffset + u64 (u64 (num_fats * sectorsperfat) * bps))))).
End Driver.

(** ** Cluster chains *)

Section Chains.
Context {D : Type} `{DiskLaws D} (d : D) (h : fat_fshandle).

(** [cs] are the clusters of a file: each entry of the FAT names the next, the last one ends it. *)
Fixpoint chain (cs : list Z) : Prop :=
  match cs with
  | [] => False
  | c :: r =>
      match r with
      | [] => ∃ e, next_cluster h c = Ok e ∧ EOC ≤ e
      | c' :: _ => next_cluster h c = Ok c' ∧ c' < EOC ∧ chain r
      end
  end.

(** A volume with one 512-byte sector per cluster, aligned to sectors on its disk. *)
Record small_clusters : Prop := {
  sc_size : bytespersector h * sectorspercluster h = 512;
  sc_data : 0 ≤ dataoffset h ∧ dataoffset h `mod` 512 = 0;
  sc_disk : sectors d ≤ 2 ^ 54 }.

(** A cluster on the disk. *)
Definition on_disk (c : Z) : Prop :=
  2 ≤ c ∧ (c - 2) * 512 < 2 ^ 32 ∧ dataoffset h + (c - 1) * 512 ≤ sectors d * 512.

Definition cluster_bytes (c : Z) : list Z := bytes_at (medium d) (dataoffset h + (c - 2) * 512) 512.
(** The bytes of a file: its clusters in order. *)
Definition file_bytes (cs : list Z) : list Z := mjoin (map cluster_bytes cs).

Lemma file_bytes_cons c cs : file_bytes (c :: cs) = cluster_bytes c ++ file_bytes cs.
Proof. done. Qed.
Lemma cluster_bytes_length c : length (cluster_bytes c) = 512%nat.
Proof. apply bytes_at_length. Qed.
Lemma file_bytes_length cs : length (file_bytes cs) = (512 * length cs)%nat.
Proof.
  induction cs as [|c cs IH]; [done|]. rewrite file_bytes_cons, length_app, cluster_bytes_length, IH. simpl length. lia.
Qed.
Lemma drop_file_bytes k cs : drop (512 * k) (file_bytes cs) = file_bytes (drop k cs).
Proof.
  revert cs. induction k as [|k IH]; intros [|c cs]; try done.
  rewrite file_bytes_cons. replace (512 * S k)%nat with (512 + 512 * k)%nat by lia.
  rewrite <- drop_drop, drop_app_length' by (by rewrite cluster_bytes_length). apply IH.
Qed.

Hypothesis Hsmall : small_clusters.

(** Reading inside a cluster. *)
Lemma read_cluster c off len al : on_disk c → 0 ≤ off → 0 < len → off + len ≤ 512 →
  (o ← diskoffset h c; msd_read d (u64 (o + off)) len al) =
  Ok (take (Z.to_nat len) (drop (Z.to_nat off) (cluster_bytes c))).
Proof using Hsmall.
  intros (H2 & Hw & Hd) Ho Hl Hol. destruct Hsmall as [_ [Hd0 Hdm] Hs]. unfold diskoffset.
  rewrite (proj2 (Z.leb_le 2 c)) by done. cbn [assert_ mbind res_bind].
  rewrite (uN_small 32 (c - 2)), (uN_small 32) by (unfold is_uN; lia).
  rewrite (uN_small 64 (dataoffset h + (c - 2) * 512)), (uN_small 64) by (unfold is_uN; lia).
  set (k := dataoffset h / 512). assert (dataoffset h = k * 512) as Hk by (pose proof (Z.div_mod (dataoffset h) 512); lia).
  replace (dataoffset h + (c - 2) * 512 + off) with (off + (k + (c - 2)) * 512) by lia.
  assert (off < 512) by lia.
  rewrite msd_read_sector.
  - unfold cluster_bytes. rewrite bytes_at_sub by lia. do 2 f_equal. lia.
  - lia.
  - lia.
  - rewrite Z.mod_add, Z.mod_small by lia. lia.
  - rewrite Z.div_add, (Z.div_small off) by lia. lia.
Qed.

Lemma chain_loop_Ok cs : ∀ c fuel off bytes a acc, chain (c :: cs) → Forall on_disk (c :: cs) →
  (length (c :: cs) ≤ fuel)%nat → 0 ≤ off < 512 → 0 < bytes → 0 ≤ acc → acc + bytes < 2 ^ 63 →
  let data := take (Z.to_nat bytes) (drop (Z.to_nat off) (file_bytes (c :: cs))) in
  chain_loop fuel d h 512 c off bytes (Some a) acc = Ok (acc + zlen data, data).
Proof using Hsmall.
  induction cs as [|c' cs IH]; intros c fuel off bytes a acc Hch Hon Hf Hoff Hb Hacc Hsum data;
    (destruct fuel as [|fuel]; [simpl in Hf; lia|]); cbn [chain_loop].
  all: rewrite (proj2 (Z.eqb_neq bytes 0)) by lia; rewrite (uN_small 64 (512 - off)) by (unfold is_uN; lia).
  all: apply Forall_cons in Hon as [Hc Hon]; set (readlen := Z.min bytes (512 - off)).
  all: rewrite read_cluster by (try done; lia); cbn [mbind res_bind]; rewrite uN_small by (unfold is_uN; lia).
  all: unfold data; rewrite file_bytes_cons, drop_app_le by (rewrite cluster_bytes_length; lia).
  all: set (sec := drop (Z.to_nat off) (cluster_bytes c)).
  all: assert (zlen sec = 512 - off) as Hsec by (unfold sec; rewrite length_drop, cluster_bytes_length; lia).
  - destruct Hch as (e & He & Heoc). rewrite He. cbn [mbind res_bind]. rewrite (proj2 (Z.leb_le EOC e)) by done.
    change (file_bytes []) with (@nil Z). rewrite app_nil_r.
    assert (take (Z.to_nat readlen) sec = take (Z.to_nat bytes) sec) as Et.
    { destruct (Z.leb_spec bytes (512 - off)); [by replace readlen with bytes by lia|].
      by rewrite !take_ge by lia. }
    rewrite Et. do 2 f_equal. rewrite length_take. lia.
  - destruct Hch as (He & Heoc & Hch). rewrite He. cbn [mbind res_bind]. rewrite (proj2 (Z.leb_gt EOC c')) by lia.
    destruct (Z.leb_spec bytes (512 - off)) as [Hle|Hgt].
    + replace readlen with bytes by lia. rewrite Z.sub_diag. destruct fuel as [|fuel]; [simpl in Hf; lia|].
      cbn [chain_loop Z.eqb mbind res_bind]. rewrite app_nil_r, take_app_le by lia.
      do 2 f_equal. rewrite length_take. lia.
    + replace readlen with (512 - off) by lia. rewrite IH; try done; try (simpl in Hf; simpl; lia).
      cbn [mbind res_bind]. replace (Z.to_nat bytes) with (length sec + Z.to_nat (bytes - (512 - off)))%nat by lia.
      rewrite take_app_add, (take_ge sec) by lia. rewrite drop_0. do 2 f_equal. rewrite length_app. lia.
Qed.

(** Without a buffer the loop counts the bytes of the chain. *)
Lemma chain_count_Ok cs : ∀ c fuel off acc, chain (c :: cs) → (length (c :: cs) ≤ fuel)%nat → 0 ≤ off < 512 →
  0 ≤ acc → acc + 512 * zlen (c :: cs) < 2 ^ 63 →
  chain_loop fuel d h 512 c off (2 ^ 32 - 1) None acc = Ok (acc + 512 * zlen (c :: cs) - off, []).
Proof.
  induction cs as [|c' cs IH]; intros c fuel off acc Hch Hf Hoff Hacc Hsum;
    (destruct fuel as [|fuel]; [simpl in Hf; lia|]); cbn [chain_loop].
  all: rewrite (proj2 (Z.eqb_neq (2 ^ 32 - 1) 0)) by lia; cbn [mbind res_bind]; rewrite (uN_small 64 (512 - off)) by (unfold is_uN; lia).
  all: cbn [length] in Hsum; replace (Z.min (2 ^ 32 - 1) (512 - off)) with (512 - off) by lia; rewrite uN_small by (unfold is_uN; lia).
  - destruct Hch as (e & He & Heoc). rewrite He. cbn [mbind res_bind]. rewrite (proj2 (Z.leb_le EOC e)) by done.
    do 2 f_equal. simpl. lia.
  - destruct Hch as (He & Heoc & Hch). rewrite He. cbn [mbind res_bind]. rewrite (proj2 (Z.leb_gt EOC c')) by lia.
    rewrite IH; try done; try (cbn [length] in *; lia). cbn [mbind res_bind app]. do 2 f_equal. cbn [length]. lia.
Qed.

Lemma skip_clusters_Ok k : ∀ c cs, chain (c :: cs) → c < EOC → (k < length (c :: cs))%nat →
  ∃ c' cs', drop k (c :: cs) = c' :: cs' ∧ skip_clusters k h c = Ok c' ∧ chain (c' :: cs').
Proof.
  induction k as [|k IH]; intros c cs Hch Hc Hk; [by exists c, cs|]. destruct cs as [|c1 cs]; [simpl in Hk; lia|].
  destruct Hch as (He & He' & Hch). cbn [skip_clusters]. rewrite He. cbn [mbind res_bind].
  rewrite (proj2 (Z.leb_gt EOC c)) by lia. apply IH; [done|done|simpl in *; lia].
Qed.
End Chains.

(** ** Properties *)

(** Reading along a chain, behind any driver. *)
Lemma chainread_Ok {D} `{DiskLaws D} (d : D) h c cs offset bytes a fuel :
  small_clusters d h → chain h (c :: cs) → Forall (on_disk d h) (c :: cs) → c < EOC →
  0 ≤ offset < 512 * zlen (c :: cs) → 0 < bytes < 2 ^ 62 → 512 * zlen (c :: cs) < 2 ^ 62 →
  (length (c :: cs) ≤ fuel)%nat →
  let data := take (Z.to_nat bytes) (drop (Z.to_nat offset) (file_bytes d h (c :: cs))) in
  chainread fuel d h c offset bytes (Some a) = Ok (zlen data, data) ∧
  zlen data = Z.min bytes (512 * zlen (c :: cs) - offset) ∧
  chainread fuel d h c 0 bytes None = Ok (512 * zlen (c :: cs), []).
Proof.
  intros Hsm Hch Hon Hc Ho Hb Hsz Hf data. destruct (Hsm) as [Hsize _ _].
  assert (zlen data = Z.min bytes (512 * zlen (c :: cs) - offset)) as Hlen.
  { unfold data. rewrite length_take, length_drop, file_bytes_length. lia. }
  unfold chainread. rewrite Hsize. cbn [Z.eqb]. change (512 =? 0) with false. cbn iota. split_and!; [|done|].
  - destruct (skip_clusters_Ok h (Z.to_nat (offset / 512)) c cs Hch Hc) as (c' & cs' & Ed & -> & Hch').
    { pose proof (Z.div_pos offset 512). pose proof (Z.div_mod offset 512). pose proof (Z.mod_pos_bound offset 512). lia. }
    cbn [mbind res_bind]. rewrite (chain_loop_Ok d h Hsm cs'); [|done|rewrite <- Ed; by apply Forall_drop| | | | |].
    + rewrite Z.add_0_l. rewrite <- Ed, <- drop_file_bytes, drop_drop.
      replace (512 * Z.to_nat (offset / 512) + Z.to_nat (offset `mod` 512))%nat with (Z.to_nat offset); [done|].
      pose proof (Z.div_pos offset 512). pose proof (Z.div_mod offset 512). pose proof (Z.mod_pos_bound offset 512). lia.
    + rewrite <- Ed, length_drop. lia.
    + apply Z.mod_pos_bound. lia.
    + lia.
    + lia.
    + lia.
  - change (Z.to_nat (0 / 512)) with O. change (0 `mod` 512) with 0. cbn [skip_clusters]. change (Ok c ≫= ?f) with (f c). cbn beta.
    rewrite (chain_count_Ok d h cs c fuel 0 0) by (done || lia). do 2 f_equal.
Qed.

(** C32: on a volume with 512-byte clusters, [chainread] follows the cluster chain of a file: a read
    from any offset inside the chain returns the bytes of the file from there on, through all
    cluster boundaries, [bytes] of them or as many as the chain still has; and without a buffer it
    returns the size of the chain. *)
Theorem chainread_file {D} `{DiskLaws D} (d : D) h c cs offset bytes a fuel :
  small_clusters d h → chain h (c :: cs) → Forall (on_disk d h) (c :: cs) → c < EOC →
  0 ≤ offset < 512 * zlen (c :: cs) → 0 < bytes < 2 ^ 62 → 512 * zlen (c :: cs) < 2 ^ 62 →
  (length (c :: cs) ≤ fuel)%nat →
  let data := take (Z.to_nat bytes) (drop (Z.to_nat offset) (file_bytes d h (c :: cs))) in
  chainread fuel d h c offset bytes (Some a) = Ok (zlen data, data) ∧
  zlen data = Z.min bytes (512 * zlen (c :: cs) - offset) ∧
  chainread fuel d h c 0 bytes None = Ok (512 * zlen (c :: cs), []).
Proof. apply chainread_Ok. Qed.

(** ** Concrete volumes *)

Definition short_entry (name : string) (attr cluster sz : Z) : list Z :=
  bytes_of name ++ [attr] ++ replicate 8 0 ++ le_bytes 2 0 ++ replicate 4 0 ++ le_bytes 2 cluster ++ le_bytes 4 sz.
(** A volume at sector 1 with [spc] sectors per cluster: one FAT of one sector, the root directory
    and the data behind it. *)
Definition volume (spc : Z) (table root data : list Z) : image :=
  let pad (l : list Z) := l ++ replicate (512 - length l) 0 in
  mkImage (pad [] ++
    pad (replicate 11 0 ++ le_bytes 2 512 ++ [spc] ++ le_bytes 2 1 ++ [1] ++ replicate 19 0 ++ le_bytes 4 1) ++
    pad (mjoin (map (le_bytes 4) table)) ++ pad root ++ data).
Definition long_entry (order : Z) (s : list Z) : list Z :=
  let u := mjoin (map (λ c, [c; 0]) (take 13 (s ++ replicate 13 0))) in
  [order] ++ take 10 u ++ [0x0f; 0; 0] ++ take 12 (drop 10 u) ++ [0; 0] ++ drop 22 u.

(** The file [HELLO] in the clusters 3 and 5. *)
Definition label : list Z := short_entry "LABEL      " FatAttrs.VOLUME_ID 0 0.
Definition hello_volume : image :=
  volume 1 [0; 0; EOC; 5; 0; EOC] (label ++ short_entry "HELLO      " 0x20 3 700)
    (replicate 512 65 ++ replicate 512 66 ++ replicate 512 67).
Definition hello_handle : fat_fshandle :=
  match mod_main hello_volume None 512 true with Ok (Some h) => h | _ => mkHandle 0 0 [] 0 0 end.

Lemma chainread_file_witness :
  chainread 2 hello_volume hello_handle 3 500 100 (Some 4096) = Ok (100, replicate 12 65 ++ replicate 88 67).
Proof.
  destruct (chainread_file hello_volume hello_handle 3 [5] 500 100 4096 2) as (H & _ & _).
  - split; [vm_compute; reflexivity|vm_compute; split; [discriminate|reflexivity]|vm_compute; discriminate].
  - split; [vm_compute; reflexivity|]. split; [vm_compute; reflexivity|]. exists EOC. split; vm_compute; [reflexivity|discriminate].
  - repeat constructor; vm_compute; discriminate.
  - vm_compute. reflexivity.
  - simpl. lia.
  - lia.
  - simpl. lia.
  - simpl. lia.
  - rewrite H. vm_compute. reflexivity.
Defined.

Example read_hello : fat32_read 2 hello_volume hello_handle (bytes_of "/HELLO") 510 4 (Some 64) = Ok (4, [65; 65; 67; 67]).
Proof. vm_compute. reflexivity. Qed.

(** With two sectors per cluster the data of cluster 3 starts two sectors behind that of cluster
    2, but only one sector behind is read. *)
Example wide_clusters_misread :
  let v := volume 2 [0; 0; EOC; EOC] (label ++ short_entry "HELLO      " 0x20 3 4) (replicate 512 65 ++ replicate 512 66 ++ replicate 512 67) in
  match mod_main v None 512 true with
  | Ok (Some h) => clusteroff h 3 0 = dataoffset h + 1024 ∧ fat32_read 2 v h (bytes_of "/HELLO") 0 4 (Some 64) = Ok (4, replicate 4 65)
  | _ => False
  end.
Proof. vm_compute. split; reflexivity. Qed.

(** The parts of a long name are stored last part first, and the terminator of each part falls on
    the first character of the part behind it: of a longer name 13 characters are left. *)
Example long_name_cut :
  let root := label ++ long_entry 0x42 (bytes_of "nop.txt") ++ long_entry 1 (bytes_of "abcdefghijklm") ++ short_entry "ABCDEF~1TXT" 0x20 3 4 in
  let v := volume 1 [0; 0; EOC; EOC] root (replicate 512 65) in
  match mod_main v None 512 true with
  | Ok (Some h) => fat32_readdir 2 v h [slash] 64 (replicate 256 7) = Ok [mkFsEntry (bytes_of "abcdefghijklm") false]
  | _ => False
  end.
Proof. vm_compute. reflexivity. Qed.

(** Filling in the root's cluster overwrites that of the first entry: a file there is read from the
    root directory's own cluster. *)
Example first_entry_clobbered :
  let v := volume 1 [0; 0; EOC; EOC] (short_entry "HELLO      " 0x20 3 4) (replicate 512 65) in
  match mod_main v None 512 true with
  | Ok (Some h) => fat32_read 2 v h (bytes_of "/HELLO") 0 4 (Some 64) = Ok (4, bytes_of "HELL")
  | _ => False
  end.
Proof. vm_compute. reflexivity. Qed.
