(* ===== verification/Ustar.v ===== *)
(** The ustar archive reader ([util/ustar.cc], [ustar.hh]) that unpacks the kernel's modules.

    The archive is the list of its bytes; a header pointer is an offset into it, and reading past
    the end is a [Fault]. *)
From S2P Require Import Prelude Arith Strings Msd.

(** ** Definitions *)

(** The fields of [ustar_header] that are read. *)
Definition header_name (h : list Z) : res (list Z) := c_string h.
Definition header_filesize (h : list Z) : list Z := drop 124 h.
Definition header_magic (h : list Z) : list Z := drop 257 h.

Record ustar_file := mkFile { fname : list Z; fsize : Z; faddress : Z }.

(** [(u64)h < (u64)archive + archivesize && !strncmp(h->ustarmagic, "ustar", 5)] *)
Definition header_here (ar : list Z) (off : Z) : res bool :=
  if zlen ar <=? off then Ok false else
  let magic := take 5 (header_magic (drop (Z.to_nat off) ar)) in
  if zlen magic <? 5 then Fault else Ok (strncmp magic (bytes_of "ustar") 5 =? 0).

(** [ustar_lookup]: the size field is read with its terminator, and the header itself is not
    skipped; a file of size 0 is read over and over. *)
Fixpoint lookup_files (fuel : nat) (base : Z) (ar : list Z) (off : Z) (file : list Z) : res (option ustar_file) :=
  here ← header_here ar off;
  if negb here then Ok None else
  match fuel with
  | O => NoFuel
  | S fuel =>
      let h := drop (Z.to_nat off) ar in
      n ← oct2bin (header_filesize h) 12;
      let size := u32 n in
      name ← header_name h;
      if strncmp file name (strlen file) =? 0 then Ok (Some (mkFile name size (u64 (base + off + 512)))) else
      let step := align32 size 512 / 512 in
      if step =? 0 then Hang else lookup_files fuel base ar (off + step * 512) file
  end.
Definition ustar_lookup (base : Z) (ar file : list Z) : res (option ustar_file) :=
  lookup_files (S (length ar / 512)) base ar 0 file.

Fixpoint list_files (fuel : nat) (base : Z) (ar : list Z) (off : Z) : res (list ustar_file) :=
  here ← header_here ar off;
  if negb here then Ok [] else
  match fuel with
  | O => NoFuel
  | S fuel =>
      let h := drop (Z.to_nat off) ar in
      n ← oct2bin (header_filesize h) (12 - 1);
      let size := u32 n in
      name ← header_name h;
      rest ← list_files fuel base ar (off + (align32 size 512 / 512 + 1) * 512);
      Ok (mkFile name size (u64 (base + off + 512)) :: rest)
  end.
(** Every round moves at least a block on. *)
Definition ustar_list (base : Z) (ar : list Z) : res (list ustar_file) := list_files (S (length ar / 512)) base ar 0.

(** ** Archives *)

(** The octal numeral of a size field. *)
Definition octal (k : nat) (v : Z) : list Z := map (λ i, 48 + (v / 8 ^ Z.of_nat i) `mod` 8) (rev (seq 0 k)).

Lemma octal_S k v : octal (S k) v = (48 + (v / 8 ^ Z.of_nat k) `mod` 8) :: octal k v.
Proof. unfold octal. rewrite seq_S, rev_app_distr. done. Qed.

Lemma oct2bin_octal k : ∀ v r n, 0 ≤ v → 0 ≤ n → n * 8 ^ Z.of_nat k + v `mod` 8 ^ Z.of_nat k < 2 ^ 31 →
  oct2bin_loop (octal k v ++ r) k n = Ok (n * 8 ^ Z.of_nat k + v `mod` 8 ^ Z.of_nat k).
Proof.
  induction k as [|k IH]; intros v r n Hv Hn Hb.
  - change (8 ^ Z.of_nat 0) with 1. rewrite Z.mod_1_r, Z.mul_1_r, Z.add_0_r. by destruct r.
  - rewrite octal_S. cbn [app oct2bin_loop]. rewrite Nat2Z.inj_succ, Z.pow_succ_r in * by lia.
    set (p := 8 ^ Z.of_nat k) in *. assert (0 < p) by (apply Z.pow_pos_nonneg; lia).
    assert (v `mod` (8 * p) = p * ((v / p) `mod` 8) + v `mod` p) as Hm.
    { rewrite (Z.mul_comm 8 p), Z.rem_mul_r by lia. apply Z.add_comm. }
    pose proof (Z.mod_pos_bound (v / p) 8 ltac:(lia)) as Hd. pose proof (Z.mod_pos_bound v p ltac:(lia)) as Hvp.
    rewrite Hm in Hb |- *. set (dgt := (v / p) `mod` 8) in *.
    assert (n * 8 + dgt ≤ (n * 8 + dgt) * p) by nia.
    assert (n * 8 + dgt < 2 ^ 31) by lia.
    assert (∀ z, 0 ≤ z < 2 ^ 31 → i32 z = z) as Hi.
    { intros z Hz. unfold iN. rewrite uN_small by (unfold is_uN; lia). by rewrite (proj2 (Z.ltb_lt z (2 ^ (32 - 1)))) by lia. }
    rewrite (Hi (n * 8)) by lia. replace (n * 8 + (48 + dgt - 48)) with (n * 8 + dgt) by lia. rewrite Hi by lia.
    rewrite IH; [f_equal; lia|done|lia|lia].
Qed.

(** A file as it is archived: a header with its name and size, then its data, padded to blocks. *)
Record archived := mkArchived { hdr : list Z; body : list Z }.
Record well_formed (f : archived) (name : list Z) (size : Z) : Prop := {
  wf_header : length (hdr f) = 512%nat;
  wf_name : c_string (hdr f) = Ok name;
  wf_size : 0 ≤ size < 2 ^ 31 - 512;
  wf_field : ∃ r, drop 124 (hdr f) = octal 11 size ++ r;
  wf_magic : take 5 (drop 257 (hdr f)) = bytes_of "ustar";
  wf_body : zlen (body f) = (size + 511) / 512 * 512 }.
Definition archive (fs : list archived) : list Z := mjoin (map (λ f, hdr f ++ body f) fs).

(** Where the files lie and what they are called. *)
Fixpoint expected (base off : Z) (fs : list (archived * (list Z * Z))) : list ustar_file :=
  match fs with
  | [] => []
  | (f, (name, size)) :: fs =>
      mkFile name size (u64 (base + off + 512)) :: expected base (off + 512 + zlen (body f)) fs
  end.

Lemma c_string_app s r name : c_string s = Ok name → c_string (s ++ r) = Ok name.
Proof.
  revert name. induction s as [|c s IH]; intros name H; [done|]. cbn [c_string app] in *. destruct (c =? 0); [done|].
  apply bind_Ok in H as (l & Hl & E). by rewrite (IH _ Hl).
Qed.

Lemma list_files_Ok base fs : ∀ pre tl fuel, (length fs ≤ fuel)%nat →
  Forall (λ x, well_formed x.1 x.2.1 x.2.2) fs →
  (tl = [] ∨ (5 ≤ zlen (drop 257 tl) ∧ strncmp (take 5 (drop 257 tl)) (bytes_of "ustar") 5 ≠ 0)) →
  list_files fuel base (pre ++ archive (map fst fs) ++ tl) (zlen pre) = Ok (expected base (zlen pre) fs).
Proof.
  induction fs as [|[f [name size]] fs IH]; intros pre tl fuel Hf Hwf Htl.
  - change (archive (map fst [])) with (@nil Z). cbn [app expected].
    assert (header_here (pre ++ tl) (zlen pre) = Ok false) as Hh.
    { unfold header_here. rewrite length_app. destruct Htl as [->|[H1 H2]].
      - by rewrite (proj2 (Z.leb_le _ _)) by (simpl; lia).
      - rewrite Nat2Z.id, drop_app_length. unfold header_magic.
        assert (0 < zlen tl) by (rewrite length_drop in H1; lia).
        rewrite (proj2 (Z.leb_gt _ _)) by lia. rewrite (proj2 (Z.ltb_ge _ _)) by (rewrite length_take; lia).
        by rewrite (proj2 (Z.eqb_neq _ _)). }
    destruct fuel; cbn [list_files]; by rewrite Hh.
  - apply Forall_cons in Hwf as [[Hh Hn Hs Hfld Hm Hb] Hwf]. cbn [fst snd] in *. destruct fuel as [|fuel]; [simpl in Hf; lia|].
    change (archive (map fst ((f, (name, size)) :: fs))) with ((hdr f ++ body f) ++ archive (map fst fs)).
    rewrite <- !app_assoc. cbn [list_files]. set (rest := body f ++ archive (map fst fs) ++ tl).
    assert (drop (length pre) (pre ++ hdr f ++ rest) = hdr f ++ rest) as Hd by apply drop_app_length.
    assert (header_here (pre ++ hdr f ++ rest) (zlen pre) = Ok true) as ->.
    { unfold header_here. rewrite Nat2Z.id, Hd, !length_app, Hh. rewrite (proj2 (Z.leb_gt _ _)) by lia.
      unfold header_magic. rewrite drop_app_le, take_app_le by (rewrite ?length_drop, Hh; lia). by rewrite Hm. }
    cbn [mbind res_bind negb]. rewrite Nat2Z.id, Hd. unfold header_filesize. rewrite drop_app_le by (rewrite Hh; lia).
    destruct Hfld as [r ->]. unfold oct2bin. change (12 - 1)%nat with 11%nat.
    change (8 ^ Z.of_nat 11) with (2 ^ 33).
    rewrite <- app_assoc, (oct2bin_octal 11) by (try lia; change (8 ^ Z.of_nat 11) with (2 ^ 33); rewrite Z.mod_small by lia; lia).
    change (8 ^ Z.of_nat 11) with (2 ^ 33). rewrite (Z.mod_small size), Z.mul_0_l, Z.add_0_l by lia. cbn [mbind res_bind].
    unfold header_name. rewrite (c_string_app _ _ _ Hn). cbn [mbind res_bind]. rewrite (uN_small 32 size) by (unfold is_uN; lia).
    assert ((align32 size 512 / 512 + 1) * 512 = 512 + zlen (body f)) as ->.
    { rewrite alignN_exact, Hb, Z.div_mul by lia. change (512 - 1) with 511. lia. }
    pose proof (IH (pre ++ hdr f ++ body f) tl fuel ltac:(simpl in Hf; lia) Hwf Htl) as IH'.
    rewrite !length_app, Hh in IH'. rewrite <- !app_assoc in IH'.
    replace (Z.of_nat (length pre + (512 + length (body f)))) with (zlen pre + (512 + zlen (body f))) in IH' by lia.
    unfold rest. rewrite IH'. cbn [mbind res_bind expected]. do 3 f_equal. lia.
Qed.

(** ** Properties *)

(** [ustar_list] finds every file of a well-formed archive, in order, with its name, its size and
    the address of its data, and stops at the end or at the first block that is no header. *)
Lemma ustar_list_files base fs tl :
  Forall (λ x, well_formed x.1 x.2.1 x.2.2) fs →
  (tl = [] ∨ (5 ≤ zlen (drop 257 tl) ∧ strncmp (take 5 (drop 257 tl)) (bytes_of "ustar") 5 ≠ 0)) →
  ustar_list base (archive (map fst fs) ++ tl) = Ok (expected base 0 fs).
Proof.
  intros Hwf Htl. unfold ustar_list. apply (list_files_Ok base fs []); [|done|done].
  assert (512 * length fs ≤ length (archive (map fst fs)))%nat as Hl.
  { clear Htl. induction fs as [|x fs IH]; [simpl; lia|]. apply Forall_cons in Hwf as [Hx Hwf]. specialize (IH Hwf).
    change (archive (map fst (x :: fs))) with ((hdr x.1 ++ body x.1) ++ archive (map fst fs)).
    rewrite !length_app. rewrite (wf_header _ _ _ Hx). simpl length. lia. }
  rewrite length_app. apply Nat.lt_le_incl, Nat.lt_succ_r, Nat.div_le_lower_bound; lia.
Qed.

Definition demo_file (name : string) (size : nat) (c : Z) : archived :=
  mkArchived (bytes_of name ++ replicate (124 - String.length name) 0 ++ octal 11 (Z.of_nat size) ++ replicate 122 0 ++
              bytes_of "ustar" ++ replicate 250 0)
    (replicate size c ++ replicate (Z.to_nat ((Z.of_nat size + 511) / 512 * 512) - size) 0).
Definition demo_archive : list (archived * (list Z * Z)) :=
  [(demo_file "ehci.mod" 600 1, (bytes_of "ehci.mod", 600)); (demo_file "fat.mod" 0 1, (bytes_of "fat.mod", 0))].

Lemma demo_wf : Forall (λ x, well_formed x.1 x.2.1 x.2.2) demo_archive.
Proof.
  repeat constructor; try (vm_compute; reflexivity); try (vm_compute; discriminate).
  - exists (replicate 122 0 ++ bytes_of "ustar" ++ replicate 250 0). vm_compute. reflexivity.
  - exists (replicate 122 0 ++ bytes_of "ustar" ++ replicate 250 0). vm_compute. reflexivity.
Qed.
Lemma ustar_list_files_witness :
  ustar_list 4096 (archive (map fst demo_archive) ++ replicate 1024 0) =
  Ok [mkFile (bytes_of "ehci.mod") 600 4608; mkFile (bytes_of "fat.mod") 0 6144].
Proof.
  rewrite (ustar_list_files 4096 demo_archive (replicate 1024 0)).
  - vm_compute. reflexivity.
  - exact demo_wf.
  - right. vm_compute. split; discriminate.
Defined.

(** [ustar_lookup] reads the terminator of the size field as a digit, so it moves on by the wrong
    number of blocks and does not find the second file. *)
Example lookup_misses_second :
  ustar_lookup 4096 (archive (map fst demo_archive) ++ replicate 1024 0) (bytes_of "fat.mod") = Ok None ∧
  ∃ f, ustar_lookup 4096 (archive (map fst demo_archive) ++ replicate 1024 0) (bytes_of "ehci") = Ok (Some f) ∧ fsize f = 4752.
Proof. split; [vm_compute; reflexivity|]. eexists. split; vm_compute; reflexivity. Qed.
