(* ===== verification/Elf.v ===== *)
(** ELF images ([util/elf.hh]), the kernel's symbol table ([util/ksyms.cc]) and the linker of the
    module manager ([devmgr/module.cc], [modules_link]).

    An image is the list of its bytes and a pointer into it an offset; a read outside the image, or
    through a pointer that was never set, is a [Fault].  The addresses of the loaded sections are
    addresses of the byte memory [mem]; a store to an address that is not mapped is a [Fault]. *)
From S2P Require Import Prelude Arith Mem Strings Msd.

(** ** Structures *)

(** The [n]-byte field at offset [o]. *)
Definition rd (img : list Z) (o n : Z) : res Z :=
  if (0 <=? o) && (o + n <=? zlen img) then Ok (field img (Z.to_nat o) (Z.to_nat n)) else Fault.
(** The bytes of a number, as they lie in memory. *)
Fixpoint le (n : nat) (v : Z) : list Z := match n with O => [] | S n => v `mod` 256 :: le n (v / 256) end.
Definition rd_str (img : list Z) (o : Z) : res (list Z) :=
  if (0 <=? o) && (o <? zlen img) then c_string (drop (Z.to_nat o) img) else Fault.

Record Elf64_Ehdr := mkEhdr { e_ident : list Z; e_entry : Z; e_phoff : Z; e_shoff : Z; e_phnum : Z; e_shnum : Z; e_shstrndx : Z }.
Definition rd_ehdr (img : list Z) : res Elf64_Ehdr :=
  if zlen img <? 64 then Fault else
  entry ← rd img 24 8; phoff ← rd img 32 8; shoff ← rd img 40 8;
  phnum ← rd img 56 2; shnum ← rd img 60 2; shstrndx ← rd img 62 2;
  Ok (mkEhdr (take 16 img) entry phoff shoff phnum shnum shstrndx).

Record Elf64_Shdr := mkShdr { sh_name : Z; sh_type : Z; sh_flags : Z; sh_addr : Z; sh_offset : Z; sh_size : Z; sh_info : Z }.
Definition rd_shdr (img : list Z) (shoff i : Z) : res Elf64_Shdr :=
  let o := shoff + 64 * i in
  name ← rd img o 4; type ← rd img (o + 4) 4; flags ← rd img (o + 8) 8; addr ← rd img (o + 16) 8;
  offset ← rd img (o + 24) 8; size ← rd img (o + 32) 8; info ← rd img (o + 44) 4;
  Ok (mkShdr name type flags addr offset size info).

Record Elf64_Sym := mkSym { st_name : Z; st_info : Z; st_shndx : Z; st_value : Z }.
Definition rd_sym (img : list Z) (symtab i : Z) : res Elf64_Sym :=
  let o := symtab + 24 * i in
  name ← rd img o 4; info ← rd img (o + 4) 1; shndx ← rd img (o + 6) 2; value ← rd img (o + 8) 8;
  Ok (mkSym name info shndx value).

Record Elf64_Rela := mkRela { r_offset : Z; r_info : Z; r_addend : Z }.
Definition rd_rela (img : list Z) (rela i : Z) : res Elf64_Rela :=
  let o := rela + 24 * i in
  offset ← rd img o 8; info ← rd img (o + 8) 8; addend ← rd img (o + 16) 8;
  Ok (mkRela offset info (i64 addend)).
Definition ELF64_R_SYM (i : Z) : Z := Z.shiftr i 32.
Definition ELF64_R_TYPE (i : Z) : Z := Z.land i 0xffffffff.

Record Elf64_Phdr := mkPhdr { p_type : Z; p_offset : Z; p_vaddr : Z; p_filesz : Z; p_memsz : Z }.
Definition rd_phdr (img : list Z) (phoff i : Z) : res Elf64_Phdr :=
  let o := phoff + 56 * i in
  type ← rd img o 4; offset ← rd img (o + 8) 8; vaddr ← rd img (o + 16) 8;
  filesz ← rd img (o + 32) 8; memsz ← rd img (o + 40) 8;
  Ok (mkPhdr type offset vaddr filesz memsz).

Definition PT_LOAD : Z := 1.
Definition STT_SECTION : Z := 3.
Definition SHT_SYMTAB : Z := 2.
Definition SHT_RELA : Z := 4.
Definition SHT_NOBITS : Z := 8.
Definition SHT_REL : Z := 9.
Definition SHF_ALLOC : Z := 2.
Definition SHN_UNDEF : Z := 0.
Definition R_X86_64_64 : Z := 1.

Definition elf_magic : list Z := 127 :: bytes_of "ELF".
Definition is_elf (e : Elf64_Ehdr) : bool := strncmp elf_magic (e_ident e) 4 =? 0.

(** ** Symbol tables *)

(** The pointers the scan of the section headers sets. *)
Record symtabs := mkTabs { strtab : option Z; symtab : option Z; num_syms : option Z }.
Definition no_tabs : symtabs := mkTabs None None None.

(** One section header: [is_strtab] is the comparison of its name, which differs between the two users. *)
Definition scan_section (is_strtab : list Z → bool) (img : list Z) (shoff shstrtab i : Z) (t : symtabs) : res symtabs :=
  sh ← rd_shdr img shoff i;
  name ← rd_str img (shstrtab + sh_name sh);
  if is_strtab name then Ok (mkTabs (Some (sh_offset sh)) (symtab t) (num_syms t))
  else if sh_type sh =? SHT_SYMTAB then Ok (mkTabs (strtab t) (Some (sh_offset sh)) (Some (u32 (sh_size sh / 24))))
  else Ok t.
Definition scan_sections (is_strtab : list Z → bool) (img : list Z) (e : Elf64_Ehdr) (shstrtab : Z) (t : symtabs) : res symtabs :=
  for_rounds (scan_section is_strtab img (e_shoff e) shstrtab) 0 1 (Z.to_nat (e_shnum e)) t.
Definition section_names (img : list Z) (e : Elf64_Ehdr) : res Z :=
  sh ← rd_shdr img (e_shoff e) (e_shstrndx e); Ok (sh_offset sh).

(** The kernel's own symbols: its image and where the tables are. *)
Record ksyms := mkKsyms { kimage : list Z; ktabs : symtabs }.
Definition is_kstrtab (name : list Z) : bool := strncmp name (bytes_of ".strtab") 7 =? 0.
(** [None]: the boot loader gave no file. *)
Definition ksyms_read (file : option (list Z)) : res ksyms :=
  match file with
  | None => Fatal "file_req.response"
  | Some img =>
      e ← rd_ehdr img;
      assert_ (is_elf e) "ELF";;
      kshstrtab ← section_names img e;
      t ← scan_sections is_kstrtab img e kshstrtab no_tabs;
      Ok (mkKsyms img t)
  end.

(** The search of [modules_link] for an undefined symbol: the first of that name. *)
Fixpoint find_ksym (ks : ksyms) (name : list Z) (k : nat) (i : Z) : res (option Z) :=
  match k with
  | O => Ok None
  | S k =>
      tab ← deref (symtab (ktabs ks)); str ← deref (strtab (ktabs ks));
      sym ← rd_sym (kimage ks) tab i;
      n ← rd_str (kimage ks) (str + st_name sym);
      if strcmp n name =? 0 then Ok (Some (st_value sym)) else find_ksym ks name k (i + 1)
  end.
(** [num_ksyms] is a global and 0 before it is set. *)
Definition ksym_lookup (ks : ksyms) (name : list Z) : res (option Z) :=
  find_ksym ks name (Z.to_nat (default 0 (num_syms (ktabs ks)))) 0.

(** ** Linking a module *)

Record linkage := mkLink { l_img : list Z; l_ehdr : Elf64_Ehdr; l_shstrtab : Z; l_tabs : symtabs }.
Definition is_strtab (name : list Z) : bool := strcmp name (bytes_of ".strtab") =? 0.
Definition link_tables (a : list Z) : res linkage :=
  ehdr ← rd_ehdr a;
  shstrtab ← section_names a ehdr;
  t ← scan_sections is_strtab a ehdr shstrtab no_tabs;
  Ok (mkLink a ehdr shstrtab t).

Definition l_shdr (l : linkage) (i : Z) : res Elf64_Shdr := rd_shdr (l_img l) (e_shoff (l_ehdr l)) i.
Definition l_sym (l : linkage) (i : Z) : res Elf64_Sym := tab ← deref (symtab (l_tabs l)); rd_sym (l_img l) tab i.
Definition l_name (l : linkage) (o : Z) : res (list Z) := str ← deref (strtab (l_tabs l)); rd_str (l_img l) (str + o).
(** [shdrs[sym.st_shndx].sh_addr + sym.st_value] *)
Definition sym_address (l : linkage) (sym : Elf64_Sym) : res Z :=
  sh ← l_shdr l (st_shndx sym); Ok (u64 (sh_addr sh + st_value sym)).

(** The entry point: the last symbol of that name. *)
Definition scan_entry (l : linkage) (i entry : Z) : res Z :=
  sym ← l_sym l i;
  name ← l_name l (st_name sym);
  if strcmp name (bytes_of "mod_main") =? 0 then sym_address l sym else Ok entry.
Definition find_entry (l : linkage) : res Z :=
  n ← deref (num_syms (l_tabs l));
  entry ← for_rounds (scan_entry l) 0 1 (Z.to_nat n) 0;
  if entry =? 0 then Fatal "Entry point not found" else Ok entry.

Definition sym_name (l : linkage) (sym : Elf64_Sym) : res (list Z) :=
  if st_info sym =? STT_SECTION then sh ← l_shdr l (st_shndx sym); rd_str (l_img l) (l_shstrtab l + sh_name sh)
  else l_name l (st_name sym).
(** [S], the value of a symbol. *)
Definition resolve (ks : ksyms) (l : linkage) (sym : Elf64_Sym) : res Z :=
  if st_shndx sym =? SHN_UNDEF then
    name ← sym_name l sym;
    r ← ksym_lookup ks name;
    match r with Some v => Ok v | None => Fatal "Szimbolum nem talalhato" end
  else sym_address l sym.

(** Where a relocation is applied and the value that goes there. *)
Definition relocation (ks : ksyms) (l : linkage) (linkee rela : Z) (j : Z) : res (Z * Z) :=
  r ← rd_rela (l_img l) rela j;
  sym ← l_sym l (ELF64_R_SYM (r_info r));
  address ← resolve ks l sym;
  to ← l_shdr l linkee;
  if ELF64_R_TYPE (r_info r) =? R_X86_64_64 then Ok (u64 (sh_addr to + r_offset r), u64 (address + r_addend r))
  else Fatal "Unsupported reloc type".

Section Link.
(** Which addresses are mapped. *)
Context (mapped : Z → bool) (ks : ksyms).

Definition store_q (m : mem) (p v : Z) : res mem :=
  if mapped p && mapped (u64 (p + 7)) then Ok (store64 m p v) else Fault.
Definition apply_rela (l : linkage) (linkee rela j : Z) (m : mem) : res mem :=
  '(p, v) ← relocation ks l linkee rela j; store_q m p v.
Definition link_section (l : linkage) (i : Z) (m : mem) : res mem :=
  sh ← l_shdr l i;
  if sh_type sh =? SHT_REL then rd_str (l_img l) (l_shstrtab l + sh_name sh);; Fatal "section rel"
  else if negb (sh_type sh =? SHT_RELA) then Ok m
  else for_rounds (apply_rela l (sh_info sh) (sh_offset sh)) 0 1 (Z.to_nat (u32 (sh_size sh / 24))) m.
Definition modules_link (m : mem) (a : list Z) : res (Z * mem) :=
  l ← link_tables a;
  entry ← find_entry l;
  m ← for_rounds (link_section l) 0 1 (Z.to_nat (e_shnum (l_ehdr l))) m;
  Ok (entry, m).
End Link.

(** ** The relocations of an image *)

Definition section_relocs (ks : ksyms) (l : linkage) (i : Z) : res (list (Z * Z)) :=
  sh ← l_shdr l i;
  if sh_type sh =? SHT_REL then Fatal "section rel"
  else if negb (sh_type sh =? SHT_RELA) then Ok []
  else mapM (relocation ks l (sh_info sh) (sh_offset sh)) (seqZ 0 (u32 (sh_size sh / 24))).
(** All pairs of a place and its value, in the order of the file. *)
Definition relocs (ks : ksyms) (l : linkage) : res (list (Z * Z)) :=
  ls ← mapM (section_relocs ks l) (seqZ 0 (e_shnum (l_ehdr l))); Ok (concat ls).

Definition patch (m : mem) (l : list (Z * Z)) : mem := foldl (λ m pv, store64 m pv.1 pv.2) m l.

(** Places that do not overlap. *)
Definition apart (a b : Z * Z) : Prop := a.1 + 8 ≤ b.1 ∨ b.1 + 8 ≤ a.1.
Definition apart_all (l : list (Z * Z)) : Prop := ∀ i j a b, l !! i = Some a → l !! j = Some b → i ≠ j → apart a b.

Lemma mapM_Ok_cons {A B} (f : A → res B) x l r : mapM f (x :: l) = Ok r →
  ∃ y r', f x = Ok y ∧ mapM f l = Ok r' ∧ r = y :: r'.
Proof.
  cbn [mapM]. intros H. apply bind_Ok in H as (y & Hy & H). apply bind_Ok in H as (r' & Hr & H).
  injection H as <-. by exists y, r'.
Qed.

Lemma seqZ_S i (k : nat) : seqZ i (Z.of_nat (S k)) = i :: seqZ (i + 1) (Z.of_nat k).
Proof. rewrite seqZ_cons by lia. f_equal. f_equal; lia. Qed.

Section Patch.
Context (mapped : Z → bool) (ks : ksyms).
Definition mapped_q (pv : Z * Z) : Prop := mapped pv.1 = true ∧ mapped (u64 (pv.1 + 7)) = true.

Lemma rela_patch l linkee rela k : ∀ i m r,
  mapM (relocation ks l linkee rela) (seqZ i (Z.of_nat k)) = Ok r → Forall mapped_q r →
  for_rounds (apply_rela mapped ks l linkee rela) i 1 k m = Ok (patch m r).
Proof.
  induction k as [|k IH]; intros i m r H Hm; [by injection H as <-|].
  rewrite seqZ_S in H. apply mapM_Ok_cons in H as ([p v] & r' & Hy & H & ->).
  apply Forall_cons in Hm as [[M1 M2] Hm]. cbn [for_rounds].
  assert (apply_rela mapped ks l linkee rela i m = Ok (store64 m p v)) as ->.
  { unfold apply_rela, store_q. rewrite Hy. cbn [mbind res_bind]. cbn [fst] in M1, M2. by rewrite M1, M2. }
  cbn [mbind res_bind]. rewrite (IH _ _ _ H Hm). done.
Qed.

Lemma section_patch l i m r : section_relocs ks l i = Ok r → Forall mapped_q r →
  link_section mapped ks l i m = Ok (patch m r).
Proof.
  unfold section_relocs, link_section. intros H Hm. apply bind_Ok in H as (sh & -> & H). cbn [mbind res_bind].
  destruct (sh_type sh =? SHT_REL); [done|]. destruct (negb _); [by injection H as <-|].
  apply rela_patch; [|done]. by rewrite Z2Nat.id by (apply uN_range; lia).
Qed.

Lemma sections_patch l k : ∀ i m ls, mapM (section_relocs ks l) (seqZ i (Z.of_nat k)) = Ok ls →
  Forall mapped_q (concat ls) → for_rounds (link_section mapped ks l) i 1 k m = Ok (patch m (concat ls)).
Proof.
  induction k as [|k IH]; intros i m ls H Hm; [by injection H as <-|].
  rewrite seqZ_S in H. apply mapM_Ok_cons in H as (r & ls' & Hr & H & ->). cbn [concat] in Hm |- *.
  apply Forall_app in Hm as [Hm1 Hm2]. cbn [for_rounds]. rewrite (section_patch _ _ _ _ Hr Hm1). cbn [mbind res_bind].
  rewrite (IH _ _ _ H Hm2). unfold patch. by rewrite foldl_app.
Qed.
End Patch.

Lemma patch_outside l x : ∀ m, (∀ pv, pv ∈ l → ¬ pv.1 ≤ x < pv.1 + 8) → patch m l x = m x.
Proof.
  induction l as [|[p v] l IH]; intros m H; [done|]. cbn [patch foldl]. fold (patch (store64 m p v) l).
  rewrite IH by (intros pv Hpv; apply H; by right). unfold store64. cbn [fst snd].
  pose proof (H (p, v) ltac:(by left)) as Hx. cbn [fst] in Hx.
  destruct (Z.leb_spec p x), (Z.ltb_spec x (p + 8)); cbn; lia || done.
Qed.

Lemma patch_inside l : ∀ i m p v k, apart_all l → l !! i = Some (p, v) → 0 ≤ k < 8 →
  patch m l (p + k) = u8 (Z.shiftr v (8 * k)).
Proof.
  induction l as [|[q u] l IH]; intros i m p v k Ha Hi Hk; [done|]. cbn [patch foldl]. fold (patch (store64 m q u) l). cbn [fst snd].
  assert (apart_all l) as Ha' by (intros a b x y Hx Hy Hne; apply (Ha (S a) (S b)); [done..|lia]).
  destruct i as [|i].
  - injection Hi as -> ->. rewrite patch_outside.
    + unfold store64. rewrite (proj2 (Z.leb_le p _)), (proj2 (Z.ltb_lt _ (p + 8))) by lia. cbn. do 2 f_equal. lia.
    + intros pv Hpv. apply list_elem_of_lookup in Hpv as [j Hj].
      pose proof (Ha 0%nat (S j) (p, v) pv eq_refl Hj ltac:(lia)) as Hap. unfold apart in Hap. cbn [fst] in Hap. lia.
  - by apply (IH i).
Qed.

Lemma load64_bytes m a v : is_u64 v → (∀ k, 0 ≤ k < 8 → m (a + k) = u8 (Z.shiftr v (8 * k))) → load64 m a = v.
Proof.
  intros Hv H. unfold load64. cbn [foldr]. rewrite !H by lia. unfold uN. rewrite !Z.shiftr_div_pow2 by lia.
  assert (∀ j j', 0 ≤ j → j' = j + 1 → (v / 2 ^ (8 * j)) `mod` 2 ^ 8 + 256 * (v / 2 ^ (8 * j')) = v / 2 ^ (8 * j)) as Hd.
  { intros j j' Hj ->. replace (8 * (j + 1)) with (8 * j + 8) by lia. rewrite Z.pow_add_r, <- Z.div_div by lia.
    change (2 ^ 8) with 256. pose proof (Z.div_mod (v / 2 ^ (8 * j)) 256). lia. }
  assert (v / 2 ^ (8 * 8) = 0) as H8 by (apply Z.div_small; exact Hv).
  replace (256 * 0) with (256 * (v / 2 ^ (8 * 8))) by lia.
  rewrite (Hd 7 8), (Hd 6 7), (Hd 5 6), (Hd 4 5), (Hd 3 4), (Hd 2 3), (Hd 1 2), (Hd 0 1) by lia. apply Z.div_1_r.
Qed.

Lemma mapM_Ok_Forall {A B} (f : A → res B) (P : B → Prop) l : ∀ r, mapM f l = Ok r → (∀ x y, f x = Ok y → P y) → Forall P r.
Proof.
  induction l as [|x l IH]; intros r H Hf; [injection H as <-; constructor|].
  apply mapM_Ok_cons in H as (y & r' & Hy & H & ->). constructor; [by apply (Hf x)|by apply IH].
Qed.

Lemma relocs_u64 ks l r : relocs ks l = Ok r → Forall (λ pv, is_u64 pv.2) r.
Proof.
  unfold relocs. intros H. apply bind_Ok in H as (ls & H & E). injection E as <-. apply Forall_concat.
  apply (mapM_Ok_Forall _ _ _ _ H). intros i y Hy. unfold section_relocs in Hy. apply bind_Ok in Hy as (sh & _ & Hy).
  destruct (_ =? SHT_REL); [done|]. destruct (negb _); [injection Hy as <-; constructor|].
  apply (mapM_Ok_Forall _ _ _ _ Hy). intros j [p v] Hr. unfold relocation in Hr.
  apply bind_Ok in Hr as (? & _ & Hr). apply bind_Ok in Hr as (? & _ & Hr). apply bind_Ok in Hr as (? & _ & Hr).
  apply bind_Ok in Hr as (? & _ & Hr). destruct (_ =? R_X86_64_64); [|done]. injection Hr as <- <-. apply uN_range. lia.
Qed.

Lemma link_patches mapped ks m a l entry r : link_tables a = Ok l → find_entry l = Ok entry → relocs ks l = Ok r →
  Forall (mapped_q mapped) r → modules_link mapped ks m a = Ok (entry, patch m r).
Proof.
  intros Hl He Hr Hm. unfold modules_link. rewrite Hl. cbn [mbind res_bind]. rewrite He. cbn [mbind res_bind].
  unfold relocs in Hr. apply bind_Ok in Hr as (ls & Hr & E). injection E as <-.
  rewrite (sections_patch mapped ks l _ 0 m ls); [done| |done].
  destruct (Z.le_gt_cases 0 (e_shnum (l_ehdr l))); [by rewrite Z2Nat.id|].
  rewrite Z2Nat.nonpos by lia. by rewrite seqZ_nil in Hr by lia.
Qed.

(** ** What the tables of an image say *)

(** A field of the image, and the fields of its header, of section header [i] and of entry [j] of relocation section [i]. *)
Definition at_img (a : list Z) (o : Z) (n : nat) : Z := field a (Z.to_nat o) n.
Definition num_sections (a : list Z) : Z := at_img a 60 2.
Definition sec (a : list Z) (i o : Z) (n : nat) : Z := at_img a (at_img a 40 8 + 64 * i + o) n.
Definition sec_type (a : list Z) (i : Z) : Z := sec a i 4 4.
Definition sec_addr (a : list Z) (i : Z) : Z := sec a i 16 8.
Definition sec_offset (a : list Z) (i : Z) : Z := sec a i 24 8.
Definition sec_size (a : list Z) (i : Z) : Z := sec a i 32 8.
Definition sec_info (a : list Z) (i : Z) : Z := sec a i 44 4.
Definition is_rela (a : list Z) (i j : Z) : Prop := 0 ≤ i < num_sections a ∧ sec_type a i = 4 ∧ 0 ≤ j < (sec_size a i / 24) `mod` 2 ^ 32.
Definition rela_field (a : list Z) (i j o : Z) (n : nat) : Z := at_img a (sec_offset a i + 24 * j + o) n.
Definition rela_info (a : list Z) (i j : Z) : Z := rela_field a i j 8 8.
(** Where it is applied: an offset in the section it is for. *)
Definition place (a : list Z) (i j : Z) : Z := (sec_addr a (sec_info a i) + rela_field a i j 0 8) `mod` 2 ^ 64.

(** Symbol [k] of a table at [tab], and the address of one that is defined in a section of the image. *)
Definition symbol_name (img : list Z) (tab str k : Z) (name : list Z) : Prop := rd_str img (str + at_img img (tab + 24 * k) 4) = Ok name.
Definition symbol_section (img : list Z) (tab k : Z) : Z := at_img img (tab + 24 * k + 6) 2.
Definition symbol_value (img : list Z) (tab k : Z) : Z := at_img img (tab + 24 * k + 8) 8.
Definition symbol_address (img : list Z) (tab k : Z) : Z := (sec_addr img (symbol_section img tab k) + symbol_value img tab k) `mod` 2 ^ 64.
(** The first symbol of that name of the kernel. *)
Definition kernel_symbol (ks : ksyms) (name : list Z) (v : Z) : Prop := ∃ tab str k,
  symtab (ktabs ks) = Some tab ∧ strtab (ktabs ks) = Some str ∧ 0 ≤ k < default 0 (num_syms (ktabs ks)) ∧
  symbol_name (kimage ks) tab str k name ∧ v = symbol_value (kimage ks) tab k ∧ ∀ k', 0 ≤ k' < k → ¬ symbol_name (kimage ks) tab str k' name.
(** The value [S] of symbol [k] of a module: its address, or that of the kernel's symbol of the same name when it is
    undefined (a section symbol, of type 3, has no name of its own). *)
Definition symbol_is (ks : ksyms) (a : list Z) (tabs : symtabs) (k S : Z) : Prop := ∃ tab, symtab tabs = Some tab ∧
  (symbol_section a tab k ≠ 0 ∧ S = symbol_address a tab k ∨
   symbol_section a tab k = 0 ∧ (at_img a (tab + 24 * k + 4) 1 = 3 ∨
     ∃ str name, strtab tabs = Some str ∧ symbol_name a tab str k name ∧ kernel_symbol ks name S)).
(** The entry point: the address of the last symbol called [mod_main]. *)
Definition entry_is (a : list Z) (tabs : symtabs) (entry : Z) : Prop := ∃ tab str n k,
  symtab tabs = Some tab ∧ strtab tabs = Some str ∧ num_syms tabs = Some n ∧ 0 ≤ k < n ∧
  symbol_name a tab str k (bytes_of "mod_main") ∧ entry = symbol_address a tab k ∧
  ∀ k', k < k' < n → ¬ symbol_name a tab str k' (bytes_of "mod_main").

(** *** Reading them *)

Lemma rd_val img o n v : rd img o n = Ok v → v = field img (Z.to_nat o) (Z.to_nat n).
Proof. unfold rd. destruct (_ && _); [by intros [= <-]|done]. Qed.
Lemma strcmp_eq s1 : ∀ s2, Forall (λ c, c ≠ 0) s1 → Forall (λ c, c ≠ 0) s2 → strcmp s1 s2 = 0 ↔ s1 = s2.
Proof.
  induction s1 as [|c1 r1 IH]; intros [|c2 r2] H1 H2; cbn [strcmp ch]; [done| | |].
  - apply Forall_cons in H2 as [H2 _]. destruct (Z.eqb_spec 0 c2); [congruence|]. by split.
  - apply Forall_cons in H1 as [H1 _]. destruct (Z.eqb_spec c1 0); [congruence|]. by split.
  - apply Forall_cons in H1 as [_ H1], H2 as [_ H2]. destruct (Z.eqb_spec c1 c2) as [->|Hne]; cbn [negb]; [|split; [done|congruence]].
    rewrite IH by done. split; congruence.
Qed.
Lemma c_string_nonzero s : ∀ l, c_string s = Ok l → Forall (λ c, c ≠ 0) l.
Proof.
  induction s as [|c s IH]; intros l; cbn [c_string]; [done|]. destruct (Z.eqb_spec c 0); [by intros [= <-]|].
  intros H. apply bind_Ok in H as (l' & Hl & H). injection H as <-. constructor; [done|by apply IH].
Qed.
Lemma rd_str_nonzero img o l : rd_str img o = Ok l → Forall (λ c, c ≠ 0) l.
Proof. unfold rd_str. destruct (_ && _); [apply c_string_nonzero|done]. Qed.

(** Takes the reads of a structure apart. *)
Ltac reads H := repeat (let v := fresh "v" in let E := fresh "E" in apply bind_Ok in H as (v & E & H); apply rd_val in E).

Lemma rd_sym_val img tab k sym : rd_sym img tab k = Ok sym → st_name sym = at_img img (tab + 24 * k) 4 ∧ st_info sym = at_img img (tab + 24 * k + 4) 1 ∧
  st_shndx sym = symbol_section img tab k ∧ st_value sym = symbol_value img tab k.
Proof. unfold rd_sym. intros H. reads H. injection H as <-. done. Qed.

Section Tables.
Context (a : list Z) (l : linkage) (Hl : link_tables a = Ok l).
Lemma tables_img : l_img l = a ∧ e_shoff (l_ehdr l) = at_img a 40 8 ∧ e_shnum (l_ehdr l) = num_sections a.
Proof using Hl.
  unfold link_tables in Hl. apply bind_Ok in Hl as (e & He & H). apply bind_Ok in H as (? & _ & H). apply bind_Ok in H as (? & _ & H). injection H as <-.
  unfold rd_ehdr in He. destruct (_ <? _); [done|]. reads He. by injection He as <-.
Qed.
Lemma l_shdr_val i sh : l_shdr l i = Ok sh → sh_type sh = sec_type a i ∧ sh_addr sh = sec_addr a i ∧ sh_offset sh = sec_offset a i ∧
  sh_size sh = sec_size a i ∧ sh_info sh = sec_info a i.
Proof using Hl.
  destruct tables_img as (E1 & E2 & _). unfold l_shdr, rd_shdr. rewrite E1, E2. cbv zeta. intros H. reads H. injection H as <-. done.
Qed.
Lemma l_sym_val k sym : l_sym l k = Ok sym → ∃ tab, symtab (l_tabs l) = Some tab ∧ st_name sym = at_img a (tab + 24 * k) 4 ∧
  st_info sym = at_img a (tab + 24 * k + 4) 1 ∧ st_shndx sym = symbol_section a tab k ∧ st_value sym = symbol_value a tab k.
Proof using Hl.
  destruct tables_img as (E1 & _). unfold l_sym. rewrite E1. intros H. apply bind_Ok in H as (tab & Ht & H). apply deref_Ok in Ht. exists tab. split; [done|]. by apply rd_sym_val.
Qed.
Lemma l_name_val o name : l_name l o = Ok name → ∃ str, strtab (l_tabs l) = Some str ∧ rd_str a (str + o) = Ok name.
Proof using Hl.
  destruct tables_img as (E1 & _). unfold l_name. rewrite E1. intros H. apply bind_Ok in H as (str & Hs & H). apply deref_Ok in Hs. by exists str.
Qed.
Lemma sym_address_val tab k sym v : st_shndx sym = symbol_section a tab k → st_value sym = symbol_value a tab k → sym_address l sym = Ok v →
  v = symbol_address a tab k.
Proof using Hl.
  intros H1 H2. unfold sym_address. rewrite H1. intros H. apply bind_Ok in H as (sh & Hs & H). apply l_shdr_val in Hs as (_ & Ea & _).
  rewrite H2, Ea in H. by injection H as <-.
Qed.

(** The kernel's symbols. *)
Lemma find_ksym_val ks name k : ∀ i v, Forall (λ c, c ≠ 0) name → 0 ≤ i → find_ksym ks name k i = Ok (Some v) → ∃ tab str n,
  symtab (ktabs ks) = Some tab ∧ strtab (ktabs ks) = Some str ∧ i ≤ n < i + Z.of_nat k ∧
  symbol_name (kimage ks) tab str n name ∧ v = symbol_value (kimage ks) tab n ∧ ∀ n', i ≤ n' < n → ¬ symbol_name (kimage ks) tab str n' name.
Proof using.
  induction k as [|k IH]; intros i v Hn Hi H; [done|]. cbn [find_ksym] in H. apply bind_Ok in H as (tab & Ht & H). apply bind_Ok in H as (str & Hs & H).
  apply deref_Ok in Ht, Hs. apply bind_Ok in H as (sym & Hsym & H). apply rd_sym_val in Hsym as (E1 & _ & _ & E4). apply bind_Ok in H as (nm & Hnm & H).
  rewrite E1 in Hnm. pose proof (rd_str_nonzero _ _ _ Hnm) as Hz. pose proof (strcmp_eq nm name Hz Hn) as Hcmp. destruct (Z.eqb_spec (strcmp nm name) 0) as [E|E].
  - apply Hcmp in E. subst nm. injection H as <-. exists tab, str, i. split_and!; [done|done|lia|lia|done|done|intros n' Hn'; lia].
  - destruct (IH (i + 1) v Hn ltac:(lia) H) as (tab' & str' & n & Ht' & Hs' & Hr & Hnam & Hv & Hnone). assert (tab' = tab ∧ str' = str) as [-> ->] by (split; congruence).
    exists tab, str, n. split_and!; [done|done|lia|lia|done|done|]. intros n' Hn'. destruct (decide (n' = i)) as [->|]; [|apply Hnone; lia].
    intros Hx. unfold symbol_name in Hx. apply E, Hcmp. congruence.
Qed.
Lemma resolve_val ks k sym v : l_sym l k = Ok sym → resolve ks l sym = Ok v → symbol_is ks a (l_tabs l) k v.
Proof using Hl.
  intros Hs H. apply l_sym_val in Hs as (tab & Ht & E1 & E2 & E3 & E4). exists tab. split; [done|]. revert H. unfold resolve.
  destruct (Z.eqb_spec (st_shndx sym) SHN_UNDEF) as [E|E]; intros H.
  - right. split; [by rewrite <- E3|]. apply bind_Ok in H as (name & Hn & H). apply bind_Ok in H as (r & Hr & H). destruct r as [v'|]; [|done]. injection H as ->.
    unfold sym_name in Hn. destruct (Z.eqb_spec (st_info sym) STT_SECTION) as [E'|_]; [left; by rewrite <- E2|right].
    apply l_name_val in Hn as (str & Hs & Hn). rewrite E1 in Hn. exists str, name. split; [done|]. split; [done|].
    pose proof (rd_str_nonzero _ _ _ Hn) as Hz. unfold ksym_lookup in Hr. destruct (find_ksym_val ks name _ 0 v Hz ltac:(lia) Hr) as (tb & st & n & H1 & H2 & H3 & H4 & H5 & H6).
    exists tb, st, n. split_and!; [done|done|lia|lia|done|done|]. intros k' Hk'. apply H6. lia.
  - left. split; [by rewrite <- E3|]. by eapply sym_address_val.
Qed.
Lemma relocation_val ks i j sh p v : l_shdr l i = Ok sh → relocation ks l (sh_info sh) (sh_offset sh) j = Ok (p, v) →
  p = place a i j ∧ Z.land (rela_info a i j) 0xffffffff = 1 ∧ ∃ S, symbol_is ks a (l_tabs l) (Z.shiftr (rela_info a i j) 32) S ∧ v = (S + i64 (rela_field a i j 16 8)) `mod` 2 ^ 64.
Proof using Hl.
  intros Hsh H. apply l_shdr_val in Hsh as (_ & _ & E3 & _ & E5). rewrite E3, E5 in H. destruct tables_img as (Ei & _). unfold relocation in H. rewrite Ei in H. clear Ei.
  apply bind_Ok in H as (r & Hr & H). unfold rd_rela in Hr. reads Hr. injection Hr as <-. cbn [r_info r_offset r_addend] in H.
  apply bind_Ok in H as (sym & Hsym & H). apply bind_Ok in H as (S & HS & H). apply bind_Ok in H as (to & Hto & H). apply l_shdr_val in Hto as (_ & Hto & _).
  subst. unfold ELF64_R_TYPE, ELF64_R_SYM in *. rewrite Hto in H.
  match type of H with context [Z.land ?x 0xffffffff] => change x with (rela_info a i j) in * end. destruct (Z.eqb_spec (Z.land (rela_info a i j) 0xffffffff) R_X86_64_64) as [E|]; [|done].
  injection H as <- <-. split; [|split; [exact E|]].
  - unfold place, rela_field. rewrite Z.add_0_r. reflexivity.
  - exists S. split; [by eapply resolve_val|]. reflexivity.
Qed.

(** The entry point. *)
Lemma mod_main_nonzero : Forall (λ c, c ≠ 0) (bytes_of "mod_main").
Proof using. repeat (constructor; [done|]). constructor. Qed.
Lemma find_entry_val entry : find_entry l = Ok entry → entry_is a (l_tabs l) entry.
Proof using Hl.
  unfold find_entry. intros H. apply bind_Ok in H as (n & Hn & H). apply deref_Ok in Hn. apply bind_Ok in H as (e & He & H).
  destruct (Z.eqb_spec e 0) as [|Hne]; [done|]. injection H as <-.
  set (named k := ∃ tab str, symtab (l_tabs l) = Some tab ∧ strtab (l_tabs l) = Some str ∧ symbol_name a tab str k (bytes_of "mod_main")).
  apply (for_rounds_inv (scan_entry l) 1 (λ i e, 0 ≤ i ∧ ((e = 0 ∧ ∀ k, 0 ≤ k < i → ¬ named k) ∨
    ∃ k tab, 0 ≤ k < i ∧ symtab (l_tabs l) = Some tab ∧ named k ∧ e = symbol_address a tab k ∧ ∀ k', k < k' < i → ¬ named k'))) in He as [_ He].
  - destruct He as [[-> _]|(k & tab & Hk & Ht & (tab' & str & Ht' & Hs & Hnm) & -> & Hlast)]; [done|]. assert (tab' = tab) as -> by congruence.
    rewrite Z.mul_1_r, Z.add_0_l in Hk, Hlast. exists tab, str, n, k. split_and!; [done|done|done|lia|lia|done|done|].
    intros k' Hk' Hx. apply (Hlast k'); [lia|]. by exists tab, str.
  - split; [done|]. left. split; [done|]. intros k Hk. lia.
  - intros j t t' [Hj Ht] Hb. split; [lia|]. unfold scan_entry in Hb. apply bind_Ok in Hb as (sym & Hsym & Hb). apply bind_Ok in Hb as (name & Hname & Hb).
    apply l_sym_val in Hsym as (tab & Htab & E1 & _ & E3 & E4). apply l_name_val in Hname as (str & Hstr & Hname). rewrite E1 in Hname.
    pose proof (strcmp_eq name (bytes_of "mod_main") (rd_str_nonzero _ _ _ Hname) mod_main_nonzero) as Hcmp.
    destruct (Z.eqb_spec (strcmp name (bytes_of "mod_main")) 0) as [E|E].
    + apply Hcmp in E. subst name. right. exists j, tab. split_and!; [lia|lia|done|by exists tab, str| |intros k' Hk'; lia].
      by eapply sym_address_val.
    + injection Hb as <-. assert (¬ named j) as Hnj.
      { intros (tab' & str' & Ht' & Hs' & Hx). unfold symbol_name in Hx. apply E, Hcmp. congruence. }
      destruct Ht as [[-> Hnone]|(k & tab' & Hk & Ht' & Hnk & -> & Hlast)]; [left|right].
      * split; [done|]. intros k Hk. destruct (decide (k = j)) as [->|]; [done|]. apply Hnone. lia.
      * exists k, tab'. split_and!; [lia|lia|done|done|done|]. intros k' Hk'. destruct (decide (k' = j)) as [->|]; [done|]. apply Hlast. lia.
Qed.

(** The list of relocations is that of the tables. *)
Lemma mapM_Ok_fwd {A B} (f : A → res B) xs : ∀ r x, mapM f xs = Ok r → x ∈ xs → ∃ y, f x = Ok y ∧ y ∈ r.
Proof using.
  induction xs as [|x0 xs IH]; intros r x H Hx; [by apply not_elem_of_nil in Hx|]. apply mapM_Ok_cons in H as (y & r' & Hy & H & ->).
  apply elem_of_cons in Hx as [->|Hx]; [exists y; split; [done|by left]|]. destruct (IH r' x H Hx) as (z & Hz & Hzr). exists z. split; [done|by right].
Qed.
Lemma mapM_Ok_bwd {A B} (f : A → res B) xs : ∀ r y, mapM f xs = Ok r → y ∈ r → ∃ x, x ∈ xs ∧ f x = Ok y.
Proof using.
  induction xs as [|x0 xs IH]; intros r y H Hy; [injection H as <-; by apply not_elem_of_nil in Hy|]. apply mapM_Ok_cons in H as (y0 & r' & Hy0 & H & ->).
  apply elem_of_cons in Hy as [->|Hy]; [exists x0; split; [by left|done]|]. destruct (IH r' y H Hy) as (x & Hx & Hfx). exists x. split; [by right|done].
Qed.
Lemma relocs_fwd ks r i j : relocs ks l = Ok r → is_rela a i j → ∃ sh pv, l_shdr l i = Ok sh ∧ relocation ks l (sh_info sh) (sh_offset sh) j = Ok pv ∧ pv ∈ r.
Proof using Hl.
  intros H (Hi & Hty & Hj). unfold relocs in H. apply bind_Ok in H as (ls & H & E). injection E as <-. destruct tables_img as (_ & _ & En).
  destruct (mapM_Ok_fwd _ _ _ i H) as (rs & Hrs & Hin); [apply elem_of_seqZ; rewrite En; lia|]. unfold section_relocs in Hrs. apply bind_Ok in Hrs as (sh & Hsh & Hrs).
  pose proof (l_shdr_val i sh Hsh) as (T1 & _ & _ & T4 & _). rewrite T1, Hty in Hrs. cbn [Z.eqb SHT_REL SHT_RELA negb] in Hrs.
  destruct (mapM_Ok_fwd _ _ _ j Hrs) as (pv & Hpv & Hinr); [apply elem_of_seqZ; rewrite T4; unfold uN; lia|].
  exists sh, pv. split_and!; [done|done|]. apply list_elem_of_In, in_concat. exists rs. split; by apply list_elem_of_In.
Qed.
Lemma relocs_bwd ks r pv : relocs ks l = Ok r → pv ∈ r → ∃ i j sh, is_rela a i j ∧ l_shdr l i = Ok sh ∧ relocation ks l (sh_info sh) (sh_offset sh) j = Ok pv.
Proof using Hl.
  intros H Hpv. unfold relocs in H. apply bind_Ok in H as (ls & H & E). injection E as <-. destruct tables_img as (_ & _ & En).
  apply list_elem_of_In, in_concat in Hpv as (rs & Hrs%list_elem_of_In & Hpv%list_elem_of_In). destruct (mapM_Ok_bwd _ _ _ _ H Hrs) as (i & Hi & Hsec).
  apply elem_of_seqZ in Hi. rewrite En in Hi. unfold section_relocs in Hsec. apply bind_Ok in Hsec as (sh & Hsh & Hsec). pose proof (l_shdr_val i sh Hsh) as (T1 & _ & _ & T4 & _).
  destruct (sh_type sh =? SHT_REL); [done|]. destruct (Z.eqb_spec (sh_type sh) SHT_RELA) as [Er|]; cbn [negb] in Hsec; [|injection Hsec as <-; by apply not_elem_of_nil in Hpv].
  destruct (mapM_Ok_bwd _ _ _ _ Hsec Hpv) as (j & Hj & Hr). apply elem_of_seqZ in Hj. rewrite T4 in Hj. exists i, j, sh. split_and!; [|done|done].
  split; [lia|]. split; [by rewrite <- T1|]. unfold uN in Hj. lia.
Qed.
End Tables.

(** ** Properties *)

(** C34: linking a module whose tables and symbols resolve -- the places of its relocations mapped and apart from each other --
    returns the address of the last symbol called [mod_main] and leaves in the place of every entry of every RELA section
    the 64-bit sum of the symbol's value and the signed addend.  The value of a symbol is its address in the section it is
    defined in, or that of the kernel's first symbol of the same name when it is undefined.  Every relocation is of type
    R_X86_64_64, and the memory outside the places is untouched. *)
Theorem modules_link_relocates mapped ks m a l entry r :
  link_tables a = Ok l → find_entry l = Ok entry → relocs ks l = Ok r →
  Forall (mapped_q mapped) r → apart_all r →
  ∃ m', modules_link mapped ks m a = Ok (entry, m') ∧ entry_is a (l_tabs l) entry ∧
    (∀ i j, is_rela a i j → Z.land (rela_info a i j) 0xffffffff = 1 ∧
       ∃ S, symbol_is ks a (l_tabs l) (Z.shiftr (rela_info a i j) 32) S ∧ load64 m' (place a i j) = (S + i64 (rela_field a i j 16 8)) `mod` 2 ^ 64) ∧
    (∀ x, (∀ i j, is_rela a i j → ¬ place a i j ≤ x < place a i j + 8) → m' x = m x).
Proof.
  intros Hl He Hr Hm Ha. exists (patch m r). split; [by apply (link_patches mapped ks m a l)|]. split; [by apply find_entry_val|]. split.
  - intros i j Hij. destruct (relocs_fwd a l Hl ks r i j Hr Hij) as (sh & [p v] & Hsh & Hrel & Hin). pose proof (relocs_u64 _ _ _ Hr) as Hu. rewrite Forall_forall in Hu.
    specialize (Hu (p, v) Hin). apply list_elem_of_lookup in Hin as [k Hk].
    destruct (relocation_val a l Hl ks i j sh p v Hsh Hrel) as (-> & Hty & S & HS & ->). split; [done|]. exists S. split; [done|].
    apply load64_bytes; [exact Hu|]. intros k' Hk'. by apply (patch_inside r k).
  - intros x Hx. apply patch_outside. intros [p v] Hpv. destruct (relocs_bwd a l Hl ks r (p, v) Hr Hpv) as (i & j & sh & Hij & Hsh & Hrel).
    destruct (relocation_val a l Hl ks i j sh p v Hsh Hrel) as (-> & _). by apply Hx.
Qed.

(** *** A small image *)

Record section := mkSec { s_name : Z; s_type : Z; s_flags : Z; s_addr : Z; s_info : Z; s_data : list Z }.
Fixpoint headers (o : Z) (l : list section) : list Z :=
  match l with
  | [] => []
  | s :: l =>
      le 4 (s_name s) ++ le 4 (s_type s) ++ le 8 (s_flags s) ++ le 8 (s_addr s) ++ le 8 o ++
      le 8 (zlen (s_data s)) ++ le 4 0 ++ le 4 (s_info s) ++ le 16 0 ++ headers (o + zlen (s_data s)) l
  end.
(** The sections' data behind the file header, then the section headers; the last section has the names. *)
Definition image (l : list section) : list Z :=
  let data := concat (map s_data l) in
  elf_magic ++ replicate 12 0 ++ replicate 24 0 ++ le 8 (64 + zlen data) ++ replicate 12 0 ++
  le 2 (zlen l) ++ le 2 (zlen l - 1) ++ data ++ headers 64 l.
Definition symbol (name info shndx value : Z) : list Z := le 4 name ++ [info; 0] ++ le 2 shndx ++ le 8 value ++ le 8 0.
Definition rela (offset sym addend : Z) : list Z := le 8 offset ++ le 8 (Z.shiftl sym 32 + R_X86_64_64) ++ le 8 addend.

Definition kernel_demo : list Z :=
  let names := bytes_of "kmalloc" ++ 0 :: bytes_of ".strtab" ++ 0 :: bytes_of ".symtab" ++ [0] in
  image [mkSec 16 SHT_SYMTAB 0 0 0 (symbol 0 18 1 0xffffffff80001234); mkSec 8 3 0 0 0 names].
(** A code section with two places, at 8 the kernel's [kmalloc] and at 16 [mod_main] plus 4. *)
Definition module_demo (addr : Z) : list Z :=
  let names := 0 :: bytes_of ".strtab" ++ 0 :: bytes_of "mod_main" ++ 0 :: bytes_of "kmalloc" ++ [0] in
  image [mkSec 0 0 0 0 0 []; mkSec 0 1 SHF_ALLOC addr 0 (replicate 24 144); mkSec 0 SHT_RELA 0 0 1 (rela 8 1 0 ++ rela 16 0 4);
         mkSec 0 SHT_SYMTAB 0 0 0 (symbol 9 18 1 16 ++ symbol 18 16 0 0); mkSec 1 3 0 0 0 names].

Definition ksyms_demo : ksyms := mkKsyms kernel_demo (mkTabs (Some 88) (Some 64) (Some 1)).
Definition link_demo : linkage := match link_tables (module_demo 4096) with Ok l => l | _ => mkLink [] (mkEhdr [] 0 0 0 0 0 0) 0 no_tabs end.
Definition places_demo : list (Z * Z) := [(4104, 0xffffffff80001234); (4112, 4116)].

Lemma places_demo_apart : apart_all places_demo.
Proof.
  intros [|[|i]] [|[|j]] a b Hi Hj Hne; unfold places_demo in *; cbn [lookup list_lookup] in Hi, Hj; try done;
    injection Hi as <-; injection Hj as <-; unfold apart; cbn; lia.
Qed.

Lemma modules_link_relocates_witness :
  ksyms_read (Some kernel_demo) = Ok ksyms_demo ∧
  ∃ m', modules_link (λ x, (4096 <=? x) && (x <? 8192)) ksyms_demo (λ _, 144) (module_demo 4096) = Ok (4112, m') ∧
    load64 m' 4112 = 4116.
Proof.
  split; [vm_compute; reflexivity|].
  assert (link_tables (module_demo 4096) = Ok link_demo) as Hl by (vm_compute; reflexivity).
  assert (find_entry link_demo = Ok 4112) as He by (vm_compute; reflexivity).
  assert (relocs ksyms_demo link_demo = Ok places_demo) as Hr by (vm_compute; reflexivity).
  assert (Forall (mapped_q (λ x, (4096 <=? x) && (x <? 8192))) places_demo) as Hm
    by (repeat constructor; vm_compute; reflexivity).
  destruct (modules_link_relocates _ _ (λ _, 144) _ _ _ _ Hl He Hr Hm places_demo_apart) as (m' & E & _ & Hin & _).
  exists m'. split; [exact E|]. destruct (Hin 2 1) as (_ & S & (tab & Ht & HS) & Hld).
  - split; [vm_compute; split; congruence|]. split; [vm_compute; reflexivity|]. split; vm_compute; congruence.
  - assert (symtab (l_tabs link_demo) = Some 136) as Hd by (vm_compute; reflexivity). rewrite Hd in Ht. injection Ht as <-.
    assert (Z.shiftr (rela_info (module_demo 4096) 2 1) 32 = 0) as Ek by (vm_compute; reflexivity). rewrite Ek in HS.
    destruct HS as [[_ ->]|[H0 _]]; [|vm_compute in H0; discriminate H0].
    assert (place (module_demo 4096) 2 1 = 4112) as Ep by (vm_compute; reflexivity). rewrite Ep in Hld. rewrite Hld. vm_compute. reflexivity.
Defined.

(** The linker stops on a symbol the kernel does not have. *)
Example link_unknown : modules_link (λ _, true) (mkKsyms kernel_demo (mkTabs (Some 88) (Some 64) (Some 0))) (λ _, 0) (module_demo 4096) =
  Fatal "Szimbolum nem talalhato".
Proof. vm_compute. reflexivity. Qed.
