(* ===== verification/Module.v ===== *)
(** The module manager ([devmgr/module.cc], [module.hh]) and the device manager ([devmgr/devmgr.cc],
    [devmgr.hh]) that starts modules for devices and file systems.

    A module's file is the list of its bytes (pointers into it are offsets); every file belongs to
    one module.  The code of a module is not part of the kernel: what running it does to the kernel
    is a parameter, and so is [msd_scout], which [Msd] models over its own state. *)
From S2P Require Import Prelude Arith Bitmap Mem Strings Pmm Paging PagingArea Msd Ustar Elf.

(** ** Data *)

Definition ANY : Z := 0.
Definition PCIMASK : Z := 0x100.
Definition USBMASK : Z := 0x200.
Definition FILESYSTEM : Z := 0x400.
Definition MISC : Z := 0x800.
Definition PCI_VENDOR_PRODUCT : Z := Z.lor PCIMASK 1.
Definition PCI_CLASS_SUBCLASS : Z := Z.lor PCIMASK 2.
Definition PCI_CLASS_SUBCLASS_PROGIF : Z := Z.lor PCIMASK 3.

(** [trigger] is a union of structures of bytes: its storage. *)
Record ModuleMetadata := mkMeta { md_name : list Z; triggertype : Z; trigger : list Z }.
Definition rd_metadata (img : list Z) (o : Z) : res ModuleMetadata :=
  if zlen img <? o + 40 then Fault else
  tt ← rd img (o + 32) 4;
  Ok (mkMeta (take 32 (drop (Z.to_nat o) img)) tt (take 4 (drop (Z.to_nat o + 36) img))).
Definition trig_class (md : ModuleMetadata) : Z := field (trigger md) 0 1.
Definition trig_subclass (md : ModuleMetadata) : Z := field (trigger md) 1 1.
Definition trig_progif (md : ModuleMetadata) : Z := field (trigger md) 2 1.
Definition trig_vendor (md : ModuleMetadata) : Z := field (trigger md) 0 2.
Definition trig_product (md : ModuleMetadata) : Z := field (trigger md) 2 2.

Record Module_ := mkModule { content : list Z; mentry : Z; metadata : ModuleMetadata; loaded : bool }.

Inductive DevmgrSubsys := NONE | PCI | USB | MSD.
Record device_t_PCI := mkPciDev { vendor : Z; product : Z; class_ : Z; subclass : Z; progif : Z; dbus : Z; ddev : Z; dfun : Z }.
(** [variant<device_t_PCI, device_t_USB, device_t_MSD>]; the fields of the last two are not read here. *)
Inductive devunion_t := KPci (p : device_t_PCI) | KUsb | KMsd.
Record Device := mkDevice { parent : option nat; subsys : DevmgrSubsys; loc : Z; kinds : option devunion_t }.
(** [kinds.get<device_t_PCI>()] *)
Definition get_PCI (k : option devunion_t) : res device_t_PCI :=
  match k with
  | None => Fatal "variant has no active element!"
  | Some (KPci p) => Ok p
  | Some _ => Fatal "Type mismatch!"
  end.

(** The globals; [bm] is [None] before the first module is loaded.  [vm] is the kernel's virtual memory. *)
Record kernel := mkKernel { modules : list Module_; bm : option Bitmap; devices : list Device; pg : paging; vm : Mem.mem }.

(** ** Loading the sections *)

Definition MODULES_BASE : Z := 0xfffffff000000000.

(** Overwrites the bytes at offset [o]. *)
Definition wr (img : list Z) (o : Z) (l : list Z) : res (list Z) :=
  if (0 <=? o) && (o + zlen l <=? zlen img) then
    Ok (take (Z.to_nat o) img ++ l ++ drop (Z.to_nat o + length l) img) else Fault.

(** [memcpy] out of the file: [l] is written from [a] on. *)
Fixpoint copy_in (m : Mem.mem) (a : Z) (l : list Z) : Mem.mem :=
  match l with [] => m | b :: l => copy_in (store8 m a b) (a + 1) l end.

Section Load.
Context (pml4 : Z) (ks : ksyms).

Definition module_flags : Z := Z.lor (Z.lor KDATA EXE) s4K.

Definition map_round (sectionbase j : Z) (s : paging) : res paging := map_missing pml4 (u64 (sectionbase + j)) module_flags s.
(** The loop over the pages, including the one after the end; the 32-bit counter cannot pass the last page of 4 GiB. *)
Definition map_section (sectionbase size : Z) (s : paging) : res paging :=
  let a := align64 size PMM_PAGESIZE in
  if 0xfffff000 <=? a then Hang
  else for_rounds (map_round sectionbase) 0 PMM_PAGESIZE (Z.to_nat (a / PMM_PAGESIZE) + 1) s.

Record loading := mkLoading { limg : list Z; sectionbase : Z; lpg : paging; lvm : Mem.mem }.
Definition load_section (shoff i : Z) (s : loading) : res loading :=
  sh ← rd_shdr (limg s) shoff i;
  if (Z.land (sh_flags sh) SHF_ALLOC =? 0) || (sh_size sh =? 0) then Ok s else
  img ← wr (limg s) (shoff + 64 * i + 16) (le 8 (sectionbase s));
  p ← map_section (sectionbase s) (sh_size sh) (lpg s);
  m ← (if sh_type sh =? SHT_NOBITS then Ok (memset (lvm s) (sectionbase s) 0 (sh_size sh))
       else if zlen img <? sh_offset sh + sh_size sh then Fault
       else Ok (copy_in (lvm s) (sectionbase s) (take (Z.to_nat (sh_size sh)) (drop (Z.to_nat (sh_offset sh)) img))));
  Ok (mkLoading img (u64 (sectionbase s + align64 (sh_size sh) 32)) p m).
Definition load_sections (img : list Z) (base : Z) (p : paging) (m : Mem.mem) : res loading :=
  ehdr ← rd_ehdr img;
  for_rounds (load_section (e_shoff ehdr)) 0 1 (Z.to_nat (e_shnum ehdr)) (mkLoading img base p m).

Definition mapped (p : paging) (a : Z) : bool :=
  match paging_lookup p pml4 a with Ok r => negb (r =? NPOS) | _ => false end.

(** The bitmap of the module slots, made on the first call; [kmalloc(8)] gives one word. *)
Definition slots (b : option Bitmap) : res Bitmap := match b with Some b => Ok b | None => init [0] 64 false end.
Definition modules_load (k : kernel) (m : Module_) : res (kernel * Module_) :=
  b ← slots (bm k);
  '(modid, b) ← find_and_set b 0;
  let modbase := u64 (MODULES_BASE + gibs2bytes_int 1 * modid) in
  l ← load_sections (content m) modbase (pg k) (vm k);
  '(entry, m') ← modules_link (mapped (lpg l)) ks (lvm l) (limg l);
  Ok (mkKernel (modules k) (Some b) (devices k) (lpg l) m', mkModule (limg l) entry (metadata m) true).

(** ** Running modules *)

(** What [mod_main(device)] and [mod_main(file system)] do, called at an entry point; the device is
    its index in [devices], [None] for the made-up address 1. *)
Context (FS : Type) (run_dev : Z → option nat → kernel → res kernel) (run_fs : Z → FS → kernel → res (bool * kernel)).
Context (msd_scout : nat → kernel → res kernel).

Definition set_module (k : kernel) (i : nat) (m : Module_) : kernel :=
  mkKernel (<[i := m]> (modules k)) (bm k) (devices k) (pg k) (vm k).
(** [if (!m.loaded) modules_load(m)] for the module at [i] of the vector. *)
Definition ensure_loaded (k : kernel) (i : nat) : res (kernel * Module_) :=
  m ← deref (modules k !! i);
  if loaded m then Ok (k, m) else
  '(k, m) ← modules_load k m; Ok (set_module k i m, m).
Definition modules_launch (k : kernel) (i : nat) (d : option nat) : res kernel :=
  '(k, m) ← ensure_loaded k i; run_dev (mentry m) d k.
Definition modules_launch_fs (k : kernel) (i : nat) (f : FS) : res (bool * kernel) :=
  '(k, m) ← ensure_loaded k i; run_fs (mentry m) f k.

(** ** Registering *)

Fixpoint find_modinfo (img : list Z) (shoff shstrtab : Z) (n : nat) (i : Z) : res (option Z) :=
  match n with
  | O => Ok None
  | S n =>
      sh ← rd_shdr img shoff i;
      name ← rd_str img (shstrtab + sh_name sh);
      if strcmp (bytes_of ".modinfo") name =? 0 then Ok (Some (sh_offset sh)) else find_modinfo img shoff shstrtab n (i + 1)
  end.
(** A file without metadata is reported and left out; one for [ANY] is run at once. *)
Definition modules_register (k : kernel) (a : list Z) : res kernel :=
  e ← rd_ehdr a;
  assert_ (is_elf e) "ELF";;
  shstrtab ← section_names a e;
  o ← find_modinfo a (e_shoff e) shstrtab (Z.to_nat (e_shnum e)) 0;
  match o with
  | None => Ok k
  | Some o =>
      md ← rd_metadata a o;
      let mod_ := mkModule a 0 md false in
      '(k, mod_) ← (if triggertype md =? ANY then
                      '(k, mod_) ← modules_load k mod_; k ← run_dev (mentry mod_) None k; Ok (k, mod_)
                    else Ok (k, mod_));
      Ok (mkKernel (modules k ++ [mod_]) (bm k) (devices k) (pg k) (vm k))
  end.
Fixpoint register_files (base : Z) (ar : list Z) (fs : list ustar_file) (k : kernel) : res kernel :=
  match fs with
  | [] => Ok k
  | f :: fs =>
      let o := Z.to_nat (faddress f - base) in
      k ← modules_register k (take (Z.to_nat (fsize f)) (drop o ar));
      register_files base ar fs k
  end.
Record limine_file := mkLimine { address : Z; path : list Z; fbytes : list Z }.
Fixpoint register_archives (fs : list limine_file) (k : kernel) : res kernel :=
  match fs with
  | [] => Ok k
  | f :: fs =>
      k ← (if strcmp (path f) (bytes_of "/modules.tar") =? 0 then
             p ← check_pages (pg k) pml4 (address f) (zlen (fbytes f));
             files ← ustar_list (address f) (fbytes f);
             register_files (address f) (fbytes f) files (mkKernel (modules k) (bm k) (devices k) p (vm k))
           else Ok k);
      register_archives fs k
  end.
Definition modules_register_all (r : option (list limine_file)) (k : kernel) : res kernel :=
  match r with None => Ok k | Some fs => register_archives fs k end.

(** ** The device manager *)

(** The body of the loop over the modules for a PCI device; the cases of the source's [switch], the first falling through. *)
Definition offer_pci (d i : nat) (k : kernel) : res kernel :=
  dev ← deref (devices k !! d);
  m ← deref (modules k !! i);
  let md := metadata m in
  if Z.land (triggertype md) PCIMASK =? 0 then Ok k else
  pcidev ← get_PCI (kinds dev);
  let class_subclass :=
    if (trig_class md =? class_ pcidev) && (trig_subclass md =? subclass pcidev) then modules_launch k i (Some d) else Ok k in
  if triggertype md =? PCI_CLASS_SUBCLASS_PROGIF then
    if negb (trig_progif md =? progif pcidev) then Ok k else class_subclass
  else if triggertype md =? PCI_CLASS_SUBCLASS then class_subclass
  else if triggertype md =? PCI_VENDOR_PRODUCT then
    if (trig_vendor md =? vendor pcidev) && (trig_product md =? product pcidev) then modules_launch k i (Some d) else Ok k
  else Ok k.
Definition offer (d i : nat) (k : kernel) : res kernel :=
  dev ← deref (devices k !! d);
  match subsys dev with PCI => offer_pci d i k | _ => Ok k end.
Fixpoint offer_all (d : nat) (is_ : list nat) (k : kernel) : res kernel :=
  match is_ with [] => Ok k | i :: is_ => k ← offer d i k; offer_all d is_ k end.
Definition devmgr_add_device (k : kernel) (dev : Device) : res (nat * kernel) :=
  let d := length (devices k) in
  let k := mkKernel (modules k) (bm k) (devices k ++ [dev]) (pg k) (vm k) in
  k ← offer_all d (seq 0 (length (modules k))) k;
  dev ← deref (devices k !! d);
  k ← match subsys dev with MSD => msd_scout d k | _ => Ok k end;
  Ok (d, k).

(** Tries the file system modules from index [i] on until one accepts. *)
Fixpoint try_mount (f : FS) (n i : nat) (k : kernel) : res kernel :=
  match n with
  | O => Ok k
  | S n =>
      m ← deref (modules k !! i);
      if triggertype (metadata m) =? FILESYSTEM then
        '(ok, k) ← modules_launch_fs k i f;
        if (ok : bool) then Ok k else try_mount f n (S i) k
      else try_mount f n (S i) k
  end.
Definition devmgr_try_mount (f : FS) (k : kernel) : res kernel := try_mount f (length (modules k)) 0 k.
End Load.

(** ** The pages of a section *)

Section Pages.
Context (pml4 e k : Z).

Lemma mapped_lives s w : lives pml4 s w → mapped pml4 s w = true.
Proof.
  intros (v & Hv & Hn). unfold mapped. rewrite lookup_look, Hv by (by eapply look_no_1g).
  by destruct (Z.eqb_spec v NPOS).
Qed.

Lemma map_round_Ok s base j : space_ok pml4 e k s → ADDR_PML4I (u64 (base + j)) = k →
  map_round pml4 base j s = no_frame ∨ map_round pml4 base j s = oom ∨
  ∃ s', map_round pml4 base j s = Ok s' ∧ space_ok pml4 e k s' ∧ keeps_live pml4 s s' ∧
    ∀ w, w / 4096 = u64 (base + j) / 4096 → lives pml4 s' w.
Proof. intros Hs Hk. apply map_missing_Ok; [done| |done|done..]. apply uN_range. lia. Qed.

Lemma map_rounds_Ok base n : ∀ i s, space_ok pml4 e k s →
  (∀ j, i ≤ j < i + 4096 * Z.of_nat n → ADDR_PML4I (u64 (base + j)) = k) →
  let r := for_rounds (map_round pml4 base) i 4096 n s in
  r = no_frame ∨ r = oom ∨
  ∃ s', r = Ok s' ∧ space_ok pml4 e k s' ∧ keeps_live pml4 s s' ∧
    ∀ (j : nat) w, (j < n)%nat → w / 4096 = u64 (base + (i + 4096 * Z.of_nat j)) / 4096 → lives pml4 s' w.
Proof.
  induction n as [|n IH]; intros i s Hs Hk; cbn [for_rounds].
  { right. right. exists s. split_and!; [done|done|done|]. intros j w Hj. lia. }
  destruct (map_round_Ok s base i Hs) as [->|[->|(s1 & -> & Hs1 & K1 & L1)]]; [apply Hk; lia|by left|by right; left|].
  cbn [mbind res_bind]. destruct (IH (i + 4096) s1 Hs1) as [->|[->|(s2 & -> & Hs2 & K2 & L2)]];
    [intros j Hj; apply Hk; lia|by left|by right; left|].
  right. right. exists s2. split_and!; [done|done|by etrans|]. intros [|j] w Hj Hw.
  - eapply lives_keep; [exact K2|]. apply L1. by replace (i + 4096 * Z.of_nat 0) with i in Hw by lia.
  - apply (L2 j); [lia|]. by replace (i + 4096 + 4096 * Z.of_nat j) with (i + 4096 * Z.of_nat (S j)) by lia.
Qed.

Lemma map_section_Ok s base size : space_ok pml4 e k s → 0 < size < 2 ^ 31 → 0 ≤ base → base + size + 8192 ≤ 2 ^ 64 →
  (∀ w, base ≤ w < base + size + 8192 → ADDR_PML4I w = k) →
  let r := map_section pml4 base size s in
  r = no_frame ∨ r = oom ∨
  ∃ s', r = Ok s' ∧ space_ok pml4 e k s' ∧ keeps_live pml4 s s' ∧ ∀ w, base ≤ w < base + size → lives pml4 s' w.
Proof.
  intros Hs Hz Hb Hm Hk. unfold map_section. change PMM_PAGESIZE with 4096.
  pose proof (alignN_bounds 64 size 4096 ltac:(lia) ltac:(lia) ltac:(lia) ltac:(lia)) as Ha.
  pose proof (alignN_mod 64 size 4096 ltac:(lia) ltac:(lia) ltac:(lia) ltac:(lia)) as Hm4.
  set (a := align64 size 4096) in *. pose proof (Z.div_mod a 4096 ltac:(lia)) as Hd.
  rewrite (proj2 (Z.leb_gt _ a)) by lia.
  assert (∀ j, 0 ≤ j < a + 4096 → u64 (base + j) = base + j) as Hu by (intros j Hj; apply uN_small; unfold is_uN; lia).
  assert (Z.of_nat (Z.to_nat (a / 4096) + 1) = a / 4096 + 1) as Hn by lia.
  destruct (map_rounds_Ok base (Z.to_nat (a / 4096) + 1) 0 s Hs) as [->|[->|(s' & -> & Hs' & K & L)]];
    [intros j Hj; rewrite Hu by lia; apply Hk; lia|by left|by right; left|].
  right. right. exists s'. split_and!; [done|done|done|]. intros w Hw.
  apply (L (Z.to_nat (w / 4096 - base / 4096))).
  - assert (w / 4096 ≤ (base + a) / 4096) as H1 by (apply Z.div_le_mono; lia).
    replace (base + a) with (base + a / 4096 * 4096) in H1 by lia. rewrite Z.div_add in H1 by lia.
    assert (base / 4096 ≤ w / 4096) by (apply Z.div_le_mono; lia). lia.
  - assert (base / 4096 ≤ w / 4096) by (apply Z.div_le_mono; lia).
    assert (w / 4096 ≤ (base + a) / 4096) as H1 by (apply Z.div_le_mono; lia).
    replace (base + a) with (base + a / 4096 * 4096) in H1 by lia. rewrite Z.div_add in H1 by lia.
    rewrite Z2Nat.id by lia. rewrite Hu by lia. replace (base + _) with (base + (w / 4096 - base / 4096) * 4096) by lia.
    rewrite Z.div_add by lia. lia.
Qed.
End Pages.
