(* ===== verification/ModuleSpec.v ===== *)
(** What the module manager and the device manager promise: sections are placed one after the other
    in the module's area, mapped and filled; a device is handed to exactly the modules that ask for
    its kind, in the order they were registered. *)
From S2P Require Import Prelude Arith Bitmap Mem Strings Pmm Paging PagingArea Msd MsdSpec Ustar Elf Module.

(** ** Reading what was written *)

Lemma le_length n : ∀ v, length (le n v) = n.
Proof. induction n as [|n IH]; intros v; [done|]. simpl. by rewrite IH. Qed.
Lemma le_word_le n : ∀ v, le_word (le n v) = v `mod` 256 ^ Z.of_nat n.
Proof.
  induction n as [|n IH]; intros v; [by rewrite Z.mod_1_r|]. cbn [le le_word]. rewrite IH.
  replace (Z.of_nat (S n)) with (Z.succ (Z.of_nat n)) by lia. rewrite Z.pow_succ_r by lia.
  rewrite Z.rem_mul_r by lia. lia.
Qed.
Lemma le_bytes n : ∀ v, Forall (λ b, 0 ≤ b < 256) (le n v).
Proof. induction n as [|n IH]; intros v; [done|]. constructor; [apply Z.mod_pos_bound; lia|apply IH]. Qed.

Lemma wr_Ok img o l : 0 ≤ o → o + zlen l ≤ zlen img →
  wr img o l = Ok (take (Z.to_nat o) img ++ l ++ drop (Z.to_nat o + length l) img).
Proof. intros H1 H2. unfold wr. by rewrite (proj2 (Z.leb_le _ _)), (proj2 (Z.leb_le _ _)) by lia. Qed.

Section Wr.
Context (img img' l : list Z) (o : Z) (Hwr : wr img o l = Ok img').

Lemma wr_facts : 0 ≤ o ∧ o + zlen l ≤ zlen img ∧ img' = take (Z.to_nat o) img ++ l ++ drop (Z.to_nat o + length l) img.
Proof using Hwr.
  unfold wr in Hwr. destruct (Z.leb_spec 0 o), (Z.leb_spec (o + zlen l) (zlen img)); cbn in Hwr; try done.
  injection Hwr as <-. done.
Qed.
Lemma wr_length : zlen img' = zlen img.
Proof using Hwr. destruct wr_facts as (H1 & H2 & ->). rewrite !length_app, length_take, length_drop. lia. Qed.
(** Bytes outside the written range. *)
Lemma wr_outside a n : (a + n ≤ Z.to_nat o ∨ Z.to_nat o + length l ≤ a)%nat → take n (drop a img') = take n (drop a img).
Proof using Hwr.
  destruct wr_facts as (H1 & H2 & ->). intros H. assert (length (take (Z.to_nat o) img) = Z.to_nat o) as Ht by (rewrite length_take; lia).
  destruct (decide (n = 0%nat)) as [->|Hn0]; [done|].
  destruct H as [H|H].
  - rewrite drop_app_le, take_app_le by (rewrite ?length_drop, ?Ht; lia).
    rewrite skipn_firstn_comm. rewrite take_take. f_equal. lia.
  - rewrite app_assoc, drop_app_ge by (rewrite length_app, Ht; lia). rewrite drop_drop, length_app, Ht. do 2 f_equal. lia.
Qed.
Lemma wr_inside : take (length l) (drop (Z.to_nat o) img') = l.
Proof using Hwr.
  destruct wr_facts as (H1 & H2 & ->). rewrite drop_app_length' by (rewrite length_take; lia). by rewrite take_app_length'.
Qed.
Lemma wr_bytes : Forall is_u8 img → Forall is_u8 l → Forall is_u8 img'.
Proof using Hwr.
  destruct wr_facts as (H1 & H2 & ->). intros Hi Hl. repeat apply Forall_app_2; [by apply Forall_take|done|by apply Forall_drop].
Qed.
Lemma rd_outside a n : 0 ≤ n → a + n ≤ o ∨ o + zlen l ≤ a → rd img' a n = rd img a n.
Proof using Hwr.
  intros Hn H. destruct wr_facts as (H1 & H2 & _). unfold rd, field. rewrite wr_length.
  destruct (Z.leb_spec 0 a); [|done]. cbn. destruct (a + n <=? zlen img); [|done]. rewrite wr_outside; [done|].
  destruct H; [left|right]; lia.
Qed.
End Wr.

Lemma rd_inside img img' o v : wr img o (le 8 v) = Ok img' → is_u64 v → rd img' o 8 = Ok v.
Proof.
  intros Hw Hv. destruct (wr_facts _ _ _ _ Hw) as (H1 & H2 & _). pose proof (wr_length _ _ _ _ Hw) as Hl.
  pose proof (wr_inside _ _ _ _ Hw) as Hin. rewrite le_length in H2, Hin. unfold rd, field. rewrite Hl.
  rewrite (proj2 (Z.leb_le 0 o)), (proj2 (Z.leb_le _ (zlen img))) by lia. cbn [andb].
  change (Z.to_nat 8) with 8%nat. rewrite Hin, le_word_le. f_equal. apply Z.mod_small. exact Hv.
Qed.

(** ** Section headers *)

Definition with_addr (sh : Elf64_Shdr) (a : Z) : Elf64_Shdr :=
  mkShdr (sh_name sh) (sh_type sh) (sh_flags sh) a (sh_offset sh) (sh_size sh) (sh_info sh).

Lemma shdr_inside img shoff i sh : 0 ≤ shoff + 64 * i → rd_shdr img shoff i = Ok sh → shoff + 64 * i + 48 ≤ zlen img.
Proof.
  intros H0 H. unfold rd_shdr in H. repeat (apply bind_Ok in H as (? & ? & H)).
  match goal with H : rd img (_ + 44) 4 = Ok _ |- _ => revert H end. unfold rd.
  destruct (Z.leb_spec (shoff + 64 * i + 44 + 4) (zlen img)); [lia|]. by rewrite andb_false_r.
Qed.
Lemma shdr_written img img' shoff i v sh : rd_shdr img shoff i = Ok sh → wr img (shoff + 64 * i + 16) (le 8 v) = Ok img' → is_u64 v →
  rd_shdr img' shoff i = Ok (with_addr sh v).
Proof.
  intros H Hw Hv. unfold rd_shdr in *. repeat (apply bind_Ok in H as (? & ? & H)). injection H as <-.
  rewrite (rd_inside _ _ _ _ Hw Hv), !(rd_outside _ _ _ _ Hw) by (rewrite ?le_length; lia).
  by repeat (match goal with H : rd img ?o ?n = Ok _ |- _ => rewrite H; clear H end; cbn [mbind res_bind]).
Qed.
Lemma shdr_other img img' shoff i j v : wr img (shoff + 64 * i + 16) (le 8 v) = Ok img' → i ≠ j → rd_shdr img' shoff j = rd_shdr img shoff j.
Proof. intros Hw Hne. unfold rd_shdr. by rewrite !(rd_outside _ _ _ _ Hw) by (rewrite ?le_length; lia). Qed.

(** ** Loading sections *)

Definition allocated (sh : Elf64_Shdr) : bool := negb ((Z.land (sh_flags sh) SHF_ALLOC =? 0) || (sh_size sh =? 0)).
(** The room a section takes, and the addresses sections get from [base] on. *)
Definition room (sh : Elf64_Shdr) : Z := if allocated sh then align64 (sh_size sh) 32 else 0.
Definition total (shs : list Elf64_Shdr) : Z := foldr (λ sh n, room sh + n) 0 shs.
Fixpoint place (base : Z) (shs : list Elf64_Shdr) : list Z :=
  match shs with
  | [] => []
  | sh :: shs => (if allocated sh then base else sh_addr sh) :: place (base + room sh) shs
  end.
(** The byte a section has at [x]. *)
Definition section_byte (img : list Z) (sh : Elf64_Shdr) (x : Z) : option Z :=
  if sh_type sh =? SHT_NOBITS then Some 0 else zlookup img (sh_offset sh + x).

(** The data of an allocated section lies in the file, outside the [n] headers at [shoff]. *)
Definition data_ok (img : list Z) (shoff n : Z) (sh : Elf64_Shdr) : Prop := allocated sh = true →
  0 < sh_size sh < 2 ^ 30 ∧ (sh_type sh ≠ SHT_NOBITS → 0 ≤ sh_offset sh ∧ sh_offset sh + sh_size sh ≤ zlen img ∧
    (sh_offset sh + sh_size sh ≤ shoff ∨ shoff + 64 * n ≤ sh_offset sh)).

Definition out_of_memory {A} (r : res A) : Prop :=
  r = Fatal "PMM failed to allocate" ∨ r = Fatal "Watermark allocator out of memory!".

Lemma copy_in_spec l : ∀ m a x, Forall is_u8 l →
  copy_in m a l x = if bool_decide (a ≤ x < a + zlen l) then default 0 (zlookup l (x - a)) else m x.
Proof.
  induction l as [|b l IH]; intros m a x Hl; cbn [copy_in length].
  { by rewrite bool_decide_eq_false_2 by lia. }
  apply Forall_cons in Hl as [Hb Hl]. rewrite IH by done. unfold store8.
  destruct (decide (x = a)) as [->|Hx].
  - rewrite bool_decide_eq_false_2, bool_decide_eq_true_2, Z.eqb_refl by lia. rewrite Z.sub_diag. by rewrite uN_small.
  - rewrite (proj2 (Z.eqb_neq x a)) by done. repeat case_bool_decide; try done; try lia.
    rewrite !zlookup_Z by lia. by replace (Z.to_nat (x - a)) with (S (Z.to_nat (x - (a + 1)))) by lia.
Qed.

Lemma data_room img shoff n sh : data_ok img shoff n sh → 0 ≤ room sh ∧ (allocated sh = true → sh_size sh ≤ room sh ∧ 0 < sh_size sh).
Proof.
  unfold data_ok, room. destruct (allocated sh); intros H; [|by split]. destruct (H eq_refl) as [H1 _].
  pose proof (alignN_bounds 64 (sh_size sh) 32 ltac:(lia) ltac:(lia) ltac:(lia) ltac:(lia)). split; [lia|intros _; lia].
Qed.
Lemma room_nonneg img shoff n shs : Forall (data_ok img shoff n) shs → 0 ≤ total shs.
Proof. induction 1 as [|sh shs H _ IH]; [done|]. change (total _) with (room sh + total shs). pose proof (data_room _ _ _ _ H). lia. Qed.

(** Sections get disjoint areas. *)
Lemma place_range img shoff n shs : ∀ base j sh a, Forall (data_ok img shoff n) shs → shs !! j = Some sh → place base shs !! j = Some a →
  allocated sh = true → base ≤ a ∧ a + sh_size sh ≤ base + total shs.
Proof.
  induction shs as [|s shs IH]; intros base [|j] sh a Hf Hs Ha Hal; try done; apply Forall_cons in Hf as [Hd Hf];
    pose proof (room_nonneg _ _ _ _ Hf) as Ht; pose proof (data_room _ _ _ _ Hd) as [Hr1 Hr2]; change (total (s :: shs)) with (room s + total shs).
  - injection Hs as ->. cbn in Ha. rewrite Hal in Ha. injection Ha as <-. specialize (Hr2 Hal). lia.
  - cbn in Ha, Hs. destruct (IH _ _ _ _ Hf Hs Ha Hal). lia.
Qed.

Section Loop.
Context (pml4 e k shoff n : Z) (lo hi : Z).
Context (Hlo : 0 ≤ lo) (Hhi : hi + 8192 ≤ 2 ^ 64) (Hk : ∀ w, lo ≤ w < hi + 8192 → ADDR_PML4I w = k) (Hshoff : 0 ≤ shoff).

(** One allocated section. *)
Lemma load_section_Ok s i sh :
  space_ok pml4 e k (lpg s) → Forall is_u8 (limg s) → 0 ≤ i < n → shoff + 64 * n ≤ zlen (limg s) →
  rd_shdr (limg s) shoff i = Ok sh → allocated sh = true → data_ok (limg s) shoff n sh →
  lo ≤ sectionbase s → sectionbase s + room sh ≤ hi →
  out_of_memory (load_section pml4 shoff i s) ∨
  ∃ s', load_section pml4 shoff i s = Ok s' ∧ sectionbase s' = sectionbase s + room sh ∧
    wr (limg s) (shoff + 64 * i + 16) (le 8 (sectionbase s)) = Ok (limg s') ∧
    space_ok pml4 e k (lpg s') ∧ keeps_live pml4 (lpg s) (lpg s') ∧
    (∀ x, 0 ≤ x < sh_size sh → lives pml4 (lpg s') (sectionbase s + x) ∧
       Some (lvm s' (sectionbase s + x)) = section_byte (limg s) sh x) ∧
    (∀ x, ¬ sectionbase s ≤ x < sectionbase s + sh_size sh → lvm s' x = lvm s x).
Proof using Hlo Hhi Hk Hshoff.
  intros Hsp Hb Hi Hn Hsh Hal Hd Hsb Hsh2. destruct (Hd Hal) as [Hsz Hdata].
  pose proof (data_room _ _ _ _ Hd) as [_ Hroom]. specialize (Hroom Hal).
  assert (is_u64 (sectionbase s)) as Hu by (unfold is_uN; lia).
  unfold load_section. rewrite Hsh. cbn [mbind res_bind]. unfold allocated in Hal. apply negb_true_iff in Hal. rewrite Hal.
  pose proof (wr_Ok (limg s) (shoff + 64 * i + 16) (le 8 (sectionbase s)) ltac:(lia) ltac:(rewrite le_length; lia)) as Hw.
  set (img := take _ _ ++ _) in Hw. rewrite Hw. cbn [mbind res_bind].
  destruct (map_section_Ok pml4 e k (lpg s) (sectionbase s) (sh_size sh) Hsp) as [->|[->|(p & -> & Hp & Hkp & Hl)]];
    [lia|lia|lia|intros w Hw'; apply Hk; lia|by left; left|by left; right|].
  cbn [mbind res_bind]. right. pose proof (wr_length _ _ _ _ Hw) as Hlen.
  assert (u64 (sectionbase s + align64 (sh_size sh) 32) = sectionbase s + room sh) as Hnext.
  { unfold room, allocated in *. rewrite Hal in *. cbn [negb] in *. apply uN_small. unfold is_uN. lia. }
  unfold section_byte. destruct (Z.eqb_spec (sh_type sh) SHT_NOBITS) as [Et|Et]; cbn [mbind res_bind].
  - eexists. split; [done|]. cbn [sectionbase limg lpg lvm]. split_and!; [done|done|done|done| |].
    + intros x Hx. split; [apply Hl; lia|]. by rewrite memset_spec, bool_decide_eq_true_2 by (unfold is_uN; lia).
    + intros x Hx. by rewrite memset_spec, bool_decide_eq_false_2 by (unfold is_uN; lia).
  - destruct (Hdata Et) as (D1 & D2 & D3). rewrite (proj2 (Z.ltb_ge _ _)) by lia. cbn [mbind res_bind].
    rewrite (wr_outside _ _ _ _ Hw) by (rewrite le_length; lia). set (d := take _ (drop _ (limg s))).
    assert (zlen d = sh_size sh) as Hdl by (unfold d; rewrite length_take, length_drop; lia).
    assert (Forall is_u8 d) as Hdb by (by apply Forall_take, Forall_drop).
    eexists. split; [done|]. cbn [sectionbase limg lpg lvm]. split_and!; [done|done|done|done| |].
    + intros x Hx. split; [apply Hl; lia|]. rewrite copy_in_spec, bool_decide_eq_true_2 by (done || lia).
      replace (sectionbase s + x - sectionbase s) with x by lia. rewrite !zlookup_Z by lia. unfold d.
      rewrite lookup_take_lt, lookup_drop by lia. replace (Z.to_nat (sh_offset sh) + Z.to_nat x)%nat with (Z.to_nat (sh_offset sh + x)) by lia.
      destruct (limg s !! Z.to_nat (sh_offset sh + x)) eqn:E; [done|]. apply lookup_ge_None in E. lia.
    + intros x Hx. by rewrite copy_in_spec, bool_decide_eq_false_2 by (done || lia).
Qed.

(** The state after the sections [shs] from index [i] on. *)
Record loaded_from (s s' : loading) (i : Z) (shs : list Elf64_Shdr) : Prop := {
  ld_next : sectionbase s' = sectionbase s + total shs;
  ld_len : zlen (limg s') = zlen (limg s);
  ld_headers : ∀ j sh a, shs !! j = Some sh → place (sectionbase s) shs !! j = Some a →
    rd_shdr (limg s') shoff (i + Z.of_nat j) = Ok (with_addr sh a);
  ld_before : ∀ j, j < i → rd_shdr (limg s') shoff j = rd_shdr (limg s) shoff j;
  ld_data : ∀ x, x < shoff ∨ shoff + 64 * n ≤ x → zlookup (limg s') x = zlookup (limg s) x;
  ld_space : space_ok pml4 e k (lpg s');
  ld_live : keeps_live pml4 (lpg s) (lpg s');
  ld_bytes : ∀ j sh a x, shs !! j = Some sh → place (sectionbase s) shs !! j = Some a → allocated sh = true →
    0 ≤ x < sh_size sh → lives pml4 (lpg s') (a + x) ∧ Some (lvm s' (a + x)) = section_byte (limg s) sh x;
  ld_rest : ∀ x, ¬ sectionbase s ≤ x < sectionbase s + total shs → lvm s' x = lvm s x }.

Lemma skip_unallocated s i sh : rd_shdr (limg s) shoff i = Ok sh → allocated sh = false → load_section pml4 shoff i s = Ok s.
Proof.
  intros Hsh Hal. unfold load_section. rewrite Hsh. cbn [mbind res_bind]. unfold allocated in Hal. apply negb_false_iff in Hal. by rewrite Hal.
Qed.

Lemma zlookup_wr img img' o l x : wr img o l = Ok img' → x < o ∨ o + zlen l ≤ x → zlookup img' x = zlookup img x.
Proof.
  intros Hw Hx. destruct (Z.le_gt_cases 0 x); [|by rewrite !zlookup_None by lia].
  destruct (wr_facts _ _ _ _ Hw) as (H1 & _). pose proof (wr_outside _ _ _ _ Hw (Z.to_nat x) 1 ltac:(destruct Hx; lia)) as E.
  rewrite !zlookup_Z by lia. rewrite <- (Nat.add_0_r (Z.to_nat x)), <- !lookup_drop.
  rewrite <- (lookup_take_lt (drop _ img') 1), <- (lookup_take_lt (drop _ img) 1) by lia. by rewrite E.
Qed.

Lemma section_byte_data img img' sh x : data_ok img shoff n sh → allocated sh = true → 0 ≤ x < sh_size sh →
  (∀ y, y < shoff ∨ shoff + 64 * n ≤ y → zlookup img' y = zlookup img y) → section_byte img' sh x = section_byte img sh x.
Proof.
  intros Hd Hal Hx H. unfold section_byte. destruct (Z.eqb_spec (sh_type sh) SHT_NOBITS) as [|Et]; [done|].
  destruct (Hd Hal) as [_ Hd']. destruct (Hd' Et) as (? & ? & ?). apply H. lia.
Qed.

Lemma load_loop shs : ∀ i s,
  space_ok pml4 e k (lpg s) → Forall is_u8 (limg s) → 0 ≤ i → i + zlen shs ≤ n → shoff + 64 * n ≤ zlen (limg s) →
  (∀ j sh, shs !! j = Some sh → rd_shdr (limg s) shoff (i + Z.of_nat j) = Ok sh) →
  Forall (data_ok (limg s) shoff n) shs → lo ≤ sectionbase s → sectionbase s + total shs ≤ hi →
  out_of_memory (for_rounds (load_section pml4 shoff) i 1 (length shs) s) ∨
  ∃ s', for_rounds (load_section pml4 shoff) i 1 (length shs) s = Ok s' ∧ loaded_from s s' i shs.
Proof using Hlo Hhi Hk Hshoff.
  induction shs as [|sh shs IH]; intros i s Hsp Hb Hi Hin Hn Hsh Hd Hsb Hup; cbn [for_rounds length].
  { right. exists s. split; [done|]. split; try done. cbn. lia. }
  apply Forall_cons in Hd as [Hd0 Hd]. pose proof (data_room _ _ _ _ Hd0) as [Hr0 Hr1]. pose proof (room_nonneg _ _ _ _ Hd) as Ht.
  change (total (sh :: shs)) with (room sh + total shs) in Hup. cbn [length] in Hin.
  pose proof (Hsh 0%nat sh eq_refl) as Hsh0. rewrite Z.add_0_r in Hsh0.
  assert (∀ j sh', shs !! j = Some sh' → rd_shdr (limg s) shoff (i + 1 + Z.of_nat j) = Ok sh') as Hsh'.
  { intros j sh' Hj. rewrite <- (Hsh (S j) sh' Hj). f_equal. lia. }
  destruct (allocated sh) eqn:Hal.
  - destruct (load_section_Ok s i sh Hsp Hb ltac:(lia) Hn Hsh0 Hal Hd0 Hsb ltac:(lia)) as
      [[->| ->]|(s1 & -> & Hsb1 & Hw & Hsp1 & Hkp1 & Hby1 & Hrest1)]; [by left; left|by left; right|]. cbn [mbind res_bind].
    pose proof (wr_length _ _ _ _ Hw) as Hl1. assert (is_u64 (sectionbase s)) as Hu by (unfold is_uN; lia).
    assert (∀ y, y < shoff ∨ shoff + 64 * n ≤ y → zlookup (limg s1) y = zlookup (limg s) y) as Hdat1.
    { intros y Hy. apply (zlookup_wr _ _ _ _ _ Hw). rewrite le_length. lia. }
    destruct (IH (i + 1) s1) as [Hoom|(s2 & E2 & [L1 L2 L3 L4 L5 L6 L7 L8 L9])]; try done; try lia.
    { apply (wr_bytes _ _ _ _ Hw); [done|apply le_bytes]. }
    { intros j sh' Hj. rewrite (shdr_other _ _ _ _ _ _ Hw) by lia. by apply Hsh'. }
    { eapply Forall_impl; [exact Hd|]. intros sh'. unfold data_ok. by rewrite Hl1. }
    { by left. }
    right. exists s2. split; [done|]. rewrite Hsb1 in *.
    split; [change (total (sh :: shs)) with (room sh + total shs); lia|lia| | | |done|by etrans| |].
    + intros [|j] sh' a Hj Ha; cbn [place lookup list_lookup] in Hj, Ha.
      * injection Hj as <-. rewrite Hal in Ha. injection Ha as <-. rewrite Z.add_0_r, L4 by lia. by apply (shdr_written _ _ _ _ _ _ Hsh0 Hw).
      * rewrite <- (L3 j sh' a Hj Ha). f_equal. lia.
    + intros j Hj. rewrite L4 by lia. apply (shdr_other _ _ _ _ _ _ Hw). lia.
    + intros x Hx. rewrite L5, Hdat1 by done. done.
    + intros [|j] sh' a x Hj Ha Hal' Hx; cbn [place lookup list_lookup] in Hj, Ha.
      * injection Hj as <-. rewrite Hal in Ha. injection Ha as <-. destruct (Hby1 x Hx) as [Hlv Hv]. split; [by eapply lives_keep|].
        rewrite L9; [done|]. specialize (Hr1 eq_refl). lia.
      * destruct (L8 j sh' a x Hj Ha Hal' Hx) as [Hlv Hv]. split; [done|]. rewrite Hv. apply section_byte_data; try done.
        rewrite Forall_lookup in Hd. by apply (Hd j).
    + intros x Hx. change (total (sh :: shs)) with (room sh + total shs) in Hx. rewrite L9, Hrest1; [done| |lia].
      specialize (Hr1 eq_refl). lia.
  - assert (room sh = 0) as Hr by (unfold room; by rewrite Hal).
    rewrite (skip_unallocated s i sh Hsh0 Hal). cbn [mbind res_bind].
    destruct (IH (i + 1) s) as [Hoom|(s2 & E2 & [L1 L2 L3 L4 L5 L6 L7 L8 L9])]; try done; try lia; [by left|].
    right. exists s2. split; [done|].
    split; [change (total (sh :: shs)) with (room sh + total shs); lia|lia| | |done|done|done| |].
    + intros [|j] sh' a Hj Ha; cbn [place lookup list_lookup] in Hj, Ha; rewrite ?Hr, ?Z.add_0_r in Ha.
      * injection Hj as <-. rewrite Hal in Ha. injection Ha as <-. rewrite Z.add_0_r, L4, Hsh0 by lia. by destruct sh.
      * rewrite <- (L3 j sh' a Hj Ha). f_equal. lia.
    + intros j Hj. apply L4. lia.
    + intros [|j] sh' a x Hj Ha Hal' Hx; cbn [place lookup list_lookup] in Hj, Ha; rewrite ?Hr, ?Z.add_0_r in Ha; [congruence|].
      by apply (L8 j).
    + intros x Hx. change (total (sh :: shs)) with (room sh + total shs) in Hx. apply L9. lia.
Qed.
End Loop.

Lemma place_ordered img shoff n shs : ∀ base i j sh sh' a b, Forall (data_ok img shoff n) shs → (i < j)%nat →
  shs !! i = Some sh → shs !! j = Some sh' → place base shs !! i = Some a → place base shs !! j = Some b →
  allocated sh = true → allocated sh' = true → a + sh_size sh ≤ b.
Proof.
  induction shs as [|s shs IH]; intros base [|i] [|j] sh sh' a b Hf Hlt Hi Hj Ha Hb Hal Hal'; try done; try lia.
  - apply Forall_cons in Hf as [Hd Hf]. cbn in Hi, Hj, Ha, Hb. injection Hi as ->. rewrite Hal in Ha. injection Ha as <-.
    destruct (place_range _ _ _ _ _ _ _ _ Hf Hj Hb Hal') as [H _]. pose proof (data_room _ _ _ _ Hd) as [_ Hr]. specialize (Hr Hal). lia.
  - apply Forall_cons in Hf as [Hd Hf]. cbn in Hi, Hj, Ha, Hb. apply (IH _ i j _ _ _ _ Hf ltac:(lia) Hi Hj Ha Hb Hal Hal').
Qed.

(** The areas of the 64 slots lie below the last entry of the top-level table. *)
Definition slot_base (modid : Z) : Z := MODULES_BASE + 2 ^ 30 * modid.
Lemma slot_entry w : MODULES_BASE ≤ w < 2 ^ 64 → ADDR_PML4I w = 511.
Proof.
  unfold MODULES_BASE, ADDR_PML4I. intros H. rewrite Z.shiftr_div_pow2 by lia. change 511 with (Z.ones 9) at 1.
  rewrite Z.land_ones by lia. assert (w / 2 ^ 39 = 2 ^ 25 - 1) as ->; [|done].
  symmetry. apply (Z.div_unique w (2 ^ 39) _ (w - 2 ^ 39 * (2 ^ 25 - 1))); lia.
Qed.

(** ** Properties *)

(** C35: loading the sections of a module into one of the 64 slots either runs out of memory or puts
    the allocated sections one after the other into the slot, without overlap, writes their
    addresses into the headers and nothing else there, maps every byte of them, fills them with the
    data of the file or with zeros, and leaves all other memory and translations alone. *)
Theorem load_sections_placed pml4 e img ehdr shs modid p m :
  rd_ehdr img = Ok ehdr → 0 ≤ e_shoff ehdr → e_shnum ehdr = zlen shs → e_shoff ehdr + 64 * zlen shs ≤ zlen img →
  (∀ j sh, shs !! j = Some sh → rd_shdr img (e_shoff ehdr) (Z.of_nat j) = Ok sh) →
  Forall is_u8 img → Forall (data_ok img (e_shoff ehdr) (zlen shs)) shs → total shs ≤ 2 ^ 30 - 8192 →
  0 ≤ modid < 64 → space_ok pml4 e 511 p →
  let addrs := place (slot_base modid) shs in
  out_of_memory (load_sections pml4 img (slot_base modid) p m) ∨
  ∃ l, load_sections pml4 img (slot_base modid) p m = Ok l ∧ keeps_live pml4 p (lpg l) ∧
    (∀ j sh a, shs !! j = Some sh → addrs !! j = Some a → rd_shdr (limg l) (e_shoff ehdr) (Z.of_nat j) = Ok (with_addr sh a)) ∧
    (∀ j sh a x, shs !! j = Some sh → addrs !! j = Some a → allocated sh = true → 0 ≤ x < sh_size sh →
       slot_base modid ≤ a + x < slot_base (modid + 1) ∧ mapped pml4 (lpg l) (a + x) = true ∧
       Some (lvm l (a + x)) = section_byte img sh x) ∧
    (∀ i j sh sh' a b, (i < j)%nat → shs !! i = Some sh → shs !! j = Some sh' → addrs !! i = Some a → addrs !! j = Some b →
       allocated sh = true → allocated sh' = true → a + sh_size sh ≤ b) ∧
    (∀ x, ¬ slot_base modid ≤ x < slot_base (modid + 1) → lvm l x = m x).
Proof.
  intros He Hoff Hnum Hlen Hsh Hb Hd Htot Hmod Hsp addrs. unfold load_sections. rewrite He. cbn [mbind res_bind].
  rewrite Hnum, Nat2Z.id.
  assert (MODULES_BASE ≤ slot_base modid ∧ slot_base modid + total shs + 8192 ≤ slot_base (modid + 1) ≤ 2 ^ 64) as (B1 & B2 & B3)
    by (unfold slot_base, MODULES_BASE; lia).
  destruct (load_loop pml4 e 511 (e_shoff ehdr) (zlen shs) (slot_base modid) (slot_base modid + total shs)
    ltac:(unfold MODULES_BASE in B1; lia) ltac:(lia) ltac:(intros w Hw; apply slot_entry; lia) Hoff shs 0 (mkLoading img (slot_base modid) p m))
    as [Hoom|(l & E & [L1 L2 L3 L4 L5 L6 L7 L8 L9])]; cbn [limg sectionbase lpg lvm] in *; try done; try lia; [by left|].
  right. exists l. split_and!; [done|done| | | |].
  - intros j sh a Hj Ha. by apply (L3 j).
  - intros j sh a x Hj Ha Hal Hx. destruct (L8 j sh a x Hj Ha Hal Hx) as [Hlv Hv].
    pose proof (place_range _ _ _ _ _ _ _ _ Hd Hj Ha Hal). split_and!; [lia|lia|by apply mapped_lives|done].
  - intros i j sh sh' a b. by apply (place_ordered _ _ _ _ _ _ _ _ _ _ _ Hd).
  - intros x Hx. apply L9. pose proof (room_nonneg _ _ _ _ Hd). lia.
Qed.

Definition demo_ehdr : Elf64_Ehdr := match rd_ehdr (module_demo 0) with Ok h => h | _ => mkEhdr [] 0 0 0 0 0 0 end.
Definition demo_shs : list Elf64_Shdr := match mapM (rd_shdr (module_demo 0) (e_shoff demo_ehdr)) (seqZ 0 5) with Ok l => l | _ => [] end.

Lemma demo_headers j sh : demo_shs !! j = Some sh → rd_shdr (module_demo 0) (e_shoff demo_ehdr) (Z.of_nat j) = Ok sh.
Proof.
  intros H. pose proof (lookup_lt_Some _ _ _ H) as Hj. change (length demo_shs) with 5%nat in Hj.
  destruct j as [|[|[|[|[|j]]]]]; [..|lia]; vm_compute in H; injection H as <-; vm_compute; reflexivity.
Qed.
Lemma demo_data : Forall (data_ok (module_demo 0) (e_shoff demo_ehdr) (zlen demo_shs)) demo_shs.
Proof.
  assert (Forall (λ sh, allocated sh = false ∨ sh = mkShdr 0 1 2 0 64 24 0) demo_shs) as H
    by (vm_compute; repeat constructor; (left; reflexivity) || (right; reflexivity)).
  eapply Forall_impl; [exact H|]. intros sh [Hs| ->] Ha; [rewrite Hs in Ha; discriminate|]. split; [vm_compute; split; reflexivity|].
  intros _. vm_compute. split; [discriminate|]. split; [discriminate|]. left. discriminate.
Qed.

Lemma load_sections_placed_witness :
  ∃ l, load_sections root0 (module_demo 0) (slot_base 3) boot_tables (λ _, 7) = Ok l ∧
    mapped root0 (lpg l) (slot_base 3 + 23) = true ∧ lvm l (slot_base 3 + 23) = 144 ∧ lvm l (slot_base 2) = 7.
Proof.
  assert (rd_ehdr (module_demo 0) = Ok demo_ehdr) as H1 by (vm_compute; reflexivity).
  assert (0 ≤ e_shoff demo_ehdr) as H2 by (vm_compute; discriminate).
  assert (e_shnum demo_ehdr = zlen demo_shs) as H3 by (vm_compute; reflexivity).
  assert (e_shoff demo_ehdr + 64 * zlen demo_shs ≤ zlen (module_demo 0)) as H4 by (vm_compute; discriminate).
  assert (Forall is_u8 (module_demo 0)) as H5 by (vm_compute; repeat constructor; discriminate || reflexivity).
  assert (total demo_shs ≤ 2 ^ 30 - 8192) as H6 by (vm_compute; discriminate).
  destruct (load_sections_placed root0 _ _ _ _ 3 boot_tables (λ _, 7) H1 H2 H3 H4 demo_headers H5 demo_data H6 ltac:(lia) (boot_space 511))
    as [Hoom|(l & E & _ & _ & Hin & _ & Hout)].
  - exfalso. assert (is_Ok (load_sections root0 (module_demo 0) (slot_base 3) boot_tables (λ _, 7)) = true) as Hok by (vm_compute; reflexivity).
    destruct Hoom as [Ho|Ho]; rewrite Ho in Hok; discriminate Hok.
  - exists l. split; [exact E|].
    destruct (Hin 1%nat (mkShdr 0 1 2 0 64 24 0) (slot_base 3) 23) as (_ & Hm & Hv);
      [vm_compute; reflexivity|vm_compute; reflexivity|reflexivity|vm_compute; split; [discriminate|reflexivity]|].
    split; [exact Hm|]. split; [injection Hv as Hv; rewrite Hv; vm_compute; reflexivity|].
    apply Hout. unfold slot_base. lia.
Defined.

(** ** Devices and modules *)

(** The rule behind the [switch]: which PCI devices a module asks for. *)
Definition wants (md : ModuleMetadata) (p : device_t_PCI) : bool :=
  (triggertype md =? PCI_VENDOR_PRODUCT) && (trig_vendor md =? vendor p) && (trig_product md =? product p)
  || (triggertype md =? PCI_CLASS_SUBCLASS) && (trig_class md =? class_ p) && (trig_subclass md =? subclass p)
  || (triggertype md =? PCI_CLASS_SUBCLASS_PROGIF) && (trig_class md =? class_ p) && (trig_subclass md =? subclass p) &&
     (trig_progif md =? progif p).

Section Dispatch.
Context (pml4 : Z) (ks : ksyms) (run_dev : Z → option nat → kernel → res kernel) (msd_scout : nat → kernel → res kernel).

(** What device modules may do: add devices, but neither remove devices nor register modules. *)
Definition run_keeps : Prop := ∀ e d k k', run_dev e d k = Ok k' →
  map metadata (modules k') = map metadata (modules k) ∧ devices k `prefix_of` devices k'.

Fixpoint launch_all (d : nat) (is_ : list nat) (k : kernel) : res kernel :=
  match is_ with [] => Ok k | i :: is_ => k ← modules_launch pml4 ks run_dev k i (Some d); launch_all d is_ k end.

Lemma offer_pci_wants d i k dev p m : devices k !! d = Some dev → subsys dev = PCI → kinds dev = Some (KPci p) → modules k !! i = Some m →
  offer pml4 ks run_dev d i k = if wants (metadata m) p then modules_launch pml4 ks run_dev k i (Some d) else Ok k.
Proof.
  intros Hd Hs Hp Hm. unfold offer, offer_pci. rewrite Hd. cbn [deref mbind res_bind]. rewrite Hs, Hm. cbn [deref mbind res_bind].
  rewrite Hp. cbn [get_PCI mbind res_bind]. unfold wants.
  destruct (Z.eqb_spec (triggertype (metadata m)) PCI_CLASS_SUBCLASS_PROGIF) as [->|N1].
  { change (Z.land PCI_CLASS_SUBCLASS_PROGIF PCIMASK =? 0) with false. change (PCI_CLASS_SUBCLASS_PROGIF =? PCI_VENDOR_PRODUCT) with false.
    change (PCI_CLASS_SUBCLASS_PROGIF =? PCI_CLASS_SUBCLASS) with false. cbn [andb orb].
    destruct (trig_progif _ =? _); cbn [negb]; [by rewrite andb_true_r|by rewrite andb_false_r]. }
  destruct (Z.eqb_spec (triggertype (metadata m)) PCI_CLASS_SUBCLASS) as [->|N2].
  { change (Z.land PCI_CLASS_SUBCLASS PCIMASK =? 0) with false. change (PCI_CLASS_SUBCLASS =? PCI_VENDOR_PRODUCT) with false. cbn [andb orb].
    by rewrite orb_false_r. }
  destruct (Z.eqb_spec (triggertype (metadata m)) PCI_VENDOR_PRODUCT) as [->|N3].
  { change (Z.land PCI_VENDOR_PRODUCT PCIMASK =? 0) with false. cbn [andb orb]. by rewrite !orb_false_r. }
  cbn. by destruct (Z.land _ PCIMASK =? 0).
Qed.

Lemma modules_load_keeps k m k' m' : modules_load pml4 ks k m = Ok (k', m') →
  modules k' = modules k ∧ devices k' = devices k ∧ metadata m' = metadata m.
Proof.
  unfold modules_load. intros H. apply bind_Ok in H as (b & _ & H). apply bind_Ok in H as ([modid b'] & _ & H).
  apply bind_Ok in H as (l & _ & H). apply bind_Ok in H as ([en v] & _ & H). by injection H as <- <-.
Qed.
Lemma launch_keeps k i d k' : run_keeps → modules_launch pml4 ks run_dev k i d = Ok k' →
  map metadata (modules k') = map metadata (modules k) ∧ devices k `prefix_of` devices k'.
Proof.
  intros Hr H. unfold modules_launch in H. apply bind_Ok in H as ([k1 m] & E & H). apply Hr in H as [H1 H2].
  unfold ensure_loaded in E. apply bind_Ok in E as (m0 & Em & E). apply deref_Ok in Em. destruct (loaded m0); [by injection E as <- <-|].
  apply bind_Ok in E as ([k2 m2] & E2 & E). injection E as <- <-. apply modules_load_keeps in E2 as (E1 & E3 & E4).
  cbn [set_module modules devices] in *. rewrite E1 in H1. rewrite E3 in H2. split; [|done].
  rewrite H1, list_fmap_insert. apply list_insert_id. rewrite list_lookup_fmap, Em. cbn. by rewrite E4.
Qed.

Definition wants_at (mds : list ModuleMetadata) (p : device_t_PCI) (i : nat) : bool :=
  match mds !! i with Some md => wants md p | None => false end.

Lemma offer_all_launches dev p d mds is_ : run_keeps → subsys dev = PCI → kinds dev = Some (KPci p) → ∀ k,
  devices k !! d = Some dev → map metadata (modules k) = mds → Forall (λ i, (i < length mds)%nat) is_ →
  offer_all pml4 ks run_dev d is_ k = launch_all d (List.filter (wants_at mds p) is_) k ∧
  ∀ k', launch_all d (List.filter (wants_at mds p) is_) k = Ok k' → devices k' !! d = Some dev.
Proof.
  intros Hr Hs Hp. induction is_ as [|i is_ IH]; intros k Hd Hm Hi; [split; [done|]; intros k' E; by injection E as <-|].
  apply Forall_cons in Hi as [Hi His]. cbn [offer_all List.filter]. subst mds. rewrite length_map in Hi.
  destruct (lookup_lt_is_Some_2 _ _ Hi) as [m Em]. rewrite (offer_pci_wants d i k dev p m Hd Hs Hp Em).
  assert (wants_at (map metadata (modules k)) p i = wants (metadata m) p) as ->
    by (unfold wants_at; rewrite list_lookup_fmap, Em; done).
  destruct (wants (metadata m) p).
  - cbn [launch_all]. destruct (modules_launch _ _ _ _ _ _) as [k1| | | |] eqn:E; cbn [mbind res_bind]; try done.
    destruct (launch_keeps _ _ _ _ Hr E) as [E1 E2]. apply IH; [by eapply prefix_lookup_Some|done|done].
  - cbn [mbind res_bind]. by apply IH.
Qed.

(** C36: a new PCI device is entered at the end of the device list and handed to exactly those
    registered modules whose trigger matches it, by vendor and product, by class and subclass, or by
    these and the programming interface, in the order of their registration.  What modules do when
    they run is arbitrary as long as they neither register modules nor remove devices. *)
Theorem add_device_launches k dev p : run_keeps → subsys dev = PCI → kinds dev = Some (KPci p) →
  devmgr_add_device pml4 ks run_dev msd_scout k dev =
  (k' ← launch_all (length (devices k)) (List.filter (wants_at (map metadata (modules k)) p) (seq 0 (length (modules k))))
          (mkKernel (modules k) (bm k) (devices k ++ [dev]) (pg k) (vm k));
   Ok (length (devices k), k')).
Proof.
  intros Hr Hs Hp. unfold devmgr_add_device. cbn [modules].
  destruct (offer_all_launches dev p (length (devices k)) (map metadata (modules k)) (seq 0 (length (modules k))) Hr Hs Hp
    (mkKernel (modules k) (bm k) (devices k ++ [dev]) (pg k) (vm k))) as [-> Hd]; [|done| |].
  - cbn [devices]. by rewrite lookup_app_r, Nat.sub_diag by lia.
  - apply Forall_seq. intros i Hi. rewrite length_map. lia.
  - destruct (launch_all _ _ _) as [k'| | | |] eqn:E; cbn [mbind res_bind]; try done. rewrite (Hd k' eq_refl). cbn [deref mbind res_bind].
    by rewrite Hs.
Qed.
End Dispatch.

(** Three modules, already loaded; running one notes its entry point in the memory. *)
Definition demo_run (entry : Z) (d : option nat) (k : kernel) : res kernel :=
  Ok (mkKernel (modules k) (bm k) (devices k) (pg k) (store64 (vm k) 0 entry)).
Definition demo_kernel : kernel :=
  mkKernel [mkModule [] 100 (mkMeta [] FILESYSTEM [0; 0; 0; 0]) true; mkModule [] 101 (mkMeta [] PCI_CLASS_SUBCLASS [1; 6; 0; 0]) true;
            mkModule [] 102 (mkMeta [] PCI_CLASS_SUBCLASS_PROGIF [1; 6; 2; 0]) true] None [] boot_tables (λ _, 0).
Definition demo_device : Device := mkDevice None PCI 0 (Some (KPci (mkPciDev 0x8086 0x2922 1 6 1 0 31 2))).

Lemma add_device_launches_witness :
  ∃ k', devmgr_add_device root0 ksyms_demo demo_run (λ _ k, Ok k) demo_kernel demo_device = Ok (0%nat, k') ∧ load64 (vm k') 0 = 101.
Proof.
  assert (run_keeps demo_run) as Hr by (intros e d k k' E; injection E as <-; split; reflexivity).
  rewrite (add_device_launches root0 ksyms_demo demo_run (λ _ k, Ok k) demo_kernel demo_device _ Hr eq_refl eq_refl).
  eexists. split; reflexivity.
Defined.

(** A whole load: the first slot, with the two places of the module relocated. *)
Example load_demo :
  match modules_load root0 ksyms_demo demo_kernel (mkModule (module_demo 0) 0 (mkMeta [] ANY []) false) with
  | Ok (k, m) => mentry m = MODULES_BASE + 16 ∧ load64 (vm k) (MODULES_BASE + 8) = 0xffffffff80001234 ∧
      load64 (vm k) (MODULES_BASE + 16) = MODULES_BASE + 20 ∧ loaded m = true ∧ bm k = Some (mkBitmap [1] 64)
  | _ => False
  end.
Proof. vm_compute. tauto. Qed.

(** With all 64 slots taken the result -1 of the search is used as a slot number: the module lands
    1 GiB below the area of the modules. *)
Example load_no_slot :
  match modules_load root0 ksyms_demo (mkKernel [] (Some (mkBitmap [2 ^ 64 - 1] 64)) [] boot_tables (λ _, 0))
    (mkModule (module_demo 0) 0 (mkMeta [] ANY []) false) with
  | Ok (k, m) => mentry m = MODULES_BASE - 2 ^ 30 + 16
  | _ => False
  end.
Proof. vm_compute. reflexivity. Qed.
