(* ===== verification/Loader.v ===== *)
(** The program loader ([loader/loader.cc], [loader.hh]): an address space for a program with its
    segments and a stack.

    [um] is the memory seen through the new address space; the file is the list of its bytes.  The
    loads of [%cr3] only select the address space the copies go to. *)
From S2P Require Import Prelude Arith Bitmap Mem Pmm Paging PagingArea LinkedList Sched Msd MsdSpec Elf Module ModuleSpec.

(** ** Definitions *)

Record program := mkProgram { pentry : Z; pcr3 : Z; pstack : Z }.
Record uspace := mkUspace { upg : paging; um : Mem.mem }.

Definition VSTACK : Z := 0x00007fffff000000.
Definition USER_STACK_SIZE : Z := 0x200000.
Definition segment_flags : Z := Z.lor (Z.lor (Z.lor 3 EXE) USER) s4K.

Section Loader.
Context (cr3 : Z).

(** The new top-level table: the kernel's upper half, the lower half empty. *)
Definition new_space (pml4 : Z) (s : paging) : res paging :=
  tb ← deref (tabs s !! pml4);
  Ok (mkPaging (<[cr3 := replicate 256 0 ++ drop 256 tb]> (tabs s)) (Paging.mem s)).

Definition segment_round (vaddr mapped : Z) (s : paging) : res paging := map_missing cr3 (u64 (vaddr + mapped)) segment_flags s.

(** Whether the pages of [n] bytes at [a] are all there. *)
Definition range_mapped (s : paging) (a n : Z) : bool :=
  forallb (λ pg, mapped cr3 s (pg * 4096)) (seqZ (a / 4096) ((a + n - 1) / 4096 - a / 4096 + 1)).

Definition load_segment (exefile : list Z) (ph : Elf64_Phdr) (s : uspace) : res uspace :=
  if negb (p_type ph =? PT_LOAD) then Ok s else
  p ← for_rounds (segment_round (p_vaddr ph)) 0 0x200000 (rounds (p_memsz ph) 0x200000) (upg s);
  if negb (range_mapped p (p_vaddr ph) (p_memsz ph)) then Fault else
  let m := memset (um s) (p_vaddr ph) 0 (p_memsz ph) in
  if zlen exefile <? p_offset ph + p_filesz ph then Fault else
  if negb (range_mapped p (p_vaddr ph) (p_filesz ph)) then Fault else
  Ok (mkUspace p (copy_in m (p_vaddr ph) (take (Z.to_nat (p_filesz ph)) (drop (Z.to_nat (p_offset ph)) exefile)))).

Definition load_segments (exefile : list Z) (e : Elf64_Ehdr) (s : uspace) : res uspace :=
  for_rounds (λ i s, ph ← rd_phdr exefile (e_phoff e) i; load_segment exefile ph s) 0 1 (Z.to_nat (e_phnum e)) s.

(** The constructor; [cr3] is what [kmalloc_aligned(0x1000, 0x1000)] returned. *)
Definition program_new (pml4 : Z) (exefile : list Z) (s : uspace) : res (program * uspace) :=
  p ← new_space pml4 (upg s);
  ehdr ← rd_ehdr exefile;
  if negb (is_elf ehdr) then Fatal "Only ELF files are supported for loading!" else
  s ← load_segments exefile ehdr (mkUspace p (um s));
  '(stackphys, m) ← pmm_alloc (Paging.mem (upg s)) USER_STACK_SIZE;
  p ← map_page (mkPaging (tabs (upg s)) m) cr3 VSTACK (PHYSICAL stackphys) (Z.lor UDATA s2M) WB;
  phys ← paging_lookup p pml4 cr3;
  Ok (mkProgram (e_entry ehdr) phys (VSTACK + PMM_PAGESIZE - 256), mkUspace p (um s)).
End Loader.

(** The destructor frees the stack by its virtual address, which [pmm_free] ignores. *)
Definition program_delete (p : program) (s : uspace) : uspace :=
  mkUspace (mkPaging (tabs (upg s)) (pmm_free (Paging.mem (upg s)) (pstack p))) (um s).
Definition launch (p : program) (s : sched) : res sched := sched_add_user_process s (pcr3 p) (pstack p) (pentry p).

(** ** Segments *)

Section Segments.
Context (cr3 e k : Z).

Lemma segment_round_Ok s vaddr j : space_ok cr3 e k s → ADDR_PML4I (u64 (vaddr + j)) = k →
  out_of_memory (segment_round cr3 vaddr j s) ∨
  ∃ s', segment_round cr3 vaddr j s = Ok s' ∧ space_ok cr3 e k s' ∧ keeps_live cr3 s s' ∧
    ∀ w, w / 4096 = u64 (vaddr + j) / 4096 → lives cr3 s' w.
Proof.
  intros Hs Hk. destruct (map_missing_Ok cr3 e k s (u64 (vaddr + j)) segment_flags Hs) as [H|[H|H]];
    [apply uN_range; lia|done..|by left; left|by left; right|by right].
Qed.
End Segments.

Lemma range_mapped_page cr3 s a n : (∀ w, w / 4096 = a / 4096 → lives cr3 s w) → 0 ≤ n → a `mod` 4096 + n ≤ 4096 → range_mapped cr3 s a n = true.
Proof.
  intros Hl Hn Hp. unfold range_mapped. apply forallb_forall. intros pg Hpg. apply list_elem_of_In, elem_of_seqZ in Hpg.
  apply mapped_lives, Hl. rewrite Z.div_mul by lia.
  assert ((a + n - 1) / 4096 ≤ a / 4096).
  { pose proof (Z.div_mod a 4096 ltac:(lia)). apply Z.lt_succ_r, Z.div_lt_upper_bound; lia. }
  lia.
Qed.

(** ** Properties *)

(** A segment that lies in one page is loaded completely: unless memory runs out its page is
    mapped, its bytes are those of the file followed by zeros, and all other memory and
    translations are as before. *)
Lemma load_segment_page cr3 e k exefile ph s :
  space_ok cr3 e k (upg s) → p_type ph = PT_LOAD → is_u64 (p_vaddr ph) → ADDR_PML4I (p_vaddr ph) = k →
  0 < p_memsz ph → (p_vaddr ph) `mod` 4096 + p_memsz ph ≤ 4096 → 0 ≤ p_filesz ph ≤ p_memsz ph →
  0 ≤ p_offset ph → p_offset ph + p_filesz ph ≤ zlen exefile → Forall is_u8 exefile →
  out_of_memory (load_segment cr3 exefile ph s) ∨
  ∃ s', load_segment cr3 exefile ph s = Ok s' ∧ space_ok cr3 e k (upg s') ∧ keeps_live cr3 (upg s) (upg s') ∧
    (∀ x, 0 ≤ x < p_memsz ph → mapped cr3 (upg s') (p_vaddr ph + x) = true ∧
       Some (um s' (p_vaddr ph + x)) = if x <? p_filesz ph then zlookup exefile (p_offset ph + x) else Some 0) ∧
    (∀ x, ¬ p_vaddr ph ≤ x < p_vaddr ph + p_memsz ph → um s' x = um s x).
Proof.
  intros Hs Ht Hu Hk Hm Hpg Hf Ho Hlen Hb. pose proof (Z.mod_pos_bound (p_vaddr ph) 4096 ltac:(lia)) as Hmod. unfold load_segment. rewrite Ht. cbn [negb Z.eqb]. change (negb (PT_LOAD =? PT_LOAD)) with false.
  assert (rounds (p_memsz ph) 0x200000 = 1%nat) as ->.
  { unfold rounds.
    assert ((p_memsz ph + 0x200000 - 1) / 0x200000 = 1) as ->; [|done].
    symmetry. apply (Z.div_unique _ _ _ (p_memsz ph - 1)); lia. }
  cbn [for_rounds]. assert (u64 (p_vaddr ph + 0) = p_vaddr ph) as E0 by (rewrite Z.add_0_r; by apply uN_small).
  destruct (segment_round_Ok cr3 e k (upg s) (p_vaddr ph) 0 Hs ltac:(by rewrite E0)) as [[->| ->]|(p & -> & Hsp & Hkp & Hl)];
    [by left; left|by left; right|]. cbn [mbind res_bind]. right. rewrite E0 in Hl.
  rewrite !(range_mapped_page cr3 p) by (done || lia). cbn [negb]. rewrite (proj2 (Z.ltb_ge _ _)) by lia.
  set (d := take _ (drop _ exefile)). assert (zlen d = p_filesz ph) as Hd by (unfold d; rewrite length_take, length_drop; lia).
  assert (Forall is_u8 d) as Hdb by (by apply Forall_take, Forall_drop).
  eexists. split; [done|]. cbn [upg um]. split_and!; [done|done| |].
  - intros x Hx. split.
    { apply mapped_lives, Hl. pose proof (Z.div_mod (p_vaddr ph) 4096 ltac:(lia)). symmetry.
      apply (Z.div_unique _ _ _ ((p_vaddr ph) `mod` 4096 + x)); lia. }
    rewrite copy_in_spec by done. rewrite memset_spec by (unfold is_uN; lia).
    destruct (Z.ltb_spec x (p_filesz ph)).
    + rewrite bool_decide_eq_true_2 by lia. replace (p_vaddr ph + x - p_vaddr ph) with x by lia. rewrite !zlookup_Z by lia. unfold d.
      rewrite lookup_take_lt, lookup_drop by lia. replace (Z.to_nat (p_offset ph) + Z.to_nat x)%nat with (Z.to_nat (p_offset ph + x)) by lia.
      destruct (exefile !! Z.to_nat (p_offset ph + x)) eqn:E; [done|]. apply lookup_ge_None in E. lia.
    + by rewrite bool_decide_eq_false_2, bool_decide_eq_true_2 by lia.
  - intros x Hx. rewrite copy_in_spec by done. rewrite memset_spec by (unfold is_uN; lia). by rewrite !bool_decide_eq_false_2 by lia.
Qed.

Definition demo_segment (memsz : Z) : Elf64_Phdr := mkPhdr PT_LOAD 2 0x400010 3 memsz.
Definition user_demo : uspace := mkUspace boot_tables (λ _, 9).
Lemma load_segment_page_witness :
  ∃ s', load_segment root0 [1; 2; 3; 4; 5; 6] (demo_segment 100) user_demo = Ok s' ∧
    um s' 0x400011 = 4 ∧ um s' 0x400013 = 0 ∧ um s' 0x400074 = 9.
Proof.
  destruct (load_segment_page root0 _ 0 [1; 2; 3; 4; 5; 6] (demo_segment 100) user_demo (boot_space 0) eq_refl) as [Hoom|(s' & E & _ & _ & Hin & Hout)];
    [vm_compute; split; [discriminate|reflexivity]|reflexivity|reflexivity|vm_compute; discriminate|vm_compute; split; discriminate|vm_compute; discriminate|
     vm_compute; discriminate|repeat constructor; discriminate| |].
  - exfalso. assert (is_Ok (load_segment root0 [1; 2; 3; 4; 5; 6] (demo_segment 100) user_demo) = true) as Hok by (vm_compute; reflexivity).
    destruct Hoom as [Ho|Ho]; rewrite Ho in Hok; discriminate Hok.
  - exists s'. split; [exact E|]. destruct (Hin 1) as [_ H1]; [vm_compute; split; [discriminate|reflexivity]|].
    destruct (Hin 3) as [_ H2]; [vm_compute; split; [discriminate|reflexivity]|].
    split; [injection H1 as H1; exact H1|]. split; [injection H2 as H2; exact H2|]. apply Hout. cbn. lia.
Defined.

(** Only one page is mapped for every 2 MiB of a segment, so clearing a segment that is larger than a page faults. *)
Example large_segment_faults : load_segment root0 [1; 2; 3; 4; 5; 6] (demo_segment 0x1000) user_demo = Fault.
Proof. vm_compute. reflexivity. Qed.

(** A program without segments, in a machine with 8 MiB of memory whose first and third pages are taken. *)
Definition exe_demo : list Z := elf_magic ++ replicate 12 0 ++ replicate 8 0 ++ le 8 0x400000 ++ replicate 32 0.
Definition stack_space : uspace :=
  mkUspace (mkPaging (tabs boot_tables) (mkPmm (mkBitmap (5 :: replicate 31 0) 2048) 0 0 0 0 (HHDM + 0x100000) 0x4000000 0)) (λ _, 0).
(** The stack is mapped as a 2 MiB page, but the frames [pmm_alloc] returns are aligned to 4 KiB: the
    run starts at 0x3000 and the address of the stack translates to 0, outside the run. *)
Example stack_outside_frames :
  fst <$> (match pmm_alloc (Paging.mem (upg stack_space)) USER_STACK_SIZE with Ok r => Some r | _ => None end) = Some (VIRTUAL 0x3000) ∧
  match program_new (HHDM + 0x2000) root0 exe_demo stack_space with
  | Ok (p, s) => pentry p = 0x400000 ∧ pstack p = VSTACK + 0xf00 ∧ paging_lookup (upg s) (HHDM + 0x2000) VSTACK = Ok 0
  | _ => False
  end.
Proof. vm_compute. repeat split. Qed.
