(* ===== verification/Descriptors.v ===== *)
(** Descriptor tables: the GDT and the TSS ([arch/amd64/gdt.cc], [tss.cc]) and the IDT with the
    allocation of interrupt vectors ([arch/amd64/idt.cc]).

    A packed structure is the number its bytes spell, and a bit-field a range of its bits. *)
From S2P Require Import Prelude Arith Bitmap Pmm.

(** ** Bit-fields *)

(** The field of [w] bits from bit [o] on. *)
Definition getf (x o w : Z) : Z := Z.land (Z.shiftr x o) (Z.ones w).
Definition setf (x o w v : Z) : Z :=
  Z.lor (Z.ldiff x (Z.shiftl (Z.ones w) o)) (Z.shiftl (Z.land v (Z.ones w)) o).

Lemma getf_bit x o w i : 0 ≤ o → 0 ≤ w → 0 ≤ i → Z.testbit (getf x o w) i = bool_decide (i < w) && Z.testbit x (i + o).
Proof.
  intros. unfold getf. rewrite Z.land_spec, Z.shiftr_spec by lia. rewrite Z.testbit_ones by lia.
  case_bool_decide as H'; destruct (Z.leb_spec 0 i), (Z.ltb_spec i w); try lia; cbn; by rewrite ?andb_true_r, ?andb_false_r.
Qed.
Lemma setf_bit x o w v i : 0 ≤ o → 0 ≤ w → 0 ≤ i →
  Z.testbit (setf x o w v) i = if bool_decide (o ≤ i < o + w) then Z.testbit v (i - o) else Z.testbit x i.
Proof.
  intros. unfold setf. rewrite Z.lor_spec, Z.ldiff_spec. rewrite !Z.shiftl_spec by lia.
  destruct (Z.le_gt_cases o i).
  - rewrite Z.land_spec, Z.testbit_ones by lia. rewrite (proj2 (Z.leb_le 0 (i - o))) by lia. cbn [andb].
    case_bool_decide; destruct (Z.ltb_spec (i - o) w); try lia; cbn; rewrite ?andb_true_r, ?andb_false_r, ?orb_false_r; done.
  - rewrite bool_decide_eq_false_2 by lia. rewrite !(Z.testbit_neg_r _ (i - o)) by lia. cbn. by rewrite andb_true_r, orb_false_r.
Qed.

(** A field reads back what was put into it, and other fields keep their value. *)
Lemma getf_same x o w v : 0 ≤ o → 0 ≤ w → getf (setf x o w v) o w = Z.land v (Z.ones w).
Proof.
  intros. apply Z.bits_inj'. intros i Hi. rewrite getf_bit, setf_bit, Z.land_spec, Z.testbit_ones by lia.
  rewrite (proj2 (Z.leb_le 0 i)) by lia. replace (i + o - o) with i by lia.
  repeat case_bool_decide; destruct (Z.ltb_spec i w); try lia; cbn; by rewrite ?andb_true_r, ?andb_false_r.
Qed.
Lemma getf_other x o w v o' w' : 0 ≤ o → 0 ≤ w → 0 ≤ o' → 0 ≤ w' → o + w ≤ o' ∨ o' + w' ≤ o → getf (setf x o w v) o' w' = getf x o' w'.
Proof.
  intros. apply Z.bits_inj'. intros i Hi. rewrite !getf_bit, setf_bit by lia.
  destruct (bool_decide (i < w')) eqn:E; [|done]. apply bool_decide_eq_true in E. by rewrite bool_decide_eq_false_2 by lia.
Qed.
Lemma getf_small v w : is_uN w v → 0 ≤ w → Z.land v (Z.ones w) = v.
Proof. intros. rewrite Z.land_ones by lia. by apply Z.mod_small. Qed.

(** ** The GDT *)

(** The fields of [gdt_entry_t]: offset and width. *)
Definition g_limit1 : Z * Z := (0, 16).
Definition g_base1 : Z * Z := (16, 16).
Definition g_base2 : Z * Z := (32, 8).
Definition g_access : Z * Z := (40, 8).
Definition g_rw : Z * Z := (41, 1).
Definition g_conforming : Z * Z := (42, 1).
Definition g_exec : Z * Z := (43, 1).
Definition g_data_code : Z * Z := (44, 1).
Definition g_dpl : Z * Z := (45, 2).
Definition g_present : Z * Z := (47, 1).
Definition g_limit2 : Z * Z := (48, 4).
Definition g_avl : Z * Z := (52, 1).
Definition g_long_mode : Z * Z := (53, 1).
Definition g_size : Z * Z := (54, 1).
Definition g_limit_in_pages : Z * Z := (55, 1).
Definition g_base3 : Z * Z := (56, 8).
Definition get (x : Z) (f : Z * Z) : Z := getf x f.1 f.2.
Definition put (x : Z) (f : Z * Z) (v : Z) : Z := setf x f.1 f.2 v.
Definition puts (x : Z) (l : list ((Z * Z) * Z)) : Z := foldl (λ x fv, put x fv.1 fv.2) x l.

Definition kernel_code : Z :=
  puts 0 [(g_limit1, 0); (g_limit2, 0); (g_base1, 0); (g_base2, 0); (g_base3, 0); (g_conforming, 0); (g_data_code, 1); (g_dpl, 0);
          (g_exec, 1); (g_present, 1); (g_rw, 1); (g_limit_in_pages, 1); (g_long_mode, 1); (g_size, 0); (g_avl, 0)].
Definition kernel_data : Z := put kernel_code g_exec 0.
Definition user_data : Z := put kernel_data g_dpl 3.
Definition user_code : Z := put kernel_code g_dpl 3.

(** The table and its address; the 4 KiB that are cleared reach past the 64 bytes of the table. *)
Definition arch_gdt_init (s : pmm) : res (Z * list Z * pmm) :=
  '(p, s) ← wm_alloc s (8 * 8) 16;
  Ok (p, [0; kernel_code; kernel_data; user_data; user_code; 0; 0; 0], s).

(** The TSS takes two entries. *)
Definition tss_low (e t : Z) : Z :=
  let limit := 104 - 1 in
  puts e [(g_base1, t); (g_base2, Z.shiftr t 16); (g_base3, Z.shiftr t 24); (g_access, 0x89); (g_dpl, 0); (g_avl, 0); (g_long_mode, 1);
          (g_size, 0); (g_limit_in_pages, 0); (g_limit1, Z.land limit 0xf); (g_limit2, Z.shiftr limit 4)].
Definition tss_high (e t : Z) : Z := setf e 0 32 (Z.shiftr t 32).
Definition arch_gdt_add_tss (gdt : list Z) (t : Z) : res (list Z) :=
  e5 ← deref (gdt !! 5%nat); e6 ← deref (gdt !! 6%nat);
  Ok (<[6%nat := tss_high e6 t]> (<[5%nat := tss_low e5 t]> gdt)).

(** The TSS: the fields that are set. *)
Record tss_t := mkTss { ist1 : Z; io_bm_offset : Z }.
Definition INTR_STACK_SIZE : Z := 0x200000.
Definition arch_tss_init (gdt : list Z) (s : pmm) : res (list Z * tss_t * pmm) :=
  '(t, s) ← wm_alloc s 128 16;
  '(p, s) ← pmm_alloc s INTR_STACK_SIZE;
  gdt ← arch_gdt_add_tss gdt t;
  Ok (gdt, mkTss (u64 (p + INTR_STACK_SIZE - 128 - 16)) 104, s).

(** The base the processor takes from a TSS descriptor, and the limit. *)
Definition tss_base (low high : Z) : Z :=
  get low g_base1 + 2 ^ 16 * get low g_base2 + 2 ^ 24 * get low g_base3 + 2 ^ 32 * getf high 0 32.
Definition seg_limit (e : Z) : Z := get e g_limit1 + 2 ^ 16 * get e g_limit2.

(** ** The IDT *)

Definition i_base0 : Z * Z := (0, 16).
Definition i_ss : Z * Z := (16, 16).
Definition i_ist : Z * Z := (32, 3).
Definition i_gate_type : Z * Z := (40, 4).
Definition i_dpl : Z * Z := (45, 2).
Definition i_present : Z * Z := (47, 1).
Definition i_base1 : Z * Z := (48, 16).
Definition i_base2 : Z * Z := (64, 32).

Definition idt_entry (e isr type : Z) : Z :=
  puts e [(i_dpl, 0); (i_gate_type, type); (i_ist, 1); (i_base0, Z.land isr 0x000000000000ffff);
          (i_base1, Z.shiftr (Z.land isr 0x00000000ffff0000) 16); (i_base2, Z.shiftr (Z.land isr 0xffffffff00000000) 32);
          (i_present, 1); (i_ss, 0x08)].
Definition idt_add_entry (idt : list Z) (v : nat) (isr type : Z) : res (list Z) :=
  e ← deref (idt !! v); Ok (<[v := idt_entry e isr type]> idt).
(** All vectors, [exc n] being the address of the stub of [n]. *)
Fixpoint add_entries (exc : nat → Z) (idt : list Z) (vs : list nat) : res (list Z) :=
  match vs with [] => Ok idt | v :: vs => idt ← idt_add_entry idt v (exc v) 0xe; add_entries exc idt vs end.
Definition isr_offset (e : Z) : Z := get e i_base0 + 2 ^ 16 * get e i_base1 + 2 ^ 32 * get e i_base2.

(** Handlers by name; [onInterrupt] marks a free vector. *)
Inductive isr := onInterrupt | Handler (n : nat).
#[global] Instance isr_eq_dec : EqDecision isr.
Proof. solve_decision. Defined.

(** The table before: whatever the memory holds. *)
Definition arch_idt_init (exc : nat → Z) (garbage : list Z) (s : pmm) : res (list Z * list isr * pmm) :=
  '(_, s) ← wm_alloc s 0x1000 16;
  idt ← add_entries exc garbage (seq 0 256);
  Ok (idt, replicate 256 onInterrupt, s).

Fixpoint alloc_from_vector (handler : list isr) (h : isr) (n i : nat) : res (nat * list isr) :=
  match n with
  | O => Fatal "No free interrupt vector left"
  | S n =>
      x ← deref (handler !! i);
      if decide (x = onInterrupt) then Ok (i, <[i := h]> handler) else alloc_from_vector handler h n (S i)
  end.
Definition idt_allocate_vector (handler : list isr) (h : isr) : res (nat * list isr) := alloc_from_vector handler h (256 - 0x21) 0x21.
Definition idt_deallocate_vector (handler : list isr) (v : nat) : res (list isr) :=
  x ← deref (handler !! v);
  assert_ (bool_decide (x ≠ onInterrupt)) "handler[vector] != onInterrupt";;
  Ok (<[v := onInterrupt]> handler).

(** The vectors the kernel uses itself through [onInterrupt]. *)
Definition kernel_vectors : list nat := [0x40; 0x41; 0x42; 0x60]%nat.

(** ** Reading descriptors *)

Ltac fields :=
  unfold get, puts; cbn [foldl fst snd]; unfold put; cbn [fst snd];
  repeat ((rewrite getf_same by lia) || (rewrite getf_other by lia)).

(** Numbers put together from their parts. *)
Lemma mod_join x a b : 0 ≤ a → 0 ≤ b → x `mod` 2 ^ a + 2 ^ a * ((x / 2 ^ a) `mod` 2 ^ b) = x `mod` 2 ^ (a + b).
Proof. intros. rewrite Z.pow_add_r by lia. rewrite Z.rem_mul_r by lia. done. Qed.
Lemma getf_mod x o w : 0 ≤ o → 0 ≤ w → getf x o w = (x / 2 ^ o) `mod` 2 ^ w.
Proof. intros. unfold getf. by rewrite Z.land_ones, Z.shiftr_div_pow2 by lia. Qed.
Lemma masked_field isr o w : 0 ≤ o → 0 ≤ w → Z.shiftr (Z.land isr (Z.shiftl (Z.ones w) o)) o = getf isr o w.
Proof.
  intros. apply Z.bits_inj'. intros i Hi. rewrite Z.shiftr_spec, Z.land_spec, Z.shiftl_spec, getf_bit by lia.
  replace (i + o - o) with i by lia. rewrite Z.testbit_ones by lia. rewrite (proj2 (Z.leb_le 0 i)) by lia. rewrite andb_comm. f_equal.
  by case_bool_decide; destruct (Z.ltb_spec i w); try lia.
Qed.

Lemma idt_entry_offset e isr type : is_u64 isr → isr_offset (idt_entry e isr type) = isr.
Proof.
  intros Hi. unfold isr_offset, idt_entry, i_base0, i_base1, i_base2, i_ss, i_ist, i_gate_type, i_dpl, i_present. fields.
  change 0xffff with (Z.shiftl (Z.ones 16) 0). rewrite <- (Z.shiftr_0_r (Z.land isr _)), masked_field by lia.
  change 0xffff0000 with (Z.shiftl (Z.ones 16) 16). change 0xffffffff00000000 with (Z.shiftl (Z.ones 32) 32).
  rewrite !masked_field, !Z.land_ones, !getf_mod by lia. rewrite !Zmod_mod, Z.div_1_r.
  rewrite mod_join by lia. change (16 + 16) with 32. rewrite mod_join by lia. by apply Z.mod_small.
Qed.

(** What a gate must look like for vector [v]: present, an interrupt gate on the first interrupt
    stack, into the kernel's code segment, at the stub of the vector. *)
Definition gate_ok (exc : nat → Z) (v : nat) (e : Z) : Prop :=
  isr_offset e = exc v ∧ get e i_present = 1 ∧ get e i_gate_type = 0xe ∧ get e i_ist = 1 ∧ get e i_ss = 8 ∧ get e i_dpl = 0.

Lemma idt_entry_ok exc v e : is_u64 (exc v) → gate_ok exc v (idt_entry e (exc v) 0xe).
Proof.
  intros Hv. split; [by apply idt_entry_offset|]. unfold idt_entry, i_base0, i_base1, i_base2, i_ss, i_ist, i_gate_type, i_dpl, i_present.
  fields. done.
Qed.

Lemma add_entries_Ok exc vs : ∀ idt, (∀ v, is_u64 (exc v)) → NoDup vs → Forall (λ v, (v < length idt)%nat) vs →
  ∃ idt', add_entries exc idt vs = Ok idt' ∧ length idt' = length idt ∧
    (∀ v, v ∈ vs → ∃ e, idt' !! v = Some e ∧ gate_ok exc v e) ∧ (∀ v, v ∉ vs → idt' !! v = idt !! v).
Proof.
  induction vs as [|v vs IH]; intros idt Hx Hn Hl.
  { exists idt. split_and!; try done. intros v Hv. by apply not_elem_of_nil in Hv. }
  apply NoDup_cons in Hn as [Hnv Hn]. apply Forall_cons in Hl as [Hv Hl]. cbn [add_entries]. unfold idt_add_entry.
  destruct (lookup_lt_is_Some_2 idt v Hv) as [e He]. rewrite He. cbn [deref mbind res_bind].
  destruct (IH (<[v := idt_entry e (exc v) 0xe]> idt) Hx Hn) as (idt' & E & Hlen & Hin & Hout); [by rewrite length_insert|].
  rewrite length_insert in Hlen. exists idt'. split_and!; [done|done| |].
  - intros u Hu. apply elem_of_cons in Hu as [->|Hu]; [|by apply Hin]. exists (idt_entry e (exc v) 0xe).
    split; [|by apply idt_entry_ok]. rewrite Hout by done. by rewrite list_lookup_insert_eq by done.
  - intros u Hu. rewrite Hout by set_solver. rewrite list_lookup_insert_ne; [done|]. set_solver.
Qed.

(** ** Properties *)

(** After [arch_idt_init], whatever the memory held before, the gate of each of the 256 vectors
    is present and leads to the stub of that vector, as an interrupt gate into the kernel's code
    segment on the interrupt stack; and all vectors are free. *)
Lemma idt_gates exc garbage s p s' : wm_alloc s 0x1000 16 = Ok (p, s') → (∀ v, is_u64 (exc v)) → length garbage = 256%nat →
  ∃ idt, arch_idt_init exc garbage s = Ok (idt, replicate 256 onInterrupt, s') ∧ length idt = 256%nat ∧
    ∀ v, (v < 256)%nat → ∃ e, idt !! v = Some e ∧ gate_ok exc v e.
Proof.
  intros Hw Hx Hg. unfold arch_idt_init. rewrite Hw. cbn [mbind res_bind].
  destruct (add_entries_Ok exc (seq 0 256) garbage Hx (NoDup_seq 0 256)) as (idt & E & Hl & Hin & _).
  { apply Forall_seq. intros j Hj. lia. }
  exists idt. rewrite E. cbn [mbind res_bind]. split_and!; [done|lia|]. intros v Hv. apply Hin, elem_of_seq. lia.
Qed.

Definition demo_exc (v : nat) : Z := 0xffffffff80100000 + 16 * Z.of_nat (v `mod` 256).
Lemma idt_gates_witness :
  ∃ p s' idt, wm_alloc pmm_demo 0x1000 16 = Ok (p, s') ∧
    arch_idt_init demo_exc (replicate 256 77) pmm_demo = Ok (idt, replicate 256 onInterrupt, s') ∧
    ∃ e, idt !! 64%nat = Some e ∧ isr_offset e = demo_exc 64.
Proof.
  assert (∀ v, is_u64 (demo_exc v)) as Hx
    by (intros v; pose proof (Nat.mod_upper_bound v 256); unfold is_uN, demo_exc; lia).
  assert (length (replicate 256 77) = 256%nat) as Hg by apply length_replicate.
  assert (∃ r, wm_alloc pmm_demo 0x1000 16 = Ok r) as [[p s'] Hw] by (eexists; vm_compute; reflexivity).
  destruct (idt_gates demo_exc (replicate 256 77) pmm_demo p s' Hw Hx Hg) as (idt & E & _ & Hgate).
  exists p, s', idt. split; [exact Hw|]. split; [exact E|].
  destruct (Hgate 64%nat) as (e & He & Ho & _); [lia|]. exists e. split; [exact He|exact Ho].
Defined.

(** The descriptor of the TSS points to it, wherever it is. *)
Lemma tss_descriptor_base e e' t : is_u64 t → tss_base (tss_low e t) (tss_high e' t) = t.
Proof.
  intros Ht. unfold tss_base, tss_low, tss_high, g_base1, g_base2, g_base3, g_access, g_dpl, g_avl, g_long_mode, g_size, g_limit_in_pages, g_limit1, g_limit2.
  fields. rewrite !Z.land_ones, !Z.shiftr_div_pow2 by lia.
  rewrite mod_join by lia. change (16 + 8) with 24. rewrite mod_join by lia. change (24 + 8) with 32. rewrite mod_join by lia. by apply Z.mod_small.
Qed.

(** The four segments as the processor documents them: flat 64-bit code and data for rings 0 and 3. *)
Example gdt_segments :
  [kernel_code; kernel_data; user_data; user_code] =
  [0x00a09a0000000000; 0x00a0920000000000; 0x00a0f20000000000; 0x00a0fa0000000000].
Proof. reflexivity. Qed.

(** The limit of the TSS, 103, is split after its fourth bit instead of its sixteenth. *)
Example tss_limit_wrong t : seg_limit (tss_low 0 t) = 0x60007.
Proof.
  unfold seg_limit, tss_low, g_base1, g_base2, g_base3, g_access, g_dpl, g_avl, g_long_mode, g_size, g_limit_in_pages, g_limit1, g_limit2.
  fields. reflexivity.
Qed.

(** *** Vectors *)

Lemma alloc_from_spec h handler n : ∀ i, (i + n ≤ length handler)%nat →
  (∃ v, alloc_from_vector handler h n i = Ok (v, <[v := h]> handler) ∧ (i ≤ v < i + n)%nat ∧ handler !! v = Some onInterrupt ∧
     ∀ u, (i ≤ u < v)%nat → handler !! u ≠ Some onInterrupt) ∨
  (alloc_from_vector handler h n i = Fatal "No free interrupt vector left" ∧ ∀ u, (i ≤ u < i + n)%nat → handler !! u ≠ Some onInterrupt).
Proof.
  induction n as [|n IH]; intros i Hl; cbn [alloc_from_vector]; [right; split; [done|]; lia|].
  destruct (lookup_lt_is_Some_2 handler i ltac:(lia)) as [x Hx]. rewrite Hx. cbn [deref mbind res_bind].
  destruct (decide (x = onInterrupt)) as [->|Hne].
  - left. exists i. split_and!; [done|lia|lia|done|]. lia.
  - destruct (IH (S i) ltac:(lia)) as [(v & E & Hv & Hf & Hlow)|[E Hno]]; [left; exists v|right].
    + split_and!; [done|lia|lia|done|]. intros u Hu. destruct (decide (u = i)) as [->|]; [rewrite Hx; congruence|]. apply Hlow. lia.
    + split; [done|]. intros u Hu. destruct (decide (u = i)) as [->|]; [rewrite Hx; congruence|]. apply Hno. lia.
Qed.

(** The search [idt_allocate_vector] takes the lowest vector from 0x21 on that is marked free, and only that
    one; giving it back restores the table; it stops exactly when no vector from 0x21 on is free. *)
Lemma vector_roundtrip handler h : length handler = 256%nat → h ≠ onInterrupt →
  (∃ v handler', idt_allocate_vector handler h = Ok (v, handler') ∧ (0x21 ≤ v < 256)%nat ∧ handler !! v = Some onInterrupt ∧
     (∀ u, (0x21 ≤ u < v)%nat → handler !! u ≠ Some onInterrupt) ∧ handler' !! v = Some h ∧
     (∀ u, u ≠ v → handler' !! u = handler !! u) ∧ idt_deallocate_vector handler' v = Ok handler) ∨
  (idt_allocate_vector handler h = Fatal "No free interrupt vector left" ∧ ∀ u, (0x21 ≤ u < 256)%nat → handler !! u ≠ Some onInterrupt).
Proof.
  intros Hl Hh. unfold idt_allocate_vector. destruct (alloc_from_spec h handler (256 - 0x21) 0x21 ltac:(lia)) as [(v & E & Hv & Hf & Hlow)|[E Hno]].
  - left. exists v, (<[v := h]> handler). split_and!; [done|lia|lia|done|done|by rewrite list_lookup_insert_eq by lia| |].
    + intros u Hu. by rewrite list_lookup_insert_ne.
    + unfold idt_deallocate_vector. rewrite list_lookup_insert_eq by lia. cbn [deref mbind res_bind].
      rewrite bool_decide_eq_true_2 by done. cbn. f_equal. rewrite list_insert_insert_eq. by apply list_insert_id.
  - right. split; [done|]. intros u Hu. apply Hno. lia.
Qed.

Lemma vector_roundtrip_witness :
  idt_allocate_vector (replicate 256 onInterrupt) (Handler 5) = Ok (0x21%nat, <[0x21%nat := Handler 5]> (replicate 256 onInterrupt)) ∧
  ∃ v handler', idt_allocate_vector (replicate 256 onInterrupt) (Handler 5) = Ok (v, handler') ∧
    idt_deallocate_vector handler' v = Ok (replicate 256 onInterrupt).
Proof.
  split; [reflexivity|].
  destruct (vector_roundtrip (replicate 256 onInterrupt) (Handler 5)) as [(v & handler' & E & _ & _ & _ & _ & _ & D)|[E _]];
    [reflexivity|discriminate|exists v, handler'; split; [exact E|exact D]|discriminate E].
Defined.

(** The kernel's own vectors are marked free as well, so the 32nd allocation gets the timer's. *)
Fixpoint allocs (n : nat) (handler : list isr) : res (nat * list isr) :=
  match n with
  | O => idt_allocate_vector handler (Handler 0)
  | S n => '(_, handler) ← idt_allocate_vector handler (Handler 0); allocs n handler
  end.
Example vector_of_timer : fst <$> (match allocs 31 (replicate 256 onInterrupt) with Ok r => Some r | _ => None end) = Some 0x40%nat.
Proof. vm_compute. reflexivity. Qed.
