(* ===== verification/Interrupts.v ===== *)
(** The interrupt handler of the kernel ([onInterrupt] of [arch/amd64/idt.cc]): the pages of the heap
    window come into being on the first access, and the timer drives the periodic work.

    The routines the timer starts are listed in the order of their calls; they are modelled by their
    own components ([Heap.check_all], [Input], [Sched]).  Of [sched_tick] this file has what the handler depends on: when
    it switches tasks it acknowledges the interrupt itself and does not return ([arch_cpu_state_load]).  A processor that
    stops is [Fatal] or [Hang]. *)
From S2P Require Import Prelude Arith Bitmap Pmm Paging PagingArea.

(** ** Definitions *)

Record timer_task := mkTimer { period : Z; routine : nat }.
(** What the handler calls. *)
Inductive call := CheckAll | Routine (n : nat) | KbdRepeat | SchedTick (force eoi : bool) | Eoi.
#[global] Instance call_eq_dec : EqDecision call.
Proof. solve_decision. Defined.

Record intr := mkIntr { servicing : Z; tmr_counter : Z; timer_tasks : list timer_task;
  kbd_repeat : Z; kbd_delay : Z; kbd_lastpressed_time : Z; ipg : paging; running : bool (* sched_running *) }.
Definition with_servicing (s : intr) (v : Z) : intr :=
  mkIntr v (tmr_counter s) (timer_tasks s) (kbd_repeat s) (kbd_delay s) (kbd_lastpressed_time s) (ipg s) (running s).
Definition with_counter (s : intr) (v : Z) : intr :=
  mkIntr (servicing s) v (timer_tasks s) (kbd_repeat s) (kbd_delay s) (kbd_lastpressed_time s) (ipg s) (running s).
Definition with_paging (s : intr) (v : paging) : intr :=
  mkIntr (servicing s) (tmr_counter s) (timer_tasks s) (kbd_repeat s) (kbd_delay s) (kbd_lastpressed_time s) v (running s).

Definition VMM_REDZONE_CHECK_PERIOD : Z := 30.
Definition SCHED_QUANTUM : Z := 100.

(** An exception is being served and another one comes: the page fault may nest. *)
Definition nested (servicing exc : Z) : bool :=
  (servicing <? 32) && negb (servicing =? 0xe) && negb (servicing =? 0) && ((exc <? 32) && negb (exc =? 0xe)).

(** A fault in the heap window gets a page. *)
Definition in_window (cr2 : Z) : bool := Z.shiftr cr2 40 =? 0xffff90.
Definition heap_fault (pml4 cr2 : Z) (s : paging) : res paging :=
  '(addr, s) ← new_frame s;
  assert_ (negb (addr =? NPOS)) "addr != -1ull";;
  map_page s pml4 cr2 (PHYSICAL addr) KDATA WB.

(** The calls of one tick, in order, with the counter already advanced; a period of 0 divides by it. *)
Fixpoint due (t : Z) (tasks : list timer_task) : res (list call) :=
  match tasks with
  | [] => Ok []
  | x :: tasks =>
      if period x =? 0 then Fault else
      l ← due t tasks;
      Ok (if t `mod` period x =? 0 then Routine (routine x) :: l else l)
  end.
(** [sched_tick(frame, force, eoi)]: what it calls, and whether it comes back. *)
Definition sched_calls (s : intr) (force eoi : bool) : list call * bool :=
  if negb (running s) && negb force then ([SchedTick force eoi], true)
  else (SchedTick force eoi :: (if eoi then [Eoi] else []), false).
Definition tick_calls (s : intr) (t : Z) : res (list call) :=
  tasks ← due t (timer_tasks s);
  if kbd_repeat s =? 0 then Fault else
  Ok ((if t `mod` VMM_REDZONE_CHECK_PERIOD =? 0 then [CheckAll] else []) ++ tasks ++
      (if (t `mod` kbd_repeat s =? 0) && (u64 (kbd_lastpressed_time s + kbd_delay s) <? t) then [KbdRepeat] else []) ++
      (if t `mod` SCHED_QUANTUM =? 0 then
         let '(l, returns) := sched_calls s false true in l ++ (if (returns : bool) then [Eoi] else [])
       else [Eoi])).

Definition onInterrupt (pml4 exc cr2 : Z) (s : intr) : res (list call * intr) :=
  if nested (servicing s) exc then Hang else
  let s := with_servicing s (u32 exc) in
  '(l, s) ←
    (if (exc =? 0xe) && in_window cr2 then p ← heap_fault pml4 cr2 (ipg s); Ok ([], with_paging s p)
     else if exc =? 0x40 then
       let t := u64 (tmr_counter s + 1) in
       l ← tick_calls s t; Ok (l, with_counter s t)
     else if exc =? 0x41 then Ok ((sched_calls s true false).1, s)
     else if (exc =? 0x42) || (exc =? 0x60) then Ok ([Eoi], s)
     else Fatal "EXCEPTION");
  Ok (l, with_servicing s 0).

(** A number of timer interrupts, and all the calls they make. *)
Fixpoint ticks (pml4 : Z) (n : nat) (s : intr) : res (list call * intr) :=
  match n with
  | O => Ok ([], s)
  | S n => '(l, s) ← onInterrupt pml4 0x40 0 s; '(l', s) ← ticks pml4 n s; Ok (l ++ l', s)
  end.

(** ** Counting calls *)

Fixpoint count (c : call) (l : list call) : Z :=
  match l with [] => 0 | x :: l => (if bool_decide (x = c) then 1 else 0) + count c l end.
Lemma count_app c l l' : count c (l ++ l') = count c l + count c l'.
Proof. induction l as [|x l IH]; [done|]. cbn [count app]. rewrite IH. lia. Qed.

(** A multiple of the period is passed exactly when the division steps. *)
Lemma div_step c p : 0 < p → (c + 1) / p - c / p = if (c + 1) `mod` p =? 0 then 1 else 0.
Proof.
  intros Hp. pose proof (Z.div_mod c p ltac:(lia)) as H1. pose proof (Z.mod_pos_bound c p Hp) as H2.
  pose proof (Z.div_mod (c + 1) p ltac:(lia)) as H3. pose proof (Z.mod_pos_bound (c + 1) p Hp) as H4.
  destruct (Z.eqb_spec ((c + 1) `mod` p) 0) as [E|E].
  - assert (p * ((c + 1) / p) = p * (c / p) + c `mod` p + 1) by lia. nia.
  - assert (p * ((c + 1) / p) - p * (c / p) = c `mod` p + 1 - (c + 1) `mod` p) as H5 by lia.
    rewrite <- Z.mul_sub_distr_l in H5. nia.
Qed.

Section Timer.
Context (tasks : list timer_task) (Hpos : Forall (λ x, 0 < period x) tasks) (Huniq : NoDup (map routine tasks)).

Lemma due_Ok t : ∃ l, due t tasks = Ok l ∧ (∀ c, (∀ n, c ≠ Routine n) → count c l = 0) ∧
  (∀ n, n ∉ map routine tasks → count (Routine n) l = 0) ∧
  (∀ x, x ∈ tasks → count (Routine (routine x)) l = if t `mod` period x =? 0 then 1 else 0).
Proof using Hpos Huniq.
  induction tasks as [|y ts IH].
  { exists []. split_and!; try done. intros x Hx. by apply not_elem_of_nil in Hx. }
  apply Forall_cons in Hpos as [Hy Hts]. cbn [map] in Huniq. apply NoDup_cons in Huniq as [Hny Hn].
  destruct (IH Hts Hn) as (l & E & H1 & H2 & H3). cbn [due]. rewrite (proj2 (Z.eqb_neq _ 0)), E by lia. cbn [mbind res_bind].
  eexists. split; [done|]. assert (∀ c, count c (if t `mod` period y =? 0 then Routine (routine y) :: l else l) =
    (if (t `mod` period y =? 0) && bool_decide (Routine (routine y) = c) then 1 else 0) + count c l) as Hc.
  { intros c. destruct (t `mod` period y =? 0); [done|]. by rewrite Z.add_0_l. }
  split_and!.
  - intros c Hr. rewrite Hc, H1 by done. rewrite bool_decide_eq_false_2 by (intros <-; by eapply Hr). by rewrite andb_false_r.
  - intros n Hnn. cbn [map] in Hnn. rewrite Hc, H2 by set_solver. rewrite bool_decide_eq_false_2 by (intros [= <-]; set_solver). by rewrite andb_false_r.
  - intros x Hx. rewrite Hc. apply elem_of_cons in Hx as [->|Hx].
    + rewrite bool_decide_eq_true_2, H2 by done. rewrite andb_true_r. lia.
    + rewrite H3 by done. rewrite bool_decide_eq_false_2; [by rewrite andb_false_r|]. intros [= E']. apply Hny. rewrite E'.
      by apply list_elem_of_fmap_2.
Qed.

(** The calls of one tick at the time [t]. *)
Record tick_ok (t : Z) (l : list call) : Prop := {
  tk_check : count CheckAll l = if t `mod` 30 =? 0 then 1 else 0;
  tk_sched : count (SchedTick false true) l = if t `mod` 100 =? 0 then 1 else 0;
  tk_eoi : count Eoi l = 1;
  tk_tasks : ∀ x, x ∈ tasks → count (Routine (routine x)) l = if t `mod` period x =? 0 then 1 else 0 }.

Lemma tick_calls_Ok s t : timer_tasks s = tasks → 0 < kbd_repeat s → ∃ l, tick_calls s t = Ok l ∧ tick_ok t l.
Proof using Hpos Huniq.
  intros Ht Hk. unfold tick_calls. rewrite Ht. destruct (due_Ok t) as (l & -> & H1 & H2 & H3). cbn [mbind res_bind].
  rewrite (proj2 (Z.eqb_neq _ 0)) by lia. eexists. split; [done|].
  split; [..|intros x Hx]; rewrite !count_app, ?H1, ?H3 by (done || by intros);
    unfold VMM_REDZONE_CHECK_PERIOD, SCHED_QUANTUM, sched_calls; destruct (running s); destruct (_ && (_ <? _)); cbn [negb andb app]; destruct (t `mod` 30 =? 0), (t `mod` 100 =? 0);
    cbn [count]; repeat case_bool_decide; simplify_eq; lia.
Qed.

(** C38: over any number of timer interrupts every task runs once per period, the scheduler is called once every
    100 and the heap check once every 30 ticks, by the multiples of the period the counter passes,
    and every interrupt is acknowledged exactly once: by the scheduler when it switches tasks and does not come back,
    by the handler otherwise. *)
Theorem timer_periods pml4 n : ∀ s, timer_tasks s = tasks → 0 < kbd_repeat s → 0 ≤ tmr_counter s → tmr_counter s + Z.of_nat n < 2 ^ 64 →
  let c := tmr_counter s in let c' := c + Z.of_nat n in
  ∃ l s', ticks pml4 n s = Ok (l, s') ∧ tmr_counter s' = c' ∧ timer_tasks s' = tasks ∧
    count (SchedTick false true) l = c' / 100 - c / 100 ∧ count CheckAll l = c' / 30 - c / 30 ∧ count Eoi l = Z.of_nat n ∧
    ∀ x, x ∈ tasks → count (Routine (routine x)) l = c' / period x - c / period x.
Proof using Hpos Huniq.
  induction n as [|n IH]; intros s Ht Hk Hc Hn; cbn zeta.
  { exists [], s. rewrite Z.add_0_r, !Z.sub_diag. split_and!; try done. intros x _. by rewrite Z.sub_diag. }
  cbn [ticks]. assert (onInterrupt pml4 0x40 0 s = '(l, s1) ← (l ← tick_calls s (tmr_counter s + 1); Ok (l, with_counter (with_servicing s 0x40) (tmr_counter s + 1)));
    Ok (l, with_servicing s1 0)) as ->.
  { unfold onInterrupt. assert (nested (servicing s) 0x40 = false) as -> by apply andb_false_r.
    cbn zeta. change ((0x40 =? 0xe) && in_window 0) with false. change (0x40 =? 0x40) with true. cbn iota. cbn [tmr_counter with_servicing].
    rewrite (uN_small 64 (tmr_counter s + 1)) by (unfold is_uN; lia). reflexivity. }
  destruct (tick_calls_Ok s (tmr_counter s + 1) Ht Hk) as (l1 & -> & [T1 T2 T3 T4]). cbn [mbind res_bind].
  destruct (IH (with_servicing (with_counter (with_servicing s 0x40) (tmr_counter s + 1)) 0)) as (l2 & s2 & -> & C2 & E2 & D1 & D2 & D3 & D4);
    [done|done|cbn; lia|cbn; lia|]. cbn [mbind res_bind tmr_counter with_servicing with_counter] in *.
  replace (tmr_counter s + 1 + Z.of_nat n) with (tmr_counter s + Z.of_nat (S n)) in * by lia.
  exists (l1 ++ l2), s2. rewrite !count_app, T1, T2, T3, D1, D2, D3, <- !div_step by lia. split_and!; try done; try lia.
  intros x Hx. pose proof (proj1 (Forall_forall _ _) Hpos x Hx) as Hpx. cbn beta in Hpx. rewrite count_app, T4, D4, <- div_step by done. lia.
Qed.
End Timer.

Definition demo_tasks : list timer_task := [mkTimer 7 0; mkTimer 50 1].
Definition demo_intr : intr := mkIntr 0 995 demo_tasks 45 175 0 boot_tables true.
Lemma timer_periods_witness :
  ∃ l s', ticks root0 10 demo_intr = Ok (l, s') ∧ count (SchedTick false true) l = 1 ∧ count (Routine 0) l = 1 ∧ count CheckAll l = 0.
Proof.
  assert (Forall (λ x, 0 < period x) demo_tasks) as Hp by (repeat constructor; cbn; lia).
  assert (NoDup (map routine demo_tasks)) as Hn by (apply NoDup_cons; split; [cbn; intros H; apply elem_of_cons in H as [H|H]; [discriminate|exact (not_elem_of_nil _ H)]|apply NoDup_singleton]).
  destruct (timer_periods demo_tasks Hp Hn root0 10 demo_intr eq_refl) as (l & s' & E & _ & _ & H1 & H2 & _ & H3);
    [cbn; lia|cbn; lia|cbn; lia|]. exists l, s'. split; [exact E|].
  rewrite H1, H2. specialize (H3 (mkTimer 7 0) ltac:(left)). cbn [routine] in H3. rewrite H3. vm_compute. repeat split.
Defined.

(** ** The heap window *)

(** The frame comes from the bitmap of free pages. *)
Lemma new_frame_fresh s p s' : pmm_ok (Paging.mem s) → 0 ≤ p < 2 ^ 34 → new_frame s = Ok (VIRTUAL (4096 * p), s') →
  bit (pmm_bm (Paging.mem s)) p = false ∧ ∀ q, 0 ≤ q → bit (pmm_bm (Paging.mem s')) q = bool_decide (q = p) || bit (pmm_bm (Paging.mem s)) q.
Proof.
  intros Hok Hp E. unfold new_frame in E. apply bind_Ok in E as ([a m] & E & H). assert (a = VIRTUAL (4096 * p) ∧ s' = mkPaging (tabs s) m) as [-> ->] by (split; congruence).
  destruct (pmm_alloc_inv (Paging.mem s) PMM_PAGESIZE p m Hok) as (_ & _ & Hf & Hm); [unfold PMM_PAGESIZE, P4K; lia|done|done|].
  change (pages PMM_PAGESIZE) with 1 in *. split; [apply Hf; lia|]. intros q Hq. cbn [Paging.mem]. rewrite (marks_bit _ _ _ _ Hm) by done. f_equal. apply bool_decide_ext. lia.
Qed.

(** C39: the first access to a page of the heap window ends with that page mapped to a frame that was free in the page
    allocator's bitmap and is now the only one marked in addition, so that no frame in use is given away; translations that
    existed stay, and no other interrupt work is done.  When there is no free frame, or no room for a page table, the
    processor stops with the allocator's message. *)
Theorem heap_fault_maps pml4 e s cr2 : space_ok pml4 e (ADDR_PML4I cr2) (ipg s) → nested (servicing s) 0xe = false → is_u64 cr2 →
  in_window cr2 = true → look (ipg s) pml4 [] (ixs cr2) cr2 = Ok NPOS →
  onInterrupt pml4 0xe cr2 s = Fatal "PMM failed to allocate" ∨
  onInterrupt pml4 0xe cr2 s = Fatal "Watermark allocator out of memory!" ∨
  ∃ s' p, onInterrupt pml4 0xe cr2 s = Ok ([], s') ∧ servicing s' = 0 ∧ 0 ≤ p ∧
    bit (pmm_bm (Paging.mem (ipg s))) p = false ∧
    (∀ q, 0 ≤ q → bit (pmm_bm (Paging.mem (ipg s'))) q = bool_decide (q = p) || bit (pmm_bm (Paging.mem (ipg s))) q) ∧
    (∀ w, w / 4096 = cr2 / 4096 → paging_lookup (ipg s') pml4 w = Ok (4096 * p + w `mod` 4096)) ∧ keeps_live pml4 (ipg s) (ipg s').
Proof.
  intros Hs Hn Hu Hw Hl. unfold onInterrupt. rewrite Hn, Hw. change ((0xe =? 0xe) && true) with true. cbn iota zeta. cbn [ipg with_servicing].
  unfold heap_fault. destruct (new_frame_Ok pml4 e _ (ipg s) Hs) as [->|(p & s1 & E1 & Hp & Hs1 & Hl1)]; [by left|]. rewrite E1. cbn [mbind res_bind]. right.
  assert (pmm_ok (Paging.mem (ipg s))) as Hok by (by destruct Hs as (? & _ & _ & ?)). destruct (new_frame_fresh _ _ _ Hok Hp E1) as [Hfree Hbits].
  pose proof (VIRTUAL_add (4096 * p) ltac:(lia)) as Hv. rewrite (proj2 (Z.eqb_neq _ NPOS)) by (rewrite Hv; unfold HHDM, NPOS; lia).
  cbn [negb assert_ mbind res_bind]. rewrite PHYSICAL_VIRTUAL by lia.
  destruct (map_free_page pml4 e _ s1 cr2 (4096 * p) KDATA WB Hs1 Hu eq_refl) as [->|(s2 & E2 & Hs2 & Hk2 & Hm)];
    [by rewrite Hl1|lia|done..|by left|]. rewrite E2. cbn [mbind res_bind]. right. eexists _, p. split; [done|]. cbn [servicing ipg with_servicing with_paging].
  destruct (map_page_frames _ _ _ _ _ _ _ E2) as [-> _]. split_and!; [done|lia|done|done| |].
  - intros w Hw'. pose proof (Hm w Hw') as Hlk. rewrite lookup_look, Hlk by (by eapply look_no_1g). rewrite page_of_div by lia.
    change (2 ^ 12) with 4096. rewrite (Z.mul_comm 4096 p), Z.div_mul by lia. done.
  - intros w v Hwv. apply Hk2. by rewrite Hl1.
Qed.

Lemma heap_fault_maps_witness :
  ∃ s', onInterrupt root0 0xe 0xffff900000001234 demo_intr = Ok ([], s') ∧ paging_lookup (ipg s') root0 0xffff900000001fff = Ok 0x1fff.
Proof.
  destruct (heap_fault_maps root0 _ demo_intr 0xffff900000001234 (boot_space _)) as [E|[E|(s' & p & E & _)]];
    [reflexivity|unfold is_uN; lia|reflexivity|vm_compute; reflexivity| | |].
  - exfalso. assert (is_Ok (onInterrupt root0 0xe 0xffff900000001234 demo_intr) = true) as H by (vm_compute; reflexivity).
    rewrite E in H. discriminate H.
  - exfalso. assert (is_Ok (onInterrupt root0 0xe 0xffff900000001234 demo_intr) = true) as H by (vm_compute; reflexivity).
    rewrite E in H. discriminate H.
  - exists s'. split; [exact E|].
    assert (match onInterrupt root0 0xe 0xffff900000001234 demo_intr with
            | Ok (_, s) => paging_lookup (ipg s) root0 0xffff900000001fff | _ => Fault end = Ok 0x1fff) as H by (vm_compute; reflexivity).
    rewrite E in H. exact H.
Defined.
