(* ===== verification/Apic.v ===== *)
(** The interrupt controllers ([arch/amd64/apic.cc], [apic.hh]): the registers of the I/O APICs, the
    routing of interrupts, and the MADT that describes them.

    An I/O APIC is a select register and the registers behind it, at its address; the MADT is the
    list of its bytes. *)
From S2P Require Import Prelude Arith Bitmap Pmm Paging Msd Elf Descriptors.

(** ** Registers *)

Record ioapic_t := mkIoapic { addr : Z; gsi_base : Z }.
(** The chips: at each address what is selected, and the 32-bit registers. *)
Record chips := mkChips { sel : Z → Z; reg : Z → Z → Z }.
Definition select (h : chips) (a v : Z) : chips := mkChips (λ x, if x =? a then v else sel h x) (reg h).
Definition data_get (h : chips) (a : Z) : Z := reg h a (sel h a).
Definition data_put (h : chips) (a v : Z) : chips :=
  mkChips (sel h) (λ x r, if (x =? a) && (r =? sel h a) then u32 v else reg h x r).

(** [ioapic_register_t]: whether it is 64 bits wide. *)
Record ioapic_register_t := mkReg { offset : Z; wide : bool }.
Definition irq_register (irq : Z) : ioapic_register_t := mkReg (u8 (0x10 + u8 irq * 2)) true.
Definition VER : ioapic_register_t := mkReg 0x01 false.

Definition io_read (i : ioapic_t) (r : ioapic_register_t) (h : chips) : Z * chips :=
  let h := select h (addr i) (offset r) in
  let ret := data_get h (addr i) in
  if wide r then
    let h := select h (addr i) (offset r + 1) in
    (Z.lor ret (Z.shiftl (data_get h (addr i)) 32), h)
  else (ret, h).
Definition io_write (i : ioapic_t) (r : ioapic_register_t) (val : Z) (h : chips) : chips :=
  let h := select h (addr i) (offset r) in
  let h := data_put h (addr i) val in
  if wide r then
    let h := select h (addr i) (offset r + 1) in
    data_put h (addr i) (Z.land (Z.shiftr val 32) 0xffffffff)
  else h.

(** ** Routing *)

Definition e_vector : Z * Z := (0, 8).
Definition e_delivmode : Z * Z := (8, 3).
Definition e_logicaldest : Z * Z := (11, 1).
Definition e_delivered : Z * Z := (12, 1).
Definition e_activelow : Z * Z := (13, 1).
Definition e_remoteirr : Z * Z := (14, 1).
Definition e_lvl_triggered : Z * Z := (15, 1).
Definition e_mask : Z * Z := (16, 1).
Definition e_destination : Z * Z := (56, 8).
Definition FIXED : Z := 0.

Definition bestmatch (l : list ioapic_t) (gsi : Z) : res ioapic_t :=
  assert_ (negb (zlen l =? 0)) "ioapics.size";;
  match List.find (λ i, (gsi_base i <=? gsi) && (u32 (gsi - gsi_base i) <? 24)) l with
  | Some i => Ok i
  | None => Fatal "No matching IOAPIC found for GSI"
  end.

(** The entry: physical destination, masked. *)
Definition redirection (vector delivmode dest : Z) (activelow lvl_trig : bool) : Z :=
  puts 0 [(e_vector, vector); (e_delivmode, delivmode); (e_logicaldest, 0); (e_delivered, 0); (e_activelow, Z.b2z activelow);
          (e_remoteirr, 0); (e_lvl_triggered, Z.b2z lvl_trig); (e_mask, 1); (e_destination, dest)].
Definition arch_ioapic_initialize_gsi (l : list ioapic_t) (gsi vector delivmode dest : Z) (activelow lvl_trig : bool) (h : chips) : res chips :=
  i ← bestmatch l gsi; Ok (io_write i (irq_register gsi) (redirection vector delivmode dest activelow lvl_trig) h).
Definition arch_ioapic_mask_gsi (l : list ioapic_t) (gsi : Z) (mask : bool) (h : chips) : res chips :=
  t ← bestmatch l gsi;
  let '(q, h) := io_read t (irq_register gsi) h in
  Ok (io_write t (irq_register gsi) (put q e_mask (Z.b2z mask)) h).

Fixpoint disable_regs (ioa : ioapic_t) (n : nat) (i : Z) (h : chips) : chips :=
  match n with
  | O => h
  | S n =>
      let '(q, h) := io_read ioa (irq_register i) h in
      disable_regs ioa n (i + 1) (io_write ioa (irq_register i) (put q e_mask 1) h)
  end.
Definition arch_ioapic_disable_all (l : list ioapic_t) (h : chips) : chips := foldl (λ h ioa, disable_regs ioa 24 0 h) h l.

(** ** The MADT *)

Record ioapic_redir := mkRedir { gsi : Z; activelow : bool; lvltrig : bool }.
Record lapic_t := mkLapic { apic_id : Z; acpi_id : Z; up : bool }.
Record apic := mkApic { ioapics : list ioapic_t; cpus : list lapic_t; redirection_table : list ioapic_redir; lapic_base : Z; apg : paging }.
Definition redirection_init : list ioapic_redir :=
  map (λ i, mkRedir (Z.of_nat i) (i =? 9)%nat (i =? 9)%nat) (seq 0 16).

(** [redirection_table[irq]]: the check of [Array] lets the index one past the end through. *)
Definition redir_at (t : list ioapic_redir) (irq : Z) : res ioapic_redir :=
  if 16 <? irq then Fatal "array<> access out of bounds!" else deref (zlookup t irq).
Definition arch_ioapic_initialize_irq (s : apic) (irq vector delivmode dest : Z) (h : chips) : res chips :=
  r ← redir_at (redirection_table s) irq;
  arch_ioapic_initialize_gsi (ioapics s) (gsi r) vector delivmode dest (activelow r) (lvltrig r) h.
Definition arch_ioapic_mask_irq (s : apic) (irq : Z) (mask : bool) (h : chips) : res chips :=
  r ← redir_at (redirection_table s) irq; arch_ioapic_mask_gsi (ioapics s) (gsi r) mask h.

Section Madt.
Context (pml4 : Z).

Definition add_ioapic (a base : Z) (s : apic) : res apic :=
  p ← map_page (apg s) pml4 (VIRTUAL a) a KDATA UC;
  Ok (mkApic (ioapics s ++ [mkIoapic (VIRTUAL a) base]) (cpus s) (redirection_table s) (lapic_base s) p).
(** The entry of the table at offset [o]; its length moves the loop on. *)
Definition madt_entry (m : list Z) (o : Z) (s : apic) : res (Z * apic) :=
  type ← rd m o 1;
  s ← (if type =? 0 then
         acpi ← rd m (o + 2) 1; id ← rd m (o + 3) 1;
         Ok (if id =? 0 then s else
             mkApic (ioapics s) (cpus s ++ [mkLapic id acpi false]) (redirection_table s) (lapic_base s) (apg s))
       else if type =? 1 then
         a ← rd m (o + 4) 4; base ← rd m (o + 8) 4; add_ioapic a base s
       else if type =? 2 then
         irq ← rd m (o + 3) 1; g ← rd m (o + 4) 4; flags ← rd m (o + 8) 2;
         redir_at (redirection_table s) irq;;
         Ok (mkApic (ioapics s) (cpus s)
               (zinsert (redirection_table s) irq (mkRedir g (Z.testbit flags 1) (Z.testbit flags 3))) (lapic_base s) (apg s))
       else if type =? 5 then
         a ← rd m (o + 4) 8; Ok (mkApic (ioapics s) (cpus s) (redirection_table s) a (apg s))
       else Ok s);
  len ← rd m (o + 1) 1;
  Ok (len, s).
(** An entry of length 0 is read for ever; [length] is the length the table's header gives. *)
Fixpoint madt_entries (fuel : nat) (m : list Z) (length off : Z) (s : apic) : res apic :=
  if length <=? 44 + off then Ok s else
  match fuel with
  | O => NoFuel
  | S fuel =>
      '(len, s) ← madt_entry m (44 + off) s;
      if len =? 0 then Hang else madt_entries fuel m length (u32 (off + len)) s
  end.

(** The local APIC of the running processor: its registers. *)
Definition lapic_SIV : Z := 0xf0.
Definition lapic_EOI : Z := 0xb0.
Definition lapic_write (r val : Z) (l : Z → Z) : Z → Z := λ x, if x =? r then u32 val else l x.
Definition lapic_read (r : Z) (l : Z → Z) : Z := l r.
Definition arch_lapic_eoi (l : Z → Z) : Z → Z := lapic_write lapic_EOI 0 l.

(** With [IOAPIC_FIX]: one at the usual address is used when the table names none. *)
Definition ioapic_fix (s : apic) (h : chips) : res (apic * chips) :=
  match ioapics s with
  | _ :: _ => Ok (s, h)
  | [] =>
      s ← add_ioapic 0xfec00000 0 s;
      let '(ver, h) := io_read (mkIoapic (VIRTUAL 0xfec00000) 0) VER h in
      if Z.land (Z.shiftr ver 16) 0xff =? 0 then Fatal "Nincs IOAPIC!" else Ok (s, h)
  end.
Fixpoint mark_up (id : Z) (l : list lapic_t) : list lapic_t :=
  match l with [] => [] | c :: l => if apic_id c =? id then mkLapic (apic_id c) (acpi_id c) true :: l else c :: mark_up id l end.

(** [arch_parse_madt] up to the start of the other processors; [bspid] is what the processor says. *)
Definition arch_parse_madt (bspid : Z) (m : list Z) (s : apic) (h : chips) (l : Z → Z) : res (apic * chips * (Z → Z)) :=
  length ← rd m 4 4;
  s ← madt_entries (S (Z.to_nat length)) m length 0 s;
  '(s, h) ← ioapic_fix s h;
  p ← map_page (apg s) pml4 (VIRTUAL (lapic_base s)) (lapic_base s) KDATA UC;
  let l := lapic_write lapic_SIV (Z.lor (lapic_read lapic_SIV l) 0x100) l in
  let s := mkApic (ioapics s) (mark_up bspid (cpus s)) (redirection_table s) (VIRTUAL (lapic_base s)) p in
  h ← arch_ioapic_initialize_irq s 0 0x40 FIXED bspid h;
  h ← arch_ioapic_mask_irq s 0 false h;
  assert_ (bspid =? 0) "cpuid_xapic_id() == 0";;
  Ok (s, h, l).
End Madt.

(** [ap_init]: a processor that has come up reports itself. *)
Definition ap_up (lapic_id : Z) (l : list lapic_t) : list lapic_t :=
  map (λ c, if apic_id c =? lapic_id then mkLapic (apic_id c) (acpi_id c) true else c) l.

(** ** Reading and writing entries *)

Lemma io_write_wide i o v h a r : reg (io_write i (mkReg o true) v h) a r =
  if (a =? addr i) && (r =? o + 1) then u32 (Z.land (Z.shiftr v 32) 0xffffffff)
  else if (a =? addr i) && (r =? o) then u32 v else reg h a r.
Proof.
  unfold io_write, select, data_put. cbn [reg sel addr offset wide]. rewrite Z.eqb_refl. done.
Qed.
Lemma io_read_wide i o h : io_read i (mkReg o true) h =
  (Z.lor (reg h (addr i) o) (Z.shiftl (reg h (addr i) (o + 1)) 32), select (select h (addr i) o) (addr i) (o + 1)).
Proof. unfold io_read, select, data_get. cbn [reg sel addr offset wide]. by rewrite Z.eqb_refl. Qed.

Lemma halves v : is_u64 v → Z.lor (u32 v) (Z.shiftl (u32 (Z.land (Z.shiftr v 32) 0xffffffff)) 32) = v.
Proof.
  intros Hv. apply Z.bits_inj'. intros i Hi. change 0xffffffff with (Z.ones 32). rewrite Z.lor_spec, uN_testbit by lia.
  destruct (decide (32 ≤ i)).
  - rewrite Z.shiftl_spec, uN_testbit, Z.land_spec, Z.shiftr_spec, Z.testbit_ones_nonneg by lia. replace (i - 32 + 32) with i by lia.
    rewrite (bool_decide_eq_false_2 (i < 32)) by lia. cbn [andb orb]. case_bool_decide.
    + rewrite (proj2 (Z.ltb_lt (i - 32) 32)) by lia. by rewrite andb_true_r.
    + symmetry. apply (is_uN_high 64); [done|lia|lia].
  - rewrite Z.shiftl_spec_low by lia. rewrite bool_decide_eq_true_2 by lia. by rewrite orb_false_r.
Qed.

Lemma read_written i o v h : is_u64 v → (io_read i (mkReg o true) (io_write i (mkReg o true) v h)).1 = v.
Proof.
  intros Hv. rewrite io_read_wide. cbn [fst]. rewrite !io_write_wide, Z.eqb_refl. cbn [andb].
  rewrite (proj2 (Z.eqb_neq o (o + 1))), !Z.eqb_refl by lia. by apply halves.
Qed.

Lemma is_u64_setf x o w v : is_u64 x → 0 ≤ o → 0 ≤ w → o + w ≤ 64 → is_u64 (setf x o w v).
Proof.
  intros Hx Ho Hw H. apply is_uN_testbit; [lia| |].
  - apply Z.bits_iff_nonneg_ex. exists 64. intros i Hi. rewrite setf_bit, bool_decide_eq_false_2 by lia. apply (is_uN_high 64); [done|lia|lia].
  - intros i Hi. rewrite setf_bit, bool_decide_eq_false_2 by lia. apply (is_uN_high 64); [done|lia|lia].
Qed.
Lemma redirection_u64 vector mode dest al lvl : is_u64 (redirection vector mode dest al lvl).
Proof. unfold redirection, puts. cbn [foldl fst snd]. unfold put. cbn [fst snd]. repeat apply is_u64_setf; cbn; try lia. unfold is_uN. lia. Qed.

Ltac entry_fields := unfold redirection, e_vector, e_delivmode, e_logicaldest, e_delivered, e_activelow, e_remoteirr, e_lvl_triggered, e_mask, e_destination; fields.

(** ** Properties *)

(** Setting up a global interrupt and unmasking it leaves, in the register of that interrupt, the
    vector, delivery mode, destination, polarity and trigger asked for, unmasked and to a physical
    destination, and changes no other register of any I/O APIC. *)
Lemma ioapic_route l g i vector mode dest al lvl h : bestmatch l g = Ok i → 0 ≤ g < 120 → is_u8 vector → 0 ≤ mode < 8 → is_u8 dest →
  ∃ h1 h2, arch_ioapic_initialize_gsi l g vector mode dest al lvl h = Ok h1 ∧ arch_ioapic_mask_gsi l g false h1 = Ok h2 ∧
    (let q := (io_read i (irq_register g) h2).1 in
     get q e_vector = vector ∧ get q e_delivmode = mode ∧ get q e_destination = dest ∧ get q e_activelow = Z.b2z al ∧
     get q e_lvl_triggered = Z.b2z lvl ∧ get q e_mask = 0 ∧ get q e_logicaldest = 0) ∧
    (∀ a r, a ≠ addr i ∨ (r ≠ 0x10 + 2 * g ∧ r ≠ 0x11 + 2 * g) → reg h2 a r = reg h a r).
Proof.
  intros Hb Hg Hv Hm Hd. unfold arch_ioapic_initialize_gsi, arch_ioapic_mask_gsi. rewrite Hb. cbn [mbind res_bind].
  assert (irq_register g = mkReg (0x10 + 2 * g) true) as ->.
  { unfold irq_register. rewrite (uN_small 8 g), uN_small by (unfold is_uN; lia). f_equal. lia. }
  set (v := redirection vector mode dest al lvl).
  destruct (io_read i (mkReg (0x10 + 2 * g) true) (io_write i (mkReg (0x10 + 2 * g) true) v h)) as [q h'] eqn:E. pose proof (read_written i (0x10 + 2 * g) v h (redirection_u64 _ _ _ _ _)) as Hq.
  rewrite E in Hq. cbn [fst] in Hq. subst q.
  eexists (io_write i (mkReg (0x10 + 2 * g) true) v h), _. split; [done|]. rewrite E. split; [done|]. split.
  - change (put v e_mask (Z.b2z false)) with (setf v 16 1 0). rewrite read_written by (apply is_u64_setf; [apply redirection_u64|lia..]). unfold v.
    split_and!; entry_fields; try (apply getf_small; [unfold is_uN in *; lia|lia]); destruct al, lvl; reflexivity.
  - intros a r Har. rewrite io_read_wide in E. injection E as _ <-. rewrite !io_write_wide. unfold select. cbn [reg]. rewrite io_write_wide.
    destruct (Z.eqb_spec a (addr i)); cbn [andb]; [|done]. by rewrite !(proj2 (Z.eqb_neq r _)) by lia.
Qed.

Definition demo_chips : chips := mkChips (λ _, 0) (λ _ _, 0x10000).
Lemma ioapic_route_witness :
  ∃ h1 h2, arch_ioapic_initialize_gsi [mkIoapic 0x1000 0] 12 0x2c FIXED 3 true false demo_chips = Ok h1 ∧
    arch_ioapic_mask_gsi [mkIoapic 0x1000 0] 12 false h1 = Ok h2 ∧ reg h2 0x1000 0x28 = 0x202c ∧ reg h2 0x1000 0x26 = 0x10000.
Proof.
  destruct (ioapic_route [mkIoapic 0x1000 0] 12 (mkIoapic 0x1000 0) 0x2c FIXED 3 true false demo_chips) as (h1 & h2 & E1 & E2 & _ & Hr);
    [reflexivity|lia|unfold is_uN; lia|unfold FIXED; lia|unfold is_uN; lia|].
  exists h1, h2. split; [exact E1|]. split; [exact E2|]. split; [|apply Hr; right; split; discriminate].
  injection E1 as <-. injection E2 as <-. reflexivity.
Defined.

(** The register is chosen by the global number, not by the number within the chip: on a second I/O
    APIC, for the interrupts from 24 on, its first interrupt is set up in its 25th entry. *)
Example second_ioapic :
  match arch_ioapic_initialize_gsi [mkIoapic 0x1000 0; mkIoapic 0x2000 24] 24 0x30 FIXED 0 false false demo_chips with
  | Ok h => reg h 0x2000 0x10 = 0x10000 ∧ reg h 0x2000 0x40 = 0x10030
  | _ => False
  end.
Proof. vm_compute. done. Qed.

(** ** The table as its entries *)

Inductive madt_rec :=
| Lapic (acpi id flags : Z)
| Ioapic (id a base : Z)
| Override (bus irq g flags : Z)
| LapicAddr (a : Z)
| Other (type : Z) (payload : list Z).

Definition encode (r : madt_rec) : list Z :=
  match r with
  | Lapic acpi id flags => 0 :: 8 :: acpi :: id :: le 4 flags
  | Ioapic id a base => 1 :: 12 :: id :: 0 :: le 4 a ++ le 4 base
  | Override bus irq g flags => 2 :: 10 :: bus :: irq :: le 4 g ++ le 2 flags
  | LapicAddr a => 5 :: 12 :: 0 :: 0 :: le 8 a
  | Other type payload => type :: (2 + zlen payload) :: payload
  end.
Definition rec_ok (r : madt_rec) : Prop :=
  match r with
  | Lapic acpi id flags => True
  | Ioapic id a base => is_u32 a ∧ is_u32 base
  | Override bus irq g flags => 0 ≤ irq < 16 ∧ is_u32 g ∧ is_uN 16 flags
  | LapicAddr a => is_u64 a
  | Other type payload => Forall (λ t, type ≠ t) [0; 1; 2; 5] ∧ zlen payload ≤ 253
  end.
(** What an entry means. *)
Definition meaning (pml4 : Z) (r : madt_rec) (s : apic) : res apic :=
  match r with
  | Lapic acpi id flags =>
      Ok (if id =? 0 then s else mkApic (ioapics s) (cpus s ++ [mkLapic id acpi false]) (redirection_table s) (lapic_base s) (apg s))
  | Ioapic id a base => add_ioapic pml4 a base s
  | Override bus irq g flags =>
      Ok (mkApic (ioapics s) (cpus s) (zinsert (redirection_table s) irq (mkRedir g (Z.testbit flags 1) (Z.testbit flags 3))) (lapic_base s) (apg s))
  | LapicAddr a => Ok (mkApic (ioapics s) (cpus s) (redirection_table s) a (apg s))
  | Other type payload => Ok s
  end.
Fixpoint meanings (pml4 : Z) (l : list madt_rec) (s : apic) : res apic :=
  match l with [] => Ok s | r :: l => s ← meaning pml4 r s; meanings pml4 l s end.

Lemma rd_app pre l o n : 0 ≤ o → rd (pre ++ l) (zlen pre + o) n = rd l o n.
Proof.
  intros Ho. unfold rd. rewrite length_app, (proj2 (Z.leb_le 0 (zlen pre + o))), (proj2 (Z.leb_le 0 o)) by lia. cbn [andb].
  destruct (Z.leb_spec (zlen pre + o + n) (Z.of_nat (length pre + length l))), (Z.leb_spec (o + n) (zlen l)); try lia; [|done]. unfold field. do 2 f_equal. f_equal.
  rewrite drop_app_ge by lia. f_equal. lia.
Qed.
Lemma rd_cons b l o n : 0 < o → rd (b :: l) o n = rd l (o - 1) n.
Proof. intros Ho. rewrite <- (rd_app [b] l (o - 1) n) by lia. f_equal. simpl. lia. Qed.
Lemma rd_head b l o : o = 0 → rd (b :: l) o 1 = Ok b.
Proof.
  intros ->. unfold rd. rewrite (proj2 (Z.leb_le (0 + 1) _)) by (simpl; lia). cbn [andb Z.leb Z.compare]. f_equal.
  unfold field. change (Z.to_nat 0) with 0%nat. change (Z.to_nat 1) with 1%nat. simpl. lia.
Qed.
Lemma rd_le n v post o w : o = 0 → w = Z.of_nat n → 0 ≤ v < 256 ^ w → rd (le n v ++ post) o w = Ok v.
Proof.
  intros -> -> Hv. unfold rd, field. rewrite length_app.
  assert (∀ k u, length (le k u) = k) as Hl by (induction k as [|k IH]; intros u; [done|]; simpl; by rewrite IH). rewrite Hl.
  rewrite (proj2 (Z.leb_le (0 + _) _)) by lia. cbn [andb Z.leb Z.compare]. rewrite Nat2Z.id, drop_0, take_app_length' by done. f_equal.
  revert v Hv. induction n as [|n IH]; intros v Hv; [cbn in Hv |- *; lia|]. cbn [le le_word]. rewrite IH.
  - pose proof (Z.div_mod v 256). lia.
  - rewrite Nat2Z.inj_succ, Z.pow_succ_r in Hv by lia. split; [apply Z.div_pos; lia|apply Z.div_lt_upper_bound; lia].
Qed.

Ltac rd_solve := repeat (progress (rewrite ?rd_cons by lia; rewrite ?rd_head by lia; cbn [mbind res_bind Z.eqb Pos.eqb])).

Lemma encode_length r : rec_ok r → 2 ≤ zlen (encode r) < 256 ∧ ∀ post, rd (encode r ++ post) 1 1 = Ok (zlen (encode r)).
Proof.
  intros Hr. destruct r; cbn [encode app]; (split; [|intros post; rd_solve]); rewrite ?length_app; cbn [length le app]; try done; try lia.
  - cbn in Hr. lia.
  - f_equal. lia.
Qed.

Lemma redir_at_Ok t irq : 0 ≤ irq < 16 → length t = 16%nat → redir_at t irq = Ok (default (mkRedir 0 false false) (zlookup t irq)).
Proof.
  intros Hi Hl. unfold redir_at. rewrite (proj2 (Z.ltb_ge _ _)) by lia. destruct (zlookup_in t irq) as [r ->]; [by rewrite Hl|]. done.
Qed.
Lemma madt_entry_encode pml4 pre r post s : rec_ok r → length (redirection_table s) = 16%nat →
  madt_entry pml4 (pre ++ encode r ++ post) (zlen pre) s = (s' ← meaning pml4 r s; Ok (zlen (encode r), s')).
Proof.
  intros Hr Hl. destruct (encode_length r Hr) as [Hlen Hrd]. unfold madt_entry.
  rewrite !(rd_app pre _ _ _), Hrd by lia. replace (rd (pre ++ encode r ++ post) (zlen pre) 1) with (rd (encode r ++ post) 0 1)
    by (rewrite <- (rd_app pre) by lia; by rewrite Z.add_0_r).
  destruct r as [acpi id flags|id a base|bus irq g flags|a|type payload]; cbn [encode app rec_ok meaning] in *; rewrite <- ?app_assoc; rd_solve.
  - done.
  - destruct Hr as [Ha Hb]. rewrite (rd_le 4 a _ (4 - 1 - 1 - 1 - 1) 4) by done. rd_solve.
    replace (rd (le 4 a ++ le 4 base ++ post) _ 4) with (rd (le 4 base ++ post) 0 4) by
      (rewrite <- (rd_app (le 4 a)) by lia; f_equal). rewrite rd_le by done. cbn [mbind res_bind]. by destruct (add_ioapic _ _ _ _).
  - destruct Hr as (Hi & Hg & Hf). rewrite (rd_le 4 g _ (4 - 1 - 1 - 1 - 1) 4) by done. rd_solve.
    replace (rd (le 4 g ++ le 2 flags ++ post) _ 2) with (rd (le 2 flags ++ post) 0 2) by
      (rewrite <- (rd_app (le 4 g)) by lia; f_equal). rewrite rd_le by done. cbn [mbind res_bind]. rewrite (redir_at_Ok _ _ Hi Hl). done.
  - rewrite rd_le by done. done.
  - destruct Hr as [Ht _]. rewrite !Forall_cons in Ht. destruct Ht as (T0 & T1 & T2 & T5 & _).
    rewrite (proj2 (Z.eqb_neq _ _) T0), (proj2 (Z.eqb_neq _ _) T1), (proj2 (Z.eqb_neq _ _) T2), (proj2 (Z.eqb_neq _ _) T5). done.
Qed.

Lemma meaning_table pml4 r s s' : meaning pml4 r s = Ok s' → length (redirection_table s') = length (redirection_table s).
Proof.
  destruct r; cbn [meaning]; intros H; try (by injection H as <-).
  - injection H as <-. by destruct (_ =? 0).
  - unfold add_ioapic in H. apply bind_Ok in H as (p & _ & H). by injection H as <-.
  - injection H as <-. cbn. apply zinsert_length.
Qed.

Lemma madt_entries_encode pml4 l : ∀ hdr pre fuel s, length hdr = 44%nat → Forall rec_ok l → length (redirection_table s) = 16%nat →
  (length l ≤ fuel)%nat → 44 + zlen pre + zlen (concat (map encode l)) < 2 ^ 32 →
  madt_entries pml4 fuel (hdr ++ pre ++ concat (map encode l)) (44 + zlen pre + zlen (concat (map encode l))) (zlen pre) s = meanings pml4 l s.
Proof.
  induction l as [|r l IH]; intros hdr pre fuel s Hh Hl Ht Hf Hlen; cbn [map concat length] in *.
  { destruct fuel; cbn [madt_entries]; by rewrite (proj2 (Z.leb_le _ _)) by (simpl; lia). }
  apply Forall_cons in Hl as [Hr Hl]. destruct fuel as [|fuel]; [lia|]. destruct (encode_length r Hr) as [Hle _].
  rewrite length_app in *. cbn [madt_entries meanings]. rewrite (proj2 (Z.leb_gt _ _)) by lia.
  replace (hdr ++ pre ++ encode r ++ concat (map encode l)) with ((hdr ++ pre) ++ encode r ++ concat (map encode l)) by by rewrite <- app_assoc.
  replace (44 + zlen pre) with (zlen (hdr ++ pre)) at 1 by (rewrite length_app; lia).
  rewrite madt_entry_encode by done. destruct (meaning pml4 r s) as [s'| | | |] eqn:E; cbn [mbind res_bind]; try done.
  rewrite (proj2 (Z.eqb_neq _ 0)), uN_small by (unfold is_uN; lia).
  pose proof (IH hdr (pre ++ encode r) fuel s' Hh Hl) as IH'. rewrite !length_app in IH'. rewrite <- !app_assoc in IH'.
  rewrite <- !app_assoc. rewrite <- IH'; [|by rewrite (meaning_table _ _ _ _ E)|lia|lia]. f_equal; lia.
Qed.

(** C40: a table made of well-formed entries is read to its end, and every entry takes its effect once
    and in order: processors are noted (but for APIC id 0), I/O APICs mapped and noted, interrupts
    overridden, the local APIC moved, and entries of other kinds skipped. *)
Theorem madt_meaning pml4 hdr l s : length hdr = 44%nat → Forall rec_ok l → length (redirection_table s) = 16%nat →
  44 + zlen (concat (map encode l)) < 2 ^ 32 →
  let m := hdr ++ concat (map encode l) in
  madt_entries pml4 (S (length m)) m (zlen m) 0 s = meanings pml4 l s.
Proof.
  intros Hh Hl Ht Hlen m. unfold m.
  assert (length l ≤ length (concat (map encode l)))%nat as Hc.
  { clear -Hl. induction Hl as [|r l Hr _ IH]; [done|]. cbn [map concat length]. rewrite length_app. destruct (encode_length r Hr). lia. }
  pose proof (madt_entries_encode pml4 l hdr [] (S (length (hdr ++ concat (map encode l)))) s Hh Hl Ht) as H.
  cbn [app length] in H. rewrite length_app in *. rewrite <- H by lia. f_equal. lia.
Qed.

Definition demo_apic : apic := mkApic [] [] redirection_init 0xfee00000 boot_tables.
Definition demo_recs : list madt_rec := [Lapic 0 0 1; Lapic 1 2 1; Override 0 0 2 0; Other 4 [255; 0; 0; 1]; Override 0 9 9 0xd; LapicAddr 0xfee01000].
Definition demo_madt : list Z := replicate 44 0 ++ concat (map encode demo_recs).
Lemma madt_meaning_witness :
  madt_entries root0 (S (length demo_madt)) demo_madt (zlen demo_madt) 0 demo_apic = meanings root0 demo_recs demo_apic ∧
  match meanings root0 demo_recs demo_apic with
  | Ok s => cpus s = [mkLapic 2 1 false] ∧ lapic_base s = 0xfee01000 ∧ redirection_table s !! 0%nat = Some (mkRedir 2 false false)
  | _ => False
  end.
Proof.
  assert (Forall rec_ok demo_recs) as Hr by (repeat constructor; unfold is_uN; cbn; try lia; try discriminate).
  split; [|vm_compute; repeat split].
  exact (madt_meaning root0 (replicate 44 0) demo_recs demo_apic eq_refl Hr eq_refl ltac:(reflexivity)).
Defined.

(** An entry of length 0 is never passed. *)
Example madt_stuck : madt_entries root0 100 (replicate 44 0 ++ [4; 0; 0; 0]) 48 0 demo_apic = Hang.
Proof. vm_compute. reflexivity. Qed.
