(* ===== verification/Acpi.v ===== *)
(** ACPI ([acpi/acpi.cc], [acpi.hh]): finding and checking the tables and acting on them; and the
    pieces of the AML reader ([acpi/aml.cc], [aml.hh]), whose entry point returns at once.

    The tables lie in the kernel's memory [m]. *)
From S2P Require Import Prelude Arith Bitmap Mem Strings Pmm Paging Msd MsdSpec Elf Module Apic.

(** ** Tables *)

(** An [n]-byte number at [a]. *)
Definition ld (m : Mem.mem) (a : Z) (n : nat) : Z := le_word (bytes_at m a n).

Definition sdt_sign (m : Mem.mem) (t : Z) : Z := ld m t 4.
Definition sdt_length (m : Mem.mem) (t : Z) : Z := ld m (t + 4) 4.
Definition rsdp_rsdt (m : Mem.mem) (t : Z) : Z := ld m (t + 16) 4.
Definition rsdp_length (m : Mem.mem) (t : Z) : Z := ld m (t + 20) 4.
Definition rsdp_xsdt (m : Mem.mem) (t : Z) : Z := ld m (t + 24) 8.
Definition fadt_dsdt (m : Mem.mem) (t : Z) : Z := ld m (t + 40) 4.
Definition fadt_legacy (m : Mem.mem) (t : Z) : Z := ld m (t + 109) 2.
Definition fadt_x_dsdt (m : Mem.mem) (t : Z) : Z := ld m (t + 140) 8.
Definition signature (s : string) : Z := le_word (bytes_of s).

(** The 8-bit sum of [n] bytes at [a]. *)
Fixpoint sum_bytes (m : Mem.mem) (a : Z) (n : nat) (sum : Z) : Z :=
  match n with O => sum | S n => sum_bytes m (a + 1) n (u8 (sum + m a)) end.
Definition validate (m : Mem.mem) (table : Z) : bool := sum_bytes m table (Z.to_nat (sdt_length m table)) 0 =? 0.
Definition validateRsdp (m : Mem.mem) (table : Z) : Z :=
  if negb (bool_decide (bytes_at m table 8 = bytes_of "RSD PTR ")) then 0
  else if (sum_bytes m table (Z.to_nat (rsdp_length m table)) 0 =? 0) && negb (rsdp_xsdt m table =? 0) then 2
  else if sum_bytes m table 20 0 =? 0 then 1 else 0.

Definition FADT_LEGACY_I8042 : Z := Z.lor MISC 1.

Section Acpi.
Context (pml4 : Z).

Definition check (a : Z) (s : paging) : res paging :=
  p ← paging_lookup s pml4 a;
  if p =? NPOS then map_page s pml4 (VIRTUAL a) (PHYSICAL a) KDATA WB else Ok s.
Definition check_table (m : Mem.mem) (a : Z) (s : paging) : res paging :=
  s ← check a s;
  for_rounds (λ i s, check (u64 (a + i)) s) 0 0x1000 (rounds (align32 (sdt_length m a) 0x1000) 0x1000) s.

Definition num_tables (m : Mem.mem) (ver rsdt : Z) : Z :=
  u32 (u64 (sdt_length m rsdt - 36) / (if ver =? 2 then 8 else 4)).
(** The entry [i] of the root table. *)
Definition table_addr (m : Mem.mem) (ver rsdt i : Z) : Z :=
  VIRTUAL (VIRTUAL (if (ver =? 1) || (ver =? 0) then ld m (rsdt + 36 + 4 * i) 4 else ld m (rsdt + 36 + 8 * i) 8)).
Definition collect_round (m : Mem.mem) (ver rsdt i : Z) (st : list Z * paging) : res (list Z * paging) :=
  let '(tables, s) := st in
  let a := table_addr m ver rsdt i in
  s ← check a s; Ok (tables ++ [a], s).
(** From the root pointer to the addresses of the tables; an invalid pointer is only reported. *)
Definition collect (m : Mem.mem) (address : Z) (s : paging) : res (Z * list Z * paging) :=
  s ← check address s;
  let rsdp := VIRTUAL address in
  let ver := validateRsdp m rsdp in
  let rsdt := VIRTUAL (if ver =? 2 then rsdp_xsdt m rsdp else rsdp_rsdt m rsdp) in
  s ← check rsdt s;
  '(tables, s) ← for_rounds (collect_round m ver rsdt) 0 1 (Z.to_nat (num_tables m ver rsdt)) ([], s);
  Ok (ver, tables, s).

(** ** Acting on the tables *)

Record acpi := mkAcpi { mcfg : option Z; aapic : apic; achips : chips; alapic : Z → Z; akernel : kernel }.
Definition set_pg (k : kernel) (p : paging) : kernel := mkKernel (modules k) (bm k) (devices k) p (vm k).
Definition set_apg (a : apic) (p : paging) : apic := mkApic (ioapics a) (cpus a) (redirection_table a) (lapic_base a) p.

Context (bspid : Z) (ks : ksyms) (run_dev : Z → option nat → kernel → res kernel).

Definition first_pass (m : Mem.mem) (t : Z) (s : acpi) : res acpi :=
  if sdt_sign m t =? signature "MCFG" then Ok (mkAcpi (Some t) (aapic s) (achips s) (alapic s) (akernel s))
  else if sdt_sign m t =? signature "APIC" then
    '(a, h, l) ← arch_parse_madt pml4 bspid (bytes_at m t (Z.to_nat (sdt_length m t))) (set_apg (aapic s) (pg (akernel s))) (achips s) (alapic s);
    Ok (mkAcpi (mcfg s) a h l (set_pg (akernel s) (apg a)))
  else Ok s.
(** [acpi_parse_aml] returns at once. *)
Definition acpi_parse_aml (dsdt : Z) (s : acpi) : res acpi := Ok s.
Fixpoint launch_i8042 (is_ : list nat) (k : kernel) : res kernel :=
  match is_ with
  | [] => Ok k
  | i :: is_ =>
      x ← deref (modules k !! i);
      k ← (if triggertype (metadata x) =? FADT_LEGACY_I8042 then modules_launch pml4 ks run_dev k i None else Ok k);
      launch_i8042 is_ k
  end.
Definition second_pass (m : Mem.mem) (t : Z) (s : acpi) : res acpi :=
  if sdt_sign m t =? signature "FACP" then
    let dsdt := if negb (Z.shiftr (PHYSICAL t) 32 =? 0) then fadt_x_dsdt m t else fadt_dsdt m t in
    let dsdt := VIRTUAL dsdt in
    p ← check_table m dsdt (pg (akernel s));
    let s := mkAcpi (mcfg s) (aapic s) (achips s) (alapic s) (set_pg (akernel s) p) in
    s ← acpi_parse_aml dsdt s;
    if Z.testbit (fadt_legacy m t) 3 then Fatal "MSI support required" else
    if Z.testbit (fadt_legacy m t) 1 then
      k ← launch_i8042 (seq 0 (length (modules (akernel s)))) (akernel s);
      Ok (mkAcpi (mcfg s) (aapic s) (achips s) (alapic s) k)
    else Ok s
  else Ok s.
Fixpoint over (f : Z → acpi → res acpi) (l : list Z) (s : acpi) : res acpi :=
  match l with [] => Ok s | t :: l => s ← f t s; over f l s end.
(** [None]: no response from the boot loader, which is used before it is tested. *)
Definition acpi_init (m : Mem.mem) (response : option Z) (s : acpi) : res (list Z * acpi) :=
  match response with
  | None => Fault
  | Some address =>
      '(_, tables, p) ← collect m address (pg (akernel s));
      s ← over (first_pass m) tables (mkAcpi (mcfg s) (aapic s) (achips s) (alapic s) (set_pg (akernel s) p));
      s ← over (second_pass m) tables s;
      Ok (tables, s)
  end.
End Acpi.

(** ** AML *)

Definition isascii (c : Z) : bool := (65 <? c) && (c <? 122).
Fixpoint pkg_bytes (n : nat) (i : Z) (code : list Z) (len : Z) : res (Z * list Z) :=
  match n with
  | O => Ok (len, code)
  | S n => match code with [] => Fault | b :: code => pkg_bytes n (i + 1) code (Z.lor len (u32 (Z.shiftl b (4 + i * 8)))) end
  end.
Definition pkglength (code : list Z) : res (Z * list Z) :=
  match code with
  | [] => Fault
  | lead :: code =>
      let bytes := Z.shiftr lead 6 in
      if bytes =? 0 then Ok (Z.land lead 0x3f, code) else pkg_bytes (Z.to_nat bytes) 0 code (Z.land lead 0xf)
  end.
Definition simplename (code : list Z) : res (Z * list Z) :=
  if (length code <? 4)%nat then Fault else
  assert_ (forallb isascii (take 4 code)) "isascii";;
  Ok (le_word (take 4 code), drop 4 code).
(** A prefix character is taken into the text, and the one after it is skipped. *)
Definition scopetext (code : list Z) : res (list Z * list Z) :=
  match code with
  | [] => Fault
  | c :: rest =>
      if (c =? 0x5e) || (c =? 0x5c) then Ok ([c], drop 1 rest)
      else if isascii c then '(_, rest) ← simplename code; Ok ([], rest)
      else Fatal "Invalid AML scope element prefix"
  end.
(** The length and what follows of a scope element; the prefix counter starts undefined. *)
Record scopeelem := mkScope { sprefix : Z; sname : option Z; slength : Z }.
Definition scopeelem_read (prefix : Z) (code : list Z) : res (scopeelem * list Z) :=
  '(len, code) ← pkglength code;
  match code with
  | [] => Fault
  | c :: rest =>
      if c =? 0x5e then Ok (mkScope (uN 16 (prefix + 1)) None (u32 len), rest)
      else if c =? 0x5c then Ok (mkScope 0xffff None (u32 len), rest)
      else if isascii c then '(n, code) ← simplename code; Ok (mkScope prefix (Some n) (u32 len), code)
      else Fatal "Invalid AML scope element prefix"
  end.

(** ** Package lengths *)

(** The encoding of the ACPI specification: one byte below 64, else four bits in the first byte and
    the rest in one to three bytes. *)
Definition pkg_tail (n : Z) : nat := if n <? 2 ^ 12 then 1 else if n <? 2 ^ 20 then 2 else 3.
Definition pkg_encode (n : Z) : list Z :=
  if n <? 2 ^ 6 then [n] else (64 * Z.of_nat (pkg_tail n) + n `mod` 16) :: le (pkg_tail n) (n / 16).

Lemma lead_byte k d : 0 ≤ k < 4 → 0 ≤ d < 16 → Z.shiftr (64 * k + d) 6 = k ∧ Z.land (64 * k + d) 15 = d.
Proof.
  intros Hk Hd. rewrite Z.shiftr_div_pow2 by lia. change 15 with (Z.ones 4). rewrite Z.land_ones by lia. split.
  - symmetry. apply (Z.div_unique _ _ _ d); lia.
  - replace (64 * k + d) with (d + (4 * k) * 2 ^ 4) by lia. rewrite Z.mod_add by lia. by apply Z.mod_small.
Qed.
Lemma shifted_byte b i : 0 ≤ b < 256 → 0 ≤ i < 3 → u32 (Z.shiftl b (4 + i * 8)) = Z.shiftl b (4 + i * 8).
Proof.
  intros Hb Hi. apply uN_small. rewrite Z.shiftl_mul_pow2 by lia. unfold is_uN. split; [lia|].
  apply Z.lt_le_trans with (256 * 2 ^ (4 + i * 8)); [apply Z.mul_lt_mono_pos_r; lia|].
  change 256 with (2 ^ 8). rewrite <- Z.pow_add_r by lia. apply Z.pow_le_mono_r; lia.
Qed.

Lemma pkg_bytes_le k : ∀ i v len rest, 0 ≤ i → i + Z.of_nat k ≤ 3 → 0 ≤ len < 2 ^ (4 + i * 8) →
  pkg_bytes k i (le k v ++ rest) len = Ok (len + 2 ^ (4 + i * 8) * (v `mod` 256 ^ Z.of_nat k), rest).
Proof.
  induction k as [|k IH]; intros i v len rest Hi Hk Hl; cbn [le app pkg_bytes]; [rewrite Z.mod_1_r; do 2 f_equal; lia|].
  pose proof (Z.mod_pos_bound v 256 ltac:(lia)) as Hv. rewrite shifted_byte, lor_high by lia.
  assert (2 ^ (4 + (i + 1) * 8) = 2 ^ (4 + i * 8) * 256) as Hp.
  { replace (4 + (i + 1) * 8) with (4 + i * 8 + 8) by lia. by rewrite Z.pow_add_r by lia. }
  rewrite IH; [|lia|lia|rewrite Hp; nia]. do 2 f_equal. rewrite Hp.
  replace (Z.of_nat (S k)) with (Z.succ (Z.of_nat k)) by lia. rewrite Z.pow_succ_r, Z.rem_mul_r by lia. lia.
Qed.

(** What was encoded is read back, and the code after it is left. *)
Lemma pkglength_encode n rest : 0 ≤ n < 2 ^ 28 → pkglength (pkg_encode n ++ rest) = Ok (n, rest).
Proof.
  intros Hn. unfold pkg_encode. destruct (Z.ltb_spec n (2 ^ 6)); cbn [app pkglength].
  - rewrite Z.shiftr_div_pow2, Z.div_small by lia. change 0x3f with (Z.ones 6). cbn [Z.eqb]. rewrite Z.land_ones, Z.mod_small by lia. done.
  - pose proof (Z.mod_pos_bound n 16 ltac:(lia)) as H16. pose proof (Z.div_mod n 16 ltac:(lia)) as D16.
    assert (1 ≤ Z.of_nat (pkg_tail n) ≤ 3 ∧ n / 16 < 256 ^ Z.of_nat (pkg_tail n))%Z as [Hk Hlt].
    { unfold pkg_tail. destruct (Z.ltb_spec n (2 ^ 12)); [|destruct (Z.ltb_spec n (2 ^ 20))]; (split; [lia|apply Z.div_lt_upper_bound; lia]). }
    destruct (lead_byte (Z.of_nat (pkg_tail n)) (n `mod` 16)) as [-> ->]; [lia|lia|].
    rewrite (proj2 (Z.eqb_neq _ 0)), Nat2Z.id by lia. rewrite pkg_bytes_le by lia. do 2 f_equal.
    rewrite (Z.mod_small (n / 16)) by (split; [apply Z.div_pos; lia|done]). lia.
Qed.

(** The letter A is not accepted in a name, nor are digits. *)
Example name_with_A : simplename (bytes_of "_ADR") = Fatal "isascii" ∧ is_Ok (simplename (bytes_of "_SB_")) = true.
Proof. vm_compute. done. Qed.

(** ** Finding the tables *)

(** From a valid root pointer of version 2 the kernel collects exactly the tables the extended root
    table lists, in order, at their addresses in the direct map, without touching the page tables
    when all of them are mapped already. *)
Lemma acpi_tables_found pml4 m s address es :
  let rsdp := VIRTUAL address in let rsdt := VIRTUAL (rsdp_xsdt m rsdp) in
  let there a := ∃ p, paging_lookup s pml4 a = Ok p ∧ p ≠ NPOS in
  validateRsdp m rsdp = 2 → sdt_length m rsdt = 36 + 8 * zlen es → zlen es < 2 ^ 28 →
  (∀ i e, es !! i = Some e → ld m (rsdt + 36 + 8 * Z.of_nat i) 8 = e ∧ 0 ≤ e < 2 ^ 47 ∧ there (e + HHDM)) →
  there address → there rsdt →
  collect pml4 m address s = Ok (2, map (λ e, e + HHDM) es, s).
Proof.
  intros rsdp rsdt there Hv Hlen Hes Hent Ha Hr.
  assert (∀ a, there a → check pml4 a s = Ok s) as Hc.
  { intros a (p & E & Hn). unfold check. rewrite E. cbn [mbind res_bind]. by rewrite (proj2 (Z.eqb_neq p NPOS)). }
  unfold collect. rewrite (Hc _ Ha). cbn [mbind res_bind]. fold rsdp. rewrite Hv. change (2 =? 2) with true. cbn iota. fold rsdt.
  rewrite (Hc _ Hr). cbn [mbind res_bind].
  assert (Z.to_nat (num_tables m 2 rsdt) = length es) as ->.
  { unfold num_tables. rewrite Hlen. change (2 =? 2) with true. cbn iota. replace (36 + 8 * zlen es - 36) with (zlen es * 8) by lia.
    rewrite (uN_small 64), Z.div_mul, uN_small by (unfold is_uN; lia). lia. }
  assert (∀ l k acc, (∀ i e, l !! i = Some e → ld m (rsdt + 36 + 8 * (k + Z.of_nat i)) 8 = e ∧ 0 ≤ e < 2 ^ 47 ∧ there (e + HHDM)) →
    for_rounds (collect_round pml4 m 2 rsdt) k 1 (length l) (acc, s) = Ok (acc ++ map (λ e, e + HHDM) l, s)) as Hloop.
  { induction l as [|e l IH]; intros k acc Hl; cbn [for_rounds length map]; [by rewrite app_nil_r|].
    destruct (Hl 0%nat e eq_refl) as (E & He & Ht). rewrite Z.add_0_r in E.
    assert (collect_round pml4 m 2 rsdt k (acc, s) = Ok (acc ++ [e + HHDM], s)) as ->.
    { unfold collect_round, table_addr. change ((2 =? 1) || (2 =? 0)) with false. cbn iota. rewrite E.
      assert (VIRTUAL (VIRTUAL e) = e + HHDM) as ->; [|by rewrite (Hc _ Ht)].
      rewrite <- VIRTUAL_add by lia. unfold VIRTUAL. by rewrite <- Z.lor_assoc, Z.lor_diag. }
    cbn [mbind res_bind]. rewrite IH, <- app_assoc; [done|].
    intros i e' Hi. rewrite <- (Z.add_assoc k). replace (1 + Z.of_nat i) with (Z.of_nat (S i)) by lia. by apply Hl. }
  rewrite (Hloop es 0 []); [done|]. intros i e Hi. rewrite Z.add_0_l. by apply Hent.
Qed.

(** The direct map of the first 2 MiB, with a root pointer at 0x1000 and a root table of two entries at 0x2000. *)
Definition acpi_pages : paging := match map_page boot_tables root0 HHDM 0 (Z.lor KDATA s2M) WB with Ok s => s | _ => boot_tables end.
Definition rsdp_bytes : list Z :=
  let body := bytes_of "RSD PTR " ++ replicate 8 0 ++ le 4 0 ++ le 4 36 ++ le 8 0x2000 in
  body ++ [(- foldl Z.add 0 body) `mod` 256; 0; 0; 0].
Definition acpi_mem : Mem.mem :=
  copy_in (copy_in (λ _, 0) (HHDM + 0x1000) rsdp_bytes) (HHDM + 0x2000)
    (bytes_of "XSDT" ++ le 4 52 ++ replicate 28 0 ++ le 8 0x3000 ++ le 8 0x4000).

Lemma acpi_tables_found_witness :
  collect root0 acpi_mem (HHDM + 0x1000) acpi_pages = Ok (2, [HHDM + 0x3000; HHDM + 0x4000], acpi_pages).
Proof.
  apply (acpi_tables_found root0 acpi_mem acpi_pages (HHDM + 0x1000) [0x3000; 0x4000]).
  - vm_compute. reflexivity.
  - vm_compute. reflexivity.
  - cbn. lia.
  - intros [|[|i]] x Hx; [injection Hx as <-|injection Hx as <-|destruct i; discriminate Hx];
      (split; [vm_compute; reflexivity|split; [lia|]]); eexists; (split; [vm_compute; reflexivity|discriminate]).
  - eexists. split; [vm_compute; reflexivity|discriminate].
  - eexists. split; [vm_compute; reflexivity|discriminate].
Defined.

(** The checksum loops compute the sum of the bytes modulo 256. *)
Lemma sum_bytes_mod m n : ∀ a sum, sum_bytes m a n (u8 sum) = u8 (sum + foldr Z.add 0 (bytes_at m a n)).
Proof.
  unfold bytes_at. induction n as [|n IH]; intros a sum; [cbn; f_equal; lia|]. cbn [sum_bytes]. rewrite uN_add_l, IH. f_equal.
  cbn [seq map foldr]. rewrite Z.add_0_r, <- seq_shift, map_map. rewrite <- Z.add_assoc. do 2 f_equal.
  f_equal. apply map_ext. intros i. f_equal. lia.
Qed.
