(* ===== verification/Console.v ===== *)
(** The text console ([gfx/console.cc], [console.hh]): glyphs drawn into a back buffer, scrolling, and
    the logging functions on top of [Printf].

    The frame buffer has 32 bits per pixel; the back buffer and the screen are functions from the
    index of a pixel, and a store outside the [width * height] pixels is a [Fault].  The output to the
    serial port that goes along with the logging functions is left out. *)
From S2P Require Import Prelude Arith Mem Strings Printf PrintfSpec.

(** ** Definitions *)

Record font := mkFont { glyphs : list Z; glyphsize : Z; glyphw : Z; glyphh : Z; num_glyphs : Z }.
Record console := mkCon { fnt : font; width : Z; height : Z; cx : Z; cy : Z; color_fg : Z; color_bg : Z; old_color : Z;
  backbuf : Z → Z; screen : Z → Z }.
Definition con_padx : Z := 1.
Definition con_pady : Z := 1.
Definition TAB_WIDTH : Z := 8.
Definition con_colors : list Z := [0xffa0a0a0; 0xffd0d0d0; 0xffeb6534; 0xffc41e3d; 0xff710627].

Definition at_ (s : console) (x y : Z) : console :=
  mkCon (fnt s) (width s) (height s) x y (color_fg s) (color_bg s) (old_color s) (backbuf s) (screen s).
Definition draw (s : console) (b : Z → Z) : console :=
  mkCon (fnt s) (width s) (height s) (cx s) (cy s) (color_fg s) (color_bg s) (old_color s) b (screen s).
Definition show (s : console) (b : Z → Z) : console :=
  mkCon (fnt s) (width s) (height s) (cx s) (cy s) (color_fg s) (color_bg s) (old_color s) (backbuf s) b.
Definition paint (s : console) (fg old : Z) : console :=
  mkCon (fnt s) (width s) (height s) (cx s) (cy s) fg (color_bg s) old (backbuf s) (screen s).

(** The fonts of [con_init]: the glyph fields of a PSF 1 or PSF 2 file. *)
Definition PSF1_MAGIC : Z := 0x0436.
Definition PSF2_MAGIC : Z := 0x864ab572.
Definition psf_field (psf : list Z) (o n : nat) : Z := foldr (λ b x, b + 256 * x) 0 (take n (drop o psf)).
(** An unknown font is only reported; the glyph variables keep their zeros. *)
Definition read_font (psf : list Z) : font :=
  if psf_field psf 0 2 =? PSF1_MAGIC then
    let size := psf_field psf 3 1 in
    mkFont (drop 4 psf) size 8 size (if Z.testbit (psf_field psf 2 1) 0 then 512 else 256)
  else if psf_field psf 0 4 =? PSF2_MAGIC then
    mkFont (drop (Z.to_nat (psf_field psf 8 4)) psf) (u8 (psf_field psf 20 4)) (u8 (psf_field psf 28 4)) (u8 (psf_field psf 24 4))
      (psf_field psf 16 4)
  else mkFont [] 0 0 0 0.
Definition con_init (psf : list Z) (w h : Z) (scr : Z → Z) : console :=
  mkCon (read_font psf) w h 0 0 0xffd0d0d0 0xff000000 0 (λ _, 0) scr.

(** [*(con_backbuf + x + y * fb_width) = color] with 32-bit coordinates. *)
Definition fb_pixel (x y color : Z) (s : console) : res console :=
  let i := u32 x + u32 (u32 y * width s) in
  if i <? width s * height s then Ok (draw s (λ j, if j =? i then color else backbuf s j)) else Fault.

(** The last two rows of the cell under the cursor. *)
Definition cursor_cell (color : Z) (s : console) : res console :=
  let f := fnt s in
  for_rounds (λ x s, for_rounds (λ y s, fb_pixel (cx s + x) (cy s + y) color s) (u32 (glyphh f - 2)) 1
                       (Z.to_nat (glyphh f - u32 (glyphh f - 2))) s) 0 1 (Z.to_nat (glyphw f)) s.
Definition con_clear_cursor (s : console) : res console := cursor_cell (color_bg s) s.
Definition con_put_cursor (s : console) : res console := cursor_cell (color_fg s) s.

(** [memcpy] and [memset] of [n] pixels of the back buffer; nothing outside it may be touched. *)
Definition in_buffer (s : console) (i n : Z) : bool := (0 <=? i) && (0 <=? n) && (i + n <=? width s * height s).
Definition copy_pixels (dst src n : Z) (s : console) : res console :=
  if in_buffer s dst n && in_buffer s src n
  then Ok (draw s (λ i, if (dst <=? i) && (i <? dst + n) then backbuf s (i - dst + src) else backbuf s i)) else Fault.
Definition clear_pixels (dst n : Z) (s : console) : res console :=
  if in_buffer s dst n then Ok (draw s (λ i, if (dst <=? i) && (i <? dst + n) then 0 else backbuf s i)) else Fault.
(** One line up: the rows move, the last ones are cleared. *)
Definition con_scroll (s : console) : res console :=
  let lineh := glyphh (fnt s) + con_pady in
  s ← copy_pixels 0 (width s * lineh) (width s * (height s - lineh)) s;
  clear_pixels (width s * (height s - lineh)) (width s * lineh) (at_ s (cx s) (u32 (cy s - lineh))).

(** Copies [k] chunks of [c] pixels. *)
Fixpoint copy_chunks (c : Z) (k : nat) (i : Z) (from to : Z → Z) : Z → Z :=
  match k with
  | O => to
  | S k => copy_chunks c k (i + 1) from (λ j, if (c * i <=? j) && (j <? c * i + c) then from j else to j)
  end.
(** 32 bytes at a time, or 4, or 8, by the size of the buffer. *)
Definition con_swap_buffers (s : console) : console :=
  let size := width s * height s * 4 in
  show s (if Z.land size 31 =? 0 then copy_chunks 8 (Z.to_nat (size / 32)) 0 (backbuf s) (screen s)
          else if negb (Z.land size 7 =? 0) then copy_chunks 1 (Z.to_nat (size / 4)) 0 (backbuf s) (screen s)
          else copy_chunks 2 (Z.to_nat (size / 8)) 0 (backbuf s) (screen s)).

Definition newline (s : console) : res console :=
  let s := at_ s 0 (u32 (cy s + glyphh (fnt s) + con_pady)) in
  if u32 (height s - glyphh (fnt s)) <=? cy s then con_scroll s else Ok s.
(** [con_putc('\n')] as a call of its own. *)
Definition putc_newline (s : console) : res console :=
  s ← con_clear_cursor s; s ← newline s; con_put_cursor s.

(** A row of a glyph is one byte, or two in the order of the file. *)
Definition glyph_row (f : font) (start y : Z) : res Z :=
  if 8 <? glyphw f then
    hi ← deref (zlookup (glyphs f) (start + 2 * y)); lo ← deref (zlookup (glyphs f) (start + 2 * y + 1)); Ok (256 * hi + lo)
  else deref (zlookup (glyphs f) (start + y)).
(** The mask is 16 bits wide and starts one bit above the row. *)
Definition row_mask (f : font) : Z := uN 16 (Z.shiftl 1 (if 8 <? glyphw f then 16 else 8)).
Definition draw_glyph (start : Z) (s : console) : res console :=
  let f := fnt s in
  for_rounds (λ y s,
    row ← glyph_row f start y;
    for_rounds (λ x s, fb_pixel (cx s + x) (cy s + y)
                         (if Z.land row (Z.shiftr (row_mask f) x) =? 0 then color_bg s else color_fg s) s) 0 1 (Z.to_nat (glyphw f)) s)
    0 1 (Z.to_nat (glyphh f)) s.

(** The part of [con_putc] for a character with a glyph; [c] is a signed character. *)
Definition putc_glyph (c : Z) (s : console) : res console :=
  let f := fnt s in
  s ← con_clear_cursor s;
  s ← (if width s <? u32 (cx s + glyphw f + con_padx) then putc_newline s else Ok s);
  s ← draw_glyph (c * glyphsize f) s;
  con_put_cursor (at_ s (u32 (cx s + glyphw f + con_padx)) (cy s)).
Definition con_putc (c : Z) (s : console) : res console :=
  let cw := glyphw (fnt s) + con_padx in
  if c =? 10 then putc_newline s
  else if c =? 9 then
    s ← con_clear_cursor s;
    let s := at_ s (align32 (u32 (cx s + cw)) (cw * TAB_WIDTH)) (cy s) in
    s ← (if width s <? u32 (cx s + cw) then putc_newline s else Ok s);
    con_put_cursor s
  else if c =? 8 then
    s ← con_clear_cursor s;
    s ← con_clear_cursor s;
    s ← putc_glyph 32 (at_ s (u32 (cx s - cw)) (cy s));
    s ← con_clear_cursor s;
    con_put_cursor (at_ s (u32 (cx s - cw)) (cy s))
  else if c =? 13 then s ← con_clear_cursor s; con_put_cursor (at_ s 0 (cy s))
  else putc_glyph (iN 8 c) s.

Fixpoint put_string (l : list Z) (s : console) : res console :=
  match l with [] => Ok s | c :: l => s ← con_putc c s; put_string l s end.
Definition con_puts (l : list Z) (s : console) : res console := s ← put_string l s; Ok (con_swap_buffers s).

Definition con_push_color (color : Z) (s : console) : console := paint s color (color_fg s).
Definition con_pop_color (s : console) : console := paint s (old_color s) (old_color s).
Definition con_clear (s : console) : console :=
  let n := width s * height s in
  at_ (show (draw s (λ i, if (0 <=? i) && (i <? n) then 0 else backbuf s i)) (λ i, if (0 <=? i) && (i <? n) then 0 else screen s i)) 0 0.

(** ** Logging *)

Definition print_to (s : console) (format : list Z) (va : list arg) : res console :=
  '(_, r) ← vprintf (λ c r, s ← r; con_putc c s) (Ok s) format va; r.
Definition printk (format : list Z) (va : list arg) (s : console) : res console :=
  s ← print_to s format va; Ok (con_swap_buffers s).
Definition printlnk (format : list Z) (va : list arg) (s : console) : res console :=
  s ← print_to s format va; s ← con_putc 10 s; Ok (con_swap_buffers s).
Definition printkx (lvl : nat) (file format : list Z) (va : list arg) (s : console) : res console :=
  if negb (cfg_willitprint (Z.of_nat lvl) file) then Ok s else
  c ← deref (con_colors !! lvl);
  s ← print_to (con_push_color c s) format va;
  Ok (con_pop_color (con_swap_buffers s)).
(** The one behind [fatal]: it stops the processor. *)
Definition printkxnoret (lvl : nat) (file format : list Z) (va : list arg) (s : console) : res console :=
  if negb (cfg_willitprint (Z.of_nat lvl) file) then Hang else
  c ← deref (con_colors !! lvl);
  s ← print_to (con_push_color c s) format va;
  Hang.

(** ** Drawing stays inside the buffer *)

(** A font with glyphs of at most 8 columns for all ASCII characters, on a screen of at least eleven
    columns of text. *)
Record fits (s : console) : Prop := {
  fit_w : 1 ≤ glyphw (fnt s) ≤ 8;
  fit_h : 2 ≤ glyphh (fnt s) < 256;
  fit_size : glyphh (fnt s) ≤ glyphsize (fnt s);
  fit_glyphs : 128 * glyphsize (fnt s) ≤ zlen (glyphs (fnt s));
  fit_screen : 11 * (glyphw (fnt s) + 1) ≤ width s ∧ 0 < height s ∧ width s * height s < 2 ^ 31 }.
(** The cursor's cell is on the screen but for the right edge, and a row is left below it: the column of the next character may
    be as far right as the screen is wide ([cursor_wraps]). *)
Definition near (s : console) : Prop := 0 ≤ cx s ∧ cx s + glyphw (fnt s) ≤ 2 * width s ∧ 0 ≤ cy s ∧ cy s + glyphh (fnt s) < height s.
Definition inside (s : console) : Prop := 0 ≤ cx s ≤ width s ∧ 0 ≤ cy s ∧ cy s + glyphh (fnt s) < height s.
(** All but the picture. *)
Definition same (s s' : console) : Prop := s' = draw s (backbuf s').

Lemma for_rounds_total {S} (body : Z → S → res S) (I : S → Prop) step k : ∀ i s, I s →
  (∀ j t, I t → (∃ n : nat, (n < k)%nat ∧ j = i + Z.of_nat n * step) → ∃ t', body j t = Ok t' ∧ I t') →
  ∃ s', for_rounds body i step k s = Ok s' ∧ I s'.
Proof.
  induction k as [|k IH]; intros i s Hs Hb; cbn [for_rounds]; [by exists s|].
  destruct (Hb i s Hs) as (t & -> & Ht); [exists 0%nat; lia|]. cbn [mbind res_bind]. apply IH; [done|].
  intros j u Hu (n & Hn & ->). apply Hb; [done|]. exists (Datatypes.S n). lia.
Qed.

Lemma pic_refl s : same s s. Proof. by destruct s. Qed.
Lemma pic_trans s s' t : same s s' → same s' t → same s t.
Proof. unfold same. intros -> ->. done. Qed.
Lemma fits_same s s' : same s s' → fits s → fits s'.
Proof. intros -> [A B C D E]. split; done. Qed.

Lemma fb_pixel_Ok s x y c : fits s → 0 ≤ x → 0 ≤ y → x + y * width s < width s * height s → ∃ s', fb_pixel x y c s = Ok s' ∧ same s s'.
Proof.
  intros Hf Hx Hy Hi. destruct (fit_screen s Hf) as (F1 & F2 & F3). pose proof (fit_w s Hf).
  assert (y ≤ y * width s) by nia. unfold fb_pixel.
  rewrite (uN_small 32 x), (uN_small 32 y), (uN_small 32 (y * _)) by (unfold is_uN; lia). rewrite (proj2 (Z.ltb_lt _ _)) by lia.
  eexists. split; [done|]. by destruct s.
Qed.

(** A cell next to the cursor. *)
Lemma cell_index s x y : fits s → near s → 0 ≤ x < glyphw (fnt s) → 0 ≤ y < glyphh (fnt s) →
  cx s + x + (cy s + y) * width s < width s * height s.
Proof. intros Hf (N1 & N2 & N3 & N4) Hx Hy. destruct (fit_screen s Hf) as (F1 & F2 & F3). pose proof (fit_w s Hf). nia. Qed.

Lemma cell_pixel s x y c t : fits s → near s → 0 ≤ x < glyphw (fnt s) → 0 ≤ y < glyphh (fnt s) → same s t →
  ∃ t', fb_pixel (cx t + x) (cy t + y) c t = Ok t' ∧ same s t'.
Proof.
  intros Hf Hn Hx Hy Ht. pose proof (cell_index s x y Hf Hn Hx Hy) as Hi. destruct Hn as (N1 & N2 & N3 & N4).
  destruct (fb_pixel_Ok t (cx t + x) (cy t + y) c (fits_same _ _ Ht Hf)) as (t' & E & Hs); try (rewrite Ht; cbn; lia).
  exists t'. split; [done|by eapply pic_trans].
Qed.

Lemma cursor_cell_Ok c s : fits s → near s → ∃ s', cursor_cell c s = Ok s' ∧ same s s'.
Proof.
  intros Hf Hn. pose proof (fit_w s Hf). pose proof (fit_h s Hf) as Hh. unfold cursor_cell. cbv zeta. apply for_rounds_total; [apply pic_refl|].
  intros x t Ht (n & Hx & ->). apply for_rounds_total; [done|]. intros y u Hu (k & Hy & ->).
  rewrite (uN_small 32 (glyphh (fnt s) - 2)) in * by (unfold is_uN; lia). apply (cell_pixel s); try done; lia.
Qed.

Lemma near_inside s : fits s → inside s → near s.
Proof. intros Hf (H1 & H2 & H3). pose proof (fit_w s Hf). destruct (fit_screen s Hf). unfold near. lia. Qed.

(** *** What is drawn stays in the buffer *)

(** The font and the screen's size are the same, and so is everything outside the pixels of the back buffer. *)
Definition keeps (s s' : console) : Prop := fnt s' = fnt s ∧ width s' = width s ∧ height s' = height s ∧ screen s' = screen s ∧
  ∀ j, ¬ (0 ≤ j < width s * height s) → backbuf s' j = backbuf s j.
#[global] Instance keeps_po : PreOrder keeps.
Proof.
  split; [by intros s|]. intros s1 s2 s3 (A1 & A2 & A3 & A4 & A5) (B1 & B2 & B3 & B4 & B5). repeat (split; [congruence|]).
  intros j Hj. rewrite B5 by (by rewrite A2, A3). by apply A5.
Qed.
Lemma at_keeps s x y : keeps s (at_ s x y).
Proof. done. Qed.
Lemma pixel_keeps x y c s s' : fb_pixel x y c s = Ok s' → keeps s s'.
Proof.
  unfold fb_pixel. destruct (Z.ltb_spec (u32 x + u32 (u32 y * width s)) (width s * height s)) as [Hi|]; [|done]. intros [= <-].
  repeat (split; [done|]). intros j Hj. cbn. destruct (uN_range 32 x ltac:(lia)) as [? _]. destruct (uN_range 32 (u32 y * width s) ltac:(lia)) as [? _].
  destruct (Z.eqb_spec j (u32 x + u32 (u32 y * width s))); [lia|done].
Qed.
Lemma rounds_keeps body i step k s s' : (∀ j t t', body j t = Ok t' → keeps t t') → for_rounds body i step k s = Ok s' → keeps s s'.
Proof.
  intros Hb. apply (for_rounds_inv body step (λ _ t, keeps s t)); [done|]. intros j t t' Ht E. etrans; [exact Ht|by eapply Hb].
Qed.
Lemma cursor_keeps c s s' : cursor_cell c s = Ok s' → keeps s s'.
Proof. unfold cursor_cell. cbv zeta. apply rounds_keeps. intros x t t'. apply rounds_keeps. intros y u u'. apply pixel_keeps. Qed.
Lemma glyph_keeps start s s' : draw_glyph start s = Ok s' → keeps s s'.
Proof.
  unfold draw_glyph. cbv zeta. apply rounds_keeps. intros y t t' E. apply bind_Ok in E as (row & _ & E). revert E. apply rounds_keeps. intros x u u'. apply pixel_keeps.
Qed.
Lemma copy_keeps dst src n s s' : copy_pixels dst src n s = Ok s' → keeps s s'.
Proof.
  unfold copy_pixels, in_buffer. destruct (_ && _) eqn:E; [|done]. rewrite !andb_true_iff, !Z.leb_le in E. intros [= <-]. repeat (split; [done|]). intros j Hj. cbn.
  destruct (Z.leb_spec dst j), (Z.ltb_spec j (dst + n)); cbn [andb]; lia || done.
Qed.
Lemma clear_keeps dst n s s' : clear_pixels dst n s = Ok s' → keeps s s'.
Proof.
  unfold clear_pixels, in_buffer. destruct (_ && _) eqn:E; [|done]. rewrite !andb_true_iff, !Z.leb_le in E. intros [= <-]. repeat (split; [done|]). intros j Hj. cbn.
  destruct (Z.leb_spec dst j), (Z.ltb_spec j (dst + n)); cbn [andb]; lia || done.
Qed.
Lemma newline_keeps s s' : newline s = Ok s' → keeps s s'.
Proof.
  unfold newline. cbv zeta. destruct (_ <=? _); [|by intros [= <-]]. unfold con_scroll. cbv zeta. intros E. apply bind_Ok in E as (t & E1 & E2).
  apply copy_keeps in E1. apply clear_keeps in E2. etrans; [|etrans; [exact E1|]]; [apply at_keeps|]. etrans; [apply at_keeps|exact E2].
Qed.
Lemma putc_newline_keeps s s' : putc_newline s = Ok s' → keeps s s'.
Proof.
  unfold putc_newline, con_clear_cursor, con_put_cursor. intros E. apply bind_Ok in E as (s1 & E1%cursor_keeps & E). apply bind_Ok in E as (s2 & E2%newline_keeps & E%cursor_keeps).
  etrans; [exact E1|]. etrans; [exact E2|exact E].
Qed.
Lemma put_cursor_keeps s x y s' : con_put_cursor (at_ s x y) = Ok s' → keeps s s'.
Proof. intros E%cursor_keeps. etrans; [apply at_keeps|exact E]. Qed.
Lemma putc_glyph_keeps c s s' : putc_glyph c s = Ok s' → keeps s s'.
Proof.
  unfold putc_glyph, con_clear_cursor. cbv zeta. intros E. apply bind_Ok in E as (s1 & E1%cursor_keeps & E). apply bind_Ok in E as (s2 & E2 & E).
  apply bind_Ok in E as (s3 & E3%glyph_keeps & E%put_cursor_keeps). etrans; [exact E1|]. etrans; [|etrans; [exact E3|exact E]].
  destruct (_ <? _); [by apply putc_newline_keeps|by injection E2 as <-].
Qed.
Lemma con_putc_keeps c s s' : con_putc c s = Ok s' → keeps s s'.
Proof.
  unfold con_putc, con_clear_cursor. cbv zeta. destruct (c =? 10); [apply putc_newline_keeps|]. destruct (c =? 9); [|destruct (c =? 8); [|destruct (c =? 13); [|apply putc_glyph_keeps]]]; intros E.
  - apply bind_Ok in E as (s1 & E1%cursor_keeps & E). apply bind_Ok in E as (s2 & E2 & E%cursor_keeps). etrans; [exact E1|]. etrans; [|exact E].
    destruct (_ <? _); [apply putc_newline_keeps in E2|injection E2 as <-]; (etrans; [apply at_keeps|]; done).
  - apply bind_Ok in E as (s1 & E1%cursor_keeps & E). apply bind_Ok in E as (s2 & E2%cursor_keeps & E). apply bind_Ok in E as (s3 & E3%putc_glyph_keeps & E).
    apply bind_Ok in E as (s4 & E4%cursor_keeps & E%put_cursor_keeps). etrans; [exact E1|]. etrans; [exact E2|]. etrans; [apply at_keeps|]. etrans; [exact E3|]. etrans; [exact E4|exact E].
  - apply bind_Ok in E as (s1 & E1%cursor_keeps & E%put_cursor_keeps). etrans; [exact E1|exact E].
Qed.
Lemma put_string_keeps l : ∀ s s', put_string l s = Ok s' → keeps s s'.
Proof.
  induction l as [|c l IH]; intros s s' E; cbn [put_string] in E; [by injection E as <-|]. apply bind_Ok in E as (s1 & E1%con_putc_keeps & E). etrans; [exact E1|by apply IH].
Qed.

(** A new line keeps the cursor on the screen, scrolling when it must. *)
Lemma newline_inside s : fits s → near s → ∃ s', newline s = Ok s' ∧ fits s' ∧ inside s' ∧ cx s' = 0.
Proof.
  intros Hf (N1 & N2 & N3 & N4). pose proof (fit_h s Hf) as Hh. pose proof (fit_w s Hf). destruct (fit_screen s Hf) as (F1 & F2 & F3).
  assert (height s ≤ width s * height s) by nia. unfold newline. cbv zeta. cbn [cy height fnt at_].
  rewrite (uN_small 32 (cy s + _ + _)), (uN_small 32 (height s - _)) by (unfold is_uN, con_pady; lia).
  destruct (Z.leb_spec (height s - glyphh (fnt s)) (cy s + glyphh (fnt s) + con_pady)).
  - unfold con_scroll. cbv zeta. cbn [fnt width height at_]. unfold copy_pixels, in_buffer. cbn [width height at_].
    assert (0 ≤ width s * (height s - (glyphh (fnt s) + con_pady)) ∧ 0 ≤ width s * (glyphh (fnt s) + con_pady)) as [W1 W2] by (unfold con_pady; nia).
    assert (width s * (glyphh (fnt s) + con_pady) + width s * (height s - (glyphh (fnt s) + con_pady)) = width s * height s) as W3 by lia.
    match goal with |- context [if ?b then Ok (draw ?x _) else Fault] => assert (b = true) as -> by (rewrite !andb_true_iff, !Z.leb_le; lia) end.
    cbn [mbind res_bind]. unfold clear_pixels, in_buffer. cbn [width height fnt at_ draw cy].
    match goal with |- context [if ?b then Ok _ else Fault] => assert (b = true) as -> by (rewrite !andb_true_iff, !Z.leb_le; lia) end.
    eexists. split; [done|]. unfold inside. cbn [fnt width height cx cy at_ draw]. rewrite uN_small by (unfold is_uN, con_pady; lia). split_and!; try lia; [|unfold con_pady; lia..].
    destruct Hf as [A B C D E]. by split.
  - eexists. split; [done|]. unfold inside. cbn. split_and!; try lia; try (unfold con_pady in *; lia). destruct Hf as [A B C D E]. by split.
Qed.

Lemma putc_newline_inside s : fits s → near s → ∃ s', putc_newline s = Ok s' ∧ fits s' ∧ inside s' ∧ cx s' = 0.
Proof.
  intros Hf Hn. unfold putc_newline, con_clear_cursor, con_put_cursor. destruct (cursor_cell_Ok (color_bg s) s Hf Hn) as (s1 & -> & E1). cbn [mbind res_bind].
  pose proof (fits_same _ _ E1 Hf) as Hf1. assert (near s1) as Hn1 by (rewrite E1; exact Hn).
  destruct (newline_inside s1 Hf1 Hn1) as (s2 & -> & Hf2 & Hi2 & Hx2). cbn [mbind res_bind].
  destruct (cursor_cell_Ok (color_fg s2) s2 Hf2 (near_inside _ Hf2 Hi2)) as (s3 & -> & E3). exists s3.
  split_and!; [done|by eapply fits_same| |]; rewrite E3; done.
Qed.

Lemma draw_glyph_Ok c s : fits s → near s → 0 ≤ c < 128 → ∃ s', draw_glyph (c * glyphsize (fnt s)) s = Ok s' ∧ same s s'.
Proof.
  intros Hf Hn Hc. pose proof (fit_w s Hf). pose proof (fit_h s Hf). pose proof (fit_size s Hf). pose proof (fit_glyphs s Hf).
  unfold draw_glyph. cbv zeta. apply for_rounds_total; [apply pic_refl|]. intros y t Ht (n & Hy & ->).
  unfold glyph_row. rewrite (proj2 (Z.ltb_ge 8 _)) by lia.
  destruct (zlookup_in (glyphs (fnt s)) (c * glyphsize (fnt s) + (0 + Z.of_nat n * 1))) as [row ->]; [nia|]. cbn [deref mbind res_bind].
  apply for_rounds_total; [done|]. intros x u Hu (k & Hx & ->). apply (cell_pixel s); try done; lia.
Qed.

Lemma at_fits s x y : fits s → fits (at_ s x y).
Proof. intros [A B C D E]. by split. Qed.

(** The step that every character ends with. *)
Lemma put_cursor_inside s : fits s → inside s → ∃ s', con_put_cursor s = Ok s' ∧ fits s' ∧ inside s'.
Proof.
  intros Hf Hi. destruct (cursor_cell_Ok (color_fg s) s Hf (near_inside _ Hf Hi)) as (s' & E & Hs). exists s'.
  split; [done|]. split; [by eapply fits_same|by rewrite Hs].
Qed.

Lemma putc_newline_font s s' : fits s → near s → putc_newline s = Ok s' → fnt s' = fnt s.
Proof.
  intros Hf Hn E. unfold putc_newline, con_clear_cursor, con_put_cursor in E.
  destruct (cursor_cell_Ok (color_bg s) s Hf Hn) as (s1 & E1 & S1). rewrite E1 in E. cbn [mbind res_bind] in E.
  pose proof (fits_same _ _ S1 Hf) as Hf1. assert (near s1) as Hn1 by (rewrite S1; exact Hn).
  destruct (newline_inside s1 Hf1 Hn1) as (s2 & E2 & Hf2 & Hi2 & _). rewrite E2 in E. cbn [mbind res_bind] in E.
  destruct (cursor_cell_Ok (color_fg s2) s2 Hf2 (near_inside _ Hf2 Hi2)) as (s3 & E3 & S3). rewrite E3 in E. injection E as <-.
  rewrite S3. cbn. rewrite (proj1 (newline_keeps _ _ E2)), S1. done.
Qed.

Lemma putc_glyph_inside c s : fits s → inside s → 0 ≤ c < 128 → ∃ s', putc_glyph c s = Ok s' ∧ fits s' ∧ inside s'.
Proof.
  intros Hf Hi Hc. pose proof (fit_w s Hf) as Hw. destruct (fit_screen s Hf) as (F1 & F2 & F3). unfold putc_glyph, con_clear_cursor. cbv zeta.
  destruct (cursor_cell_Ok (color_bg s) s Hf (near_inside _ Hf Hi)) as (s1 & -> & E1). cbn [mbind res_bind].
  pose proof (fits_same _ _ E1 Hf) as Hf1. assert (inside s1) as Hi1 by (by rewrite E1). assert (fnt s = fnt s1 ∧ width s = width s1) as [-> Ew] by (by rewrite E1).
  rewrite Ew in F1, F3. assert (width s1 ≤ width s1 * height s) by nia.
  assert (∃ s2, (if width s1 <? u32 (cx s1 + glyphw (fnt s1) + con_padx) then putc_newline s1 else Ok s1) = Ok s2 ∧ fits s2 ∧ inside s2 ∧
    cx s2 + glyphw (fnt s2) + 1 ≤ width s2 ∧ fnt s2 = fnt s1) as (s2 & -> & Hf2 & Hi2 & Hx2 & Hfn).
  { pose proof Hi1 as (I1 & I2 & I3). pose proof (fit_w s1 Hf1). unfold con_padx. rewrite uN_small by (unfold is_uN; lia). destruct (Z.ltb_spec (width s1) (cx s1 + glyphw (fnt s1) + 1)).
    - destruct (putc_newline_inside s1 Hf1 (near_inside _ Hf1 Hi1)) as (s2 & E & Hf2 & Hi2 & Hx2). exists s2.
      pose proof (putc_newline_font s1 s2 Hf1 (near_inside _ Hf1 Hi1) E) as Hfn. destruct (fit_screen s2 Hf2). pose proof (fit_w s2 Hf2).
      assert (cx s2 + glyphw (fnt s2) + 1 ≤ width s2) as Hcx by lia. exact (conj E (conj Hf2 (conj Hi2 (conj Hcx Hfn)))).
    - exists s1. assert (cx s1 + glyphw (fnt s1) + 1 ≤ width s1) as Hcx by lia. exact (conj eq_refl (conj Hf1 (conj Hi1 (conj Hcx eq_refl)))). }
  cbn [mbind res_bind]. rewrite <- Hfn. destruct (draw_glyph_Ok c s2 Hf2 (near_inside _ Hf2 Hi2) Hc) as (s3 & -> & E3). cbn [mbind res_bind].
  pose proof (fits_same _ _ E3 Hf2) as Hf3. assert (cx s3 = cx s2 ∧ cy s3 = cy s2 ∧ fnt s3 = fnt s2 ∧ width s3 = width s2 ∧ height s3 = height s2) as (G1 & G2 & G3 & G4 & G5)
    by (by rewrite E3).
  destruct (fit_screen s2 Hf2) as (K1 & K2 & K3). assert (width s2 ≤ width s2 * height s2) by (pose proof (fit_w s2 Hf2); nia).
  apply put_cursor_inside; [by apply at_fits|]. destruct Hi2 as (J1 & J2 & J3). pose proof (fit_w s2 Hf2).
  unfold inside, con_padx. cbn [cx cy fnt width height at_]. rewrite G1, G2, G3, G4, G5, uN_small by (unfold is_uN; lia). lia.
Qed.

Lemma con_putc_inside c s : fits s → inside s → 0 ≤ c < 128 → c ≠ 8 → ∃ s', con_putc c s = Ok s' ∧ fits s' ∧ inside s'.
Proof.
  intros Hf Hi Hc H8. pose proof (fit_w s Hf) as Hw. destruct (fit_screen s Hf) as (F1 & F2 & F3). pose proof Hi as (I1 & I2 & I3).
  assert (width s ≤ width s * height s) by nia. pose proof (near_inside _ Hf Hi) as Hn. unfold con_putc. cbv zeta.
  destruct (c =? 10). { destruct (putc_newline_inside s Hf Hn) as (s' & E & Hf' & Hi' & _). by exists s'. }
  destruct (c =? 9); [|rewrite (proj2 (Z.eqb_neq c 8)) by done; destruct (c =? 13)].
  - destruct (cursor_cell_Ok (color_bg s) s Hf Hn) as (s1 & E1 & S1). unfold con_clear_cursor. rewrite E1. cbn [mbind res_bind].
    pose proof (fits_same _ _ S1 Hf) as Hf1. assert (cx s1 = cx s ∧ cy s1 = cy s ∧ fnt s1 = fnt s ∧ width s1 = width s ∧ height s1 = height s) as (G1 & G2 & G3 & G4 & G5) by (by rewrite S1).
    rewrite G1, G2. set (cw := glyphw (fnt s) + con_padx). assert (2 ≤ cw ≤ 9) as Hcw by (unfold cw, con_padx; lia).
    rewrite (uN_small 32 (cx s + cw)) by (unfold is_uN; lia). unfold TAB_WIDTH.
    pose proof (alignN_bounds 32 (cx s + cw) (cw * 8) ltac:(lia) ltac:(lia) ltac:(lia) ltac:(lia)) as Ha. set (a := align32 _ _) in *.
    pose proof (at_fits s1 a (cy s) Hf1) as Hfa.
    assert (∃ s2, (if width (at_ s1 a (cy s)) <? u32 (cx (at_ s1 a (cy s)) + cw) then putc_newline (at_ s1 a (cy s)) else Ok (at_ s1 a (cy s))) = Ok s2 ∧
      fits s2 ∧ inside s2) as (s2 & -> & Hf2 & Hi2).
    { cbn [width cx at_]. rewrite uN_small by (unfold is_uN; lia). destruct (Z.ltb_spec (width s1) (a + cw)).
      - destruct (putc_newline_inside (at_ s1 a (cy s)) Hfa) as (s2 & E & Hf2 & Hi2 & _); [|by exists s2].
        unfold near. cbn [cx cy fnt width height at_]. rewrite G3, G4, G5. unfold cw, con_padx in *. lia.
      - eexists. split; [done|]. split; [done|]. unfold inside. cbn [cx cy fnt width height at_]. rewrite G3, G4, G5. lia. }
    cbn [mbind res_bind]. by apply put_cursor_inside.
  - destruct (cursor_cell_Ok (color_bg s) s Hf Hn) as (s1 & E1 & S1). unfold con_clear_cursor. rewrite E1. cbn [mbind res_bind].
    apply put_cursor_inside; [apply at_fits; by eapply fits_same|]. rewrite S1. unfold inside. cbn. lia.
  - apply putc_glyph_inside; [done|done|]. unfold iN. rewrite uN_small by (unfold is_uN; lia). destruct (Z.ltb_spec c (2 ^ (8 - 1))); [done|lia].
Qed.

(** ** Copying to the screen *)

Lemma copy_chunks_spec c k from : 0 < c → ∀ i to j,
  copy_chunks c k i from to j = if bool_decide (c * i ≤ j < c * (i + Z.of_nat k)) then from j else to j.
Proof.
  intros Hc. induction k as [|k IH]; intros i to j; cbn [copy_chunks].
  { by rewrite bool_decide_eq_false_2 by lia. }
  rewrite IH. destruct (Z.leb_spec (c * i) j), (Z.ltb_spec j (c * i + c)); cbn [andb]; repeat case_bool_decide; try done; lia.
Qed.

(** Whatever copy is chosen, the screen shows the whole back buffer. *)
Lemma swap_shows s : 0 ≤ width s * height s →
  ∀ j, screen (con_swap_buffers s) j = if bool_decide (0 ≤ j < width s * height s) then backbuf s j else screen s j.
Proof.
  intros Hp j. unfold con_swap_buffers. cbn [screen show]. set (n := width s * height s) in *.
  change 31 with (Z.ones 5). change 7 with (Z.ones 3). rewrite !Z.land_ones by lia. change (2 ^ 5) with 32. change (2 ^ 3) with 8.
  pose proof (Z.div_mod (n * 4) 32) as D32. pose proof (Z.div_mod (n * 4) 8) as D8.
  destruct (Z.eqb_spec ((n * 4) `mod` 32) 0); [|destruct (Z.eqb_spec ((n * 4) `mod` 8) 0)]; cbn [negb];
    rewrite copy_chunks_spec by lia; rewrite Z2Nat.id by (apply Z.div_pos; lia).
  - by replace (8 * (0 + n * 4 / 32)) with n by lia.
  - by replace (2 * (0 + n * 4 / 8)) with n by lia.
  - rewrite Z.div_mul by lia. by replace (1 * (0 + n)) with n by lia.
Qed.

Lemma put_string_inside l : ∀ s, fits s → inside s → Forall (λ c, 0 ≤ c < 128 ∧ c ≠ 8) l → ∃ s', put_string l s = Ok s' ∧ fits s' ∧ inside s'.
Proof.
  induction l as [|c l IH]; intros s Hf Hi Hl; cbn [put_string]; [by exists s|]. apply Forall_cons in Hl as [[Hc H8] Hl].
  destruct (con_putc_inside c s Hf Hi Hc H8) as (s1 & -> & Hf1 & Hi1). cbn [mbind res_bind]. by apply IH.
Qed.

(** ** Properties *)

(** C37: printing any ASCII text without backspaces returns, with a font that has glyphs of 1 to 8 columns for all ASCII characters on
    a screen of at least eleven columns of text, whatever lines are broken, tabs set and lines scrolled away: neither the
    back buffer nor the screen changes outside its pixels, the cursor ends on a row of the screen, in a column or right
    behind the last one, and the screen shows the back buffer. *)
Theorem con_puts_bounds l s : fits s → inside s → Forall (λ c, 0 ≤ c < 128 ∧ c ≠ 8) l →
  ∃ s', con_puts l s = Ok s' ∧ inside s' ∧ fnt s' = fnt s ∧ width s' = width s ∧ height s' = height s ∧
    (∀ j, 0 ≤ j < width s * height s → screen s' j = backbuf s' j) ∧
    (∀ j, ¬ (0 ≤ j < width s * height s) → backbuf s' j = backbuf s j ∧ screen s' j = screen s j).
Proof.
  intros Hf Hi Hl. unfold con_puts. destruct (put_string_inside l s Hf Hi Hl) as (s1 & E & Hf1 & Hi1). rewrite E. cbn [mbind res_bind].
  destruct (put_string_keeps l s s1 E) as (K1 & K2 & K3 & K4 & K5). destruct (fit_screen s1 Hf1) as (F1 & F2 & F3). pose proof (fit_w s1 Hf1).
  eexists. split; [done|]. split; [exact Hi1|]. split; [exact K1|]. split; [exact K2|]. split; [exact K3|]. rewrite <- K2, <- K3 in *. split.
  - intros j Hj. rewrite swap_shows by nia. by rewrite bool_decide_eq_true_2.
  - intros j Hj. rewrite swap_shows by nia. rewrite bool_decide_eq_false_2 by done. split; [by apply K5|by rewrite K4].
Qed.

(** A font of 4 columns and 3 rows with solid glyphs on a screen of 60 by 9 pixels. *)
Definition demo_con : console :=
  mkCon (mkFont (replicate 384 255) 3 4 3 128) 60 9 0 0 0xffd0d0d0 0xff000000 0 (λ _, 0) (λ _, 0).
Lemma con_puts_bounds_witness :
  ∃ s', con_puts (bytes_of "ab" ++ [9; 10; 10] ++ bytes_of "cdefghijklmnopqrs") demo_con = Ok s' ∧ inside s' ∧ screen s' 181 = backbuf s' 181.
Proof.
  assert (fits demo_con) as Hf by (split; cbn; lia). assert (inside demo_con) as Hi by (unfold inside; cbn; lia).
  assert (Forall (λ c, 0 ≤ c < 128 ∧ c ≠ 8) (bytes_of "ab" ++ [9; 10; 10] ++ bytes_of "cdefghijklmnopqrs")) as Hl
    by (vm_compute; repeat constructor; discriminate).
  destruct (con_puts_bounds _ demo_con Hf Hi Hl) as (s' & E & Hin & _ & _ & _ & Hs & _). exists s'. split; [exact E|]. split; [exact Hin|].
  apply Hs. cbn. lia.
Defined.

(** A line that fills the screen to the last column leaves the cursor behind it: its mark is drawn at the left edge, one row
    of pixels further down. *)
Example cursor_wraps :
  match con_puts (bytes_of "abcdefghijkl") demo_con with
  | Ok s => cx s = width s ∧ backbuf s (60 * 2) = color_fg s | _ => False
  end.
Proof. vm_compute. repeat split. Qed.

(** A backspace in the first column takes the cursor far outside the buffer. *)
Example backspace_leaves_buffer : con_putc 8 demo_con = Fault.
Proof. vm_compute. reflexivity. Qed.

(** Glyphs are drawn one column to the right: the first column stays empty though all bits are set,
    and the bit of the last column is never looked at; glyphs wider than 8 columns are blank. *)
Example glyph_shifted :
  match con_putc 97 demo_con with
  | Ok s => backbuf s 0 = color_bg s ∧ backbuf s 1 = color_fg s ∧ backbuf s 3 = color_fg s
  | _ => False
  end ∧ row_mask (mkFont [] 32 16 16 128) = 0.
Proof. vm_compute. repeat split. Qed.
