(* ===== verification/Machine.v ===== *)
(** The processor glue of the kernel: identification of the processor ([arch/amd64/cpuid.hh]), the
    serial line and the millisecond timer ([arch/amd64/amd64.cc]), the timer chip ([arch/amd64/pit.cc]),
    what is read from the boot loader and the list of periodic tasks ([arch/arch.cc]).

    The instruction [cpuid], the line status register and the passing of time are parameters.  A loop
    that waits for the hardware is [spin]: it looks at the state, and when it does not leave, the
    hardware makes a step.  [Ticking] is what such loops rely on. *)
From S2P Require Import Prelude Arith Strings.

(** ** Waiting for the hardware *)

Section Spin.
Context {S R : Type} (hw : S → S) (look : S → option (res R)).

(** [while] loops over volatile state: [look] is [None] as long as the loop goes on. *)
Fixpoint spin (fuel : nat) (s : S) : res R :=
  match fuel with
  | O => NoFuel
  | Datatypes.S k => match look s with Some r => r | None => spin k (hw s) end
  end.

(** A loop that can be left is left at the first occasion, with any fuel beyond it. *)
Lemma spin_leaves n : ∀ s, look (Nat.iter n hw s) ≠ None →
  ∃ k r, (k ≤ n)%nat ∧ look (Nat.iter k hw s) = Some r ∧ (∀ m, (m < k)%nat → look (Nat.iter m hw s) = None) ∧
    ∀ fuel, (n < fuel)%nat → spin fuel s = r.
Proof.
  induction n as [|n IH]; intros s Hn.
  - cbn in Hn. destruct (look s) as [r|] eqn:E; [|done]. exists 0%nat, r. split_and!; [lia|done|lia|].
    intros [|f] Hf; [lia|]. cbn. by rewrite E.
  - destruct (look s) as [r|] eqn:E.
    { exists 0%nat, r. split_and!; [lia|done|lia|]. intros [|f] Hf; [lia|]. cbn. by rewrite E. }
    rewrite Nat.iter_succ_r in Hn. destruct (IH _ Hn) as (k & r & Hk & Hr & Hm & Hf).
    exists (Datatypes.S k), r. rewrite Nat.iter_succ_r. split_and!; [lia|done| |].
    + intros [|m] ?; [done|]. rewrite Nat.iter_succ_r. apply Hm. lia.
    + intros [|f] ?; [lia|]. cbn. rewrite E. apply Hf. lia.
Qed.
End Spin.

(** Time does not go back, and [rate] steps of the hardware bring the counter on; the counter of 64 bits
    is far from its end. *)
Class Ticking {S : Type} (now : S → Z) (hw : S → S) := {
  rate : nat;
  tick_mono : ∀ s, now s ≤ now (hw s);
  tick_rate : ∀ s, now s < 2 ^ 63 → now s < now (Nat.iter rate hw s) }.

Section Time.
Context {S : Type} (now : S → Z) (hw : S → S) {HT : Ticking now hw}.

Lemma now_iter n : ∀ s, now s ≤ now (Nat.iter n hw s).
Proof using HT. induction n as [|n IH]; intros s; [done|]. rewrite Nat.iter_succ_r. specialize (IH (hw s)). pose proof (tick_mono (now := now) (hw := hw) s). lia. Qed.

Lemma now_reaches t s : t ≤ 2 ^ 63 → ∃ n, t ≤ now (Nat.iter n hw s).
Proof using HT.
  intros Ht. assert (∀ d, 0 ≤ d → ∀ s, t - now s ≤ d → ∃ n, t ≤ now (Nat.iter n hw s)) as H.
  { apply (natlike_ind (λ d, ∀ s, t - now s ≤ d → ∃ n, t ≤ now (Nat.iter n hw s))).
    - intros s' Hd. exists 0%nat. change (Nat.iter 0 hw s') with s'. cbn beta in Hd. lia.
    - intros d Hd IH s' Hs. cbn beta in *. destruct (Z.le_gt_cases t (now s')) as [Hle|Hgt]; [by exists 0%nat|].
      assert (now s' < now (Nat.iter rate hw s')) as Hr by (apply tick_rate; lia). destruct (IH (Nat.iter rate hw s')) as [n Hn]; [lia|].
      exists (n + rate)%nat. by rewrite Nat.iter_add. }
  destruct (Z.le_gt_cases (now s) t) as [Hle|Hgt]; [apply (H (t - now s)); lia|]. exists 0%nat. change (Nat.iter 0 hw s) with s. lia.
Qed.
End Time.

(** ** The timer of the kernel *)

(** [tmr_counter], and the [timer] of [arch_start_timer]. *)
Record timers := mkTimers { tmr_counter : Z; timer : Z }.
Definition arch_start_timer (t : timers) : timers := mkTimers (tmr_counter t) (tmr_counter t).
Definition arch_ms_passed (t : timers) : Z := u64 (tmr_counter t - timer t).
Definition arch_elapsed (t : timers) (ms : Z) : bool := u64 (timer t + ms) <? tmr_counter t.

(** [arch_sleep(ms, skippable)]; [halt] is [hlt], which returns after an interrupt. *)
Section Sleep.
Context {S : Type} (clock : S → timers) (halt : S → S).
Definition arch_sleep (fuel : nat) (is_emu : bool) (ms : Z) (skippable : bool) (s : S) : res S :=
  if skippable && is_emu then Ok s else
  let end_ := u64 (tmr_counter (clock s) + ms) in
  spin halt (λ s, if tmr_counter (clock s) <? end_ then None else Some (Ok s)) fuel s.
End Sleep.

(** ** Loops with a deadline *)

Section Timed.
Context {S R : Type} (clock : S → timers) (hw : S → S).
(** [while (busy) if (arch_elapsed(ms)) late;] *)
Definition timed (busy : S → bool) (ms : Z) (late : S → res R) (done_ : S → res R) (s : S) : option (res R) :=
  if busy s then if arch_elapsed (clock s) ms then Some (late s) else None else Some (done_ s).

Context {HT : Ticking (λ s, tmr_counter (clock s)) hw} (Hkeep : ∀ s, timer (clock (hw s)) = timer (clock s)).

Lemma timer_iter n : ∀ s, timer (clock (Nat.iter n hw s)) = timer (clock s).
Proof using Hkeep. induction n as [|n IH]; intros s; [done|]. by rewrite Nat.iter_succ_r, IH, Hkeep. Qed.

(** Such a loop always ends, either with its condition or with the deadline passed. *)
Lemma timed_ends busy ms late done_ s : 0 ≤ timer (clock s) → 0 ≤ ms → timer (clock s) + ms < 2 ^ 63 →
  ∃ n, timed busy ms late done_ (Nat.iter n hw s) ≠ None.
Proof using HT Hkeep.
  intros H0 Hms Hb. destruct (now_reaches (λ s, tmr_counter (clock s)) hw (timer (clock s) + ms + 1) s ltac:(lia)) as [n Hn].
  exists n. unfold timed, arch_elapsed. rewrite timer_iter, uN_small by (unfold is_uN; lia).
  cbn beta in Hn. rewrite (proj2 (Z.ltb_lt _ _)) by lia. by destruct (busy _).
Qed.

Lemma timed_result busy ms late done_ s : 0 ≤ timer (clock s) → 0 ≤ ms → timer (clock s) + ms < 2 ^ 63 →
  ∃ n fuel0, ∀ fuel, (fuel0 ≤ fuel)%nat → let s' := Nat.iter n hw s in
    (busy s' = false ∧ spin hw (timed busy ms late done_) fuel s = done_ s') ∨
    (busy s' = true ∧ arch_elapsed (clock s') ms = true ∧ spin hw (timed busy ms late done_) fuel s = late s').
Proof using HT Hkeep.
  intros H0 Hms Hb. destruct (timed_ends busy ms late done_ s H0 Hms Hb) as [n Hn].
  destruct (spin_leaves hw _ n s Hn) as (k & r & _ & Hr & _ & Hf). exists k, (Datatypes.S n). intros fuel Hfu. cbn zeta.
  rewrite (Hf fuel) by lia. unfold timed in Hr. destruct (busy _) eqn:Eb; [|left; split; congruence].
  destruct (arch_elapsed _ _) eqn:El; [|done]. right. split_and!; congruence.
Qed.

(** When the hardware clears the condition in time, the loop ends there. *)
Lemma timed_done busy ms late done_ n s : busy (Nat.iter n hw s) = false →
  (∀ m, (m < n)%nat → busy (Nat.iter m hw s) = true ∧ arch_elapsed (clock (Nat.iter m hw s)) ms = false) →
  ∀ fuel, (n < fuel)%nat → spin hw (timed busy ms late done_) fuel s = done_ (Nat.iter n hw s).
Proof.
  intros Hn Hm. assert (timed busy ms late done_ (Nat.iter n hw s) = Some (done_ (Nat.iter n hw s))) as Hd by (unfold timed; by rewrite Hn).
  destruct (spin_leaves hw (timed busy ms late done_) n s) as (k & r & Hk & Hr & _ & Hf); [congruence|].
  destruct (decide (k = n)) as [->|Hkn]; [intros fuel Hfu; rewrite Hf by lia; congruence|].
  destruct (Hm k ltac:(lia)) as [Hb Hl]. unfold timed in Hr. by rewrite Hb, Hl in Hr.
Qed.
End Timed.

(** [arch_sleep] returns, and not before the counter has reached the end of the pause. *)
Lemma arch_sleep_returns {S} (clock : S → timers) (halt : S → S) `{HT : !Ticking (λ s, tmr_counter (clock s)) halt} ms s :
  0 ≤ tmr_counter (clock s) → 0 ≤ ms → tmr_counter (clock s) + ms ≤ 2 ^ 63 →
  ∃ fuel0 n, let s' := Nat.iter n halt s in tmr_counter (clock s) + ms ≤ tmr_counter (clock s') ∧
    ∀ fuel skippable, (fuel0 ≤ fuel)%nat → arch_sleep clock halt fuel false ms skippable s = Ok s'.
Proof.
  intros H0 Hms Hb. destruct (now_reaches _ halt (tmr_counter (clock s) + ms) s ltac:(lia)) as [n Hn].
  set (look := λ s', if tmr_counter (clock s') <? tmr_counter (clock s) + ms then None else Some (Ok s')).
  destruct (spin_leaves halt look n s) as (k & r & _ & Hr & _ & Hf).
  { unfold look. by rewrite (proj2 (Z.ltb_ge _ _)) by done. }
  exists (Datatypes.S n), k. cbn zeta. unfold look in Hr. case_match eqn:El; [done|]. apply Z.ltb_ge in El. split; [done|].
  intros fuel skip Hfu. unfold arch_sleep. rewrite andb_false_r, uN_small by (unfold is_uN; lia). fold look. rewrite Hf by lia. congruence.
Qed.

(** ** The timer chip *)

Definition PIT_IO_CH0 : Z := 0x40.
Definition PIT_IO_CMD : Z := 0x43.
Definition PIT_RATE_GEN : Z := 2.
Definition PIT_LOHIBYTE : Z := 3.
(** [pit_cmd_t] *)
Definition pit_cmd (bcd operation access ch : Z) : Z :=
  Z.lor (Z.lor bcd (Z.shiftl operation 1)) (Z.lor (Z.shiftl access 4) (Z.shiftl ch 6)).
(** The bytes [arch_pit_init] sends, each with its port. *)
Definition pit_count : Z := 1250.
Definition arch_pit_init : list (Z * Z) :=
  [(PIT_IO_CMD, pit_cmd 0 PIT_RATE_GEN PIT_LOHIBYTE 0); (PIT_IO_CH0, Z.land pit_count 0xff);
   (PIT_IO_CH0, Z.shiftr (Z.land pit_count 0xff00) 8)].

(** What the chip makes of the bytes of a low-then-high access: the reload value of channel 0. *)
Definition pit_reload (l : list (Z * Z)) : option Z :=
  match l with
  | [(0x43, 0x34); (0x40, lo); (0x40, hi)] => Some (lo + 256 * hi)
  | _ => None
  end.
Lemma pit_programmed : pit_reload arch_pit_init = Some 1250.
Proof. reflexivity. Qed.
(** The chip counts at 1193182 Hz, so a tick takes more than the millisecond it is meant to be, by over 4%. *)
Lemma pit_tick_long n : pit_reload arch_pit_init = Some n → 1193182 * 104 < n * 1000 * 100.
Proof. rewrite pit_programmed. intros [= <-]. lia. Qed.

(** ** The serial line *)

Definition PORT : Z := 0x3f8.
Definition sinit : list (Z * Z) :=
  [(PORT + 1, 0x00); (PORT + 3, 0x80); (PORT + 0, 0x03); (PORT + 1, 0x00); (PORT + 3, 0x03); (PORT + 2, 0xC7);
   (PORT + 4, 0x1E); (PORT + 0, 0xAE); (PORT + 4, 0x0F)].

(** The line: how often the status has been read, the bytes written so far, and the bytes waiting to be read. *)
Record serial := mkSerial { polls : nat; out : list (Z * Z); rx : list Z }.

Section Serial.
(** What the n-th read of the line status register gives. *)
Context (lsr : nat → Z).

Definition poll_lsr (fuel : nat) (mask : Z) (s : serial) : res serial :=
  spin (λ s, mkSerial (S (polls s)) (out s) (rx s))
    (λ s, if Z.land (lsr (polls s)) mask =? 0 then None else Some (Ok (mkSerial (S (polls s)) (out s) (rx s)))) fuel s.
Definition put1 (fuel : nat) (c : Z) (s : serial) : res serial :=
  s ← poll_lsr fuel 0x20 s; Ok (mkSerial (polls s) (out s ++ [(PORT, c)]) (rx s)).
(** [sputc]; its call of itself is with a character that is not a line feed. *)
Definition sputc (fuel : nat) (c : Z) (s : serial) : res serial :=
  s ← put1 fuel c s;
  if c =? 10 then put1 fuel 13 s else Ok s.
Fixpoint sputs (fuel : nat) (str : list Z) (s : serial) : res serial :=
  match str with
  | [] => Fault
  | c :: str => if c =? 0 then Ok s else s ← sputc fuel c s; sputs fuel str s
  end.
Definition sgetc (fuel : nat) (s : serial) : res (Z * serial) :=
  s ← poll_lsr fuel 1 s;
  match rx s with [] => Fault | c :: l => Ok (c, mkSerial (polls s) (out s) l) end.

(** The text with every line feed completed. *)
Definition crlf (c : Z) : list Z := if c =? 10 then [10; 13] else [c].

Context (Hready : ∀ n, ∃ m, (n ≤ m)%nat ∧ Z.land (lsr m) 0x20 ≠ 0).

Lemma polls_iter n : ∀ s, Nat.iter n (λ s, mkSerial (S (polls s)) (out s) (rx s)) s = mkSerial (n + polls s) (out s) (rx s).
Proof. induction n as [|n IH]; intros s; [by destruct s|]. rewrite Nat.iter_succ, IH. reflexivity. Qed.

Lemma put1_Ok c s : ∃ fuel0 p, ∀ fuel, (fuel0 ≤ fuel)%nat → put1 fuel c s = Ok (mkSerial p (out s ++ [(PORT, c)]) (rx s)).
Proof using Hready.
  destruct (Hready (polls s)) as (m & Hm & Hr). unfold put1, poll_lsr.
  match goal with |- context [spin ?h ?l] => destruct (spin_leaves h l (m - polls s) s) as (k & r & _ & Hk & _ & Hf) end.
  { rewrite polls_iter. cbn [polls]. replace (m - polls s + polls s)%nat with m by lia. by rewrite (proj2 (Z.eqb_neq _ 0)). }
  rewrite polls_iter in Hk. cbn [polls out rx] in Hk. case_match; [done|]. injection Hk as <-.
  exists (S (m - polls s)), (S (k + polls s)). intros fuel Hfu. rewrite Hf by lia. reflexivity.
Qed.

Lemma sputc_Ok c s : ∃ fuel0 p, ∀ fuel, (fuel0 ≤ fuel)%nat → sputc fuel c s = Ok (mkSerial p (out s ++ map (pair PORT) (crlf c)) (rx s)).
Proof using Hready.
  destruct (put1_Ok c s) as (f1 & p1 & H1). unfold sputc, crlf. destruct (Z.eqb_spec c 10) as [->|Hc].
  - destruct (put1_Ok 13 (mkSerial p1 (out s ++ [(PORT, 10)]) (rx s))) as (f2 & p2 & H2). exists (f1 + f2)%nat, p2. intros fuel Hf.
    rewrite H1 by lia. cbn [mbind res_bind]. rewrite H2 by lia. cbn [out rx map]. by rewrite <- app_assoc.
  - exists f1, p1. intros fuel Hf. by rewrite H1 by lia.
Qed.

(** On a line whose transmitter is ready again and again, every character of a string is sent, in order,
    every line feed followed by a carriage return, and the call returns. *)
Lemma sputs_sends str : Forall (λ c, c ≠ 0) str → ∀ rest s, ∃ fuel0 p, ∀ fuel, (fuel0 ≤ fuel)%nat →
  sputs fuel (str ++ 0 :: rest) s = Ok (mkSerial p (out s ++ map (pair PORT) (concat (map crlf str))) (rx s)).
Proof using Hready.
  induction 1 as [|c str Hc _ IH]; intros rest s.
  - exists 0%nat, (polls s). intros fuel _. cbn. rewrite app_nil_r. by destruct s.
  - destruct (sputc_Ok c s) as (f1 & p1 & H1). destruct (IH rest (mkSerial p1 (out s ++ map (pair PORT) (crlf c)) (rx s))) as (f2 & p2 & H2).
    exists (f1 + f2)%nat, p2. intros fuel Hf. cbn [app sputs]. rewrite (proj2 (Z.eqb_neq c 0)) by done.
    rewrite H1 by lia. cbn [mbind res_bind]. rewrite H2 by lia. cbn [out rx map concat]. by rewrite map_app, app_assoc.
Qed.
End Serial.

(** ** Which processor this is *)

(** The registers [cpuid] leaves: [eax], [ebx], [ecx], [edx]. *)
Record regs := mkRegs { eax : Z; ebx : Z; ecx : Z; edx : Z }.
(** A character constant of four characters, the first in the top byte. *)
Definition multichar (s : string) : Z := foldl (λ v c, v * 256 + c) 0 (bytes_of s).

Section Cpuid.
Context (cpuid : Z → regs).
Definition cpuid_is_emu : bool :=
  let r := cpuid 0x40000000 in (ebx r =? multichar "KMVK") || (ebx r =? multichar "TGCT").
Definition cpuid_is_intel : bool :=
  let r := cpuid 0 in (ebx r =? multichar "uneG") && (edx r =? multichar "Ieni") && (ecx r =? multichar "letn").
Definition cpuid_is_amd : bool :=
  let r := cpuid 0 in (ebx r =? multichar "htuA") && (edx r =? multichar "itne") && (ecx r =? multichar "DMAc").
Definition cpuid_max_leaf : Z := eax (cpuid 0).
Definition cpuid_pcid_supported : bool := negb (Z.land (ecx (cpuid 1)) (Z.shiftl 1 17) =? 0).
Definition cpuid_x2apic_id : Z := edx (cpuid (if cpuid_is_amd then 0x0b else 0x1f)).
Definition cpuid_x2apic_supported : bool := negb (Z.land (ecx (cpuid 1)) (Z.shiftl 1 21) =? 0).
Definition cpuid_xapic_id : Z := Z.shiftr (ebx (cpuid 1)) 24.
End Cpuid.

(** The twelve characters of the vendor, four in each of [ebx], [edx], [ecx], the first in the lowest byte. *)
Definition word_of (s : string) : Z := foldr (λ c v, c + 256 * v) 0 (bytes_of s).
Definition vendor (r : regs) (a b c : string) : Prop := ebx r = word_of a ∧ edx r = word_of b ∧ ecx r = word_of c.
Lemma vendor_intel cpuid : cpuid_is_intel cpuid = true ↔ vendor (cpuid 0) "Genu" "ineI" "ntel".
Proof. unfold cpuid_is_intel, vendor. cbn zeta. rewrite !andb_true_iff, !Z.eqb_eq. change (multichar "uneG") with (word_of "Genu").
  change (multichar "Ieni") with (word_of "ineI"). change (multichar "letn") with (word_of "ntel"). tauto. Qed.
Lemma vendor_amd cpuid : cpuid_is_amd cpuid = true ↔ vendor (cpuid 0) "Auth" "enti" "cAMD".
Proof. unfold cpuid_is_amd, vendor. cbn zeta. rewrite !andb_true_iff, !Z.eqb_eq. change (multichar "htuA") with (word_of "Auth").
  change (multichar "itne") with (word_of "enti"). change (multichar "DMAc") with (word_of "cAMD"). tauto. Qed.

(** ** What the boot loader says *)

Record framebuffer_t := mkFb { fb_addr : Z; fb_width : Z; fb_height : Z; fb_bpp : Z }.
(** The list of framebuffers of the response, and the two slots of the kernel. *)
Fixpoint copy_fbs (i : nat) (k : nat) (fbs l : list framebuffer_t) : res (list framebuffer_t) :=
  match k with
  | O => Ok fbs
  | S k =>
      f ← deref (l !! i);
      (* the fields of the kernel's structure have 32 bits *)
      copy_fbs (S i) k (<[i := mkFb (fb_addr f) (u32 (fb_width f)) (u32 (fb_height f)) (u32 (fb_bpp f))]> fbs) l
  end.
(** [None]: the loader gave no framebuffer; this is reported, and then the response is used all the same. *)
Definition arch_read_boot_info (fb : option (list framebuffer_t)) (hhdm : option Z) (fbs : list framebuffer_t) : res (list framebuffer_t * Z) :=
  r ← deref fb;
  fbs ← copy_fbs 0 (length r `min` 2) fbs r;
  offset ← deref hhdm;
  Ok (fbs, offset).

(** Without a framebuffer the kernel does not get to its message: it uses the null response. *)
Lemma no_framebuffer_faults hhdm fbs : arch_read_boot_info None hhdm fbs = Fault.
Proof. reflexivity. Qed.

(** ** Periodic tasks *)

Section Tasks.
Context {task : Type}.
(** The list of tasks; [arch_timer_remove] has no body. *)
Definition arch_timer_add (l : list task) (t : task) : list task := l ++ [t].
Definition arch_timer_remove (l : list task) (t : task) : list task := l.
(** A task once added stays. *)
Lemma timer_not_removed l t : t ∈ arch_timer_remove (arch_timer_add l t) t.
Proof. unfold arch_timer_remove, arch_timer_add. apply elem_of_app. right. by apply list_elem_of_singleton. Qed.
End Tasks.
