(* ===== verification/Trace.v ===== *)
(** Stack traces ([util/stacktrace.cc]) and system calls ([arch/amd64/syscalls/syscalls.cc]).

    A trace is the list of the lines it prints.  The kernel's symbol table is the bytes of the kernel
    image ([Elf.ksyms]), which the trace writes to: [closest] is a reference to the first symbol and
    every assignment to it copies a symbol over that one. *)
From S2P Require Import Prelude Arith Mem Strings Msd Elf Bitmap Pmm Paging Module ModuleSpec Sched Console.

(** ** Definitions *)

Inductive line :=
| Plain (rip : Z)
| Named (rip : Z) (name : list Z) (off : Z)
| Invalid (frame : Z).
#[global] Instance line_eq_dec : EqDecision line.
Proof. solve_decision. Defined.

Section Stack.
(** The kernel's memory, its translation, the address of [kmain] and whether the symbols have been read. *)
Context (pml4 : Z) (p : paging) (m : Mem.mem) (kmain : Z) (ksyms_been_read : bool).

(** A word of a stack frame. *)
Definition word (a : Z) : res Z := if mapped pml4 p a && mapped pml4 p (a + 7) then Ok (load64 m a) else Fault.

(** One round of the search: when the address is in the symbol, it is copied over [ksyms[0]]. *)
Definition closest_round (rip i : Z) (ks : ksyms) : res ksyms :=
  tab ← deref (symtab (ktabs ks));
  value ← rd (kimage ks) (tab + 24 * i + 8) 8;
  size ← rd (kimage ks) (tab + 24 * i + 16) 8;
  if (value <=? rip) && (rip <=? u64 (value + size)) then
    img ← wr (kimage ks) tab (take 24 (drop (Z.to_nat (tab + 24 * i)) (kimage ks)));
    Ok (mkKsyms img (ktabs ks))
  else Ok ks.
Definition closest (rip : Z) (ks : ksyms) : res ksyms :=
  for_rounds (closest_round rip) 1 1 (Z.to_nat (default 0 (num_syms (ktabs ks)) - 1)) ks.

Definition trace_line (rip : Z) (ks : ksyms) : res (line * ksyms) :=
  if negb ksyms_been_read then Ok (Plain rip, ks) else
  ks ← closest rip ks;
  tab ← deref (symtab (ktabs ks)); str ← deref (strtab (ktabs ks));
  sym ← rd_sym (kimage ks) tab 0;
  name ← rd_str (kimage ks) (str + st_name sym);
  Ok (Named rip name (u64 (rip - st_value sym)), ks).

Fixpoint frames (max_depth : nat) (s : Z) (ks : ksyms) : res (list line * ksyms) :=
  rip ← word (s + 8);
  if (rip =? kmain) || (rip =? 0) then Ok ([], ks) else
  match max_depth with
  | O => Ok ([], ks)
  | S d =>
      '(l, ks) ← trace_line rip ks;
      next ← word s;
      at_ ← paging_lookup p pml4 next;
      if at_ =? NPOS then Ok ([l; Invalid next], ks) else
      '(ls, ks) ← frames d next ks;
      Ok (l :: ls, ks)
  end.
(** [rbp] is the frame the caller gives, or its own when it gives none. *)
Definition stacktrace (rsp rbp : Z) (ks : ksyms) : res (list line * ksyms) :=
  frames 8 (if rsp =? NPOS then rbp else rsp) ks.

(** ** Properties *)

(** However the frames are linked, the trace ends after eight of them. *)
Lemma frames_length d : ∀ s ks l ks', frames d s ks = Ok (l, ks') → (length l ≤ d + 1)%nat.
Proof.
  induction d as [|d IH]; intros s ks l ks' H; cbn [frames] in H; apply bind_Ok in H as (rip & _ & H);
    destruct (_ || _); simplify_eq; [cbn; lia..|].
  apply bind_Ok in H as ([l1 ks1] & _ & H). apply bind_Ok in H as (nx & _ & H). apply bind_Ok in H as (a & _ & H).
  case_match; simplify_eq; [cbn; lia|]. apply bind_Ok in H as ([ls ks2] & E & H). simplify_eq. apply IH in E. cbn. lia.
Qed.

(** A chain of frames in memory: where they are and the return address of each, down to [kmain]. *)
Fixpoint chain (s : Z) (l : list (Z * Z)) : Prop :=
  match l with
  | [] => word (s + 8) = Ok kmain
  | (rip, next) :: l => word (s + 8) = Ok rip ∧ word s = Ok next ∧ rip ≠ kmain ∧ rip ≠ 0 ∧
      (∃ a, paging_lookup p pml4 next = Ok a ∧ a ≠ NPOS) ∧ chain next l
  end.

(** A chain of at most eight frames is listed completely and in order; without symbols nothing is changed. *)
Lemma frames_chain l : ∀ d s ks, (length l ≤ d)%nat → chain s l → ksyms_been_read = false →
  frames d s ks = Ok (map (λ f, Plain f.1) l, ks).
Proof.
  induction l as [|[rip next] l IH]; intros d s ks Hd Hc Hb.
  - cbn [chain] in Hc. destruct d; cbn [frames]; rewrite Hc; cbn [mbind res_bind]; by rewrite Z.eqb_refl.
  - destruct Hc as (H1 & H2 & H3 & H4 & (a & Ha & Hna) & Hc). destruct d as [|d]; [cbn in Hd; lia|].
    cbn [frames]. rewrite H1. cbn [mbind res_bind]. rewrite (proj2 (Z.eqb_neq _ _)), (proj2 (Z.eqb_neq _ 0)) by done. cbn [orb].
    unfold trace_line. rewrite Hb, H2. cbn [negb mbind res_bind]. rewrite Ha. cbn [mbind res_bind].
    rewrite (proj2 (Z.eqb_neq _ NPOS)), (IH d) by (done || (cbn in Hd; lia)). reflexivity.
Qed.
End Stack.

(** ** Symbols are overwritten *)

(** A symbol table of three symbols: an empty one, [a] at [100,110] and [b] at [200,210]; names behind it. *)
Definition trace_sym (name value size : Z) : list Z := le 4 name ++ [0; 0; 0; 0] ++ le 8 value ++ le 8 size.
Definition trace_image : list Z := trace_sym 0 0 0 ++ trace_sym 1 100 10 ++ trace_sym 3 200 10 ++ [0] ++ bytes_of "a" ++ [0] ++ bytes_of "b" ++ [0].
Definition trace_ksyms : ksyms := mkKsyms trace_image (mkTabs (Some 72) (Some 0) (Some 3)).

(** The search is meant to remember a symbol; it replaces the first one of the kernel's table instead,
    and an address that is in no symbol is then given the name the search before it found. *)
Lemma trace_overwrites :
  ∃ ks', trace_line true 105 trace_ksyms = Ok (Named 105 (bytes_of "a") 5, ks') ∧
    rd_sym (kimage trace_ksyms) 0 0 = Ok (mkSym 0 0 0 0) ∧ rd_sym (kimage ks') 0 0 = Ok (mkSym 1 0 0 100) ∧
    trace_line true 5000 trace_ksyms = Ok (Named 5000 [] 5000, trace_ksyms) ∧
    trace_line true 5000 ks' = Ok (Named 5000 (bytes_of "a") 4900, ks').
Proof. eexists. split; [vm_compute; reflexivity|]. vm_compute. repeat split. Qed.

(** ** System calls *)

Definition SYSCALL_STACK_SIZE : Z := 0x200000.
(** The stack handed to [syscalls_asm_setup]. *)
Definition init_syscalls (s : pmm) : res (Z * pmm) :=
  '(a, s) ← pmm_alloc s SYSCALL_STACK_SIZE; Ok (u64 (a + SYSCALL_STACK_SIZE - 128 - 64), s).

(** [handle_syscall]: the number is in [rax], the argument in [rdi]; [str] reads the characters at an address of the caller.
    The exit does not return: a [tick] in time loads the context that is given back, and without one the processor halts. *)
Definition handle_syscall (str : Z → res (list Z)) (cpu : nat) (tick : option cpu_state) (rax rdi : Z) (s : sched) (con : console) :
    res (sched * console * option cpu_state) :=
  if rax =? 0 then '(s, c) ← sched_exit_thread s cpu tick; Ok (s, con, c)
  else if rax =? 1 then l ← str rdi; con ← con_puts l con; Ok (s, con, None)
  else Ok (s, con, None).

Lemma syscall_stack s a s' : pmm_ok s → init_syscalls s = Ok (a, s') →
  a `mod` 16 = 0 ∧ ∃ p, 0 ≤ p ∧ free_run (pmm_bm s) p 512 ∧ marks (pmm_bm s) (pmm_bm s') p 512 ∧
    (p < 2 ^ 34 → VIRTUAL (4096 * p) ≤ a < VIRTUAL (4096 * p) + 4096 * 512).
Proof.
  intros Hok H. unfold init_syscalls in H. apply bind_Ok in H as ([v s1] & E & H). injection H as <- <-.
  destruct (alloc_from_0 s SYSCALL_STACK_SIZE Hok) as [(p & s2 & E2 & H0 & Hp & Hf & _ & Hm & Hok2 & _)|[E2 _]];
    [unfold SYSCALL_STACK_SIZE; lia| |]; change (alloc_from 0 s SYSCALL_STACK_SIZE) with (pmm_alloc s SYSCALL_STACK_SIZE) in E2; [|congruence].
  rewrite E in E2. injection E2 as -> ->. change (pages SYSCALL_STACK_SIZE) with 512 in *.
  split; [|exists p; split_and!; try done].
  - unfold SYSCALL_STACK_SIZE, uN. rewrite Z.mod_mod_divide by (by exists (2 ^ 60)).
    assert (VIRTUAL (4096 * p) `mod` 16 = 0) as Hv.
    { unfold VIRTUAL. change 16 with (2 ^ 4). rewrite <- Z.land_ones by lia. rewrite Z.land_lor_distr_l.
      assert (Z.land HHDM (Z.ones 4) = 0) as -> by reflexivity. rewrite Z.lor_0_r, Z.land_ones by lia.
      replace (4096 * p) with (256 * p * 2 ^ 4) by lia. apply Z.mod_mul. lia. }
    replace (VIRTUAL (4096 * p) + 0x200000 - 128 - 64) with (VIRTUAL (4096 * p) + 131060 * 16) by lia. by rewrite Z.mod_add.
  - intros Hp34. rewrite VIRTUAL_add by lia. unfold SYSCALL_STACK_SIZE. rewrite uN_small by (unfold is_uN, HHDM; lia). lia.
Qed.
