(* ===== verification/Ata.v ===== *)
(** The data of the ATA command set ([util/ata.hh]): the commands, and the packed structure an identified
    drive answers with.

    A packed structure is the list of its members with their widths in bits, one after the other without
    gaps; a nested structure starts and ends on a byte. *)
From S2P Require Import Prelude.

Definition READ_DMA_EXT : Z := 0x25.
Definition WRITE_DMA_EXT : Z := 0x35.
Definition ZERO_EXT : Z := 0x44.
Definition IDENTIFY_DEVICE : Z := 0xec.
Definition SMART : Z := 0xb0.

(** ** Packed structures *)

Inductive member := F (name : string) (bits : Z) | Sub (name : string) (l : list member).

Fixpoint bits_of (m : member) : Z :=
  match m with F _ n => n | Sub _ l => foldr (λ m n, bits_of m + n) 0 l end.
Definition size_of (l : list member) : Z := foldr (λ m n, bits_of m + n) 0 l.
Definition name_of (m : member) : string := match m with F n _ => n | Sub n _ => n end.

(** The members of a structure with their bit offsets; [offset_of] finds one by its path. *)
Fixpoint offsets (o : Z) (l : list member) : list (Z * member) :=
  match l with [] => [] | m :: l => (o, m) :: offsets (o + bits_of m) l end.
Definition find_member (n : string) (o : Z) (l : list member) : option (Z * member) :=
  head (filter (λ x, name_of x.2 = n) (offsets o l)).
Fixpoint offset_of (path : list string) (o : Z) (l : list member) : option Z :=
  match path with
  | [] => Some o
  | n :: path =>
      match find_member n o l with
      | Some (o, Sub _ l) => offset_of path o l
      | Some (o, F _ _) => if decide (path = []) then Some o else None
      | None => None
      end
  end.

(** ** [ATA_IDENTITY] *)

Definition identity_1 : list member :=
  [Sub "GeneralConfiguration" [F "Reserved1" 1; F "Retired3" 1; F "ResponseIncomplete" 1; F "Retired2" 3;
   F "FixedDevice" 1; F "RemovableMedia" 1; F "Retired1" 7; F "DeviceType" 1]; F "NumCylinders" 16;
   F "SpecificConfiguration" 16; F "NumHeads" 16; F "Retired1" 32; F "NumSectorsPerTrack" 16; F "VendorUnique1" 48;
   F "SerialNumber" 160; F "Retired2" 32; F "Obsolete1" 16; F "FirmwareRevision" 64; F "ModelNumber" 320;
   F "MaximumBlockTransfer" 8; F "VendorUnique2" 8; Sub "TrustedComputing" [F "FeatureSupported" 1; F "Reserved" 15];
   Sub "Capabilities" [F "CurrentLongPhysicalSectorAlignment" 2; F "ReservedByte49" 6; F "DmaSupported" 1;
   F "LbaSupported" 1; F "IordyDisable" 1; F "IordySupported" 1; F "Reserved1" 1; F "StandybyTimerSupport" 1;
   F "Reserved2" 2; F "ReservedWord50" 16]; F "ObsoleteWords51" 32; F "TranslationFieldsValid" 3; F "Reserved3" 5;
   F "FreeFallControlSensitivity" 8; F "NumberOfCurrentCylinders" 16; F "NumberOfCurrentHeads" 16;
   F "CurrentSectorsPerTrack" 16; F "CurrentSectorCapacity" 32; F "CurrentMultiSectorSetting" 8;
   F "MultiSectorSettingValid" 1; F "ReservedByte59" 3; F "SanitizeFeatureSupported" 1;
   F "CryptoScrambleExtCommandSupported" 1; F "OverwriteExtCommandSupported" 1; F "BlockEraseExtCommandSupported" 1;
   F "UserAddressableSectors" 32; F "ObsoleteWord62" 16; F "MultiWordDMASupport" 8; F "MultiWordDMAActive" 8;
   F "AdvancedPIOModes" 8; F "ReservedByte64" 8; F "MinimumMWXferCycleTime" 16; F "RecommendedMWXferCycleTime" 16;
   F "MinimumPIOCycleTime" 16; F "MinimumPIOCycleTimeIORDY" 16; Sub "AdditionalSupported" [F "ZonedCapabilities" 2;
   F "NonVolatileWriteCache" 1; F "ExtendedUserAddressableSectorsSupported" 1; F "DeviceEncryptsAllUserData" 1;
   F "ReadZeroAfterTrimSupported" 1; F "Optional28BitCommandsSupported" 1; F "IEEE1667" 1;
   F "DownloadMicrocodeDmaSupported" 1; F "SetMaxSetPasswordUnlockDmaSupported" 1; F "WriteBufferDmaSupported" 1;
   F "ReadBufferDmaSupported" 1; F "DeviceConfigIdentifySetDmaSupported" 1; F "LPSAERCSupported" 1;
   F "DeterministicReadAfterTrimSupported" 1; F "CFastSpecSupported" 1]; F "ReservedWords70" 80; F "QueueDepth" 5;
   F "ReservedWord75" 11; Sub "SerialAtaCapabilities" [F "Reserved0" 1; F "SataGen1" 1; F "SataGen2" 1;
   F "SataGen3" 1; F "Reserved1" 4; F "NCQ" 1; F "HIPM" 1; F "PhyEvents" 1; F "NcqUnload" 1; F "NcqPriority" 1;
   F "HostAutoPS" 1; F "DeviceAutoPS" 1; F "ReadLogDMA" 1; F "Reserved2" 1; F "CurrentSpeed" 3; F "NcqStreaming" 1;
   F "NcqQueueMgmt" 1; F "NcqReceiveSend" 1; F "DEVSLPtoReducedPwrState" 1; F "Reserved3" 8];
   Sub "SerialAtaFeaturesSupported" [F "Reserved0" 1; F "NonZeroOffsets" 1; F "DmaSetupAutoActivate" 1; F "DIPM" 1;
   F "InOrderData" 1; F "HardwareFeatureControl" 1; F "SoftwareSettingsPreservation" 1; F "NCQAutosense" 1;
   F "DEVSLP" 1; F "HybridInformation" 1; F "Reserved1" 6]].

Definition identity_2 : list member :=
  [Sub "SerialAtaFeaturesEnabled" [F "Reserved0" 1; F "NonZeroOffsets" 1; F "DmaSetupAutoActivate" 1; F "DIPM" 1;
   F "InOrderData" 1; F "HardwareFeatureControl" 1; F "SoftwareSettingsPreservation" 1; F "DeviceAutoPS" 1;
   F "DEVSLP" 1; F "HybridInformation" 1; F "Reserved1" 6]; F "MajorRevision" 16; F "MinorRevision" 16;
   Sub "CommandSetSupport" [F "SmartCommands" 1; F "SecurityMode" 1; F "RemovableMediaFeature" 1;
   F "PowerManagement" 1; F "Reserved1" 1; F "WriteCache" 1; F "LookAhead" 1; F "ReleaseInterrupt" 1;
   F "ServiceInterrupt" 1; F "DeviceReset" 1; F "HostProtectedArea" 1; F "Obsolete1" 1; F "WriteBuffer" 1;
   F "ReadBuffer" 1; F "Nop" 1; F "Obsolete2" 1; F "DownloadMicrocode" 1; F "DmaQueued" 1; F "Cfa" 1;
   F "AdvancedPm" 1; F "Msn" 1; F "PowerUpInStandby" 1; F "ManualPowerUp" 1; F "Reserved2" 1; F "SetMax" 1;
   F "Acoustics" 1; F "BigLba" 1; F "DeviceConfigOverlay" 1; F "FlushCache" 1; F "FlushCacheExt" 1; F "WordValid83" 2;
   F "SmartErrorLog" 1; F "SmartSelfTest" 1; F "MediaSerialNumber" 1; F "MediaCardPassThrough" 1;
   F "StreamingFeature" 1; F "GpLogging" 1; F "WriteFua" 1; F "WriteQueuedFua" 1; F "WWN64Bit" 1; F "URGReadStream" 1;
   F "URGWriteStream" 1; F "ReservedForTechReport" 2; F "IdleWithUnloadFeature" 1; F "WordValid" 2];
   Sub "CommandSetActive" [F "SmartCommands" 1; F "SecurityMode" 1; F "RemovableMediaFeature" 1;
   F "PowerManagement" 1; F "Reserved1" 1; F "WriteCache" 1; F "LookAhead" 1; F "ReleaseInterrupt" 1;
   F "ServiceInterrupt" 1; F "DeviceReset" 1; F "HostProtectedArea" 1; F "Obsolete1" 1; F "WriteBuffer" 1;
   F "ReadBuffer" 1; F "Nop" 1; F "Obsolete2" 1; F "DownloadMicrocode" 1; F "DmaQueued" 1; F "Cfa" 1;
   F "AdvancedPm" 1; F "Msn" 1; F "PowerUpInStandby" 1; F "ManualPowerUp" 1; F "Reserved2" 1; F "SetMax" 1;
   F "Acoustics" 1; F "BigLba" 1; F "DeviceConfigOverlay" 1; F "FlushCache" 1; F "FlushCacheExt" 1; F "Resrved3" 1;
   F "Words119_120Valid" 1; F "SmartErrorLog" 1; F "SmartSelfTest" 1; F "MediaSerialNumber" 1;
   F "MediaCardPassThrough" 1; F "StreamingFeature" 1; F "GpLogging" 1; F "WriteFua" 1; F "WriteQueuedFua" 1;
   F "WWN64Bit" 1; F "URGReadStream" 1; F "URGWriteStream" 1; F "ReservedForTechReport" 2;
   F "IdleWithUnloadFeature" 1; F "Reserved4" 2]; F "UltraDMASupport" 8; F "UltraDMAActive" 8;
   Sub "NormalSecurityEraseUnit" [F "TimeRequired" 15; F "ExtendedTimeReported" 1];
   Sub "EnhancedSecurityEraseUnit" [F "TimeRequired" 15; F "ExtendedTimeReported" 1]; F "CurrentAPMLevel" 8;
   F "ReservedWord91" 8; F "MasterPasswordID" 16; F "HardwareResetResult" 16; F "CurrentAcousticValue" 8;
   F "RecommendedAcousticValue" 8; F "StreamMinRequestSize" 16; F "StreamingTransferTimeDMA" 16;
   F "StreamingAccessLatencyDMAPIO" 16; F "StreamingPerfGranularity" 32].

Definition identity_3 : list member :=
  [F "Max48BitLBA" 64; F "StreamingTransferTime" 16; F "DsmCap" 16;
   Sub "PhysicalLogicalSectorSize" [F "LogicalSectorsPerPhysicalSector" 4; F "Reserved0" 8;
   F "LogicalSectorLongerThan256Words" 1; F "MultipleLogicalSectorsPerPhysicalSector" 1; F "Reserved1" 2];
   F "InterSeekDelay" 16; F "WorldWideName" 64; F "ReservedForWorldWideName128" 64;
   F "ReservedForTlcTechnicalReport" 16; F "WordsPerLogicalSector" 32;
   Sub "CommandSetSupportExt" [F "ReservedForDrqTechnicalReport" 1; F "WriteReadVerify" 1;
   F "WriteUncorrectableExt" 1; F "ReadWriteLogDmaExt" 1; F "DownloadMicrocodeMode3" 1; F "FreefallControl" 1;
   F "SenseDataReporting" 1; F "ExtendedPowerConditions" 1; F "Reserved0" 6; F "WordValid" 2];
   Sub "CommandSetActiveExt" [F "ReservedForDrqTechnicalReport" 1; F "WriteReadVerify" 1; F "WriteUncorrectableExt" 1;
   F "ReadWriteLogDmaExt" 1; F "DownloadMicrocodeMode3" 1; F "FreefallControl" 1; F "SenseDataReporting" 1;
   F "ExtendedPowerConditions" 1; F "Reserved0" 6; F "Reserved1" 2]; F "ReservedForExpandedSupportandActive" 96;
   F "MsnSupport" 2; F "ReservedWord127" 14; Sub "SecurityStatus" [F "SecuritySupported" 1; F "SecurityEnabled" 1;
   F "SecurityLocked" 1; F "SecurityFrozen" 1; F "SecurityCountExpired" 1; F "EnhancedSecurityEraseSupported" 1;
   F "Reserved0" 2; F "SecurityLevel" 1; F "Reserved1" 7]; F "ReservedWord129" 496;
   Sub "CfaPowerMode1" [F "MaximumCurrentInMA" 12; F "CfaPowerMode1Disabled" 1; F "CfaPowerMode1Required" 1;
   F "Reserved0" 1; F "Word160Supported" 1]; F "ReservedForCfaWord161" 112; F "NominalFormFactor" 4;
   F "ReservedWord168" 12; Sub "DataSetManagementFeature" [F "SupportsTrim" 1; F "Reserved0" 15];
   F "AdditionalProductID" 64; F "ReservedForCfaWord174" 32; F "CurrentMediaSerialNumber" 480;
   Sub "SCTCommandTransport" [F "Supported" 1; F "Reserved0" 1; F "WriteSameSuported" 1;
   F "ErrorRecoveryControlSupported" 1; F "FeatureControlSuported" 1; F "DataTablesSuported" 1; F "Reserved1" 6;
   F "VendorSpecific" 4]; F "ReservedWord207" 32; Sub "BlockAlignment" [F "AlignmentOfLogicalWithinPhysical" 14;
   F "Word209Supported" 1; F "Reserved0" 1]; F "WriteReadVerifySectorCountMode3Only" 32;
   F "WriteReadVerifySectorCountMode2Only" 32; Sub "NVCacheCapabilities" [F "NVCachePowerModeEnabled" 1;
   F "Reserved0" 3; F "NVCacheFeatureSetEnabled" 1; F "Reserved1" 3; F "NVCachePowerModeVersion" 4;
   F "NVCacheFeatureSetVersion" 4]; F "NVCacheSizeLSW" 16; F "NVCacheSizeMSW" 16; F "NominalMediaRotationRate" 16;
   F "ReservedWord218" 16; Sub "NVCacheOptions" [F "NVCacheEstimatedTimeToSpinUpInSeconds" 8; F "Reserved" 8];
   F "WriteReadVerifySectorCountMode" 8; F "ReservedWord220" 8; F "ReservedWord221" 16;
   Sub "TransportMajorVersion" [F "MajorVersion" 12; F "TransportType" 4]; F "TransportMinorVersion" 16;
   F "ReservedWord224" 96; F "ExtendedNumberOfUserAddressableSectors" 64; F "MinBlocksPerDownloadMicrocodeMode03" 16;
   F "MaxBlocksPerDownloadMicrocodeMode03" 16; F "ReservedWord236" 304; F "Signature" 8; F "CheckSum" 8].

Definition ATA_IDENTITY : list member := identity_1 ++ identity_2 ++ identity_3.

(** ** The layout *)

(** Where the command set standard puts the words of the answer: the word and the bit in it. *)
Definition words : list (list string * Z * Z) :=
  [(["GeneralConfiguration"; "RemovableMedia"], 0, 7); (["SerialNumber"], 10, 0); (["FirmwareRevision"], 23, 0); (["ModelNumber"], 27, 0);
   (["Capabilities"; "DmaSupported"], 49, 8); (["Capabilities"; "LbaSupported"], 49, 9); (["UserAddressableSectors"], 60, 0);
   (["QueueDepth"], 75, 0); (["SerialAtaCapabilities"; "NCQ"], 76, 8); (["SerialAtaCapabilities"; "CurrentSpeed"], 77, 1);
   (["SerialAtaFeaturesSupported"; "DIPM"], 78, 3); (["SerialAtaFeaturesEnabled"; "DIPM"], 79, 3); (["MajorRevision"], 80, 0);
   (["CommandSetSupport"; "SmartCommands"], 82, 0); (["CommandSetSupport"; "BigLba"], 83, 10); (["CommandSetSupport"; "WWN64Bit"], 84, 8);
   (["CommandSetActive"; "SmartCommands"], 85, 0); (["CommandSetActive"; "BigLba"], 86, 10); (["NormalSecurityEraseUnit"], 89, 0);
   (["Max48BitLBA"], 100, 0); (["PhysicalLogicalSectorSize"; "LogicalSectorLongerThan256Words"], 106, 12); (["WorldWideName"], 108, 0);
   (["WordsPerLogicalSector"], 117, 0); (["SecurityStatus"; "SecurityLocked"], 128, 2); (["CfaPowerMode1"], 160, 0);
   (["DataSetManagementFeature"; "SupportsTrim"], 169, 0); (["CurrentMediaSerialNumber"], 176, 0); (["SCTCommandTransport"], 206, 0);
   (["BlockAlignment"; "Word209Supported"], 209, 14); (["NVCacheCapabilities"], 214, 0); (["NominalMediaRotationRate"], 217, 0);
   (["TransportMajorVersion"; "TransportType"], 222, 12); (["ExtendedNumberOfUserAddressableSectors"], 230, 0); (["CheckSum"], 255, 8)].

(** Nested structures, and members of whole bytes, start and end on a byte, so that nothing is padded. *)
Definition on_byte (x : Z * member) : bool :=
  match x.2 with
  | Sub _ _ => (x.1 `mod` 8 =? 0) && (bits_of x.2 `mod` 8 =? 0)
  | F _ n => negb (n `mod` 8 =? 0) || (x.1 `mod` 8 =? 0) || (n =? 8)
  end.

(** The structure fills the 512 bytes of a sector and every listed member lies where the drive puts it. *)
Lemma identity_layout : size_of ATA_IDENTITY = 512 * 8 ∧ forallb on_byte (offsets 0 ATA_IDENTITY) = true ∧
  Forall (λ '(path, w, b), offset_of path 0 ATA_IDENTITY = Some (16 * w + b)) words.
Proof. split; [|split]; [vm_compute; reflexivity..|]. repeat (apply Forall_cons; split; [vm_compute; reflexivity|]). apply Forall_nil_2. Qed.
