(* ===== verification/Dma.v ===== *)
(** Structures in memory that a driver shares with a device: words and bit-fields of physical memory, with
    what a store changes and what it keeps, and loops that fill a table entry by entry. *)
From S2P Require Import Prelude Arith Mem Msd MsdSpec Elf Module ModuleSpec Descriptors.

(** ** Words *)

(** The word of [n] bytes at [a], lowest byte first. *)
Definition ld (m : Mem.mem) (a : Z) (n : nat) : Z := le_word (bytes_at m a n).
Definition sto (m : Mem.mem) (a : Z) (n : nat) (v : Z) : Mem.mem := copy_in m a (le n v).
(** A bit-field of the word of [n] bytes at [a]. *)
Definition put_bits (m : Mem.mem) (a : Z) (n : nat) (o w v : Z) : Mem.mem := sto m a n (setf (ld m a n) o w v).

(** Nothing outside the [n] bytes at [a] differs. *)
Definition only (a n : Z) (m m' : Mem.mem) : Prop := ∀ x, ¬ (a ≤ x < a + n) → m' x = m x.

Lemma only_refl a n m : only a n m m.
Proof. by intros x _. Qed.
Lemma only_trans a n m1 m2 m3 : only a n m1 m2 → only a n m2 m3 → only a n m1 m3.
Proof. intros H1 H2 x Hx. by rewrite H2, H1. Qed.
Lemma only_wide a n b k m m' : only a n m m' → b ≤ a → a + n ≤ b + k → only b k m m'.
Proof. intros H Ha Hk x Hx. apply H. lia. Qed.

Lemma le_u8 n v : Forall is_u8 (le n v).
Proof. eapply Forall_impl; [apply le_bytes|]. done. Qed.

Lemma sto_only m a n v : only a (Z.of_nat n) m (sto m a n v).
Proof. intros x Hx. unfold sto. rewrite copy_in_spec by apply le_u8. rewrite le_length. by rewrite bool_decide_eq_false_2. Qed.
Lemma put_bits_only m a n o w v : only a (Z.of_nat n) m (put_bits m a n o w v).
Proof. apply sto_only. Qed.
Lemma store8_only m a v : only a 1 m (store8 m a v).
Proof. intros x Hx. unfold store8. destruct (Z.eqb_spec x a); [lia|done]. Qed.
Lemma store8_at m a v : store8 m a v a = u8 v.
Proof. unfold store8. by rewrite Z.eqb_refl. Qed.

Lemma bytes_at_ext f g a n : (∀ x, a ≤ x < a + Z.of_nat n → f x = g x) → bytes_at f a n = bytes_at g a n.
Proof.
  intros H. apply list_eq. intros i. destruct (decide (i < n)%nat).
  - rewrite !bytes_at_lookup by done. f_equal. apply H. lia.
  - by rewrite !lookup_ge_None_2 by (rewrite bytes_at_length; lia).
Qed.

(** A word outside the change keeps its value. *)
Lemma ld_keep m m' a n b k : only a n m m' → b + Z.of_nat k ≤ a ∨ a + n ≤ b → ld m' b k = ld m b k.
Proof. intros H Hd. unfold ld. f_equal. apply bytes_at_ext. intros x Hx. apply H. lia. Qed.

Lemma ld_sto_other m a n v b k : b + Z.of_nat k ≤ a ∨ a + Z.of_nat n ≤ b → ld (sto m a n v) b k = ld m b k.
Proof. intros H. apply (ld_keep m _ a (Z.of_nat n)); [apply sto_only|done]. Qed.
Lemma ld_put_other m a n o w v b k : b + Z.of_nat k ≤ a ∨ a + Z.of_nat n ≤ b → ld (put_bits m a n o w v) b k = ld m b k.
Proof. apply ld_sto_other. Qed.

Lemma sto_bytes_at m a n v : bytes_at (sto m a n v) a n = le n v.
Proof.
  apply list_eq. intros i. destruct (decide (i < n)%nat).
  - rewrite bytes_at_lookup by done. unfold sto. rewrite copy_in_spec by apply le_u8. rewrite le_length, bool_decide_eq_true_2 by lia.
    replace (a + Z.of_nat i - a) with (Z.of_nat i) by lia. rewrite zlookup_nat.
    destruct (lookup_lt_is_Some_2 (le n v) i) as [b Hb]; [by rewrite le_length|]. by rewrite Hb.
  - by rewrite !lookup_ge_None_2 by (rewrite ?bytes_at_length, ?le_length; lia).
Qed.
Lemma ld_sto m a n v : ld (sto m a n v) a n = v `mod` 256 ^ Z.of_nat n.
Proof. unfold ld. rewrite sto_bytes_at. apply le_word_le. Qed.
Lemma ld_sto_small m a n v : 0 ≤ v < 256 ^ Z.of_nat n → ld (sto m a n v) a n = v.
Proof. intros H. rewrite ld_sto. by apply Z.mod_small. Qed.

Lemma ld_range m a n : bytes m → 0 ≤ ld m a n < 256 ^ Z.of_nat n.
Proof.
  intros Hm. unfold ld. change 256 with (2 ^ 8). rewrite <- Z.pow_mul_r by lia. rewrite <- (bytes_at_length m a n) at 3.
  apply le_word_range. apply Forall_forall. intros b Hb. unfold bytes_at in Hb.
  apply list_elem_of_In, in_map_iff in Hb as (i & <- & _). apply Hm.
Qed.

(** Memory stays a memory of bytes. *)
Lemma store8_bytes m a v : bytes m → bytes (store8 m a v).
Proof. intros H x. unfold store8. case_match; [|apply H]. by apply uN_range. Qed.
Lemma copy_in_bytes l : ∀ m a, bytes m → bytes (copy_in m a l).
Proof. induction l as [|b l IH]; intros m a H; [done|]. apply IH. by apply store8_bytes. Qed.
Lemma sto_bytes m a n v : bytes m → bytes (sto m a n v).
Proof. apply copy_in_bytes. Qed.
Lemma put_bits_bytes m a n o w v : bytes m → bytes (put_bits m a n o w v).
Proof. apply copy_in_bytes. Qed.
Create HintDb dma.
#[export] Hint Resolve store8_bytes sto_bytes put_bits_bytes copy_in_bytes : dma.

(** ** Bit-fields *)

Lemma setf_range x o w v n : 0 ≤ x < 2 ^ n → 0 ≤ o → 0 ≤ w → o + w ≤ n → 0 ≤ setf x o w v < 2 ^ n.
Proof.
  intros Hx Ho Hw Hn. assert (0 ≤ setf x o w v) as H0.
  { unfold setf. apply Z.lor_nonneg. split; [apply Z.ldiff_nonneg; lia|]. apply Z.shiftl_nonneg, Z.land_nonneg. right. rewrite Z.ones_equiv. lia. }
  apply is_uN_testbit; [lia|done|]. intros i Hi. rewrite setf_bit by lia. rewrite bool_decide_eq_false_2 by lia. apply (is_uN_high n); [done|lia|lia].
Qed.
Lemma ld_put_bits m a n o w v : bytes m → 0 ≤ o → 0 ≤ w → o + w ≤ 8 * Z.of_nat n → ld (put_bits m a n o w v) a n = setf (ld m a n) o w v.
Proof.
  intros Hm Ho Hw Hn. unfold put_bits. apply ld_sto_small. change 256 with (2 ^ 8). rewrite <- Z.pow_mul_r by lia.
  apply setf_range; [|lia..]. pose proof (ld_range m a n Hm) as H. change 256 with (2 ^ 8) in H. by rewrite <- Z.pow_mul_r in H by lia.
Qed.
