(* ===== verification/Ahci.v ===== *)
(** The AHCI driver ([modules/ahci/src/ahci.cc] and [ahci.hh]).

    The state is what the driver sees: the registers of the controller, the physical memory it shares
    with it (reached through the direct map), the page tables and the timer.  The controller itself is a
    parameter: [poke] is the effect of a store to a register of a port, [gpoke] to a global one, and [hw]
    what happens between two looks of a waiting loop.  A structure in memory is accessed field by field,
    a bit-field by reading and writing its word. *)
From S2P Require Import Prelude Arith Mem Strings Msd Elf Bitmap Pmm Paging PagingArea Module Descriptors Dma Interrupts Ata Machine.

(** ** Registers *)

Definition ahci_cap : list member :=
  [F "num_ports" 5; F "ext_sata" 1; F "enclosure_mgmt" 1; F "cccs" 1; F "num_cmd_slots" 5; F "psc" 1; F "ssc" 1; F "pmd" 1;
   F "fbss" 1; F "port_multiplier" 1; F "ahci_only" 1; F "" 1; F "max_speed" 4; F "cmd_list_override" 1; F "led" 1; F "salp" 1;
   F "sss" 1; F "smps" 1; F "ssntf" 1; F "sncq" 1; F "s64bit" 1].
Definition ahci_ghc : list member := [F "reset" 1; F "intr" 1; F "mrsm" 1; F "" 28; F "ahci_enable" 1].
Definition ahci_px_cmd : list member :=
  [F "start" 1; F "spinup" 1; F "poweron" 1; F "clo" 1; F "fis_recv_enable" 1; F "" 3; F "current_cmd_slot" 5; F "mpss" 1;
   F "fis_recv_running" 1; F "cmd_list_running" 1; F "cold_presence" 1; F "pm" 1; F "hotplug" 1; F "mpsp" 1;
   F "cold_presence_support" 1; F "ext_sata" 1; F "fis_based_switching" 1; F "auto_partial_to_slumber" 1; F "atapi" 1;
   F "led_on_atapi_en" 1; F "" 6].
Definition ahci_px_tfd : list member :=
  [Sub "sts" [F "err" 1; F "turi2" 2; F "data_transfer_req" 1; F "turi" 3; F "busy" 1]; F "err" 8; F "" 16].
Definition PxCMD_ST : Z := 0.
Definition PxCMD_FRE : Z := 4.
Definition PxCMD_FR : Z := 14.
Definition PxCMD_CR : Z := 15.
Definition PxTFD_BSY : Z := 7.
Definition PxTFD_DRQ : Z := 3.

(** A port: what a load of each register gives. *)
Record port := mkPort { cmd_list_base : Z; fis_list_base : Z; intr_sts : Z; intr_enable : Z; cmd_sts : Z; taskfile : Z; sign : Z;
  sata_sts : Z; sata_ctl : Z; sata_err : Z; sata_active : Z; cmd_issue : Z }.
Record hba_regs := mkHba { caps : Z; ghc : Z; port_impl : Z; bohc : Z; ports : list port }.
(** The registers that are stored to. *)
Inductive preg := CLB | FB | IS | IE | CMD | CI.
Inductive greg := GHC | BOHC.

Record st := mkSt { r : hba_regs; ram : Mem.mem; spg : paging; tm : timers }.
Definition with_ram (s : st) (m : Mem.mem) : st := mkSt (r s) m (spg s) (tm s).
Definition with_pg (s : st) (p : paging) : st := mkSt (r s) (ram s) p (tm s).
Definition with_tm (s : st) (t : timers) : st := mkSt (r s) (ram s) (spg s) t.

(** ** Structures in memory *)

(** [cmd_hdr] of slot [i] of the list at [l]: 32 bytes. *)
Definition hdr (l i : Z) : Z := l + 32 * i.
Definition set_cmd_fis_len (m : Mem.mem) (h v : Z) : Mem.mem := put_bits m h 4 0 5 v.
Definition set_write (m : Mem.mem) (h v : Z) : Mem.mem := put_bits m h 4 6 1 v.
Definition set_prdtlen (m : Mem.mem) (h v : Z) : Mem.mem := put_bits m h 4 16 16 v.
Definition get_prdtlen (m : Mem.mem) (h : Z) : Z := getf (ld m h 4) 16 16.
Definition cmd_table_base (m : Mem.mem) (h : Z) : Z := ld m (h + 8) 8.
Definition set_cmd_table_base (m : Mem.mem) (h v : Z) : Mem.mem := sto m (h + 8) 8 v.

(** [prdt_entry] [j] of the command table at [t]: 16 bytes, behind 128 bytes of command. *)
Definition entry_at (t j : Z) : Z := t + 128 + 16 * j.
Definition set_data_base (m : Mem.mem) (e v : Z) : Mem.mem := sto m e 8 v.
Definition set_bytes_ (m : Mem.mem) (e v : Z) : Mem.mem := put_bits m (e + 12) 4 0 22 v.
Definition set_ioc (m : Mem.mem) (e : Z) (b : bool) : Mem.mem := put_bits m (e + 12) 4 31 1 (Z.b2z b).

(** [fis_reg_h2d], 20 bytes. *)
Definition REG_H2D : Z := 0x27.
Definition fis_size : Z := 20.
Definition put_fis (m : Mem.mem) (t cmd lba0 lba1 lba2 device lba3 lba4 lba5 count : Z) : Mem.mem :=
  let m := store8 m t REG_H2D in
  let m := put_bits m (t + 1) 1 7 1 1 in
  let m := store8 m (t + 2) cmd in
  let m := store8 (store8 (store8 m (t + 4) lba0) (t + 5) lba1) (t + 6) lba2 in
  let m := store8 m (t + 7) device in
  let m := store8 (store8 (store8 m (t + 8) lba3) (t + 9) lba4) (t + 10) lba5 in
  sto m (t + 12) 2 count.

(** ** The driver *)

Definition SIG_ATA : Z := 0x00000101.
Definition SIG_ATAPI : Z := 0xEB140101.
Definition SIG_SEMB : Z := 0xC33C0101.
Definition SIG_PM : Z := 0x96690101.
Definition PRDTL : Z := 4080.
Definition CMD_TBL_SIZE : Z := PRDTL * 16 + 128.
Definition POOL_SIZE : Z := mibs2bytes_int 2.

Definition free_slot (slotbitmap i : Z) : bool := Z.land slotbitmap (Z.shiftl 1 i) =? 0.
Fixpoint find_slot (slotbitmap : Z) (k : nat) (i : Z) : Z :=
  match k with O => u32 (-1) | S k => if free_slot slotbitmap i then i else find_slot slotbitmap k (i + 1) end.
Definition alloc_cmdslot (p : port) : Z := find_slot (Z.lor (cmd_issue p) (sata_active p)) 32 0.

Section Driver.
Context (pml4 : Z) (hw : st → st) (poke : Z → preg → Z → st → st) (gpoke : greg → Z → st → st) (fuel : nat).

Definition the_port (s : st) (i : Z) : res port := deref (zlookup (ports (r s)) i).
Definition port_bit (f : port → Z) (i : Z) (n : Z) (s : st) : bool :=
  match zlookup (ports (r s)) i with Some p => Z.testbit (f p) n | None => false end.

(** [poll(expr, timeout)] *)
Definition poll (busy : st → bool) (timeout : Z) (s : st) : res st :=
  spin hw (timed tm busy timeout (λ _, Fatal "Timeout reached on expression") Ok) fuel (with_tm s (arch_start_timer (tm s))).

Definition setrunning (i : Z) (run : bool) (s : st) : res st :=
  p ← the_port s i;
  if run then
    let s := poke i CMD (Z.lor (cmd_sts p) (Z.shiftl 1 PxCMD_FRE)) s in
    s ← poll (λ s, negb (port_bit cmd_sts i PxCMD_FR s)) 100 s;
    p ← the_port s i;
    let s := poke i CMD (Z.lor (cmd_sts p) (Z.shiftl 1 PxCMD_ST)) s in
    poll (λ s, negb (port_bit cmd_sts i PxCMD_CR s)) 100 s
  else
    let s := poke i CMD (Z.land (cmd_sts p) (notN 32 (Z.shiftl 1 PxCMD_ST))) s in
    s ← poll (λ s, port_bit cmd_sts i PxCMD_CR s || port_bit taskfile i PxTFD_BSY s || port_bit taskfile i PxTFD_DRQ s) 100 s;
    p ← the_port s i;
    let s := poke i CMD (Z.land (cmd_sts p) (notN 32 (Z.shiftl 1 PxCMD_FRE))) s in
    poll (λ s, port_bit cmd_sts i PxCMD_FR s) 100 s.

(** What the wait for the end of a command sees. *)
Definition wait_cmd (i slot : Z) (s : st) : option (res (bool * st)) :=
  match zlookup (ports (r s)) i with
  | None => Some Fault
  | Some p =>
      if Z.testbit (cmd_issue p) slot then
        if arch_elapsed (tm s) 500 then Some (Ok (false, s))
        else if Z.testbit (intr_sts p) 30 then Some (Ok (false, s))
        else if negb (sata_err p =? 0) then Some (Ok (false, s))
        else None
      else Some (Ok (true, s))
  end.

(** [ahci_send_cmd]; [create_cmd] fills the command table and gives the number of its entries.  Shifts
    of [1] by the slot number 2^32 - 1 are undefined. *)
Definition ahci_send_cmd (i : Z) (create_cmd : Z → st → res (Z * st)) (s : st) : res (bool * st) :=
  p ← the_port s i;
  let slot := alloc_cmdslot p in
  if 32 <=? slot then Fault else
  let s := poke i IS (u32 (-1)) s in
  p ← the_port s i;
  let h := PHYSICAL (VIRTUAL (cmd_list_base p) + 32 * slot) in
  let s := with_ram s (set_write (set_cmd_fis_len (ram s) h (fis_size / 4)) h 0) in
  let tbl := VIRTUAL (cmd_table_base (ram s) h) in
  '(prdtlen, s) ← create_cmd (PHYSICAL tbl) s;
  let s := with_ram s (set_prdtlen (ram s) h prdtlen) in
  let s := with_tm s (arch_start_timer (tm s)) in
  s ← spin hw (timed tm (λ s, port_bit taskfile i 7 s || port_bit taskfile i 3 s) 100 (λ _, Fatal "AHCI port hung") Ok) fuel s;
  p ← the_port s i;
  if negb (sata_err p =? 0) then Fatal "SATA error preceding" else
  let s := poke i IS (u32 (-1)) s in
  p ← the_port s i;
  let s := poke i CI (Z.lor (cmd_issue p) (Z.shiftl 1 slot)) s in
  spin hw (wait_cmd i slot) fuel (with_tm s (arch_start_timer (tm s))).

(** [readl(into)] and the check that follows: a page of the heap that is not there yet is made by the
    page fault; any other address that is not mapped stops the processor. *)
Definition touch (a : Z) (s : st) : res (Z * st) :=
  p ← paging_lookup (spg s) pml4 a;
  s ← (if p =? NPOS then
         if in_window a then pg ← heap_fault pml4 a (spg s); Ok (with_pg s pg) else Fatal "EXCEPTION"
       else Ok s);
  p ← paging_lookup (spg s) pml4 a;
  assert_ (negb (p =? NPOS)) "paging_lookup(into) != -1ull";;
  Ok (p, s).

Definition identify_cmd (identity t : Z) (s : st) : res (Z * st) :=
  let s := with_ram s (put_fis (ram s) t IDENTIFY_DEVICE 0 0 0 0 0 0 0 1) in
  '(p, s) ← touch identity s;
  let e := entry_at t 0 in
  Ok (1, with_ram s (set_ioc (set_bytes_ (set_data_base (ram s) e p) e 511) e true)).
(** The result of the command is not looked at. *)
Definition ahci_identify (i identity : Z) (s : st) : res st :=
  assert_ (isaligned identity 512) "isaligned(identity, 512)";;
  the_port s i;;
  let s := poke i IS (u32 (-1)) s in
  '(_, s) ← ahci_send_cmd i (identify_cmd identity) s;
  Ok s.

(** One round of the loop over the sectors. *)
Definition read_entry (t into j : Z) (s : st) : res st :=
  '(p, s) ← touch (u64 (into + 512 * j)) s;
  let e := entry_at t j in
  Ok (with_ram s (set_ioc (set_bytes_ (set_data_base (ram s) e p) e 511) e false)).
Definition read_cmd (lba sectors into t : Z) (s : st) : res (Z * st) :=
  let b n := Z.land (Z.shiftr lba n) 0xff in
  let s := with_ram s (put_fis (ram s) t READ_DMA_EXT (b 0) (b 8) (b 16) (Z.shiftl 1 6) (b 24) (b 32) (b 48) sectors) in
  s ← for_rounds (read_entry t into) 0 1 (Z.to_nat sectors) s;
  (* entries[j-1], with [j] of 32 bits *)
  Ok (u32 sectors, with_ram s (set_ioc (ram s) (entry_at t (u32 (sectors - 1))) true)).
Definition ahci_read (i lba sectors into : Z) (s : st) : res st :=
  assert_ (Z.land into 511 =? 0) "((u64)into & 511) == 0";;
  assert_ (sectors <? PRDTL) "sectors < PRDTL";;
  the_port s i;;
  let s := poke i IS (u32 (-1)) s in
  '(ok, s) ← ahci_send_cmd i (read_cmd lba sectors into) s;
  if (ok : bool) then Ok s else Fatal "ahci_read unsuccessful!".

(** ** Strings of the identity *)

(** [ahci_sanitize(str, len)] on the array at offset [o] of the identity [l]. *)
Definition swap_round (o i : Z) (l : list Z) : res (list Z) :=
  a ← deref (zlookup l (o + i)); b ← deref (zlookup l (o + i + 1));
  Ok (zinsert (zinsert l (o + i) b) (o + i + 1) a).
(** [while (str[--i] == ' ');] from [i = k]; below 0 the index wraps to 2^32 - 1, which is outside. *)
Fixpoint trim (l : list Z) (o : Z) (k : nat) : res Z :=
  match k with
  | O => Fault
  | S k => c ← deref (zlookup l (o + Z.of_nat k)); if c =? 32 then trim l o k else Ok (Z.of_nat k)
  end.
Definition ahci_sanitize (l : list Z) (o len : Z) : res (list Z) :=
  l ← for_rounds (swap_round o) 0 2 (rounds (len / 2) 2) l;
  i ← trim l o (Z.to_nat len);
  deref (zlookup l (o + i + 1));;
  Ok (zinsert l (o + i + 1) 0).
Definition SerialNumber : Z := 20.
Definition ModelNumber : Z := 54.

(** ** Bringing up a port *)

(** The command list at [list], each header with its table from [pool] on. *)
Definition fill_hdr (list pool j : Z) (m : Mem.mem) : res Mem.mem :=
  let m := set_prdtlen m (hdr list j) PRDTL in
  let t := pool + CMD_TBL_SIZE * j in
  let m := set_cmd_table_base m (hdr list j) (PHYSICAL t) in
  assert_ (Z.land t 127 =? 0) "(pool & 127) == 0";;
  Ok m.

(** What the port is: the drive's name and serial number. *)
Record drive := mkDrive { dloc : Z; productName : list Z; serial_ : list Z }.
(** [devmgr_add_device], which also looks for partitions, and [kmalloc_aligned(512, 512)]. *)
Context (add_device : Z → st → res st) (kmalloc_identity : st → res (Z * st)).

Definition init_port (i : Z) (s : st) : res (option drive * st) :=
  p ← the_port s i;
  if negb (Z.land (sata_sts p) 0x0f =? 3) then Ok (None, s) else
  if negb (Z.land (Z.shiftr (sata_sts p) 8) 0x0f =? 1) then Ok (None, s) else
  if negb (sign p =? SIG_ATA) then Ok (None, s) else
  '(pool, pm) ← pmm_alloc (mem (spg s)) POOL_SIZE;
  let s := mkSt (r s) (memset (ram s) (PHYSICAL pool) 0 POOL_SIZE) (mkPaging (tabs (spg s)) pm) (tm s) in
  s ← setrunning i false s;
  let s := poke i CLB (PHYSICAL pool) s in
  assert_ (Z.land (pool + 1024) 255 =? 0) "((u64)recfis & 255) == 0";;
  let s := poke i FB (PHYSICAL (pool + 1024)) s in
  m ← for_rounds (fill_hdr (PHYSICAL pool) (pool + 1280)) 0 1 32 (ram s);
  s ← setrunning i true (with_ram s m);
  let s := poke i IE (u32 (-1)) (poke i IS (u32 (-1)) s) in
  s ← add_device i s;
  '(id, s) ← kmalloc_identity s;
  s ← ahci_identify i id s;
  a ← paging_lookup (spg s) pml4 id;
  l ← ahci_sanitize (bytes_at (ram s) a 512) ModelNumber 40;
  l ← ahci_sanitize l SerialNumber 20;
  model ← c_string (drop (Z.to_nat ModelNumber) l);
  serial ← c_string (drop (Z.to_nat SerialNumber) l);
  Ok (Some (mkDrive i model serial), s).

(** [mod_main] from the point where the registers are mapped. *)
Definition init_implemented (i : Z) (x : list drive * st) : res (list drive * st) :=
  if Z.testbit (port_impl (r x.2)) i then
    '(d, s) ← init_port i x.2; Ok (x.1 ++ option_list d, s)
  else Ok x.
Definition mod_main (is_emu : bool) (s : st) : res (list drive * st) :=
  let s := gpoke BOHC (Z.lor (bohc (r s)) 2) s in
  let forced s := let s := gpoke BOHC (Z.land (bohc (r s)) (notN 32 1)) s in Ok (gpoke BOHC (Z.lor (bohc (r s)) 2) s) in
  s ← spin hw (timed tm (λ s, Z.testbit (bohc (r s)) 0) 10 forced Ok) fuel (with_tm s (arch_start_timer (tm s)));
  let s := gpoke GHC (setf (setf (ghc (r s)) 31 1 1) 1 1 0) s in
  s ← arch_sleep tm hw fuel is_emu 10 true s;
  assert_ (Z.testbit (caps (r s)) 31) "caps.s64bit";;
  for_rounds init_implemented 0 1 32 ([], s).
End Driver.

(** The constants the driver uses for bits are the members of the registers. *)
Lemma register_bits :
  size_of ahci_cap = 32 ∧ size_of ahci_ghc = 32 ∧ size_of ahci_px_cmd = 32 ∧ size_of ahci_px_tfd = 32 ∧
  offset_of ["start"] 0 ahci_px_cmd = Some PxCMD_ST ∧ offset_of ["fis_recv_enable"] 0 ahci_px_cmd = Some PxCMD_FRE ∧
  offset_of ["fis_recv_running"] 0 ahci_px_cmd = Some PxCMD_FR ∧ offset_of ["cmd_list_running"] 0 ahci_px_cmd = Some PxCMD_CR ∧
  offset_of ["sts"; "busy"] 0 ahci_px_tfd = Some PxTFD_BSY ∧ offset_of ["sts"; "data_transfer_req"] 0 ahci_px_tfd = Some PxTFD_DRQ ∧
  offset_of ["ahci_enable"] 0 ahci_ghc = Some 31 ∧ offset_of ["intr"] 0 ahci_ghc = Some 1 ∧ offset_of ["s64bit"] 0 ahci_cap = Some 31 ∧
  offset_of ["SerialNumber"] 0 ATA_IDENTITY = Some (8 * SerialNumber) ∧ offset_of ["ModelNumber"] 0 ATA_IDENTITY = Some (8 * ModelNumber).
Proof. vm_compute. repeat split. Qed.
