(* ===== verification/AhciSpec.v ===== *)
(** What a read through the AHCI driver does: the command it builds for the controller, and, on a
    controller that behaves as the standard says, the sectors of the medium in the caller's buffer. *)
From S2P Require Import Prelude Arith Mem Strings Msd MsdSpec Elf Bitmap Pmm Paging PagingArea Module ModuleSpec Descriptors Dma Interrupts Ata Machine Ahci.

(** ** Translation within a page *)

Lemma add_low b off k : b `mod` 4096 = 0 → 0 ≤ off < 4096 → 12 ≤ k → (b + off) `mod` 2 ^ k = b `mod` 2 ^ k + off.
Proof.
  intros Hb Ho Hk. assert (2 ^ k = 4096 * 2 ^ (k - 12)) as E by (change 4096 with (2 ^ 12); rewrite <- Z.pow_add_r by lia; f_equal; lia).
  pose proof (Z.pow_pos_nonneg 2 (k - 12) ltac:(lia) ltac:(lia)) as Hp. rewrite E.
  rewrite !Z.rem_mul_r by lia. rewrite Z.add_mod, Hb, Z.add_0_l, Z.mod_mod, (Z.mod_small off) by lia.
  assert ((b + off) / 4096 = b / 4096) as ->; [|lia].
  pose proof (Z.div_mod b 4096 ltac:(lia)). symmetry. apply Z.div_unique with off; lia.
Qed.
Lemma mask_page e : Z.land e (notN 64 0xfff) `mod` 4096 = 0.
Proof.
  change 4096 with (2 ^ 12). rewrite <- Z.land_ones by lia. rewrite <- Z.land_assoc.
  assert (Z.land (notN 64 0xfff) (Z.ones 12) = 0) as -> by reflexivity. apply Z.land_0_r.
Qed.
Lemma virtual_page x : x `mod` 4096 = 0 → VIRTUAL x `mod` 4096 = 0.
Proof.
  intros Hx. change 4096 with (2 ^ 12) in *. rewrite <- Z.land_ones in * by lia. unfold VIRTUAL.
  rewrite Z.land_lor_distr_l, Hx. reflexivity.
Qed.
Lemma land_low w k : 12 ≤ k → Z.land w (Z.ones k) = (w `mod` 2 ^ k / 4096) * 4096 + w `mod` 4096.
Proof.
  intros Hk. rewrite Z.land_ones by lia. rewrite (Z.div_mod (w `mod` 2 ^ k) 4096) at 1 by lia.
  assert ((w `mod` 2 ^ k) `mod` 4096 = w `mod` 4096) as ->; [|lia].
  apply Z.mod_mod_divide. exists (2 ^ (k - 12)). change 4096 with (2 ^ 12). rewrite <- Z.pow_add_r by lia. f_equal. lia.
Qed.

(** A translated address moves with the address inside the page. *)
Definition moves (f : Z → Z) : Prop := ∀ w w', w / 4096 = w' / 4096 → f w' - f w = w' `mod` 4096 - w `mod` 4096.

Lemma same_high w w' k : w / 4096 = w' / 4096 → 12 ≤ k → w `mod` 2 ^ k / 4096 = w' `mod` 2 ^ k / 4096.
Proof.
  intros H Hk. assert (2 ^ k = 4096 * 2 ^ (k - 12)) as -> by (change 4096 with (2 ^ 12); rewrite <- Z.pow_add_r by lia; f_equal; lia).
  pose proof (Z.pow_pos_nonneg 2 (k - 12) ltac:(lia) ltac:(lia)) as Hp. rewrite !Z.rem_mul_r by lia.
  rewrite !(Z.mul_comm 4096 (_ `mod` _)), !Z.div_add by lia. rewrite !(Z.div_small (_ `mod` 4096)) by (apply Z.mod_pos_bound; lia).
  by rewrite H.
Qed.

Lemma moves_mod b k n : b `mod` 4096 = 0 → 12 ≤ k → 12 ≤ n → moves (λ w, (b + Z.land w (Z.ones k)) `mod` 2 ^ n).
Proof.
  intros Hb Hk Hn w w' E. rewrite !land_low by done. rewrite !Z.add_assoc, (same_high w w' k E Hk).
  pose proof (Z.mod_pos_bound w 4096 ltac:(lia)). pose proof (Z.mod_pos_bound w' 4096 ltac:(lia)).
  assert ((b + w' `mod` 2 ^ k / 4096 * 4096) `mod` 4096 = 0) as Hb' by (by rewrite Z.mod_add by lia).
  rewrite (add_low _ (w' `mod` 4096)), (add_low _ (w `mod` 4096)) by (done || lia). lia.
Qed.

Lemma lookup_page s cr3 w w' v : w / 4096 = w' / 4096 → paging_lookup s cr3 w = Ok v → v ≠ NPOS →
  paging_lookup s cr3 w' = Ok (v + (w' `mod` 4096 - w `mod` 4096)).
Proof.
  intros E. pose proof (ixs_page w w' E) as Hi. unfold ixs in Hi. injection Hi as H4 H3 H2 H1. unfold paging_lookup. rewrite <- H4, <- H3, <- H2, <- H1.
  assert (∀ f, moves f → Ok (f w) = Ok v → Ok (f w') = Ok (v + (w' `mod` 4096 - w `mod` 4096))) as Hm.
  { intros f Hf [= <-]. f_equal. specialize (Hf w w' E). lia. }
  set (o := ADDR_PML4I w) in *. set (i3 := ADDR_PDPI w) in *. set (i2 := ADDR_PDI w) in *. set (i1 := ADDR_PTI w) in *. clearbody o i3 i2 i1.
  destruct (ent_ld s cr3 o) as [e4| | | |]; cbn [mbind res_bind]; [|done..]. destruct (negb _); [by intros [= <-]|].
  destruct (ent_ld s _ i3) as [e3| | | |]; cbn [mbind res_bind]; [|done..]. destruct (negb _); [by intros [= <-]|].
  destruct (ent_ld s _ i2) as [e2| | | |]; cbn [mbind res_bind]; [|done..]. destruct (negb _); [by intros [= <-]|].
  destruct (has (get_flags e3) HUGE).
  { intros Hv _. revert Hv. apply (Hm (λ w, no_nx (u64 (VIRTUAL (Z.land e3 (notN 64 0xfff)) + Z.land w (Z.shiftl 1 30 - 1))))).
    intros x y Hxy. rewrite !no_nx_mod by (apply uN_range; lia). unfold uN. rewrite !Z.mod_mod_divide by (by exists 2).
    apply (moves_mod _ 30 63); [apply virtual_page, mask_page|lia..]. }
  destruct (has (get_flags e2) HUGE).
  { intros Hv _. revert Hv. apply (Hm (λ w, no_nx (PHYSICAL (u64 (VIRTUAL (Z.land e2 (notN 64 0xfff)) + Z.land w 0x1fffff))))).
    intros x y Hxy. rewrite !PHYSICAL_mod. rewrite !no_nx_mod by (pose proof (Z.mod_pos_bound) as Hp; split; [apply Hp; lia|]; eapply Z.lt_trans; [apply Hp|]; lia).
    rewrite !(Z.mod_small (_ `mod` 2 ^ 47)) by (pose proof (Z.mod_pos_bound) as Hp; split; [apply Hp; lia|]; eapply Z.lt_trans; [apply Hp|]; lia).
    unfold uN. rewrite !Z.mod_mod_divide by (by exists (2 ^ 17)). apply (moves_mod _ 21 47); [apply virtual_page, mask_page|lia..]. }
  destruct (ent_ld s _ i1) as [e1| | | |]; cbn [mbind res_bind]; [|done..]. destruct (negb _); [by intros [= <-]|].
  intros Hv _. revert Hv. apply (Hm (λ w, no_nx (u64 (Z.land e1 (notN 64 0xfff) + Z.land w 0xfff)))).
  intros x y Hxy. rewrite !no_nx_mod by (apply uN_range; lia). unfold uN. rewrite !Z.mod_mod_divide by (by exists 2).
  apply (moves_mod _ 12 63); [apply mask_page|lia..|done].
Qed.

(** ** The command in memory *)

(** What the controller reads from the command table at [t]: the command, its first sector and count, and
    the pieces of memory. *)
Definition fis_command (m : Mem.mem) (t : Z) : Z := m (t + 2).
Definition fis_lba (m : Mem.mem) (t : Z) : Z :=
  m (t + 4) + 2 ^ 8 * m (t + 5) + 2 ^ 16 * m (t + 6) + 2 ^ 24 * m (t + 8) + 2 ^ 32 * m (t + 9) + 2 ^ 40 * m (t + 10).
Definition fis_count (m : Mem.mem) (t : Z) : Z := ld m (t + 12) 2.
Definition prd (m : Mem.mem) (t j : Z) : Z * Z := (ld m (entry_at t j) 8, getf (ld m (entry_at t j + 12) 4) 0 22 + 1).
Definition prdt (m : Mem.mem) (t : Z) (n : nat) : list (Z * Z) := map (λ j, prd m t (Z.of_nat j)) (seq 0 n).
(** What the driver never writes and leaves as it was cleared: in the header [h] the ATAPI, prefetch, reset, BIST and
    clear-busy bits and the port multiplier's port, in the FIS of the table [t] that port again and the control byte. *)
Definition clean (m : Mem.mem) (h t : Z) : Prop :=
  getf (ld m h 4) 5 1 = 0 ∧ getf (ld m h 4) 7 9 = 0 ∧ m (t + 1) `mod` 16 = 0 ∧ m (t + 15) = 0.

(** A command the standard defines as a read of sectors the drive has: the header at [h] announces a FIS of five words and
    no write; the table starts with a register FIS from the host that carries a command, READ DMA EXT with an LBA address;
    the memory regions are word-aligned, of even size, and hold the sectors exactly. *)
Record read_command (m : Mem.mem) (h capacity : Z) : Prop := {
  rc_length : getf (ld m h 4) 0 5 = 5;
  rc_write : getf (ld m h 4) 6 1 = 0;
  rc_clean : clean m h (cmd_table_base m h);
  rc_type : m (cmd_table_base m h) = 0x27;
  rc_update : Z.testbit (m (cmd_table_base m h + 1)) 7 = true;
  rc_command : fis_command m (cmd_table_base m h) = READ_DMA_EXT;
  rc_lba : Z.testbit (m (cmd_table_base m h + 7)) 6 = true;
  rc_count : 0 < fis_count m (cmd_table_base m h);
  rc_inside : fis_lba m (cmd_table_base m h) + fis_count m (cmd_table_base m h) ≤ capacity;
  rc_pieces : Forall (λ d, Z.even d.1 = true ∧ Z.even d.2 = true) (prdt m (cmd_table_base m h) (Z.to_nat (get_prdtlen m h)));
  rc_total : foldr (λ d, Z.add d.2) 0 (prdt m (cmd_table_base m h) (Z.to_nat (get_prdtlen m h))) = 512 * fis_count m (cmd_table_base m h) }.

Lemma only_at m m' a n x : only a n m m' → ¬ (a ≤ x < a + n) → m' x = m x.
Proof. intros H. apply H. Qed.

(** Bytes of a command. *)
Section Fis.
Context (m : Mem.mem) (t cmd b0 b1 b2 dev b3 b4 b5 n : Z).
Let m' := put_fis m t cmd b0 b1 b2 dev b3 b4 b5 n.

Lemma put_fis_only : only t 20 m m'.
Proof.
  intros x Hx. unfold m', put_fis. cbn zeta. rewrite (sto_only _ _ _ _ x) by lia.
  repeat (rewrite (store8_only _ _ _ x) by lia). rewrite (put_bits_only _ _ _ _ _ _ x) by lia. by rewrite (store8_only _ _ _ x) by lia.
Qed.
Lemma put_fis_bytes : bytes m → bytes m'.
Proof. intros H. unfold m', put_fis. cbn zeta. auto 12 with dma. Qed.
Lemma put_fis_at : m' t = 0x27 ∧ m' (t + 2) = u8 cmd ∧ m' (t + 4) = u8 b0 ∧ m' (t + 5) = u8 b1 ∧ m' (t + 6) = u8 b2 ∧ m' (t + 7) = u8 dev ∧
  m' (t + 8) = u8 b3 ∧ m' (t + 9) = u8 b4 ∧ m' (t + 10) = u8 b5.
Proof.
  unfold m', put_fis. cbn zeta. repeat split; rewrite (sto_only _ _ _ _ _) by lia;
    repeat (rewrite store8_at || (rewrite (store8_only _ _ _ _) by lia) || (rewrite (put_bits_only _ _ _ _ _ _ _) by lia)); reflexivity.
Qed.
Lemma put_fis_flags : bytes m → Z.testbit (m' (t + 1)) 7 = true ∧ m' (t + 1) `mod` 16 = m (t + 1) `mod` 16 ∧ m' (t + 15) = m (t + 15).
Proof.
  intros Hb. assert (m' (t + 1) = setf (m (t + 1)) 7 1 1) as ->.
  { transitivity (ld (put_bits (store8 m t REG_H2D) (t + 1) 1 7 1 1) (t + 1) 1).
    - unfold m', put_fis. cbn zeta. rewrite (sto_only _ _ _ _ _) by lia. repeat (rewrite (store8_only _ _ _ _) by lia). unfold ld, bytes_at. cbn. rewrite !Z.add_0_r. done.
    - rewrite ld_put_bits by (auto with dma; lia). f_equal. unfold ld, bytes_at. cbn. rewrite !Z.add_0_r. by rewrite (store8_only _ _ _ _) by lia. }
  split; [|split].
  - rewrite setf_bit by lia. reflexivity.
  - pose proof (getf_other (m (t + 1)) 7 1 1 0 4) as H. rewrite !getf_mod in H by lia. change (2 ^ 0) with 1 in H. rewrite !Z.div_1_r in H. apply H; lia.
  - unfold m', put_fis. cbn zeta. rewrite (sto_only _ _ _ _ _) by lia. repeat (rewrite (store8_only _ _ _ _) by lia). rewrite (put_bits_only _ _ _ _ _ _ _) by lia.
    by rewrite (store8_only _ _ _ _) by lia.
Qed.
Lemma put_fis_count : 0 ≤ n < 2 ^ 16 → ld m' (t + 12) 2 = n.
Proof. intros H. unfold m', put_fis. cbn zeta. apply ld_sto_small. exact H. Qed.
End Fis.

(** An address split into bytes, as the driver does it: the byte of bits 40 to 47 is not sent. *)
Lemma byte_of lba n : 0 ≤ n → u8 (Z.land (Z.shiftr lba n) 0xff) = (lba / 2 ^ n) `mod` 256.
Proof.
  intros Hn. change 0xff with (Z.ones 8). rewrite Z.land_ones, Z.shiftr_div_pow2 by lia. change (2 ^ 8) with 256.
  apply uN_small. apply Z.mod_pos_bound. lia.
Qed.
Lemma lba_bytes lba : 0 ≤ lba →
  lba `mod` 256 + 2 ^ 8 * ((lba / 2 ^ 8) `mod` 256) + 2 ^ 16 * ((lba / 2 ^ 16) `mod` 256) + 2 ^ 24 * ((lba / 2 ^ 24) `mod` 256) +
  2 ^ 32 * ((lba / 2 ^ 32) `mod` 256) = lba `mod` 2 ^ 40.
Proof.
  intros H. change (2 ^ 40) with (256 * (256 * (256 * (256 * 256)))). rewrite !Z.rem_mul_r by lia. rewrite !Z.div_div by lia.
  change (256 * 256) with (2 ^ 16). change (2 ^ 16 * 256) with (2 ^ 24). change (2 ^ 24 * 256) with (2 ^ 32). change (2 ^ 8) with 256. lia.
Qed.

Section Read.
Context (pml4 : Z).

Lemma touch_Ok a s v : paging_lookup (spg s) pml4 a = Ok v → v ≠ NPOS → touch pml4 a s = Ok (v, s).
Proof.
  intros E Hv. unfold touch. rewrite E. cbn [mbind res_bind]. rewrite (proj2 (Z.eqb_neq _ NPOS)) by done. cbn [mbind res_bind].
  rewrite E. cbn [mbind res_bind]. by rewrite (proj2 (Z.eqb_neq _ NPOS)).
Qed.

(** One entry of the table. *)
Definition put_entry (m : Mem.mem) (e v : Z) (last : bool) : Mem.mem := set_ioc (set_bytes_ (set_data_base m e v) e 511) e last.
Lemma put_entry_only m e v b : only e 16 m (put_entry m e v b).
Proof.
  unfold put_entry. apply (only_trans e 16 m (set_bytes_ (set_data_base m e v) e 511)); [apply (only_trans e 16 m (set_data_base m e v))|].
  - eapply only_wide; [apply sto_only|lia|lia].
  - eapply only_wide; [apply put_bits_only|lia|lia].
  - eapply only_wide; [apply put_bits_only|lia|lia].
Qed.
Lemma put_entry_bytes m e v b : bytes m → bytes (put_entry m e v b).
Proof. unfold put_entry, set_ioc, set_bytes_, set_data_base. auto with dma. Qed.
Lemma put_entry_ld m e v b : bytes m → is_u64 v →
  ld (put_entry m e v b) e 8 = v ∧ getf (ld (put_entry m e v b) (e + 12) 4) 0 22 = 511.
Proof.
  intros Hm Hv. unfold put_entry, set_ioc, set_bytes_, set_data_base. split.
  - rewrite !ld_put_other by lia. by apply ld_sto_small.
  - rewrite ld_put_bits by (auto with dma; lia). rewrite getf_other by lia. rewrite ld_put_bits by (auto with dma; lia). rewrite getf_same by lia. reflexivity.
Qed.
Lemma set_ioc_keeps m e b : bytes m → ld (set_ioc m e b) e 8 = ld m e 8 ∧ getf (ld (set_ioc m e b) (e + 12) 4) 0 22 = getf (ld m (e + 12) 4) 0 22.
Proof.
  intros Hm. unfold set_ioc. split; [by rewrite ld_put_other by lia|].
  rewrite ld_put_bits by (auto with dma; lia). by rewrite getf_other by lia.
Qed.
Lemma prd_keep m m' a n t j : only a n m m' → entry_at t j + 16 ≤ a ∨ a + n ≤ entry_at t j → prd m' t j = prd m t j.
Proof. intros H Hd. unfold prd. by rewrite !(ld_keep _ _ _ _ _ _ H) by lia. Qed.

(** The buffer: every sector of it is translated. *)
Definition backed (p : paging) (into n : Z) (phys : Z → Z) : Prop :=
  ∀ j, 0 ≤ j < n → paging_lookup p pml4 (into + 512 * j) = Ok (phys j) ∧ is_u64 (phys j) ∧ phys j ≠ NPOS.

(** The table after [j] rounds. *)
Record filled (m0 m : Mem.mem) (t : Z) (phys : Z → Z) (j : Z) : Prop := {
  fl_bytes : bytes m;
  fl_only : only (t + 128) (16 * j) m0 m;
  fl_prd : ∀ k, 0 ≤ k < j → prd m t k = (phys k, 512) }.

Lemma read_entry_Ok m0 t into n phys j s : 0 ≤ j < n → filled m0 (ram s) t phys j → backed (spg s) into n phys →
  0 ≤ into → into + 512 * n ≤ 2 ^ 64 →
  ∃ m, read_entry pml4 t into j s = Ok (with_ram s m) ∧ filled m0 m t phys (j + 1).
Proof.
  intros Hj [Hb Ho Hp] Hbk H0 Hn. destruct (Hbk j ltac:(lia)) as (El & Hu & Hne). unfold read_entry.
  rewrite (uN_small 64) by (unfold is_uN; lia). rewrite (touch_Ok _ s (phys j) El Hne). cbn [mbind res_bind].
  eexists. split; [done|]. fold (put_entry (ram s) (entry_at t j) (phys j) false). set (e := entry_at t j).
  pose proof (put_entry_only (ram s) e (phys j) false) as Hpo. assert (e = t + 128 + 16 * j) as He by done. split.
  - by apply put_entry_bytes.
  - eapply only_trans; [eapply only_wide; [exact Ho|lia..]|]. eapply only_wide; [exact Hpo|lia..].
  - intros k Hk. destruct (decide (k = j)) as [->|Hkj].
    + unfold prd. fold e. destruct (put_entry_ld (ram s) e (phys j) false Hb Hu) as [-> ->]. done.
    + rewrite (prd_keep _ _ _ _ t k Hpo) by (unfold entry_at; lia). apply Hp. lia.
Qed.

Lemma read_cmd_Ok lba n into t s phys : bytes (ram s) → 0 < n < PRDTL → 0 ≤ lba < 2 ^ 64 → 0 ≤ into → into + 512 * n ≤ 2 ^ 64 →
  backed (spg s) into n phys →
  ∃ m, read_cmd pml4 lba n into t s = Ok (n, with_ram s m) ∧ bytes m ∧ only t CMD_TBL_SIZE (ram s) m ∧ fis_command m t = READ_DMA_EXT ∧
    fis_lba m t = lba `mod` 2 ^ 40 + 2 ^ 40 * ((lba / 2 ^ 48) `mod` 256) ∧ fis_count m t = n ∧ (∀ j, 0 ≤ j < n → prd m t j = (phys j, 512)) ∧
    m t = 0x27 ∧ Z.testbit (m (t + 1)) 7 = true ∧ Z.testbit (m (t + 7)) 6 = true ∧ m (t + 1) `mod` 16 = ram s (t + 1) `mod` 16 ∧ m (t + 15) = ram s (t + 15).
Proof.
  intros Hb Hn Hlba H0 Hin Hbk. unfold PRDTL in Hn. unfold read_cmd. cbn zeta.
  set (m0 := put_fis (ram s) t _ _ _ _ _ _ _ _ _). set (s0 := with_ram s m0).
  assert (bytes m0) as Hb0 by (by apply put_fis_bytes).
  destruct (for_rounds_at (read_entry pml4 t into) (λ j u, u = with_ram s (ram u) ∧ filled m0 (ram u) t phys j) (Z.to_nat n) 0 s0) as (u & -> & Eu & [Fb Fo Fp]).
  { split; [done|]. split; [done|apply only_refl|lia]. }
  { intros j u Hj [Eu Fu]. destruct (read_entry_Ok m0 t into n phys j u) as (m & E & Fm); [lia|done|by rewrite Eu|done|done|].
    exists (with_ram u m). split; [done|]. split; [by rewrite Eu|done]. }
  cbn [mbind res_bind]. rewrite (uN_small 32 n), (uN_small 32 (n - 1)) by (unfold is_uN; lia).
  rewrite Eu in *. cbn [ram with_ram] in *. clear Eu. set (mu := ram u) in *. clearbody mu. rewrite Z.add_0_l, Z2Nat.id in * by lia.
  set (e := entry_at t (n - 1)). assert (e = t + 128 + 16 * (n - 1)) as He by done.
  assert (only (e + 12) 4 mu (set_ioc mu e true)) as Hi by apply (put_bits_only _ _ 4).
  assert (only (t + 128) (16 * n) m0 (set_ioc mu e true)) as Hall.
  { eapply only_trans; [exact Fo|]. eapply only_wide; [exact Hi|lia..]. }
  exists (set_ioc mu e true). split; [done|]. split; [by apply put_bits_bytes|].
  destruct (put_fis_at (ram s) t READ_DMA_EXT (Z.land (Z.shiftr lba 0) 0xff) (Z.land (Z.shiftr lba 8) 0xff) (Z.land (Z.shiftr lba 16) 0xff)
    (Z.shiftl 1 6) (Z.land (Z.shiftr lba 24) 0xff) (Z.land (Z.shiftr lba 32) 0xff) (Z.land (Z.shiftr lba 48) 0xff) n)
    as (P0 & P2 & P4 & P5 & P6 & P7 & P8 & P9 & P10). fold m0 in P0, P2, P4, P5, P6, P7, P8, P9, P10.
  destruct (put_fis_flags (ram s) t READ_DMA_EXT (Z.land (Z.shiftr lba 0) 0xff) (Z.land (Z.shiftr lba 8) 0xff) (Z.land (Z.shiftr lba 16) 0xff)
    (Z.shiftl 1 6) (Z.land (Z.shiftr lba 24) 0xff) (Z.land (Z.shiftr lba 32) 0xff) (Z.land (Z.shiftr lba 48) 0xff) n Hb) as (Q1 & Q2 & Q3). fold m0 in Q1, Q2, Q3. rewrite byte_of in P4, P5, P6, P8, P9, P10 by lia.
  split_and!.
  - eapply (only_trans _ _ _ m0); [eapply only_wide; [apply put_fis_only|unfold CMD_TBL_SIZE, PRDTL; lia..]|].
    eapply only_wide; [exact Hall|unfold CMD_TBL_SIZE, PRDTL; lia..].
  - unfold fis_command. rewrite Hall by lia. exact P2.
  - unfold fis_lba. rewrite !Hall by lia. rewrite P4, P5, P6, P8, P9, P10. change (2 ^ 0) with 1. rewrite Z.div_1_r. rewrite <- lba_bytes by lia. lia.
  - unfold fis_count. rewrite (ld_keep _ _ _ _ _ _ Hall) by lia. apply put_fis_count. lia.
  - intros j Hj. destruct (decide (j = n - 1)) as [->|Hjn].
    + unfold prd. fold e. destruct (set_ioc_keeps mu e true Fb) as [-> ->]. specialize (Fp (n - 1) ltac:(lia)). unfold prd in Fp. fold e in Fp. exact Fp.
    + rewrite (prd_keep _ _ _ _ t j Hi) by (unfold entry_at; lia). apply Fp. lia.
  - by rewrite Hall by lia.
  - by rewrite Hall by lia.
  - by rewrite Hall, P7 by lia.
  - by rewrite Hall by lia.
  - by rewrite Hall by lia.
Qed.
End Read.

(** ** The controller *)

(** The transfer of a read command: the data go to the pieces of memory one after the other. *)
Fixpoint dma (l : list (Z * Z)) (data : list Z) (m : Mem.mem) : Mem.mem :=
  match l with
  | [] => m
  | (b, n) :: l => dma l (drop (Z.to_nat n) data) (copy_in m b (take (Z.to_nat n) data))
  end.
Definition serves (medium : Z → Z) (m : Mem.mem) (list slot : Z) : Mem.mem :=
  let h := hdr list slot in let t := cmd_table_base m h in
  dma (prdt m t (Z.to_nat (get_prdtlen m h))) (bytes_at medium (512 * fis_lba m t) (Z.to_nat (512 * fis_count m t))) m.

Definition with_port (s : st) (i : Z) (p : port) : st :=
  mkSt (mkHba (caps (r s)) (ghc (r s)) (port_impl (r s)) (bohc (r s)) (zinsert (ports (r s)) i p)) (ram s) (spg s) (tm s).
Definition with_is (p : port) (v : Z) : port :=
  mkPort (cmd_list_base p) (fis_list_base p) v (intr_enable p) (cmd_sts p) (taskfile p) (sign p) (sata_sts p) (sata_ctl p)
    (sata_err p) (sata_active p) (cmd_issue p).
Definition with_ci (p : port) (v : Z) : port :=
  mkPort (cmd_list_base p) (fis_list_base p) (intr_sts p) (intr_enable p) (cmd_sts p) (taskfile p) (sign p) (sata_sts p) (sata_ctl p)
    (sata_err p) (sata_active p) v.

(** The command is being worked on, without an error and in time. *)
Definition working (s0 s : st) (i slot : Z) : Prop :=
  timer (tm s) = timer (tm s0) ∧ tmr_counter (tm s) ≤ tmr_counter (tm s0) + 500 ∧
  ∃ p, zlookup (ports (r s)) i = Some p ∧ Z.testbit (cmd_issue p) slot = true ∧ Z.testbit (intr_sts p) 30 = false ∧ sata_err p = 0.

(** What the controller writes besides the data: the byte count of the header and the received FISes. *)
Definition scratch (p : port) (slot x : Z) : Prop :=
  hdr (cmd_list_base p) slot + 4 ≤ x < hdr (cmd_list_base p) slot + 8 ∨ fis_list_base p ≤ x < fis_list_base p + 256.

(** A port that has nothing left to do, where it was before. *)
Record rests (p p' : port) : Prop := {
  rest_issue : cmd_issue p' = 0;
  rest_active : sata_active p' = sata_active p;
  rest_err : sata_err p' = 0;
  rest_is : is_u32 (intr_sts p');
  rest_tfd : Z.testbit (taskfile p') 7 = false ∧ Z.testbit (taskfile p') 3 = false;
  rest_run : Z.testbit (cmd_sts p') PxCMD_ST = Z.testbit (cmd_sts p) PxCMD_ST ∧ Z.testbit (cmd_sts p') PxCMD_FRE = Z.testbit (cmd_sts p) PxCMD_FRE;
  rest_base : cmd_list_base p' = cmd_list_base p ∧ fis_list_base p' = fis_list_base p }.

(** The standard: interrupt status bits are cleared by writing them, writing the issue register issues
    commands, and a drive of [capacity] sectors behind a port that is running and receives FISes serves the one command
    that is outstanding, when it is a read of sectors it has ([read_command]; nothing is said of any other), within its
    time, which is at most [latency] looks of the driver: the sectors are in memory when the issue bit goes back, and
    the port is ready for the next command. *)
Class Controller (medium : Z → Z) (capacity : Z) (latency : nat) (hw : st → st) (poke : Z → preg → Z → st → st) : Prop := {
  medium_u8 : ∀ a, is_u8 (medium a);
  poke_is : ∀ s i p v, zlookup (ports (r s)) i = Some p → poke i IS v s = with_port s i (with_is p (Z.ldiff (intr_sts p) v));
  poke_ci : ∀ s i p v, zlookup (ports (r s)) i = Some p → poke i CI v s = with_port s i (with_ci p (Z.lor (cmd_issue p) v));
  served : ∀ s i p slot, zlookup (ports (r s)) i = Some p → 0 ≤ slot < 32 → cmd_issue p = 2 ^ slot →
    (∀ j q, j ≠ i → zlookup (ports (r s)) j = Some q → cmd_issue q = 0) → intr_sts p = 0 → sata_err p = 0 →
    Z.testbit (taskfile p) 7 = false ∧ Z.testbit (taskfile p) 3 = false →
    Z.testbit (cmd_sts p) PxCMD_ST = true ∧ Z.testbit (cmd_sts p) PxCMD_FRE = true →
    read_command (ram s) (hdr (cmd_list_base p) slot) capacity →
    ∃ n, (n ≤ latency)%nat ∧ (∀ m, (m < n)%nat → working s (Nat.iter m hw s) i slot) ∧ let s' := Nat.iter n hw s in
      (∃ p', zlookup (ports (r s')) i = Some p' ∧ rests p p') ∧ (∀ j, j ≠ i → zlookup (ports (r s')) j = zlookup (ports (r s)) j) ∧
      spg s' = spg s ∧ tmr_counter (tm s) ≤ tmr_counter (tm s') ≤ tmr_counter (tm s) + 500 ∧ (bytes (ram s) → bytes (ram s')) ∧
      ∀ x, ¬ scratch p slot x → ram s' x = serves medium (ram s) (cmd_list_base p) slot x }.

(** ** What a transfer leaves *)

Definition apart (l : list (Z * Z)) : Prop :=
  ∀ i j a b, (i < j)%nat → l !! i = Some a → l !! j = Some b → a.1 + a.2 ≤ b.1 ∨ b.1 + b.2 ≤ a.1.

Lemma dma_out l : ∀ data m x, Forall is_u8 data → (∀ i a, l !! i = Some a → 0 ≤ a.2 ∧ ¬ (a.1 ≤ x < a.1 + a.2)) → dma l data m x = m x.
Proof.
  induction l as [|[b n] l IH]; intros data m x Hd Hx; [done|]. cbn [dma]. rewrite IH.
  - destruct (Hx 0%nat (b, n) eq_refl) as [H0 H1]. cbn in H0, H1. rewrite copy_in_spec by (by apply Forall_take).
    rewrite bool_decide_eq_false_2; [done|]. rewrite length_take. lia.
  - by apply Forall_drop.
  - intros i a Ha. by apply (Hx (S i)).
Qed.

(** The pieces hold the data in order. *)
Lemma dma_in l : ∀ data m j k, Forall is_u8 data → Forall (λ a, a.2 = 512) l → apart l → zlen data = 512 * zlen l →
  (j < length l)%nat → 0 ≤ k < 512 → ∃ a, l !! j = Some a ∧ zlookup data (512 * Z.of_nat j + k) = Some (dma l data m (a.1 + k)).
Proof.
  induction l as [|[b n] l IH]; intros data m j k Hd Hs Ha Hl Hj Hk; [cbn in Hj; lia|].
  apply Forall_cons in Hs as [Hn Hs]. cbn in Hn. subst n. cbn [dma length] in *.
  assert (Forall is_u8 (drop (Z.to_nat 512) data)) as Hd' by (by apply Forall_drop).
  destruct j as [|j].
  - exists (b, 512). split; [done|]. cbn [fst]. rewrite dma_out; [|done|].
    + rewrite copy_in_spec by (by apply Forall_take). rewrite bool_decide_eq_true_2 by (rewrite length_take; lia).
      rewrite !zlookup_Z by lia. replace (b + k - b) with k by lia. rewrite lookup_take_lt by lia. rewrite Z.mul_0_r, Z.add_0_l.
      destruct (lookup_lt_is_Some_2 data (Z.to_nat k)) as [y Hy]; [lia|]. by rewrite Hy.
    + intros i [a an] Hi. pose proof (Ha 0%nat (S i) (b, 512) (a, an) ltac:(lia) eq_refl Hi) as Hap. cbn [fst snd] in Hap |- *.
      apply (Forall_lookup_1 _ _ _ _ Hs) in Hi. cbn [snd] in Hi. subst an. lia.
  - destruct (IH (drop (Z.to_nat 512) data) (copy_in m b (take (Z.to_nat 512) data)) j k Hd' Hs) as (a & Hla & Hz);
      [intros i i' x y Hi Hx Hy; exact (Ha (S i) (S i') x y ltac:(lia) Hx Hy)|rewrite length_drop; lia|lia|done|].
    exists a. split; [done|]. rewrite <- Hz. rewrite !zlookup_Z by lia. rewrite lookup_drop. f_equal. lia.
Qed.

(** ** Sending a command *)

Lemma zinsert_twice {A} (l : list A) i a b : zinsert (zinsert l i a) i b = zinsert l i b.
Proof. unfold zinsert. destruct (0 <=? i); [apply list_insert_insert_eq|done]. Qed.
Lemma with_port_twice s i p q : with_port (with_port s i p) i q = with_port s i q.
Proof. unfold with_port. cbn. by rewrite zinsert_twice. Qed.
Lemma with_port_here s i p q : zlookup (ports (r s)) i = Some p → zlookup (ports (r (with_port s i q))) i = Some q.
Proof. intros H. cbn. rewrite zlookup_zinsert by (by eapply zlookup_lt). by rewrite Z.eqb_refl. Qed.
Lemma with_port_there s i j p q : zlookup (ports (r s)) i = Some p → j ≠ i → zlookup (ports (r (with_port s i q))) j = zlookup (ports (r s)) j.
Proof. intros H Hj. cbn. rewrite zlookup_zinsert by (by eapply zlookup_lt). by rewrite (proj2 (Z.eqb_neq i j)). Qed.

Lemma phys_of_virtual x : 0 ≤ x < 2 ^ 47 → PHYSICAL (x + HHDM) = x.
Proof. intros H. rewrite PHYSICAL_mod. change HHDM with ((2 ^ 17 - 1) * 2 ^ 47). rewrite Z.mod_add by lia. by apply Z.mod_small. Qed.

(** A port without work, its command list and the table of the first free slot in memory. *)
Record idle (s : st) (i : Z) (p : port) (slot t : Z) : Prop := {
  id_port : zlookup (ports (r s)) i = Some p;
  id_slot : alloc_cmdslot p = slot ∧ 0 ≤ slot < 32;
  id_issue : cmd_issue p = 0;
  id_others : ∀ j q, j ≠ i → zlookup (ports (r s)) j = Some q → cmd_issue q = 0;
  id_status : is_u32 (intr_sts p) ∧ sata_err p = 0;
  id_tfd : Z.testbit (taskfile p) 7 = false ∧ Z.testbit (taskfile p) 3 = false;
  id_run : Z.testbit (cmd_sts p) PxCMD_ST = true ∧ Z.testbit (cmd_sts p) PxCMD_FRE = true;
  id_clean : clean (ram s) (hdr (cmd_list_base p) slot) t;
  id_bytes : bytes (ram s);
  id_list : 0 ≤ cmd_list_base p ∧ cmd_list_base p + 1024 ≤ 2 ^ 47;
  id_table : cmd_table_base (ram s) (hdr (cmd_list_base p) slot) = t ∧ 0 ≤ t ∧ t + CMD_TBL_SIZE ≤ 2 ^ 47;
  id_apart : t + CMD_TBL_SIZE ≤ cmd_list_base p ∨ cmd_list_base p + 1024 ≤ t;
  id_time : 0 ≤ tmr_counter (tm s) ∧ tmr_counter (tm s) + 500 < 2 ^ 64 }.

Lemma ldiff_all x : is_u32 x → Z.ldiff x (u32 (-1)) = 0.
Proof.
  intros H. apply Z.bits_inj'. intros n Hn. rewrite Z.ldiff_spec, Z.bits_0. change (u32 (-1)) with (Z.ones 32).
  destruct (Z.lt_ge_cases n 32); [rewrite Z.ones_spec_low by lia; apply andb_false_r|]. by rewrite (is_uN_high 32 x n) by (done || lia).
Qed.

Section Send.
Context (medium : Z → Z) (capacity : Z) (latency : nat) (hw : st → st) (poke : Z → preg → Z → st → st) `{HC : !Controller medium capacity latency hw poke}.
Context (s : st) (i : Z) (p : port) (slot t : Z) (Hid : idle s i p slot t).
Let h := hdr (cmd_list_base p) slot.
(** The state the command is created in, and the one it is issued in. *)
Definition created : st := with_ram (with_port s i (with_is p 0)) (set_write (set_cmd_fis_len (ram s) h (fis_size / 4)) h 0).
Definition issued (m : Mem.mem) : st :=
  with_tm (with_ram (with_port s i (with_ci (with_is p 0) (2 ^ slot))) m) (arch_start_timer (tm s)).

Lemma clear_is : poke i IS (u32 (-1)) s = with_port s i (with_is p 0).
Proof using HC Hid. rewrite (poke_is s i p) by apply Hid. by rewrite ldiff_all by apply Hid. Qed.
Lemma clear_is_again s' : zlookup (ports (r s')) i = Some (with_is p 0) → poke i IS (u32 (-1)) s' = with_port s' i (with_is p 0).
Proof using HC. intros H. rewrite (poke_is s' i (with_is p 0)) by done. reflexivity. Qed.

Lemma send_issues fuel create n m : (0 < fuel)%nat → create t created = Ok (n, with_ram created m) →
  ahci_send_cmd hw poke fuel i create (with_port s i (with_is p 0)) = spin hw (wait_cmd i slot) fuel (issued (set_prdtlen m h n)).
Proof using HC Hid.
  intros Hf Hc. destruct Hid as [Hp [Hs Hsl] Hci Hoth [His He] [Ht7 Ht3] Hrun Hcl Hb [Hl0 Hl] [Ht [Ht0 Ht1]] Hap Htm].
  unfold ahci_send_cmd, the_port. rewrite (with_port_here s i p) by done. cbn [deref mbind res_bind].
  assert (alloc_cmdslot (with_is p 0) = slot) as -> by exact Hs. rewrite (proj2 (Z.leb_gt _ _)) by lia.
  rewrite clear_is_again by (by eapply with_port_here). rewrite with_port_twice, (with_port_here s i p) by done. cbn [deref mbind res_bind].
  cbn [cmd_list_base with_is]. rewrite VIRTUAL_add by lia.
  replace (cmd_list_base p + HHDM + 32 * slot) with (cmd_list_base p + 32 * slot + HHDM) by lia. rewrite phys_of_virtual by lia.
  fold (hdr (cmd_list_base p) slot). fold h. cbn [ram with_port]. fold created.
  assert (cmd_table_base (ram created) h = t) as ->.
  { unfold created, cmd_table_base, set_write, set_cmd_fis_len. cbn [ram with_ram]. rewrite !ld_put_other by lia. exact Ht. }
  rewrite VIRTUAL_add, phys_of_virtual by (unfold CMD_TBL_SIZE, PRDTL in *; lia). rewrite Hc. cbn [mbind res_bind].
  match goal with |- context [spin hw (timed tm ?b ?ms ?l ?d) fuel ?x] =>
    assert (spin hw (timed tm b ms l d) fuel x = Ok x) as -> end.
  { destruct fuel; [lia|]. cbn [spin]. unfold timed, port_bit. cbn [r with_tm with_ram created]. rewrite (with_port_here s i p) by done.
    cbn [taskfile with_is]. by rewrite Ht7, Ht3. }
  cbn [mbind res_bind]. cbn [r with_tm with_ram created]. rewrite (with_port_here s i p) by done. cbn [deref mbind res_bind sata_err with_is].
  rewrite He. cbn [negb Z.eqb]. rewrite clear_is_again by (cbn [r with_tm with_ram created]; by eapply with_port_here).
  set (s2 := with_port _ i (with_is p 0)). assert (zlookup (ports (r s2)) i = Some (with_is p 0)) as H2.
  { unfold s2. eapply with_port_here. cbn [r with_tm with_ram created]. by eapply with_port_here. }
  rewrite H2. cbn [deref mbind res_bind]. rewrite (poke_ci s2 i _ _ H2). cbn [cmd_issue with_is]. rewrite Hci, !Z.lor_0_l.
  rewrite Z.shiftl_mul_pow2, Z.mul_1_l by lia. f_equal. unfold s2, issued, created, with_port, with_ram, with_tm. cbn. by rewrite !zinsert_twice.
Qed.

Lemma wait_served m : bytes m → read_command m h capacity → ∃ s', (∀ fuel, (latency < fuel)%nat →
    spin hw (wait_cmd i slot) fuel (issued m) = Ok (true, s')) ∧ spg s' = spg s ∧
  (∃ p', zlookup (ports (r s')) i = Some p' ∧ rests p p') ∧ (∀ j, j ≠ i → zlookup (ports (r s')) j = zlookup (ports (r s)) j) ∧
  tmr_counter (tm s) ≤ tmr_counter (tm s') ≤ tmr_counter (tm s) + 500 ∧ bytes (ram s') ∧
  ∀ x, ¬ scratch p slot x → ram s' x = serves medium m (cmd_list_base p) slot x.
Proof using HC Hid.
  intros Hbm Hr. destruct Hid as [Hp [Hs Hsl] Hci Hoth [His He] Htfd Hrun Hcl Hb Hl Ht Hap Htm].
  destruct (served (issued m) i (with_ci (with_is p 0) (2 ^ slot)) slot) as (n & Hlat & Hw & (p' & Hp' & Hrest) & Ho & Hsp & Htime & Hby & Hram);
    [by eapply with_port_here|done|done| |done|done|done|done|done|].
  { intros j q Hj. cbn [issued r with_tm with_ram]. rewrite (with_port_there s i j p) by done. by apply Hoth. }
  assert (Z.testbit (cmd_issue p') slot = false) as Hz by (rewrite (rest_issue _ _ Hrest); apply Z.bits_0).
  exists (Nat.iter n hw (issued m)). split_and!; [|done| |intros j Hj; rewrite Ho by done; by apply (with_port_there s i j p)|exact (proj1 Htime)|exact (proj2 Htime)|by apply Hby|exact Hram].
  2: { exists p'. split; [done|]. by destruct Hrest. }
  destruct (spin_leaves hw (wait_cmd i slot) n (issued m)) as (k & res_ & Hk & Hres & _ & Hf).
  { unfold wait_cmd. by rewrite Hp', Hz. }
  destruct (decide (k = n)) as [->|Hkn].
  - intros fuel Hfu. rewrite Hf by lia. unfold wait_cmd in Hres. rewrite Hp', Hz in Hres. congruence.
  - exfalso. destruct (Hw k ltac:(lia)) as (Htm' & Hc & q & Hq & B1 & B2 & B3). unfold wait_cmd in Hres. rewrite Hq, B1, B2, B3 in Hres.
    unfold arch_elapsed in Hres. cbn [issued tm with_tm arch_start_timer timer tmr_counter] in Htm', Hc. rewrite Htm', uN_small in Hres by (unfold is_uN; lia).
    by rewrite (proj2 (Z.ltb_ge _ _)) in Hres by lia.
Qed.
End Send.

(** ** Reading sectors *)

Lemma same_page into j k : Z.land into 511 = 0 → 0 ≤ k < 512 →
  (into + 512 * j) / 4096 = (into + 512 * j + k) / 4096 ∧ (into + 512 * j + k) `mod` 4096 - (into + 512 * j) `mod` 4096 = k.
Proof.
  intros Ha Hk. change 511 with (Z.ones 9) in Ha. rewrite Z.land_ones in Ha by lia. change (2 ^ 9) with 512 in Ha.
  set (w := into + 512 * j). assert (w `mod` 512 = 0) as Hw by (unfold w; rewrite Z.mul_comm, Z.mod_add by lia; done).
  pose proof (Z.div_mod w 512 ltac:(lia)) as Hq. set (q := w / 512) in *. clearbody q w.
  pose proof (Z.div_mod q 8 ltac:(lia)) as Hq8. pose proof (Z.mod_pos_bound q 8 ltac:(lia)) as Hb.
  assert (w = 4096 * (q / 8) + (512 * (q `mod` 8))) as Ew by lia.
  assert (w / 4096 = q / 8) as E1 by (symmetry; apply Z.div_unique with (512 * (q `mod` 8)); lia).
  assert ((w + k) / 4096 = q / 8) as E2 by (symmetry; apply Z.div_unique with (512 * (q `mod` 8) + k); lia).
  split; [congruence|]. rewrite (Z.mod_eq (w + k)), (Z.mod_eq w), E1, E2 by lia. lia.
Qed.

(** The data lie where the table said. *)
Lemma served_data medium m list slot t n lba phys j k :
  (∀ a, is_u8 (medium a)) → cmd_table_base m (hdr list slot) = t → get_prdtlen m (hdr list slot) = n → 0 ≤ n → 0 ≤ lba →
  fis_lba m t = lba → fis_count m t = n → (∀ j, 0 ≤ j < n → prd m t j = (phys j, 512)) →
  (∀ j k, 0 ≤ j < k → k < n → phys j + 512 ≤ phys k ∨ phys k + 512 ≤ phys j) → 0 ≤ j < n → 0 ≤ k < 512 →
  serves medium m list slot (phys j + k) = medium (512 * lba + (512 * j + k)).
Proof.
  intros Hmed Ht Hpl Hn Hlba El Ec Hp Hap Hj Hk. unfold serves. cbn zeta. rewrite Ht, Hpl, El, Ec.
  assert (∀ i a, prdt m t (Z.to_nat n) !! i = Some a → (i < Z.to_nat n)%nat ∧ a = (phys (Z.of_nat i), 512)) as Hpr.
  { intros i a Hi. unfold prdt in Hi. rewrite list_lookup_fmap in Hi. destruct (decide (i < Z.to_nat n)%nat) as [Hl|Hl].
    - rewrite lookup_seq_lt in Hi by done. injection Hi as <-. split; [done|]. by apply Hp; lia.
    - by rewrite lookup_ge_None_2 in Hi by (rewrite length_seq; lia). }
  set (data := bytes_at medium (512 * lba) (Z.to_nat (512 * n))).
  destruct (dma_in (prdt m t (Z.to_nat n)) data m (Z.to_nat j) k) as (a & Ha & Hz).
  - apply Forall_forall. intros b Hb. unfold data, bytes_at in Hb. apply list_elem_of_In, in_map_iff in Hb as (x & <- & _). apply Hmed.
  - apply Forall_lookup_2. intros i x Hi. by destruct (Hpr i x Hi) as [_ ->].
  - intros i1 i2 a b Hi H1 H2. destruct (Hpr i1 a H1) as [_ ->], (Hpr i2 b H2) as [L2 ->]. cbn [fst snd]. apply Hap; lia.
  - unfold data, prdt. rewrite bytes_at_length, length_map, length_seq. lia.
  - unfold prdt. rewrite length_map, length_seq. lia.
  - done.
  - destruct (Hpr _ _ Ha) as [_ ->]. cbn [fst] in Hz. rewrite Z2Nat.id in Hz by lia. rewrite zlookup_Z in Hz by lia.
    unfold data in Hz at 1. rewrite bytes_at_lookup in Hz by lia. injection Hz as Hz. rewrite <- Hz. f_equal. lia.
Qed.

(** Everything else is as the command left it. *)
Lemma served_rest medium m list slot t n phys x :
  (∀ a, is_u8 (medium a)) → cmd_table_base m (hdr list slot) = t → get_prdtlen m (hdr list slot) = n →
  (∀ j, 0 ≤ j < n → prd m t j = (phys j, 512)) → (∀ j, 0 ≤ j < n → ¬ (phys j ≤ x < phys j + 512)) → serves medium m list slot x = m x.
Proof.
  intros Hmed Ht Hpl Hp Hx. unfold serves. cbn zeta. rewrite Ht, Hpl. apply dma_out.
  - apply Forall_forall. intros b Hb. unfold bytes_at in Hb. apply list_elem_of_In, in_map_iff in Hb as (y & <- & _). apply Hmed.
  - intros i a Hi. unfold prdt in Hi. rewrite list_lookup_fmap in Hi. destruct (decide (i < Z.to_nat n)%nat) as [Hl|Hl].
    + rewrite lookup_seq_lt in Hi by done. injection Hi as <-. rewrite Hp by lia. cbn [fst snd]. split; [lia|]. apply Hx. lia.
    + by rewrite lookup_ge_None_2 in Hi by (rewrite length_seq; lia).
Qed.

(** A command with a sector in every piece. *)
Lemma read_command_of m h capacity n phys : let t := cmd_table_base m h in
  getf (ld m h 4) 0 5 = 5 → getf (ld m h 4) 6 1 = 0 → clean m h t → m t = 0x27 → Z.testbit (m (t + 1)) 7 = true → fis_command m t = READ_DMA_EXT →
  Z.testbit (m (t + 7)) 6 = true → 0 < n → fis_count m t = n → fis_lba m t + n ≤ capacity → get_prdtlen m h = n →
  (∀ j, 0 ≤ j < n → prd m t j = (phys j, 512)) → (∀ j, 0 ≤ j < n → Z.even (phys j) = true) → read_command m h capacity.
Proof.
  intros t H1 H2 H3 H4 H5 H6 H7 Hn Hc Hcap Hl Hp Hev.
  assert (prdt m t (Z.to_nat n) = map (λ j, (phys (Z.of_nat j), 512)) (seq 0 (Z.to_nat n))) as E.
  { unfold prdt. apply map_ext_in. intros j Hj%in_seq. apply Hp. lia. }
  split; fold t; rewrite ?Hl, ?Hc, ?E; try done.
  - apply Forall_fmap, Forall_forall. intros j Hj%list_elem_of_In%in_seq. split; [apply Hev; lia|done].
  - assert (∀ l : list nat, foldr (λ d : Z * Z, Z.add d.2) 0 (map (λ j, (phys (Z.of_nat j), 512)) l) = 512 * zlen l) as Hs.
    { induction l as [|x l IH]; [done|]. cbn [map foldr snd length]. rewrite IH. lia. }
    rewrite Hs, length_seq. lia.
Qed.

Section ReadData.
Context (pml4 : Z) (medium : Z → Z) (capacity : Z) (latency : nat) (hw : st → st) (poke : Z → preg → Z → st → st) `{HC : !Controller medium capacity latency hw poke}.
Context (s : st) (i : Z) (p : port) (slot t : Z) (Hid : idle s i p slot t).
Context (lba n into : Z) (phys : Z → Z) (Hn : 0 < n < PRDTL) (Hlba : 0 ≤ lba < 2 ^ 40) (Hcap : lba + n ≤ capacity) (Hev : ∀ j, 0 ≤ j < n → Z.even (phys j) = true).
Context (Hal : Z.land into 511 = 0) (Hinto : 0 ≤ into ∧ into + 512 * n ≤ 2 ^ 64) (Hbk : backed pml4 (spg s) into n phys).

(** The memory when the command is issued. *)
Lemma issued_memory : ∃ m, let h := hdr (cmd_list_base p) slot in
  read_cmd pml4 lba n into t (created s i p slot) = Ok (n, with_ram (created s i p slot) m) ∧
  (let m' := set_prdtlen m h n in
   bytes m' ∧ cmd_table_base m' h = t ∧ get_prdtlen m' h = n ∧ fis_command m' t = READ_DMA_EXT ∧ fis_lba m' t = lba ∧ fis_count m' t = n ∧
   (∀ j, 0 ≤ j < n → prd m' t j = (phys j, 512)) ∧ clean m' h t ∧ read_command m' h capacity ∧
   (∀ x, ¬ (h ≤ x < h + 4) → ¬ (t ≤ x < t + CMD_TBL_SIZE) → m' x = ram s x)).
Proof using Hid Hn Hlba Hinto Hbk Hcap Hev.
  destruct Hid as [Hp [Hs Hsl] Hci Hoth Hst Htfd Hrun (C1 & C2 & C3 & C4) Hb [Hl0 Hl] [Ht [Ht0 Ht1]] Hap Htm]. unfold PRDTL in Hn.
  set (h := hdr (cmd_list_base p) slot) in *. assert (h = cmd_list_base p + 32 * slot) as Eh by done.
  assert (bytes (ram (created s i p slot))) as Hbc by (unfold created, set_write, set_cmd_fis_len; cbn [ram with_ram]; auto with dma).
  destruct (read_cmd_Ok pml4 lba n into t (created s i p slot) phys) as (m & E & Hbm & Ho & F1 & F2 & F3 & F4 & G0 & G1 & G7 & G2 & G15); [done|done|lia|apply Hinto|apply Hinto|done|].
  exists m. cbn zeta. split; [exact E|]. unfold CMD_TBL_SIZE, PRDTL in *.
  assert (∀ x, t ≤ x < t + 20 → ram (created s i p slot) x = ram s x) as Hcr.
  { intros x Hx. unfold created, set_write, set_cmd_fis_len. cbn [ram with_ram]. fold h. by rewrite !(put_bits_only _ h 4 _ _ _ x) by lia. }
  assert (only h 4 m (set_prdtlen m h n)) as Hpl by apply (put_bits_only _ _ 4).
  assert (∀ x, t ≤ x < t + (4080 * 16 + 128) → set_prdtlen m h n x = m x) as Hin by (intros x Hx; apply Hpl; lia).
  assert (ld (set_prdtlen m h n) h 4 = setf (setf (setf (ld (ram s) h 4) 0 5 5) 6 1 0) 16 16 n) as Hw.
  { unfold set_prdtlen. rewrite ld_put_bits by (done || lia). rewrite (ld_keep _ _ _ _ _ _ Ho) by lia.
    unfold created, set_write, set_cmd_fis_len. cbn [ram with_ram]. fold h. rewrite !ld_put_bits by (auto with dma; lia). reflexivity. }
  assert (cmd_table_base (set_prdtlen m h n) h = t) as Htb.
  { unfold cmd_table_base. rewrite (ld_keep _ _ _ _ _ _ Hpl) by lia. rewrite (ld_keep _ _ _ _ _ _ Ho) by lia.
    unfold created, set_write, set_cmd_fis_len. cbn [ram with_ram]. rewrite !ld_put_other by lia. exact Ht. }
  assert (get_prdtlen (set_prdtlen m h n) h = n) as Hln.
  { unfold get_prdtlen. rewrite Hw, getf_same by lia. apply getf_small; [unfold is_uN; lia|lia]. }
  assert (fis_lba (set_prdtlen m h n) t = lba) as Hfl.
  { unfold fis_lba in *. rewrite !Hin by lia. rewrite F2, Z.mod_small, Z.div_small by lia. change (0 `mod` 256) with 0. lia. }
  assert (fis_count (set_prdtlen m h n) t = n) as Hfc by (unfold fis_count; rewrite (ld_keep _ _ _ _ _ _ Hpl) by lia; exact F3).
  assert (fis_command (set_prdtlen m h n) t = READ_DMA_EXT) as Hco by (unfold fis_command; rewrite Hin by lia; exact F1).
  assert (∀ j, 0 ≤ j < n → prd (set_prdtlen m h n) t j = (phys j, 512)) as Hpr.
  { intros j Hj. rewrite (prd_keep _ _ _ _ t j Hpl) by (unfold entry_at; lia). by apply F4. }
  assert (clean (set_prdtlen m h n) h t) as Hcl.
  { assert (∀ o w, 0 ≤ o → 0 ≤ w → o = 5 ∧ w = 1 ∨ o = 7 ∧ w = 9 → getf (ld (set_prdtlen m h n) h 4) o w = getf (ld (ram s) h 4) o w) as Hg.
    { intros o w H1 H2 H3. by rewrite Hw, !getf_other by lia. }
    unfold clean. rewrite !Hg, !Hin by lia. rewrite G2, G15, (Hcr (t + 1)), (Hcr (t + 15)) by lia. done. }
  split_and!; [by apply put_bits_bytes|done..| |].
  - apply read_command_of with n phys; rewrite ?Htb, ?Hin, ?Hfl by lia; try (done || lia).
    + rewrite Hw, getf_other, getf_other, getf_same by lia. reflexivity.
    + rewrite Hw, getf_other, getf_same by lia. apply Z.land_0_l.
  - intros x Hx1 Hx2. rewrite Hpl, Ho by done. unfold created, set_write, set_cmd_fis_len. cbn [ram with_ram].
    rewrite !(put_bits_only _ h 4 _ _ _ x) by lia. done.
Qed.
End ReadData.

(** One read through a port that has nothing else to do: its result, and what it leaves behind. *)
Lemma ahci_read_Ok pml4 medium capacity latency hw poke `{HC : !Controller medium capacity latency hw poke} s i p slot t lba n into phys :
  idle s i p slot t → 0 < n < PRDTL → 0 ≤ lba < 2 ^ 40 → lba + n ≤ capacity → (∀ j, 0 ≤ j < n → Z.even (phys j) = true) → Z.land into 511 = 0 → 0 ≤ into ∧ into + 512 * n ≤ 2 ^ 64 →
  backed pml4 (spg s) into n phys →
  (∀ j k, 0 ≤ j < k → k < n → phys j + 512 ≤ phys k ∨ phys k + 512 ≤ phys j) →
  (∀ j x, 0 ≤ j < n → phys j ≤ x < phys j + 512 → ¬ scratch p slot x) →
  ∃ s', (∀ fuel, (latency < fuel)%nat → ahci_read pml4 hw poke fuel i lba n into s = Ok s') ∧ spg s' = spg s ∧
    (∀ k, 0 ≤ k < 512 * n → ∃ a, paging_lookup (spg s') pml4 (into + k) = Ok a ∧ ram s' a = medium (512 * lba + k)) ∧
    (∀ x, ¬ scratch p slot x → ¬ (hdr (cmd_list_base p) slot ≤ x < hdr (cmd_list_base p) slot + 4) → ¬ (t ≤ x < t + CMD_TBL_SIZE) →
       (∀ j, 0 ≤ j < n → ¬ (phys j ≤ x < phys j + 512)) → ram s' x = ram s x) ∧
    (∃ p', zlookup (ports (r s')) i = Some p' ∧ rests p p') ∧ (∀ j, j ≠ i → zlookup (ports (r s')) j = zlookup (ports (r s)) j) ∧
    tmr_counter (tm s) ≤ tmr_counter (tm s') ≤ tmr_counter (tm s) + 500 ∧ bytes (ram s') ∧
    ((∀ x, hdr (cmd_list_base p) slot ≤ x < hdr (cmd_list_base p) slot + 4 ∨ t ≤ x < t + 20 → ¬ scratch p slot x ∧ ∀ j, 0 ≤ j < n → ¬ (phys j ≤ x < phys j + 512)) →
     clean (ram s') (hdr (cmd_list_base p) slot) t).
Proof.
  intros Hid Hn Hlba Hcap Hev Hal Hinto Hbk Hap Hsc. pose proof (medium_u8 (medium := medium) (hw := hw) (poke := poke)) as Hmed.
  destruct (issued_memory pml4 capacity s i p slot t Hid lba n into phys Hn Hlba Hcap Hev Hinto Hbk) as (m & E & Hby & Ht & Hpl & F1 & F2 & F3 & F4 & Hcl & Hrc & Hrest).
  set (h := hdr (cmd_list_base p) slot) in *. set (m' := set_prdtlen m h n) in *.
  destruct (wait_served medium capacity latency hw poke s i p slot t Hid m' Hby) as (s' & Hw & Hsp & Hp' & Ho & Htm & Hby' & Hram); [exact Hrc|].
  exists s'. split_and!; [|done| | |done|done|apply Htm|apply Htm|done|].
  - intros fuel Hf. unfold ahci_read. rewrite Hal. unfold PRDTL in *. rewrite (proj2 (Z.ltb_lt n 4080)) by lia. cbn [Z.eqb assert_ mbind res_bind].
    unfold the_port. rewrite (id_port _ _ _ _ _ Hid). cbn [deref mbind res_bind]. rewrite (clear_is medium capacity latency hw poke s i p slot t Hid).
    rewrite (send_issues medium capacity latency hw poke s i p slot t Hid fuel _ n m) by (done || lia). fold h m'. by rewrite Hw by lia.
  - intros x Hx. set (j := x / 512). set (o := x `mod` 512). pose proof (Z.div_mod x 512 ltac:(lia)) as Ex. fold j o in Ex.
    pose proof (Z.mod_pos_bound x 512 ltac:(lia)) as Hmo. fold o in Hmo. clearbody j o. assert (0 ≤ j < n) as Hj by lia.
    destruct (Hbk j Hj) as (Hlk & _ & Hne). destruct (same_page into j o Hal Hmo) as [Hpg Hof].
    exists (phys j + o). rewrite Hsp. split.
    + rewrite Ex, Z.add_assoc. rewrite (lookup_page _ _ _ _ _ Hpg Hlk Hne). by rewrite Hof.
    + rewrite Hram by (apply (Hsc j); lia). rewrite (served_data medium m' _ slot t n lba phys j o) by (done || lia). f_equal. lia.
  - intros x H1 H2 H3 H4. rewrite Hram by done. rewrite (served_rest medium m' _ slot t n phys x) by done. by apply Hrest.
  - intros Hfree. assert (∀ x, h ≤ x < h + 4 ∨ t ≤ x < t + 20 → ram s' x = m' x) as Hk.
    { intros x Hx. destruct (Hfree x Hx) as [Hx1 Hx2]. rewrite Hram by done. by apply (served_rest medium m' _ slot t n phys x). }
    assert (ld (ram s') h 4 = ld m' h 4) as Hl by (unfold ld; f_equal; apply bytes_at_ext; intros x Hx; apply Hk; lia).
    unfold clean. rewrite Hl, !Hk by lia. exact Hcl.
Qed.

(** A read through an AHCI port that has nothing else to do, on a controller that follows the
    standard, ends with every byte of the buffer, wherever its pages lie in physical memory, being the byte of
    the medium; of the rest of memory only the port's own command structures have changed.  As many looks at the
    registers are enough as the controller takes to serve a command. *)
Lemma ahci_read_data pml4 medium capacity latency hw poke `{HC : !Controller medium capacity latency hw poke} s i p slot t lba n into phys fuel :
  idle s i p slot t → 0 < n < PRDTL → 0 ≤ lba < 2 ^ 40 → lba + n ≤ capacity → (∀ j, 0 ≤ j < n → Z.even (phys j) = true) → Z.land into 511 = 0 → 0 ≤ into ∧ into + 512 * n ≤ 2 ^ 64 →
  backed pml4 (spg s) into n phys →
  (∀ j k, 0 ≤ j < k → k < n → phys j + 512 ≤ phys k ∨ phys k + 512 ≤ phys j) →
  (∀ j x, 0 ≤ j < n → phys j ≤ x < phys j + 512 → ¬ scratch p slot x) → (latency < fuel)%nat →
  ∃ s', ahci_read pml4 hw poke fuel i lba n into s = Ok s' ∧ spg s' = spg s ∧
    (∀ k, 0 ≤ k < 512 * n → ∃ a, paging_lookup (spg s') pml4 (into + k) = Ok a ∧ ram s' a = medium (512 * lba + k)) ∧
    (∀ x, ¬ scratch p slot x → ¬ (hdr (cmd_list_base p) slot ≤ x < hdr (cmd_list_base p) slot + 4) → ¬ (t ≤ x < t + CMD_TBL_SIZE) →
       (∀ j, 0 ≤ j < n → ¬ (phys j ≤ x < phys j + 512)) → ram s' x = ram s x).
Proof.
  intros Hid Hn Hlba Hcap Hev Hal Hinto Hbk Hap Hsc Hf.
  destruct (ahci_read_Ok pml4 medium capacity latency hw poke s i p slot t lba n into phys Hid Hn Hlba Hcap Hev Hal Hinto Hbk Hap Hsc) as (s' & E & H1 & H2 & H3 & _).
  exists s'. split_and!; [by apply E|done..].
Qed.

(** *** A controller *)

Definition demo_medium (a : Z) : Z := u8 (7 * a + 3).
Definition demo_poke (i : Z) (g : preg) (v : Z) (s : st) : st :=
  match zlookup (ports (r s)) i, g with
  | Some p, IS => with_port s i (with_is p (Z.ldiff (intr_sts p) v))
  | Some p, CI => with_port s i (with_ci p (Z.lor (cmd_issue p) v))
  | _, _ => s
  end.
Fixpoint first_busy (l : list port) (k : Z) : option (Z * port) :=
  match l with [] => None | p :: l => if cmd_issue p =? 0 then first_busy l (k + 1) else Some (k, p) end.
(** It serves a command at the first look, from any medium. *)
Definition obey (medium : Z → Z) (s : st) : st :=
  match first_busy (ports (r s)) 0 with
  | None => s
  | Some (i, p) => with_ram (with_port s i (with_ci p 0)) (serves medium (ram s) (cmd_list_base p) (Z.log2 (cmd_issue p)))
  end.

Lemma first_busy_only l : ∀ k i p, zlookup l i = Some p → cmd_issue p ≠ 0 → (∀ j q, j ≠ i → zlookup l j = Some q → cmd_issue q = 0) →
  first_busy l k = Some (k + i, p).
Proof.
  induction l as [|q l IH]; intros k i p Hi Hp Ho; pose proof (zlookup_lt _ _ _ Hi) as Hr; cbn [length] in Hr; [lia|]. cbn [first_busy].
  destruct (decide (i = 0)) as [->|Hi0].
  - rewrite zlookup_Z in Hi by lia. injection Hi as ->. rewrite (proj2 (Z.eqb_neq _ 0)) by done. do 2 f_equal. lia.
  - rewrite (Ho 0 q) by (done || lia). cbn [Z.eqb]. assert (∀ j, 0 ≤ j → zlookup (q :: l) (j + 1) = zlookup l j) as Hs.
    { intros j Hj. rewrite !zlookup_Z by lia. by replace (Z.to_nat (j + 1)) with (S (Z.to_nat j)) by lia. }
    rewrite (IH (k + 1) (i - 1) p); [do 2 f_equal; lia| |done|].
    + rewrite <- Hs by lia. by replace (i - 1 + 1) with i by lia.
    + intros j u Hj Hu. pose proof (zlookup_lt _ _ _ Hu). apply (Ho (j + 1)); [lia|]. by rewrite Hs by lia.
Qed.

Lemma serves_bytes medium m l slot : bytes m → bytes (serves medium m l slot).
Proof.
  unfold serves. cbn zeta. generalize (bytes_at medium (512 * fis_lba m (cmd_table_base m (hdr l slot))) (Z.to_nat (512 * fis_count m (cmd_table_base m (hdr l slot))))) as data.
  generalize (prdt m (cmd_table_base m (hdr l slot)) (Z.to_nat (get_prdtlen m (hdr l slot)))) as pieces. intros pieces. revert m.
  induction pieces as [|[b n] pieces IH]; intros m data Hm; [done|]. cbn [dma]. apply IH, copy_in_bytes, Hm.
Qed.

Lemma obeys medium capacity : (∀ a, is_u8 (medium a)) → Controller medium capacity 1 (obey medium) demo_poke.
Proof.
  intros Hmed. split.
  - done.
  - intros s i p v H. unfold demo_poke. by rewrite H.
  - intros s i p v H. unfold demo_poke. by rewrite H.
  - intros s i p slot Hp Hs Hc Ho Hi He Ht Hrun Hr. pose proof (Z.pow_pos_nonneg 2 slot ltac:(lia) ltac:(lia)) as Hpow.
    exists 1%nat. cbn zeta. assert (Nat.iter 1 (obey medium) s = with_ram (with_port s i (with_ci p 0)) (serves medium (ram s) (cmd_list_base p) slot)) as ->.
    { cbn. unfold obey. rewrite (first_busy_only _ 0 i p) by (done || lia). rewrite Hc, Z.log2_pow2 by lia. done. }
    split_and!; [lia| |exists (with_ci p 0); split; [by eapply with_port_here|]|intros j Hj; by apply (with_port_there s i j p)|done|cbn; lia|cbn; lia|apply serves_bytes|done].
    + intros [|m] Hm; [|lia]. split_and!; [done|cbn; lia|]. exists p. change (Nat.iter 0 (obey medium) s) with s. rewrite Hc, Hi. split_and!; [done|apply Z.pow2_bits_true; lia|apply Z.bits_0|done].
    + split; [done|done|done|cbn; rewrite Hi; unfold is_uN; lia|done|done|done].
Qed.

Definition demo_hw : st → st := obey demo_medium.
#[global] Instance demo_controller : Controller demo_medium (2 ^ 30) 1 demo_hw demo_poke.
Proof. apply obeys. intros a. by apply uN_range. Qed.

Definition demo_into : Z := 0xffff900000001000.
Definition demo_pg : paging := match heap_fault root0 demo_into boot_tables with Ok p => p | _ => boot_tables end.
Definition demo_port : port := mkPort 0x100000 0x100400 0x40000001 0 0xc017 0x50 SIG_ATA 0x113 0 0 1 0.
Definition demo_ahci : st :=
  mkSt (mkHba 0x80000000 0x80000000 1 0 [demo_port]) (sto (λ _, 0) (0x100020 + 8) 8 0x200000) demo_pg (mkTimers 1000 0).

Lemma demo_idle : idle demo_ahci 0 demo_port 1 0x200000.
Proof.
  split.
  - reflexivity.
  - split; [reflexivity|lia].
  - reflexivity.
  - intros j q Hj Hq. pose proof (zlookup_lt _ _ _ Hq) as H. cbn in H. lia.
  - split; [unfold is_uN; cbn; lia|reflexivity].
  - split; reflexivity.
  - split; reflexivity.
  - vm_compute. repeat split.
  - apply sto_bytes. intros x. unfold is_uN. lia.
  - cbn. lia.
  - unfold CMD_TBL_SIZE, PRDTL. split; [vm_compute; reflexivity|lia].
  - unfold CMD_TBL_SIZE, PRDTL. cbn. lia.
  - cbn. lia.
Qed.

Lemma ahci_read_data_witness : ∃ s', ahci_read root0 demo_hw demo_poke 2 0 5 3 demo_into demo_ahci = Ok s' ∧
  ∃ a, paging_lookup (spg s') root0 (demo_into + 1024) = Ok a ∧ ram s' a = demo_medium (512 * 5 + 1024).
Proof.
  destruct (ahci_read_data root0 demo_medium (2 ^ 30) 1 demo_hw demo_poke demo_ahci 0 demo_port 1 0x200000 5 3 demo_into (λ j, 0x1000 + 512 * j) 2)
    as (s' & E & _ & Hd & _); [exact demo_idle|unfold PRDTL; lia|lia|lia|intros j Hj; replace (0x1000 + 512 * j) with (2 * (0x800 + 256 * j)) by lia; apply Z.even_mul|reflexivity|unfold demo_into; lia| | | |lia|].
  - intros j Hj. assert (j = 0 ∨ j = 1 ∨ j = 2) as [->|[->| ->]] by lia;
      (split; [vm_compute; reflexivity|]; unfold is_uN, NPOS; lia).
  - intros j k Hj Hk. lia.
  - intros j x Hj Hx [H|H]; unfold hdr in H; cbn in H; lia.
  - exists s'. split; [exact E|]. apply Hd. lia.
Defined.
