(* ===== verification/AhciPort.v ===== *)
(** Bringing up an AHCI port: the memory of its command structures, the waits, the strings of the drive, and
    where the driver goes wrong. *)
From S2P Require Import Prelude Arith Mem Strings Msd MsdSpec Elf Bitmap Pmm Paging PagingArea Module ModuleSpec Descriptors Dma Interrupts Ata Machine Ahci AhciSpec.

(** ** The command structures *)

Lemma pool_address P x : 0 ≤ P → 0 ≤ x → P + x < 2 ^ 47 → P `mod` 128 = 0 → x `mod` 128 = 0 →
  Z.land (HHDM + P + x) 127 = 0 ∧ PHYSICAL (HHDM + P + x) = P + x.
Proof.
  intros HP Hx Hb HmP Hmx. split.
  - change 127 with (Z.ones 7). rewrite Z.land_ones by lia. change (2 ^ 7) with 128.
    change HHDM with (2 ^ 40 * (2 ^ 17 - 1) * 128). replace (2 ^ 40 * (2 ^ 17 - 1) * 128 + P + x) with (P + x + 2 ^ 40 * (2 ^ 17 - 1) * 128) by lia.
    rewrite Z.mod_add by lia. by rewrite Z.add_mod, HmP, Hmx by lia.
  - replace (HHDM + P + x) with (P + x + HHDM) by lia. apply phys_of_virtual. lia.
Qed.

(** The 32 headers after [j] rounds. *)
Record headers (P : Z) (m0 m : Mem.mem) (j : Z) : Prop := {
  hd_bytes : bytes m;
  hd_only : only P (32 * j) m0 m;
  hd_entries : ∀ k, 0 ≤ k < j → cmd_table_base m (hdr P k) = P + 1280 + CMD_TBL_SIZE * k ∧ get_prdtlen m (hdr P k) = PRDTL }.

Lemma fill_hdr_Ok P m0 j m : 0 ≤ P → P + POOL_SIZE ≤ 2 ^ 47 → P `mod` 4096 = 0 → 0 ≤ j < 32 → headers P m0 m j →
  ∃ m', fill_hdr P (HHDM + P + 1280) j m = Ok m' ∧ headers P m0 m' (j + 1).
Proof.
  intros HP Hb Hal Hj [Hby Ho He]. unfold fill_hdr. cbn zeta. change POOL_SIZE with 2097152 in Hb.
  assert (P `mod` 128 = 0) as H128.
  { pose proof (Z.div_mod P 4096 ltac:(lia)) as E. rewrite Hal in E. replace P with (32 * (P / 4096) * 128) by lia. apply Z.mod_mul. lia. }
  replace (HHDM + P + 1280 + CMD_TBL_SIZE * j) with (HHDM + P + (1280 + CMD_TBL_SIZE * j)) by lia. unfold CMD_TBL_SIZE, PRDTL in *.
  destruct (pool_address P (1280 + (4080 * 16 + 128) * j)) as [-> ->]; [lia|lia|lia|done| |].
  { replace (1280 + (4080 * 16 + 128) * j) with ((10 + 511 * j) * 128) by lia. apply Z.mod_mul. lia. }
  cbn [Z.eqb assert_ mbind res_bind]. eexists. split; [done|]. set (h := hdr P j). assert (h = P + 32 * j) as Eh by done.
  unfold set_cmd_table_base, set_prdtlen. assert (only h 32 m (sto (put_bits m h 4 16 16 4080) (h + 8) 8 (P + (1280 + (4080 * 16 + 128) * j)))) as Hh.
  { apply (only_trans h 32 m (put_bits m h 4 16 16 4080)); [eapply only_wide; [apply put_bits_only|lia..]|eapply only_wide; [apply sto_only|lia..]]. }
  split.
  - auto with dma.
  - eapply only_trans; [eapply only_wide; [exact Ho|lia..]|]. eapply only_wide; [exact Hh|lia..].
  - intros k Hk. destruct (decide (k = j)) as [->|Hkj].
    + fold h. unfold cmd_table_base, get_prdtlen. rewrite ld_sto_small by (cbn; lia). rewrite ld_sto_other by lia.
      rewrite ld_put_bits by (done || lia). rewrite getf_same by lia. unfold CMD_TBL_SIZE, PRDTL. split; [lia|reflexivity].
    + unfold cmd_table_base, get_prdtlen. rewrite !(ld_keep _ _ _ _ _ _ Hh) by (unfold hdr; lia). apply He. lia.
Qed.

(** The 2 MiB pool of a port holds its command structures: after the loop every slot's header points at a
    table of its own, on a boundary of 128 bytes, with the room its length says, inside the pool and away from
    the command list and the received FISes, and nothing but the headers was written. *)
Lemma ahci_tables_laid P m : bytes m → 0 ≤ P → P + POOL_SIZE ≤ 2 ^ 47 → P `mod` 4096 = 0 →
  ∃ m', for_rounds (fill_hdr P (HHDM + P + 1280)) 0 1 32 m = Ok m' ∧ bytes m' ∧ only P 1024 m m' ∧
    ∀ j, 0 ≤ j < 32 → let t := cmd_table_base m' (hdr P j) in
      t `mod` 128 = 0 ∧ P + 1024 + 256 ≤ t ∧ t + CMD_TBL_SIZE ≤ P + POOL_SIZE ∧ get_prdtlen m' (hdr P j) = PRDTL ∧ entry_at t PRDTL = t + CMD_TBL_SIZE ∧
      ∀ k, 0 ≤ k < 32 → k ≠ j → t + CMD_TBL_SIZE ≤ cmd_table_base m' (hdr P k) ∨ cmd_table_base m' (hdr P k) + CMD_TBL_SIZE ≤ t.
Proof.
  intros Hm HP Hb Hal. destruct (for_rounds_at (fill_hdr P (HHDM + P + 1280)) (λ j m', headers P m m' j) 32 0 m) as (m' & E & [Hby Ho He]).
  { split; [done|apply only_refl|lia]. }
  { intros j m1 Hj Hh. apply fill_hdr_Ok; try done; lia. }
  exists m'. split; [exact E|]. split; [done|]. split; [exact Ho|]. intros j Hj t. destruct (He j Hj) as [Ht Hl]. subst t.
  unfold entry_at. rewrite Ht, Hl. unfold CMD_TBL_SIZE, PRDTL in *. change POOL_SIZE with 2097152. split_and!; try lia.
  - pose proof (Z.div_mod P 4096 ltac:(lia)) as EP. rewrite Hal in EP.
    replace (P + 1280 + (4080 * 16 + 128) * j) with ((32 * (P / 4096) + 10 + 511 * j) * 128) by lia. apply Z.mod_mul. lia.
  - intros k Hk Hkj. destruct (He k Hk) as [-> _]. lia.
Qed.
Lemma ahci_tables_laid_witness :
  ∃ m', for_rounds (fill_hdr 0x400000 (HHDM + 0x400000 + 1280)) 0 1 32 (λ _, 0) = Ok m' ∧ bytes m' ∧
    cmd_table_base m' (hdr 0x400000 31) `mod` 128 = 0.
Proof.
  destruct (ahci_tables_laid 0x400000 (λ _, 0)) as (m' & E & Hb & _ & H); [intros x; unfold is_uN; lia|lia|vm_compute; discriminate|reflexivity|].
  exists m'. split; [exact E|]. split; [exact Hb|]. apply (H 31). lia.
Defined.

(** ** Waiting *)

(** On hardware whose time passes, a wait with a deadline of the driver always ends: with what it waited for, or
    with the message. *)
Lemma poll_decides hw busy ms s `{HT : !Ticking (λ s, tmr_counter (tm s)) hw} : (∀ s, timer (tm (hw s)) = timer (tm s)) →
  0 ≤ tmr_counter (tm s) → 0 ≤ ms → tmr_counter (tm s) + ms < 2 ^ 63 →
  ∃ n fuel0, ∀ fuel, (fuel0 ≤ fuel)%nat → let s' := Nat.iter n hw (with_tm s (arch_start_timer (tm s))) in
    (busy s' = false ∧ poll hw fuel busy ms s = Ok s') ∨
    (busy s' = true ∧ poll hw fuel busy ms s = Fatal "Timeout reached on expression").
Proof.
  intros Hk H0 Hms Hb. destruct (timed_result tm hw Hk busy ms (λ _, Fatal "Timeout reached on expression") Ok
    (with_tm s (arch_start_timer (tm s)))) as (n & f & H); [done..|].
  exists n, f. intros fuel Hf. cbn zeta. destruct (H fuel Hf) as [[H1 H2]|(H1 & _ & H2)]; [left|right]; by split.
Qed.

(** ** The strings of the drive *)

(** The characters of a string lie in pairs, the second one first; behind the text there are spaces. *)
Definition pair_of (k : Z) : Z := if Z.even k then k + 1 else k - 1.
Definition padded (name : list Z) (k : Z) : Z := default 32 (zlookup name k).

Lemma padded_at (name : list Z) k c : zlookup name k = Some c → padded name k = c.
Proof. unfold padded. by intros ->. Qed.
Lemma padded_out (name : list Z) k : zlen name ≤ k → padded name k = 32.
Proof. intros H. unfold padded. by rewrite zlookup_None by lia. Qed.

(** The characters after the exchange of the pairs below [i]. *)
Definition exchanged (name l : list Z) (o len i : Z) : Prop :=
  ∀ k, 0 ≤ k < len → zlookup l (o + k) = Some (padded name (if k <? i then k else pair_of k)).

Lemma swap_round_Ok name l o len i : 0 ≤ o → 0 ≤ i → i + 2 ≤ len → Z.even i = true → exchanged name l o len i →
  ∃ l', swap_round o i l = Ok l' ∧ exchanged name l' o len (i + 2) ∧ length l' = length l ∧ ∀ x, ¬ (o ≤ x < o + len) → zlookup l' x = zlookup l x.
Proof.
  intros Ho Hi Hl He Hx. unfold swap_round. pose proof (Hx i ltac:(lia)) as H1. pose proof (Hx (i + 1) ltac:(lia)) as H2.
  rewrite (proj2 (Z.ltb_ge i i)) in H1 by lia. rewrite (proj2 (Z.ltb_ge (i + 1) i)) in H2 by lia. rewrite Z.add_assoc in H2. rewrite H1, H2. cbn [deref mbind res_bind].
  assert (pair_of i = i + 1) as E1 by (unfold pair_of; by rewrite He). assert (Z.even (i + 1) = false) as Ho1 by (rewrite Z.add_1_r, Z.even_succ, <- Z.negb_even, He; done).
  assert (pair_of (i + 1) = i) as E2 by (unfold pair_of; rewrite Ho1; lia). rewrite E1, E2.
  pose proof (zlookup_lt _ _ _ H1). pose proof (zlookup_lt _ _ _ H2).
  eexists. split; [done|]. split_and!; [|by rewrite !zinsert_length|].
  - intros k Hk. rewrite zlookup_zinsert by (rewrite zinsert_length; lia). rewrite zlookup_zinsert by lia.
    destruct (Z.eqb_spec (o + i + 1) (o + k)); [|destruct (Z.eqb_spec (o + i) (o + k))].
    + rewrite (proj2 (Z.ltb_lt _ _)) by lia. do 2 f_equal. lia.
    + rewrite (proj2 (Z.ltb_lt _ _)) by lia. do 2 f_equal. lia.
    + rewrite (Hx k Hk). do 2 f_equal. destruct (Z.ltb_spec k i), (Z.ltb_spec k (i + 2)); try done; lia.
  - intros x Hx'. rewrite zlookup_zinsert by (rewrite zinsert_length; lia). rewrite zlookup_zinsert by lia.
    by rewrite !(proj2 (Z.eqb_neq _ _)) by lia.
Qed.

Lemma trim_Ok l o (n : nat) : ∀ k, (n ≤ k)%nat → (∀ j, (n ≤ j < k)%nat → zlookup l (o + Z.of_nat j) = Some 32) →
  (0 < n)%nat → (∃ c, zlookup l (o + Z.of_nat (n - 1)) = Some c ∧ c ≠ 32) → trim l o k = Ok (Z.of_nat (n - 1)).
Proof.
  induction k as [|k IH]; intros Hk Hsp Hn (c & Hc & Hne); [lia|]. cbn [trim]. destruct (decide (n = S k)) as [->|Hnk].
  - replace (S k - 1)%nat with k in * by lia. rewrite Hc. cbn [deref mbind res_bind]. by rewrite (proj2 (Z.eqb_neq _ _)).
  - rewrite (Hsp k) by lia. cbn [deref mbind res_bind Z.eqb Pos.eqb]. apply IH; [lia|intros j Hj; apply Hsp; lia|done|by exists c].
Qed.

Lemma c_string_is name : ∀ l, Forall (λ c, c ≠ 0) name → (∀ k c, name !! k = Some c → l !! k = Some c) → l !! length name = Some 0 →
  c_string l = Ok name.
Proof.
  induction name as [|c name IH]; intros l Hn Hl H0; destruct l as [|b l]; [done| |done|]; cbn [c_string].
  - injection H0 as ->. done.
  - apply Forall_cons in Hn as [Hc Hn]. pose proof (Hl 0%nat c eq_refl) as [= ->]. rewrite (proj2 (Z.eqb_neq _ 0)) by done.
    rewrite (IH l Hn); [done| |exact H0]. intros k d Hk. exact (Hl (S k) d Hk).
Qed.

Lemma pair_high k h : Z.even h = true → h ≤ k → h ≤ pair_of k.
Proof.
  intros He Hk. unfold pair_of. destruct (Z.even k) eqn:Ek; [lia|]. destruct (decide (k = h)) as [->|]; [congruence|lia].
Qed.

(** A drive's model or serial number of at most half the length of its field, stored the way drives store
    it, comes out of [ahci_sanitize] as the text itself, terminated; bytes outside the field other than the one
    behind it stay. *)
Lemma sanitize_name l o len name : 0 ≤ o → 0 < len → len `mod` 4 = 0 → o + len < zlen l → 0 < zlen name ≤ len / 2 →
  Forall (λ c, c ≠ 0) name → last name ≠ Some 32 → exchanged name l o len 0 →
  ∃ l', ahci_sanitize l o len = Ok l' ∧ c_string (drop (Z.to_nat o) l') = Ok name ∧ length l' = length l ∧
    ∀ x, ¬ (o ≤ x ≤ o + len) → zlookup l' x = zlookup l x.
Proof.
  intros Ho Hl H4 Hlen Hn Hnz Hlast Hx. pose proof (Z.div_mod len 4 ltac:(lia)) as E4. rewrite H4 in E4. set (q := len / 4) in *. clearbody q.
  assert (len / 2 = 2 * q) as Eh by (symmetry; apply Z.div_unique with 0; lia). rewrite Eh in *.
  unfold ahci_sanitize. rewrite Eh. assert (rounds (2 * q) 2 = Z.to_nat q) as ->.
  { unfold rounds. f_equal. symmetry. apply Z.div_unique with 1; lia. }
  destruct (for_rounds_by (swap_round o) (λ i l', exchanged name l' o len i ∧ length l' = length l ∧ ∀ x, ¬ (o ≤ x < o + len) → zlookup l' x = zlookup l x)
    2 (Z.to_nat q) 0 l) as (l1 & -> & X1 & L1 & F1); [by split_and!| |].
  { intros n u Hnq j (Hu & Lu & Fu). destruct (swap_round_Ok name u o len j) as (u' & E & Xu & Lu' & Fu'); unfold j; try lia; try done.
    { rewrite Z.add_0_l, Z.even_mul. apply orb_true_r. }
    exists u'. split; [exact E|]. split; [exact Xu|]. split; [congruence|]. intros x Hx'. by rewrite Fu', Fu. }
  cbn [mbind res_bind]. rewrite Z.add_0_l, Z2Nat.id in X1 by lia.
  assert (∀ k, 0 ≤ k < len → zlookup l1 (o + k) = Some (padded name k)) as Hp.
  { intros k Hk. rewrite X1 by done. destruct (Z.ltb_spec k (q * 2)); [done|]. f_equal. rewrite !padded_out; [done|lia|].
    etransitivity; [|apply (pair_high k (q * 2))]; [lia| |lia]. rewrite Z.even_mul. apply orb_true_r. }
  rewrite (trim_Ok l1 o (length name)).
  - cbn [mbind res_bind]. replace (o + Z.of_nat (length name - 1) + 1) with (o + zlen name) by lia.
    rewrite Hp by lia. cbn [deref mbind res_bind]. eexists. split; [done|]. split_and!; [|by rewrite zinsert_length|].
    + apply c_string_is; [done| |].
      * intros k c Hk. rewrite lookup_drop. pose proof (lookup_lt_Some _ _ _ Hk). assert (zlookup (zinsert l1 (o + zlen name) 0) (o + Z.of_nat k) = Some c) as Hz.
        { rewrite zlookup_zinsert by lia. rewrite (proj2 (Z.eqb_neq _ _)) by lia. rewrite Hp by lia. f_equal. apply padded_at. by rewrite zlookup_nat. }
        rewrite zlookup_Z in Hz by lia. by replace (Z.to_nat o + k)%nat with (Z.to_nat (o + Z.of_nat k)) by lia.
      * rewrite lookup_drop. assert (zlookup (zinsert l1 (o + zlen name) 0) (o + zlen name) = Some 0) as Hz by (rewrite zlookup_zinsert by lia; by rewrite Z.eqb_refl).
        rewrite zlookup_Z in Hz by lia. by replace (Z.to_nat o + length name)%nat with (Z.to_nat (o + zlen name)) by lia.
    + intros x Hx'. rewrite zlookup_zinsert by lia. rewrite (proj2 (Z.eqb_neq _ _)) by lia. apply F1. lia.
  - lia.
  - intros j Hj. rewrite Hp by lia. f_equal. apply padded_out. lia.
  - lia.
  - destruct name as [|a name'] using rev_ind; [cbn in Hn; lia|]. rewrite last_snoc in Hlast. exists a. split; [|congruence].
    rewrite length_app in *. cbn [length] in *. rewrite Hp by lia. f_equal. apply padded_at.
    replace (length name' + 1 - 1)%nat with (length name') by lia. rewrite zlookup_nat. by apply list_lookup_middle.
Qed.

(** An identity whose model number is [name]. *)
Definition demo_identity (name : list Z) : list Z :=
  replicate 54 0 ++ map (λ k, padded name (pair_of (Z.of_nat k))) (seq 0 40) ++ replicate 418 7.
Lemma demo_exchanged name : exchanged name (demo_identity name) ModelNumber 40 0.
Proof.
  intros k Hk. rewrite (proj2 (Z.ltb_ge k 0)) by lia. unfold demo_identity, ModelNumber. rewrite zlookup_Z by lia.
  rewrite lookup_app_r by (rewrite length_replicate; lia). rewrite lookup_app_l by (rewrite length_replicate, length_map, length_seq; lia).
  rewrite length_replicate, list_lookup_fmap, lookup_seq_lt by lia. cbn. do 3 f_equal. lia.
Qed.
Lemma sanitize_name_witness : ∃ l', ahci_sanitize (demo_identity (bytes_of "QEMU HARDDISK")) ModelNumber 40 = Ok l' ∧
  c_string (drop 54 l') = Ok (bytes_of "QEMU HARDDISK").
Proof.
  destruct (sanitize_name (demo_identity (bytes_of "QEMU HARDDISK")) ModelNumber 40 (bytes_of "QEMU HARDDISK")) as (l' & E & H & _);
    [unfold ModelNumber; lia|lia|reflexivity|vm_compute; reflexivity|vm_compute; split; [reflexivity|discriminate]| | |apply demo_exchanged|].
  - repeat constructor; cbn; lia.
  - vm_compute. discriminate.
  - exists l'. split; [exact E|exact H].
Defined.

(** ** Where the driver goes wrong *)

(** The exchange stops at half of the field: the rest of a longer name stays in pairs. *)
Lemma long_name_garbled :
  match ahci_sanitize (demo_identity (bytes_of "Samsung SSD 860 EVO 250GB")) ModelNumber 40 with
  | Ok l => c_string (drop 54 l) | _ => Fault end = Ok (bytes_of "Samsung SSD 860 EVO 52G0 B").
Proof. vm_compute. reflexivity. Qed.
(** A blank field has no end: the search for it leaves the field. *)
Lemma blank_name_faults : ahci_sanitize (demo_identity (bytes_of "")) ModelNumber 40 = Fault.
Proof. vm_compute. reflexivity. Qed.

(** Sector 2^40 is asked for as sector 0. *)
Lemma high_lba_lost pml4 into t s phys : bytes (ram s) → 0 ≤ into → into + 512 ≤ 2 ^ 64 → backed pml4 (spg s) into 1 phys →
  ∃ m, read_cmd pml4 (2 ^ 40) 1 into t s = Ok (1, with_ram s m) ∧ fis_lba m t = 0.
Proof.
  intros Hb H0 Hi Hbk. destruct (read_cmd_Ok pml4 (2 ^ 40) 1 into t s phys) as (m & E & _ & _ & _ & H & _);
    [done|unfold PRDTL; lia|lia|done|lia|done|]. exists m. split; [exact E|]. rewrite H. reflexivity.
Qed.
(** A read of no sectors passes the check and writes the interrupt bit of the entry before the first one, which is 64 GiB away. *)
Lemma no_sectors_stray pml4 lba into t s : ∃ m0, read_cmd pml4 lba 0 into t s = Ok (0, with_ram s (set_ioc m0 (t + 128 + 16 * (2 ^ 32 - 1)) true)).
Proof. eexists. reflexivity. Qed.
(** With every slot in use the driver indexes its list with 2^32 - 1. *)
Lemma no_slot_faults hw poke fuel i create s p : zlookup (ports (r s)) i = Some p → Z.lor (cmd_issue p) (sata_active p) = Z.ones 32 →
  ahci_send_cmd hw poke fuel i create s = Fault.
Proof.
  intros Hp Hb. unfold ahci_send_cmd, the_port. rewrite Hp. cbn [deref mbind res_bind]. unfold alloc_cmdslot. rewrite Hb. reflexivity.
Qed.
