(* ===== verification/Usb.v ===== *)
(** The USB core ([devmgr/usb/usb.cc], [hub.cc], [hid.cc] and [usb.hh]).

    The core drives any host controller through [usb_hci_interface_t]; here that is the class [Hci].  A
    transfer gives the bytes the device answered with, which land at the start of the caller's buffer; the
    buffers of [kmalloc4g] are whole pages, are not cleared and are never given back.  Devices are named by
    their index in [devs]; a device on a root port has no parent among them. *)
From S2P Require Import Prelude Arith Strings Msd Elf Ata Module.

(** ** Descriptors and requests *)

Definition GET_STATUS : Z := 0.
Definition SET_FEATURE : Z := 3.
Definition SET_ADDRESS : Z := 5.
Definition GET_DESCRIPTOR : Z := 6.
Definition SET_CONFIGURATION : Z := 9.
Definition CLASS_HID : Z := 3.
Definition CLASS_HUB : Z := 9.

Record usb_request := mkReq { bmRequestType : Z; bRequest : Z; wValue : Z; wIndex : Z; wLength : Z }.
#[global] Instance usb_request_eq_dec : EqDecision usb_request.
Proof. solve_decision. Defined.
(** [wValueH], [wValueL] *)
Definition value_of (h l : Z) : Z := l + 256 * h.

(** The packed structures. *)
Definition usb_request_t : list member := [F "bmRequestType" 8; F "bRequest" 8; F "wValue" 16; F "wIndex" 16; F "wLength" 16].
Definition usb_descriptor_header : list member := [F "bLength" 8; F "bDescriptorType" 8].
Definition usb_descriptor_device : list member :=
  [Sub "hdr" usb_descriptor_header; F "bcdUSB" 16; F "bDeviceClass" 8; F "bDeviceSubClass" 8; F "bDeviceProtocol" 8; F "bMaxPacketSize" 8;
   F "idVendor" 16; F "idProduct" 16; F "bcdDevice" 16; F "iManufacturer" 8; F "iProduct" 8; F "iSerialNumber" 8; F "bNumConfigurations" 8].
Definition usb_descriptor_endpoint : list member :=
  [Sub "hdr" usb_descriptor_header; F "bEndpointAddress" 8; F "bmAttributes" 8; F "wMaxPacketSize" 16; F "bInterval" 8].
Definition usb_descriptor_interface : list member :=
  [Sub "hdr" usb_descriptor_header; F "bInterfaceNumber" 8; F "bAlternateSetting" 8; F "bNumEndpoints" 8; F "bInterfaceClass" 8;
   F "bInterfaceSubClass" 8; F "bInterfaceProtocol" 8; F "iInterface" 8].
Definition usb_descriptor_configuration : list member :=
  [Sub "hdr" usb_descriptor_header; F "wTotalLength" 16; F "bNumInterfaces" 8; F "bConfigurationValue" 8; F "iConfiguration" 8;
   F "bmAttributes" 8; F "bMaxPower" 8].
Definition usb_descriptor_hub : list member :=
  [Sub "hdr" usb_descriptor_header; F "bNbrPorts" 8; F "wHubCharacteristics" 8; F "bPowerOnGood" 8; F "bHubContrCurrent" 8].
Definition usb_hub_port_feats : list member :=
  [F "PORT_CONNECTION" 1; F "PORT_ENABLE" 1; F "PORT_SUSPEND" 1; F "PORT_OVER_CURRENT" 1; F "PORT_RESET" 1; F "" 3; F "PORT_POWER" 1;
   F "PORT_LOW_SPEED" 1; F "PORT_HIGH_SPEED" 1; F "" 5; F "C_PORT_CONNECTION" 1; F "C_PORT_ENABLE" 1; F "C_PORT_SUSPEND" 1;
   F "C_PORT_OVER_CURRENT" 1; F "C_PORT_RESET" 1; F "PORT_TEST" 1; F "PORT_INDICATOR" 1].
(** The offset of a member, in bytes. *)
Definition at_ (path : list string) (l : list member) : Z := default 0 (offset_of path 0 l) / 8.

(** ** Devices *)

Inductive UsbSpeed := LS | FS | HS | SS.
#[global] Instance UsbSpeed_eq_dec : EqDecision UsbSpeed.
Proof. solve_decision. Defined.

(** [device_t_USB], and the parent and port of its [Device]. *)
Record usbdev := mkUsbDev { uparent : option nat; uloc : Z; vendor : Z; product : Z; manufacturerName : list Z; productName : list Z;
  serial : list Z; mps : Z; langid : Z; addr : Z; classcode : Z; speed : UsbSpeed }.
Definition set_ids (d : usbdev) (m c v p : Z) : usbdev :=
  mkUsbDev (uparent d) (uloc d) v p (manufacturerName d) (productName d) (serial d) m (langid d) (addr d) c (speed d).
Definition set_addr (d : usbdev) (a : Z) : usbdev :=
  mkUsbDev (uparent d) (uloc d) (vendor d) (product d) (manufacturerName d) (productName d) (serial d) (mps d) (langid d) a (classcode d) (speed d).
Definition set_langid (d : usbdev) (l : Z) : usbdev :=
  mkUsbDev (uparent d) (uloc d) (vendor d) (product d) (manufacturerName d) (productName d) (serial d) (mps d) l (addr d) (classcode d) (speed d).
Definition set_names (d : usbdev) (m p s : list Z) : usbdev :=
  mkUsbDev (uparent d) (uloc d) (vendor d) (product d) m p s (mps d) (langid d) (addr d) (classcode d) (speed d).

(** [usb_hci_interface_t] *)
Class Hci (C : Type) := {
  hci_send : usbdev → Z → usb_request → C → res (list Z * C);
  hci_reset_port : usbdev → C → res C;
  hci_make_address : C → res (Z * C) }.

(** Received bytes in a buffer of a page. *)
Definition PAGE : Z := 4096.
Definition received (buf data : list Z) : res (list Z) :=
  if zlen buf <? zlen data then Fault else Ok (data ++ drop (length data) buf).
Definition byte (buf : list Z) (o : Z) : res Z := rd buf o 1.

Section Core.
Context {C : Type} `{Hci C}.
(** The contents of a page as it comes from the allocator. *)
Context (page : list Z).

Record usb := mkUsb { devs : list usbdev; hc : C }.
Definition dev_at (s : usb) (d : nat) : res usbdev := deref (devs s !! d).
Definition upd (s : usb) (d : nat) (f : usbdev → usbdev) : usb := mkUsb (alter f d (devs s)) (hc s).

Definition send (d : nat) (r : usb_request) (buf : list Z) (s : usb) : res (list Z * usb) :=
  dev ← dev_at s d;
  '(data, c) ← hci_send dev 0 r (hc s);
  buf ← received buf data;
  Ok (buf, mkUsb (devs s) c).

(** ** Strings *)

(** [ucs2_to_asciin]: the low bytes of the characters. *)
Definition ucs2_to_asciin (buf : list Z) (o : Z) (len : nat) : res (list Z) :=
  mapM (λ k, byte buf (o + 2 * Z.of_nat k)) (seq 0 len).

(** The last listed language that is Hungarian, else the first. *)
Fixpoint pick_langid (langids : list Z) (i : Z) (n : nat) (cur : Z) : res Z :=
  match n with
  | O => Ok cur
  | S n => l ← rd langids (2 + 2 * i) 2; pick_langid langids (i + 1) n (if l =? 0x040e then l else cur)
  end.
Definition get_langid (d : nat) (s : usb) : res usb :=
  let req len := mkReq 0x80 GET_DESCRIPTOR (value_of 3 0) 0 len in
  '(langids, s) ← send d (req 2) page s;
  bLength ← byte langids 0;
  let num_langids := if bLength <=? 2 then 0 else (bLength - 2) / 2 in
  '(langids, s) ← send d (req bLength) langids s;
  first ← (if num_langids =? 0 then Ok 0x0409 else rd langids 2 2);
  l ← pick_langid langids 0 (Z.to_nat num_langids) first;
  Ok (upd s d (λ x, set_langid x l)).

(** [usb_get_string].  The length of an empty descriptor wraps, and the byte behind the string is written
    4 GiB away. *)
Definition usb_get_string (d : nat) (idx : Z) (s : usb) : res (list Z * usb) :=
  if idx =? 0 then Ok ([], s) else
  dev ← dev_at s d;
  s ← (if langid dev =? 0xffff then get_langid d s else Ok s);
  dev ← dev_at s d;
  let req len := mkReq 0x80 GET_DESCRIPTOR (value_of 3 idx) (langid dev) len in
  '(str, s) ← send d (req 2) page s;
  bLength ← byte str 0;
  '(str, s) ← send d (req bLength) str s;
  bLength ← byte str 0;
  let len := u32 (Z.quot (bLength - 2) 2) in
  if 2 ^ 31 <=? len then Fault else
  l ← ucs2_to_asciin str 2 (Z.to_nat len);
  l ← c_string (l ++ [0]);
  Ok (l, s).

(** ** Adding and resetting devices *)

Definition default_mps (v : UsbSpeed) : Z := match v with LS => 8 | FS => 64 | HS => 64 | SS => 512 end.
(** [usb_device_add_skeleton]: the list of devices grows at its end. *)
Definition usb_device_add_skeleton (parent : option nat) (port : Z) (v : UsbSpeed) (s : usb) : nat * usb :=
  (length (devs s), mkUsb (devs s ++ [mkUsbDev parent port 0 0 [] [] [] (default_mps v) 0xffff 0 0 v]) (hc s)).

Definition feat (buf : list Z) (name : string) : res bool :=
  w ← rd buf 0 3; Ok (Z.testbit w (default 0 (offset_of [name] 0 usb_hub_port_feats))).
(** The polling loop of [usb_hub_send_reset]. *)
Fixpoint await_enable (k : nat) (hub : nat) (getsts : usb_request) (portsc : list Z) (s : usb) : res (UsbSpeed * usb) :=
  match k with
  | O => Fatal "Port failed to enable!"
  | S k =>
      '(portsc, s) ← send hub getsts portsc s;
      enabled ← feat portsc "PORT_ENABLE"; low ← feat portsc "PORT_LOW_SPEED"; high ← feat portsc "PORT_HIGH_SPEED";
      if (enabled : bool) then Ok (if (low : bool) then LS else if (high : bool) then HS else FS, s)
      else await_enable k hub getsts portsc s
  end.
Definition usb_hub_send_reset (hub : nat) (port : Z) (s : usb) : res (UsbSpeed * usb) :=
  '(_, s) ← send hub (mkReq 0x23 SET_FEATURE 4 port 0) page s;
  await_enable 5 hub (mkReq 0xa3 GET_STATUS 0 port 4) page s.

Definition usb_send_reset (d : nat) (s : usb) : res usb :=
  dev ← dev_at s d;
  match uparent dev with
  | Some hub => '(_, s) ← usb_hub_send_reset hub (uloc dev) s; Ok s
  | None => c ← hci_reset_port dev (hc s); Ok (mkUsb (devs s) c)
  end.

(** ** Bringing up a device *)

(** [usb_hid_init] stops the processor. *)
Definition usb_hid_init (s : usb) : res usb := Hang.

(** The hub's ports: power, then a device behind every connected one. *)
Section Hub.
Context (usb_init : nat → usb → res usb).
Definition power_port (d : nat) (i : Z) (s : usb) : res usb := '(_, s) ← send d (mkReq 0x23 SET_FEATURE 8 i 0) page s; Ok s.
Definition probe_port (d : nat) (i : Z) (x : list Z * usb) : res (list Z * usb) :=
  '(portsc, s) ← send d (mkReq 0xa3 GET_STATUS 0 i 4) x.1 x.2;
  connected ← feat portsc "PORT_CONNECTION";
  if (connected : bool) then
    '(v, s) ← usb_hub_send_reset d i s;
    let '(n, s) := usb_device_add_skeleton (Some d) i v s in
    s ← usb_init n s; Ok (portsc, s)
  else Ok (portsc, s).
Definition usb_hub_init (d : nat) (s : usb) : res usb :=
  let req len := mkReq 0xa0 GET_DESCRIPTOR (value_of 0x29 0) 0 len in
  '(hub, s) ← send d (req 2) page s;
  bLength ← byte hub 0;
  '(hub, s) ← send d (req bLength) hub s;
  ports ← byte hub (at_ ["bNbrPorts"] usb_descriptor_hub);
  s ← for_rounds (power_port d) 1 1 (Z.to_nat ports) s;
  x ← for_rounds (probe_port d) 1 1 (Z.to_nat ports) (page, s);
  Ok x.2.

(** The drivers of an interface of the configuration [config], and of the device. *)
Definition class_init (d : nat) (cls subclass : Z) (s : usb) : res usb :=
  if cls =? CLASS_HUB then if subclass =? 0 then usb_hub_init d s else Ok s
  else if cls =? CLASS_HID then usb_hid_init s else Ok s.
Definition init_interface (d : nat) (subclass : Z) (config : list Z) (j : Z) (s : usb) : res usb :=
  cls ← byte config (9 + 9 * j + at_ ["bInterfaceClass"] usb_descriptor_interface);
  class_init d cls subclass s.
(** One configuration; the buffer and the request's length stay from the one before. *)
Definition init_config (d : nat) (desc : list Z) (i : Z) (x : (list Z * Z * Z) * usb) : res ((list Z * Z * Z) * usb) :=
  let '(config, wlen, _, s) := x in
  let req len := mkReq 0x80 GET_DESCRIPTOR (value_of 2 i) 0 len in
  '(config, s) ← send d (req wlen) config s;
  total ← rd config (at_ ["wTotalLength"] usb_descriptor_configuration) 2;
  '(config, s) ← send d (req total) config s;
  idVendor ← rd desc (at_ ["idVendor"] usb_descriptor_device) 2; idProduct ← rd desc (at_ ["idProduct"] usb_descriptor_device) 2;
  iConf ← byte config (at_ ["iConfiguration"] usb_descriptor_configuration);
  '(_, s) ← (if (idVendor =? 0x0a5c) && (idProduct =? 0x217f) then Ok ([], s) else usb_get_string d iConf s);
  ints ← byte config (at_ ["bNumInterfaces"] usb_descriptor_configuration);
  sub ← byte desc (at_ ["bDeviceSubClass"] usb_descriptor_device);
  s ← for_rounds (init_interface d sub config) 0 1 (Z.to_nat ints) s;
  pref ← byte config (at_ ["bConfigurationValue"] usb_descriptor_configuration);
  Ok (config, total, pref, s).
End Hub.

Definition valid_mps (m : Z) : bool := (m =? 8) || (m =? 16) || (m =? 32) || (m =? 64).

(** The first half of [usb_init]: the device's size of packets, its reset and its address. *)
Definition address_device (d : nat) (s : usb) : res (list Z * usb) :=
  dev ← dev_at s d;
  if u16 (mps dev) <? 18 then Fatal "TODO: mps < 18" else
  '(desc, s) ← send d (mkReq 0x80 GET_DESCRIPTOR (value_of 1 0) 0 (mps dev)) (replicate 18 0 ++ drop 18 page) s;
  s ← usb_send_reset d s;
  m ← byte desc (at_ ["bMaxPacketSize"] usb_descriptor_device);
  cc ← rd desc (at_ ["bDeviceClass"] usb_descriptor_device) 3;
  v ← rd desc (at_ ["idVendor"] usb_descriptor_device) 2; p ← rd desc (at_ ["idProduct"] usb_descriptor_device) 2;
  let s := upd s d (λ x, set_ids x m cc v p) in
  if negb (valid_mps m) then Fatal "Invalid MPS" else
  '(a, c) ← hci_make_address (hc s);
  let s := mkUsb (devs s) c in
  '(_, s) ← send d (mkReq 0x00 SET_ADDRESS (u16 a) 0 0) page s;
  Ok (desc, upd s d (λ x, set_addr x (u8 a))).

(** [usb_init]; the fuel is the depth of hubs behind hubs. *)
Fixpoint usb_init (fuel : nat) (d : nat) (s : usb) : res usb :=
  match fuel with
  | O => NoFuel
  | S fuel =>
      '(desc, s) ← address_device d s;
      '(desc, s) ← send d (mkReq 0x80 GET_DESCRIPTOR (value_of 1 0) 0 18) desc s;
      iM ← byte desc (at_ ["iManufacturer"] usb_descriptor_device); '(mn, s) ← usb_get_string d iM s;
      iP ← byte desc (at_ ["iProduct"] usb_descriptor_device); '(pn, s) ← usb_get_string d iP s;
      iS ← byte desc (at_ ["iSerialNumber"] usb_descriptor_device); '(sn, s) ← usb_get_string d iS s;
      let s := upd s d (λ x, set_names x mn pn sn) in
      nconf ← byte desc (at_ ["bNumConfigurations"] usb_descriptor_device);
      x ← for_rounds (init_config (usb_init fuel) d desc) 0 1 (Z.to_nat nconf) ((page, 9, 0), s);
      let '(_, _, pref, s) := x in
      '(_, s) ← send d (mkReq 0x00 SET_CONFIGURATION pref 0 0) page s;
      cls ← byte desc (at_ ["bDeviceClass"] usb_descriptor_device); sub ← byte desc (at_ ["bDeviceSubClass"] usb_descriptor_device);
      class_init (usb_init fuel) d cls sub s
  end.
End Core.
