(* ===== verification/UsbSpec.v ===== *)
(** Properties of the USB core: the layout of its structures, strings, resets through a hub, and that no two
    devices share an address on any host controller that hands out fresh ones. *)
From S2P Require Import Prelude Arith Strings Msd Elf Ata Module ModuleSpec Dma AhciPort Usb.

(** ** Layout *)

(** The structures are as the standard lays them out, except the hub's: its characteristics have 16 bits, so that
    what is read as the time to wait for power is their upper byte; and the status of a port has 32 bits. *)
Lemma usb_layout :
  size_of usb_request_t = 8 * 8 ∧ size_of usb_descriptor_device = 18 * 8 ∧ size_of usb_descriptor_endpoint = 7 * 8 ∧
  size_of usb_descriptor_interface = 9 * 8 ∧ size_of usb_descriptor_configuration = 9 * 8 ∧
  at_ ["bMaxPacketSize"] usb_descriptor_device = 7 ∧ at_ ["bNumConfigurations"] usb_descriptor_device = 17 ∧
  at_ ["bInterfaceClass"] usb_descriptor_interface = 5 ∧ at_ ["wTotalLength"] usb_descriptor_configuration = 2.
Proof. vm_compute. repeat split. Qed.
Lemma hub_layout_short : size_of usb_descriptor_hub = 6 * 8 ∧ at_ ["bPowerOnGood"] usb_descriptor_hub = 4 ∧ size_of usb_hub_port_feats < 32.
Proof. vm_compute. repeat split. Qed.

(** ** Strings *)

Lemma mapM_Ok {A} (f : nat → res A) (g : nat → A) n : ∀ a, (∀ k, (a ≤ k < a + n)%nat → f k = Ok (g k)) → mapM f (seq a n) = Ok (map g (seq a n)).
Proof.
  induction n as [|n IH]; intros a Hf; [done|]. cbn [seq]. cbn [mapM]. rewrite Hf by lia. cbn [mbind res_bind].
  rewrite (IH (S a)) by (intros k Hk; apply Hf; lia). reflexivity.
Qed.

Section Strings.
Context {C : Type} `{Hci C} (page : list Z).

(** The string descriptor of a text of single-byte characters. *)
Definition string_desc (text : list Z) : list Z := [2 + 2 * zlen text; 3] ++ concat (map (λ c, [c; 0]) text).

Lemma string_desc_length text : zlen (string_desc text) = 2 + 2 * zlen text.
Proof.
  unfold string_desc. rewrite length_app. assert (length (concat (map (λ c : Z, [c; 0%Z]) text)) = 2 * length text)%nat as ->.
  { induction text as [|c t IH]; [done|]. cbn [map concat]. rewrite length_app, IH. cbn. lia. }
  cbn [length]. lia.
Qed.
Lemma chars_at text : ∀ k c, text !! k = Some c → concat (map (λ c : Z, [c; 0]) text) !! (2 * k)%nat = Some c.
Proof.
  induction text as [|d t IH]; intros k c Hk; [done|]. destruct k as [|k]; [done|]. cbn [map concat].
  replace (2 * S k)%nat with (2 + 2 * k)%nat by lia. exact (IH k c Hk).
Qed.

Lemma byte_of_list buf o b : 0 ≤ o → buf !! Z.to_nat o = Some b → byte buf o = Ok b.
Proof.
  intros Ho Hb. pose proof (lookup_lt_Some _ _ _ Hb) as Hl. unfold byte, rd. rewrite (proj2 (Z.leb_le _ _)), (proj2 (Z.leb_le _ _)) by lia.
  cbn [andb]. unfold field. change (Z.to_nat 1) with 1%nat. rewrite (drop_S buf b _ Hb). cbn [take le_word]. rewrite take_0. cbn [le_word]. f_equal. lia.
Qed.

Lemma received_Ok (buf data : list Z) : zlen data ≤ zlen buf → received buf data = Ok (data ++ drop (length data) buf).
Proof. intros Hl. unfold received. by rewrite (proj2 (Z.ltb_ge _ _)) by lia. Qed.

(** A device that answers requests for a string descriptor with as much of it as was asked for is read
    correctly: the characters of the descriptor, in order, whatever the buffer held. *)
Lemma usb_get_string_reads d idx dev s text : devs s !! d = Some dev → langid dev ≠ 0xffff → 0 < idx < 256 →
  4096 ≤ zlen page → 2 + 2 * zlen text < 256 → Forall (λ c, 0 < c < 256) text →
  (∀ len c, hci_send dev 0 (mkReq 0x80 GET_DESCRIPTOR (value_of 3 idx) (langid dev) len) c = Ok (take (Z.to_nat len) (string_desc text), c)) →
  usb_get_string page d idx s = Ok (text, s).
Proof.
  intros Hd Hl Hi Hp Ht Htx Hs. unfold usb_get_string. rewrite (proj2 (Z.eqb_neq idx 0)) by lia. unfold dev_at. rewrite Hd. cbn [deref mbind res_bind].
  rewrite (proj2 (Z.eqb_neq _ _)) by done. cbn [mbind res_bind]. rewrite Hd. cbn [deref mbind res_bind]. unfold send, dev_at. rewrite Hd. cbn [deref mbind res_bind].
  rewrite Hs. cbn [mbind res_bind]. change (take (Z.to_nat 2) (string_desc text)) with [2 + 2 * zlen text; 3].
  rewrite received_Ok by (cbn; lia). cbn [mbind res_bind]. change (byte ([2 + 2 * zlen text; 3] ++ drop (length [2 + 2 * zlen text; 3]) page) 0) with
    (byte ((2 + 2 * zlen text) :: 3 :: drop 2 page) 0). rewrite (byte_of_list _ 0 (2 + 2 * zlen text)) by done. cbn [mbind res_bind]. cbn [devs].
  rewrite Hd. cbn [deref mbind res_bind]. rewrite Hs. cbn [mbind res_bind].
  pose proof (string_desc_length text) as HL. rewrite take_ge by lia. rewrite received_Ok by (cbn [length app]; rewrite length_drop; lia). cbn [mbind res_bind].
  set (buf := string_desc text ++ _). rewrite (byte_of_list buf 0 (2 + 2 * zlen text)) by done. cbn [mbind res_bind].
  replace (2 + 2 * zlen text - 2) with (zlen text * 2) by lia. rewrite Z.quot_mul by lia. rewrite uN_small by (unfold is_uN; lia).
  rewrite (proj2 (Z.leb_gt _ _)) by lia. unfold ucs2_to_asciin. rewrite Nat2Z.id.
  rewrite (mapM_Ok _ (λ k, default 0 (text !! k))).
  - cbn [mbind res_bind]. assert (map (λ k, default 0 (text !! k)) (seq 0 (length text)) = text) as ->.
    { apply list_eq. intros k. rewrite list_lookup_fmap. destruct (decide (k < length text)%nat) as [Hk|Hk].
      - rewrite lookup_seq_lt by done. destruct (lookup_lt_is_Some_2 text k Hk) as [c Hc]. cbn. by rewrite Hc.
      - by rewrite !lookup_ge_None_2 by (rewrite ?length_seq; lia). }
    rewrite (c_string_is text); [cbn; by destruct s| | |by apply list_lookup_middle].
    + eapply Forall_impl; [exact Htx|]. cbn. lia.
    + intros k c Hk. by apply lookup_app_l_Some.
  - intros k Hk. destruct (lookup_lt_is_Some_2 text k ltac:(lia)) as [c Hc]. rewrite Hc. cbn [default]. apply byte_of_list; [lia|].
    unfold buf. apply lookup_app_l_Some. unfold string_desc. replace (Z.to_nat (2 + 2 * Z.of_nat k)) with (2 + 2 * k)%nat by lia.
    exact (chars_at text k c Hc).
Qed.
End Strings.

(** ** Resets through a hub *)

(** A hub port is asked at most five times before the driver gives up; a device that is enabled at any of them has the
    speed the status says. *)
Section Reset.
Context {C : Type} `{Hci C} (page : list Z).
Lemma await_enable_speed hub getsts : ∀ k portsc s v s', await_enable k hub getsts portsc s = Ok (v, s') →
  ∃ buf, feat buf "PORT_ENABLE" = Ok true ∧ ∃ low high, feat buf "PORT_LOW_SPEED" = Ok low ∧ feat buf "PORT_HIGH_SPEED" = Ok high ∧
    v = (if (low : bool) then LS else if (high : bool) then HS else FS).
Proof.
  induction k as [|k IH]; intros portsc s v s' E; [done|]. cbn [await_enable] in E. apply bind_Ok in E as ([buf s1] & _ & E).
  apply bind_Ok in E as (en & H1 & E). apply bind_Ok in E as (low & H2 & E). apply bind_Ok in E as (high & H3 & E).
  destruct en; [|by eapply IH]. injection E as <- <-. exists buf. split; [done|]. by exists low, high.
Qed.
End Reset.

(** ** Addresses *)

(** What the core relies on: an address that was handed out stays taken, and a new one is one of the 127 and not
    taken yet; 255 is what a controller gives that has none left. *)
Class HciLaws (C : Type) `{Hci C} := {
  used : C → Z → Prop;
  send_used : ∀ d e r c x c' a, hci_send d e r c = Ok (x, c') → used c a → used c' a;
  reset_used : ∀ d c c' a, hci_reset_port d c = Ok c' → used c a → used c' a;
  make_used : ∀ c a c' b, hci_make_address c = Ok (a, c') → used c b → used c' b;
  make_fresh : ∀ c a c', hci_make_address c = Ok (a, c') →
    (a = 255 ∧ ∀ b, 0 < b < 128 → used c b) ∨ (0 < a < 128 ∧ ¬ used c a ∧ used c' a) }.

Section Addresses.
Context {C : Type} `{HciLaws C} (page : list Z).
Implicit Types s : usb (C := C).
Implicit Types P : gset nat.

(** No address is left. *)
Definition full (c : C) : Prop := ∀ a, 0 < a < 128 → used c a.

(** Every device but those of [P], which have no address yet, has an address of its own; or it came too late. *)
Record addressed P s : Prop := {
  ad_pending : ∀ i x, devs s !! i = Some x → i ∈ P → addr x = 0;
  ad_used : ∀ i x, devs s !! i = Some x → i ∉ P → (0 < addr x < 128 ∧ used (hc s) (addr x)) ∨ (addr x = 255 ∧ full (hc s));
  ad_unique : ∀ i j x y, devs s !! i = Some x → devs s !! j = Some y → i ≠ j → i ∉ P → j ∉ P → addr x = addr y → addr x = 255;
  ad_inside : ∀ i, i ∈ P → (i < length (devs s))%nat }.

Lemma addressed_hc P s c : addressed P s → (∀ a, used (hc s) a → used c a) → addressed P (mkUsb (devs s) c).
Proof.
  intros [A B D E] Hu. split; [exact A| |exact D|exact E]. intros i x Hx Hi. destruct (B i x Hx Hi) as [[? ?]|[? Hf]]; [left; auto|right].
  split; [done|]. intros a Ha. apply Hu, Hf, Ha.
Qed.
Lemma send_addressed P d r b s b' s' : send d r b s = Ok (b', s') → addressed P s → addressed P s'.
Proof.
  unfold send. intros E Hs. apply bind_Ok in E as (x & _ & E). apply bind_Ok in E as ([y c] & Ec & E). apply bind_Ok in E as (z & _ & E).
  injection E as <- <-. apply addressed_hc; [done|]. intros a. by eapply send_used.
Qed.
Lemma send_taken d r b s b' s' a : send d r b s = Ok (b', s') → devs s' = devs s ∧ (used (hc s) a → used (hc s') a).
Proof.
  unfold send. intros E. apply bind_Ok in E as (x & _ & E). apply bind_Ok in E as ([y c] & Ec & E). apply bind_Ok in E as (z & _ & E).
  injection E as <- <-. split; [done|]. by eapply send_used.
Qed.
Lemma upd_addressed P d f s : (∀ x, addr (f x) = addr x) → addressed P s → addressed P (upd s d f).
Proof.
  intros Hf [A B D E]. assert (∀ i x, devs (upd s d f) !! i = Some x → ∃ y, devs s !! i = Some y ∧ addr x = addr y) as Hl.
  { intros i x Hx. cbn in Hx. destruct (decide (d = i)) as [->|Hd].
    - rewrite list_lookup_alter_eq in Hx. destruct (devs s !! i) as [y|]; [|done]. injection Hx as <-. by exists y.
    - rewrite list_lookup_alter_ne in Hx by done. by exists x. }
  split.
  - intros i x Hx. destruct (Hl i x Hx) as (y & Hy & ->). exact (A i y Hy).
  - intros i x Hx. destruct (Hl i x Hx) as (y & Hy & ->). exact (B i y Hy).
  - intros i j x y Hx Hy Hij. destruct (Hl i x Hx) as (x' & Hx' & ->), (Hl j y Hy) as (y' & Hy' & ->). by eapply D.
  - intros i Hi. cbn. rewrite length_alter. auto.
Qed.
(** A new device waits for its address. *)
Lemma skeleton_addressed P p i v s : addressed P s →
  addressed ({[length (devs s)]} ∪ P) (usb_device_add_skeleton p i v s).2.
Proof.
  intros [A B D E]. assert (∀ k x, devs (usb_device_add_skeleton p i v s).2 !! k = Some x →
    (k ≠ length (devs s) ∧ devs s !! k = Some x) ∨ (k = length (devs s) ∧ addr x = 0)) as Hl.
  { intros k x Hx. cbn in Hx. apply lookup_app_Some in Hx as [Hx|[Hk Hx]]; [left|right].
    - split; [|done]. apply lookup_lt_Some in Hx. lia.
    - apply list_lookup_singleton_Some in Hx as [Hz <-]. split; [lia|done]. }
  split.
  - intros k x Hx Hk. destruct (Hl k x Hx) as [[Hne Hx']|[_ Hx']]; [|done]. apply (A k x Hx'). set_solver.
  - intros k x Hx Hk. destruct (Hl k x Hx) as [[Hne Hx']|[-> _]]; [|set_solver]. apply (B k x Hx'). set_solver.
  - intros k j x y Hx Hy Hkj Hk Hj Ea. destruct (Hl k x Hx) as [[_ Hx']|[-> _]]; [|set_solver]. destruct (Hl j y Hy) as [[_ Hy']|[-> _]]; [|set_solver].
    eapply (D k j x y Hx' Hy' Hkj); set_solver.
  - intros k Hk. cbn. rewrite length_app. cbn. apply elem_of_union in Hk as [->%elem_of_singleton|Hk]; [lia|]. specialize (E k Hk). lia.
Qed.

(** The new address is set on one device only after the controller has handed it out. *)
Lemma set_addr_addressed P d a s : d ∉ P → addressed ({[d]} ∪ P) s →
  (a = 255 ∧ full (hc s)) ∨ (0 < a < 128 ∧ used (hc s) a ∧ ∀ i x, devs s !! i = Some x → addr x ≠ a) →
  addressed P (upd s d (λ x, set_addr x a)).
Proof.
  intros Hdp [A B D E] Ha. assert (∀ i x, devs (upd s d (λ x, set_addr x a)) !! i = Some x → (i = d ∧ addr x = a) ∨ (i ≠ d ∧ devs s !! i = Some x)) as Hl.
  { intros i x Hx. cbn in Hx. destruct (decide (d = i)) as [->|Hd].
    - rewrite list_lookup_alter_eq in Hx. destruct (devs s !! i) as [y|]; [|done]. injection Hx as <-. by left.
    - rewrite list_lookup_alter_ne in Hx by done. by right. }
  split.
  - intros i x Hx Hi. destruct (Hl i x Hx) as [[-> _]|[_ Hx']]; [done|]. apply (A i x Hx'). set_solver.
  - intros i x Hx Hi. destruct (Hl i x Hx) as [[_ ->]|[Hd Hx']]; [|apply (B i x Hx'); set_solver]. destruct Ha as [[-> Hf]|(Hr & Hu & _)]; auto.
  - intros i j x y Hx Hy Hij Hi Hj Ee. destruct (Hl i x Hx) as [[-> Ex]|[Hi' Hx']], (Hl j y Hy) as [[-> Ey]|[Hj' Hy']]; [done| | |].
    + destruct Ha as [[-> _]|(_ & _ & Hn)]; [done|]. exfalso. apply (Hn j y Hy'). congruence.
    + destruct Ha as [[-> _]|(_ & _ & Hn)]; [congruence|]. exfalso. apply (Hn i x Hx'). congruence.
    + eapply (D i j x y Hx' Hy' Hij); set_solver.
  - intros i Hi. cbn. rewrite length_alter. apply E. set_solver.
Qed.

(** Takes a successful run apart into its steps. *)
Ltac steps :=
  repeat match goal with
  | E : (_ ≫= _) = Ok _ |- _ => apply bind_Ok in E as (? & ? & E)
  | x : (_ * _)%type |- _ => destruct x
  | E : (if ?b then _ else _) = Ok _ |- _ => destruct b eqn:?
  | E : Ok _ = Ok _ |- _ => injection E as E; subst
  | E : (_, _) = (_, _) |- _ => injection E as E; subst
  | E : Fatal _ = Ok _ |- _ => discriminate E
  | E : Fault = Ok _ |- _ => discriminate E
  | E : Hang = Ok _ |- _ => discriminate E
  end; subst.

Lemma get_langid_addressed P d s s' : get_langid page d s = Ok s' → addressed P s → addressed P s'.
Proof. unfold get_langid. intros E Hs. steps; (apply upd_addressed; [done|]; eauto using send_addressed). Qed.
Lemma get_string_addressed P d idx s l s' : usb_get_string page d idx s = Ok (l, s') → addressed P s → addressed P s'.
Proof. unfold usb_get_string. intros E Hs. steps; eauto 6 using send_addressed, get_langid_addressed. Qed.
Lemma await_addressed P hub r : ∀ k b s v s', await_enable k hub r b s = Ok (v, s') → addressed P s → addressed P s'.
Proof.
  induction k as [|k IH]; intros b s v s' E Hs; [done|]. cbn [await_enable] in E. steps; [eauto using send_addressed|].
  eapply IH; [exact E|]. eauto using send_addressed.
Qed.
Lemma hub_reset_addressed P hub i s v s' : usb_hub_send_reset page hub i s = Ok (v, s') → addressed P s → addressed P s'.
Proof. unfold usb_hub_send_reset. intros E Hs. steps. eauto using await_addressed, send_addressed. Qed.
Lemma reset_addressed P d s s' : usb_send_reset page d s = Ok s' → addressed P s → addressed P s'.
Proof.
  unfold usb_send_reset. intros E Hs. apply bind_Ok in E as (dev & _ & E). destruct (uparent dev) as [hub|]; steps; [eauto using hub_reset_addressed|].
  apply addressed_hc; [done|]. intros a. by eapply reset_used.
Qed.
Lemma make_addressed P s a c : hci_make_address (hc s) = Ok (a, c) → addressed P s → addressed P (mkUsb (devs s) c) ∧
  ((a = 255 ∧ full c) ∨ (0 < a < 128 ∧ used c a ∧ ∀ i x, devs s !! i = Some x → addr x ≠ a)).
Proof.
  intros E Hs. split; [apply addressed_hc; [done|]; intros b; by eapply make_used|].
  destruct (make_fresh _ _ _ E) as [[-> Hf]|(Ha & Hn & Hu)]; [left|right].
  - split; [done|]. intros b Hb. eapply make_used; [exact E|by apply Hf].
  - split; [exact Ha|]. split; [exact Hu|]. intros i x Hx Hax. destruct (decide (i ∈ P)) as [Hp|Hp].
    + pose proof (ad_pending P s Hs i x Hx Hp). lia.
    + destruct (ad_used P s Hs i x Hx Hp) as [[_ H1]|[H1 _]]; [rewrite Hax in H1; done|lia].
Qed.
Lemma address_addressed P d s l s' : address_device page d s = Ok (l, s') → d ∉ P → addressed ({[d]} ∪ P) s → addressed P s'.
Proof.
  unfold address_device. intros E Hdp Hs. apply bind_Ok in E as (dev & _ & E). destruct (_ <? 18); [done|].
  apply bind_Ok in E as ([desc s1] & E1 & E). apply bind_Ok in E as (s2 & E2 & E). do 4 (apply bind_Ok in E as (? & _ & E)).
  destruct (negb _); [done|]. apply bind_Ok in E as ([a c] & Ea & E). apply bind_Ok in E as ([b s3] & E3 & E). injection E as <- <-.
  pose proof (send_addressed _ _ _ _ _ _ _ E1 Hs) as H1. pose proof (reset_addressed _ _ _ _ E2 H1) as H2.
  match goal with Ea : hci_make_address (hc ?u) = _ |- _ => assert (addressed ({[d]} ∪ P) u) as Hu by (apply upd_addressed; [done|exact H2]);
    destruct (make_addressed _ u a c Ea Hu) as [Hc Hf] end.
  pose proof (send_addressed _ _ _ _ _ _ _ E3 Hc) as H3.
  destruct Hf as [[-> Hfull]|(Ha & Hua & Hn)]; (apply set_addr_addressed; [done|done|]).
  - left. split; [done|]. intros b' Hb'. destruct (send_taken _ _ _ _ _ _ b' E3) as [_ Hus]. by apply Hus, Hfull.
  - right. rewrite (uN_small 8 a) by (unfold is_uN; lia). destruct (send_taken _ _ _ _ _ _ a E3) as [Hd Hus]. split_and!; [lia|lia|by apply Hus|].
    rewrite Hd. exact Hn.
Qed.

Section Inner.
Context (init_ : nat → usb → res usb) (Hinit : ∀ P d s s', init_ d s = Ok s' → d ∉ P → addressed ({[d]} ∪ P) s → addressed P s').
Lemma hub_init_addressed P d s s' : usb_hub_init page init_ d s = Ok s' → addressed P s → addressed P s'.
Proof using Hinit.
  unfold usb_hub_init. intros E Hs. apply bind_Ok in E as ([b1 s1] & E1 & E). apply bind_Ok in E as (n & _ & E).
  apply bind_Ok in E as ([b2 s2] & E2 & E). apply bind_Ok in E as (k & _ & E). apply bind_Ok in E as (s3 & E3 & E). apply bind_Ok in E as (x & E4 & E).
  injection E as <-. apply (for_rounds_inv _ 1 (λ _ s, addressed P s)) in E3; [|eauto using send_addressed|].
  - apply (for_rounds_inv _ 1 (λ _ (x : list Z * usb), addressed P x.2)) in E4; [done|done|]. intros j [b u] [b' u'] Hu Ep. cbn [snd] in *.
    unfold probe_port in Ep. cbn [fst snd] in Ep. apply bind_Ok in Ep as ([b3 u1] & Eu & Ep). apply bind_Ok in Ep as (cn & _ & Ep).
    pose proof (send_addressed _ _ _ _ _ _ _ Eu Hu) as Hu1. destruct cn; [|by injection Ep as <- <-].
    apply bind_Ok in Ep as ([v u2] & Er & Ep). pose proof (hub_reset_addressed _ _ _ _ _ _ Er Hu1) as Hu2.
    cbn [usb_device_add_skeleton] in Ep. apply bind_Ok in Ep as (u3 & Ei & Ep). injection Ep as <- <-.
    eapply Hinit; [exact Ei| |exact (skeleton_addressed P (Some d) j v u2 Hu2)].
    intros Hin. apply (ad_inside P u2 Hu2) in Hin. lia.
  - intros j u u' Hu Ep. unfold power_port in Ep. steps. eauto using send_addressed.
Qed.
Lemma class_init_addressed P d cls sub s s' : class_init page init_ d cls sub s = Ok s' → addressed P s → addressed P s'.
Proof using Hinit. unfold class_init, usb_hid_init. intros E Hs. steps; eauto using hub_init_addressed. Qed.
Lemma config_addressed P d desc i x x' : init_config page init_ d desc i x = Ok x' → addressed P x.2 → addressed P x'.2.
Proof using Hinit.
  destruct x as [[[cf wl] pr] s]. unfold init_config. cbn [snd]. intros E Hs. apply bind_Ok in E as ([c1 s1] & E1 & E). apply bind_Ok in E as (t & _ & E).
  apply bind_Ok in E as ([c2 s2] & E2 & E). do 3 (apply bind_Ok in E as (? & _ & E)). apply bind_Ok in E as ([c3 s3] & E3 & E).
  do 2 (apply bind_Ok in E as (? & _ & E)). apply bind_Ok in E as (s4 & E4 & E). apply bind_Ok in E as (? & _ & E). injection E as <-. cbn [snd].
  apply (for_rounds_inv _ 1 (λ _ s, addressed P s)) in E4; [done| |].
  - destruct (_ && _); [injection E3 as _ <-|eapply get_string_addressed; [exact E3|]]; eauto using send_addressed.
  - intros j u u' Hu Ei. unfold init_interface in Ei. apply bind_Ok in Ei as (? & _ & Ei). by eapply class_init_addressed.
Qed.
End Inner.

Lemma usb_init_addressed fuel : ∀ P d s s', usb_init page fuel d s = Ok s' → d ∉ P → addressed ({[d]} ∪ P) s → addressed P s'.
Proof.
  induction fuel as [|fuel IH]; intros P d s s' E Hd Hs; [done|]. cbn [usb_init] in E.
  apply bind_Ok in E as ([desc s1] & E1 & E). apply bind_Ok in E as ([d2 s2] & E2 & E).
  apply bind_Ok in E as (? & _ & E). apply bind_Ok in E as ([mn s3] & E3 & E). apply bind_Ok in E as (? & _ & E). apply bind_Ok in E as ([pn s4] & E4 & E).
  apply bind_Ok in E as (? & _ & E). apply bind_Ok in E as ([sn s5] & E5 & E). apply bind_Ok in E as (? & _ & E).
  apply bind_Ok in E as ([[[c w] pr] s6] & E6 & E). apply bind_Ok in E as ([c7 s7] & E7 & E). do 2 (apply bind_Ok in E as (? & _ & E)).
  pose proof (address_addressed P _ _ _ _ E1 Hd Hs) as H1. pose proof (send_addressed _ _ _ _ _ _ _ E2 H1) as H2.
  pose proof (get_string_addressed _ _ _ _ _ _ E3 H2) as H3. pose proof (get_string_addressed _ _ _ _ _ _ E4 H3) as H4.
  pose proof (get_string_addressed _ _ _ _ _ _ E5 H4) as H5.
  apply (for_rounds_inv _ 1 (λ _ (x : (list Z * Z * Z) * usb), addressed P x.2)) in E6.
  - eapply (class_init_addressed (usb_init page fuel) IH); [exact E|]. exact (send_addressed _ _ _ _ _ _ _ E7 E6).
  - cbn [snd]. by apply upd_addressed.
  - intros j y y' Hy Ey. by eapply (config_addressed (usb_init page fuel) IH).
Qed.
End Addresses.

(** C16: on any host controller that hands out each of its 127 addresses once, bringing up a device that has no address yet
    next to devices that have theirs gives it and every device found behind it, through any number of hubs, an
    address between 1 and 127 that is marked as taken and that no other device has.  Only when the controller has
    none left is a device given the address 255. *)
Theorem usb_init_unique {C} `{HciLaws C} page fuel d (s s' : usb (C := C)) : addressed {[d]} s → usb_init page fuel d s = Ok s' →
  (∀ i x, devs s' !! i = Some x → (0 < addr x < 128 ∧ used (hc s') (addr x)) ∨ (addr x = 255 ∧ ∀ a, 0 < a < 128 → used (hc s') a)) ∧
  (∀ i j x y, devs s' !! i = Some x → devs s' !! j = Some y → i ≠ j → addr x = addr y → addr x = 255).
Proof.
  intros Hs E. destruct (usb_init_addressed page fuel ∅ d s s' E) as [_ B D _]; [set_solver|by rewrite union_empty_r_L|]. split.
  - intros i x Hx. apply (B i x Hx). set_solver.
  - intros i j x y Hx Hy Hij. apply (D i j x y Hx Hy Hij); set_solver.
Qed.

(** *** A bus *)

(** A hub on the root port with a device on its only port; the controller's state is the next free address. *)
Definition demo_hub_desc : list Z := [18; 1; 0; 2; 9; 0; 0; 64; 1; 0; 2; 0; 0; 1; 0; 1; 0; 1].
Definition demo_dev_desc : list Z := [18; 1; 0; 2; 255; 0; 0; 64; 3; 0; 4; 0; 0; 1; 0; 0; 0; 0].
Definition demo_config : list Z := [9; 2; 18; 0; 1; 1; 0; 0; 0; 9; 4; 0; 0; 0; 9; 0; 0; 0].
Definition demo_answer (d : usbdev) (q : usb_request) : list Z :=
  if bRequest q =? GET_STATUS then [3; 5; 0; 0] else
  if negb (bRequest q =? GET_DESCRIPTOR) then [] else
  match wValue q / 256 with
  | 1 => match uparent d with None => demo_hub_desc | Some _ => demo_dev_desc end
  | 2 => demo_config
  | 3 => if wValue q =? 768 then [4; 3; 9; 4] else string_desc (bytes_of "Hub")
  | 0x29 => [9; 0x29; 1; 0; 0; 50; 0; 0; 0]
  | _ => []
  end.
#[global] Instance demo_hci : Hci Z := {
  hci_send := λ d e q c, Ok (take (Z.to_nat (wLength q)) (demo_answer d q), c);
  hci_reset_port := λ d c, Ok c;
  hci_make_address := λ c, if c <? 128 then Ok (Z.max 1 c, Z.max 1 c + 1) else Ok (255, c) }.
#[global] Instance demo_laws : HciLaws Z.
Proof.
  refine {| used := λ c a, 0 < a < c |}; cbn.
  - by intros ??? c x c' a [= <- <-].
  - by intros ? c c' a [= <-].
  - intros c a c' b. destruct (_ <? _); intros [= <- <-]; lia.
  - intros c a c'. destruct (Z.ltb_spec c 128); intros [= <- <-]; [right; lia|left]. split; [done|]. intros b Hb. lia.
Defined.

Definition demo_page : list Z := replicate 4096 0xaa.
Definition demo_bus : usb (C := Z) := (usb_device_add_skeleton None 0 HS (mkUsb [] 1)).2.

Lemma usb_init_unique_witness : ∃ s', usb_init demo_page 3 0 demo_bus = Ok s' ∧
  ∀ i j x y, devs s' !! i = Some x → devs s' !! j = Some y → i ≠ j → addr x = addr y → addr x = 255.
Proof.
  assert (is_Ok (usb_init demo_page 3 0 demo_bus) = true) as Hok by (vm_compute; reflexivity).
  destruct (is_Ok_true _ Hok) as [s' E]. exists s'. split; [exact E|].
  refine (proj2 (usb_init_unique demo_page 3 0 demo_bus s' _ E)). split.
  - intros i x Hx _. by apply list_lookup_singleton_Some in Hx as [_ <-].
  - intros i x Hx Hi. apply list_lookup_singleton_Some in Hx as [-> _]. exfalso. by apply Hi, elem_of_singleton.
  - intros i j x y Hx Hy Hij. apply list_lookup_singleton_Some in Hx as [-> _]. apply list_lookup_singleton_Some in Hy as [-> _]. exact (False_ind _ (Hij eq_refl)).
  - intros i Hi. apply elem_of_singleton in Hi as ->. cbn. lia.
Defined.

Lemma usb_get_string_reads_witness :
  usb_get_string demo_page 0 1 (mkUsb [set_langid (mkUsbDev None 0 0 0 [] [] [] 64 0 0 0 HS) 0x409] 1) = Ok (bytes_of "Hub", mkUsb [set_langid (mkUsbDev None 0 0 0 [] [] [] 64 0 0 0 HS) 0x409] 1).
Proof.
  apply (usb_get_string_reads demo_page 0 1 (set_langid (mkUsbDev None 0 0 0 [] [] [] 64 0 0 0 HS) 0x409));
    [reflexivity|cbn; lia|lia|vm_compute; discriminate|vm_compute; reflexivity|repeat constructor; cbn; lia|]. intros len c. reflexivity.
Defined.

(** ** Hubs are brought up twice *)

(** A hub says it is one in its device descriptor and in its interface, and the core starts the driver for each:
    the device behind port 1 is there twice, with two addresses. *)
Lemma hub_port_twice : match usb_init demo_page 3 0 demo_bus with
  | Ok s => map (λ d, (uparent d, uloc d, addr d)) (devs s) | _ => [] end = [(None, 0, 1); (Some 0%nat, 1, 2); (Some 0%nat, 1, 3)].
Proof. vm_compute. reflexivity. Qed.

(** A low-speed device has packets of 8 bytes and is refused before the first request. *)
Lemma low_speed_refused {C} `{Hci C} page fuel p i c : usb_init page (S fuel) 0 (usb_device_add_skeleton p i LS (mkUsb [] c)).2 = Fatal "TODO: mps < 18".
Proof. reflexivity. Qed.

(** An empty string descriptor makes the length of the string wrap. *)
Lemma empty_string_faults {C} `{Hci C} page d idx dev s : devs s !! d = Some dev → langid dev ≠ 0xffff → idx ≠ 0 → 0 < zlen page →
  (∀ len c, hci_send dev 0 (mkReq 0x80 GET_DESCRIPTOR (value_of 3 idx) (langid dev) len) c = Ok ([0], c)) →
  usb_get_string page d idx s = Fault.
Proof.
  intros Hd Hl Hi Hp Hs. unfold usb_get_string. rewrite (proj2 (Z.eqb_neq idx 0)) by done. unfold dev_at. rewrite Hd. cbn [deref mbind res_bind].
  rewrite (proj2 (Z.eqb_neq _ _)) by done. cbn [mbind res_bind]. rewrite Hd. cbn [deref mbind res_bind]. unfold send, dev_at. rewrite Hd. cbn [deref mbind res_bind].
  rewrite Hs. cbn [mbind res_bind]. rewrite received_Ok by (cbn; lia). cbn [mbind res_bind app length].
  rewrite (byte_of_list _ 0 0) by done. cbn [mbind res_bind devs]. rewrite Hd. cbn [deref mbind res_bind]. rewrite Hs. cbn [mbind res_bind].
  rewrite received_Ok by (cbn [length]; rewrite length_drop; lia). cbn [mbind res_bind app length]. rewrite (byte_of_list _ 0 0) by done. reflexivity.
Qed.
