(* ===== verification/Ehci.v ===== *)
(** The EHCI driver ([modules/ehci/src/ehci.cc] and [ehci.hh]).

    Transfer descriptors (qTD) and queue heads (QH) are structures in physical memory, each on a page of its
    own below 4 GiB, which the controller follows by their physical addresses; the driver reaches them
    through the direct map.  The controller is the parameter [hw]; it works between two looks of a waiting
    loop. *)
From S2P Require Import Prelude Arith Mem Msd Elf Bitmap Pmm Paging Module Descriptors Dma Ata Machine Usb.

(** ** Registers *)

Definition HCSPARAMS_t : list member :=
  [F "num_ports" 4; F "port_pwr_ctl_supported" 1; F "" 2; F "port_routing_rules" 1; F "ports_per_companion" 4; F "num_companions" 4;
   F "port_indicator_supported" 1; F "" 3; F "debug_port" 4; F "" 8].
Definition HCCPARAMS_t : list member :=
  [F "longaddress" 1; F "programmable_frame_list_size" 1; F "async_schedule_park_supported" 1; F "" 1; F "iso_sched_threshold" 4;
   F "extended_caps_ptr" 8; F "" 16].
Definition USBCMD_t : list member :=
  [F "running" 1; F "hcreset" 1; F "frlist_size" 2; F "periodic_schedule_enable" 1; F "async_schedule_enable" 1; F "int_on_async_advance" 1;
   F "lighthcreset" 1; F "async_sched_park_mode_count" 2; F "" 1; F "async_sched_park_mode_enable" 1; F "" 4; F "max_int_interval" 8; F "" 8].
Definition USBSTS_t : list member :=
  [F "usbint" 1; F "usberrint" 1; F "portchange" 1; F "" 9; F "hchalted" 1; F "reclamation" 1; F "periodic_schedule" 1; F "async_schedule" 1; F "" 16].
Definition USBINTR_t : list member := [F "intr" 1; F "errointr" 1; F "portchange" 1; F "" 29].
Definition PORTSC_t : list member :=
  [F "connect_sts" 1; F "connect_sts_change" 1; F "port_enabled" 1; F "port_enabled_change" 1; F "overcurrent" 1; F "overcurrent_change" 1;
   F "force_port_resume" 1; F "suspend" 1; F "reset" 1; F "" 1; F "line_sts" 2; F "port_pwr" 1; F "port_owner" 1; F "port_indicator" 2;
   F "port_test_ctl" 4; F "wake_on_connect_enable" 1; F "wake_on_disconnect_enable" 1; F "wake_on_overcurrent_enable" 1; F "" 9].
Definition USBLEGSUP : list member := [F "capability_id" 8; F "next_capability_ptr" 8; F "hc_bios_owned" 1; F "" 7; F "hc_os_owned" 1; F "" 7].

(** [ehci_reg]: an offset, a length and whether it is behind the capability registers. *)
Record ehci_reg := mkEreg { roffset : Z; rlength : Z; opreg : bool }.
Definition port_reg (portnum : Z) : ehci_reg := mkEreg (0x44 + portnum * 4) 4 true.
Definition CAPLENGTH : ehci_reg := mkEreg 0x00 1 false.
Definition HCSPARAMS : ehci_reg := mkEreg 0x04 4 false.
Definition HCCPARAMS : ehci_reg := mkEreg 0x08 4 false.
Definition HCSPPORTROUTE : ehci_reg := mkEreg 0x0c 8 false.
Definition USBCMD : ehci_reg := mkEreg 0x00 4 true.
Definition USBSTS : ehci_reg := mkEreg 0x04 4 true.
Definition USBINTR : ehci_reg := mkEreg 0x08 4 true.
Definition FRINDEX : ehci_reg := mkEreg 0x0c 4 true.
Definition CTRL4GSEGMENT : ehci_reg := mkEreg 0x10 4 true.
Definition ASYNCLISTBASE : ehci_reg := mkEreg 0x18 4 true.
Definition CONFIGFLAG : ehci_reg := mkEreg 0x40 4 true.

(** The driver's state: [mmio] is what a load of a register of a length gives. *)
Record ehci := mkEhci { mmio : Z → Z → Z; caplength : Z; eram : Mem.mem; epg : paging; etm : timers; head : Z; addresses : Bitmap }.
Definition with_eram (s : ehci) (m : Mem.mem) : ehci := mkEhci (mmio s) (caplength s) m (epg s) (etm s) (head s) (addresses s).
Definition with_epg (s : ehci) (p : paging) : ehci := mkEhci (mmio s) (caplength s) (eram s) p (etm s) (head s) (addresses s).
Definition with_etm (s : ehci) (t : timers) : ehci := mkEhci (mmio s) (caplength s) (eram s) (epg s) t (head s) (addresses s).
Definition with_head (s : ehci) (h : Z) : ehci := mkEhci (mmio s) (caplength s) (eram s) (epg s) (etm s) h (addresses s).
Definition with_addresses (s : ehci) (b : Bitmap) : ehci := mkEhci (mmio s) (caplength s) (eram s) (epg s) (etm s) (head s) b.

Definition reg_addr (g : ehci_reg) (s : ehci) : Z := roffset g + (if opreg g then caplength s else 0).
Definition reg_read (g : ehci_reg) (s : ehci) : res Z :=
  if (rlength g =? 4) || (rlength g =? 2) || (rlength g =? 1) then Ok (mmio s (reg_addr g s) (rlength g))
  else Fatal "Invalid EHCI register length".

(** ** Structures in memory *)

(** [ehci_qtd], at its virtual address: the words and the fields of the token. *)
Definition SETUP : Z := 2.
Definition PID_IN : Z := 1.
Definition PID_OUT : Z := 0.
Definition tk_sts : Z * Z := (0, 8).
Definition tk_pid : Z * Z := (8, 2).
Definition tk_err_counter : Z * Z := (10, 2).
Definition tk_current_page : Z * Z := (12, 3).
Definition tk_ioc : Z * Z := (15, 1).
Definition tk_bytes : Z * Z := (16, 15).
Definition tk_data : Z * Z := (31, 1).
(** Assignments to bit-fields of the word of 4 bytes at a virtual address, in order. *)
Definition set_fields (a : Z) (l : list ((Z * Z) * Z)) (m : Mem.mem) : Mem.mem :=
  foldl (λ m f, put_bits m (PHYSICAL a) 4 f.1.1 f.1.2 f.2) m l.
Definition set_word (a v : Z) (m : Mem.mem) : Mem.mem := sto m (PHYSICAL a) 4 v.
Definition get_word (a : Z) (m : Mem.mem) : Z := ld m (PHYSICAL a) 4.

(** The five buffer pointers, each a page behind the one before. *)
Definition set_buffers (td p : Z) (m : Mem.mem) : Mem.mem :=
  let b k m := set_word (td + 12 + 4 * k) (get_word (td + 12 + 4 * (k - 1)) m + 0x1000) m in
  b 4 (b 3 (b 2 (b 1 (set_word (td + 12) p m)))).

(** [ehci_qh] *)
Definition QH : Z := 1.
Definition hl_type : Z * Z := (1, 2).
Definition ec_addr : Z * Z := (0, 7).
Definition ec_inactive_on_success : Z * Z := (7, 1).
Definition ec_endpoint : Z * Z := (8, 4).
Definition ec_endpoint_speed : Z * Z := (12, 2).
Definition ec_data_toggle_ctl : Z * Z := (14, 1).
Definition ec_head_of_reclamation_list : Z * Z := (15, 1).
Definition ec_mps : Z * Z := (16, 11).
Definition ec_ctl_endpoint : Z * Z := (27, 1).
Definition ec_nak_reload_counter : Z * Z := (28, 4).
Definition cp_int_sched_mask : Z * Z := (0, 8).
Definition cp_split_completion_mask : Z * Z := (8, 8).
Definition cp_hub_addr : Z * Z := (16, 7).
Definition cp_port_num : Z * Z := (23, 7).
Definition cp_high_bw_pipe_multiplier : Z * Z := (30, 2).
Definition speed_code (v : UsbSpeed) : Z := match v with FS => 0 | LS => 1 | _ => 2 end.

Section Driver.
Context (pml4 : Z).

(** [ehci_alloc_qtd] and [ehci_alloc_qh] *)
Definition ehci_alloc (s : ehci) : res (Z * ehci) :=
  '(a, pm) ← pmm_alloc4g (mem (epg s)) 64;
  Ok (a, with_eram (with_epg s (mkPaging (tabs (epg s)) pm)) (memset (eram s) (PHYSICAL a) 0 64)).

Definition elookup (a : Z) (s : ehci) : res Z :=
  i ← paging_lookup (epg s) pml4 a;
  assert_ (Z.shiftr i 32 =? 0) "(i >> 32) == 0";;
  Ok (Z.land i 0xffffffff).

(** The new queue head takes the place behind the head of the ring. *)
Definition insert_qh (qh : Z) (s : ehci) : res ehci :=
  let m := set_word qh (get_word (head s) (eram s)) (eram s) in
  assert_ (getf (get_word qh m) 1 2 =? QH) "qh->horiz_link.type == EhciQHType::QH";;
  p ← elookup qh (with_eram s m);
  Ok (with_eram s (set_word (head s) (Z.lor p (Z.shiftl QH 1)) m)).

(** ** A control transfer *)

Definition fill_token (td pid bytes data ioc : Z) (m : Mem.mem) : Mem.mem :=
  set_fields (td + 8) [(tk_bytes, bytes); (tk_current_page, 0); (tk_data, data); (tk_err_counter, 3); (tk_ioc, ioc); (tk_pid, pid); (tk_sts, 0x80)] m.

(** One data stage, the [i]-th of [n]; the state of the loop is the descriptor before. *)
Definition data_stage (setup status databuf datapid wLength mps n i : Z) (x : Z * ehci) : res (Z * ehci) :=
  let '(prev, s) := x in
  '(td, s) ← ehci_alloc s;
  let s := with_eram s (set_fields (td + 4) [((0, 1), 1)] (eram s)) in
  p ← elookup td s;
  let s := with_eram s
    (if i =? 1 then set_word setup p (eram s)
     else if i =? n then set_fields td [((0, 1), 1)] (eram s)
     else set_word prev p (eram s)) in
  b ← elookup databuf s;
  let s := with_eram s (set_buffers td b (eram s)) in
  q ← elookup status s;
  let s := with_eram s (set_word (td + 4) q (set_word td q (eram s))) in
  Ok (td, with_eram s (fill_token td datapid (Z.min wLength mps) (i `mod` 2) 0 (eram s))).

(** The high-speed hub above a slower device, and the port on it; [fuel] bounds the depth of the tree. *)
Fixpoint tt_hub (fuel : nat) (devs : list usbdev) (d : nat) (port : Z) : res (usbdev * Z) :=
  match fuel with
  | O => NoFuel
  | S fuel =>
      dev ← deref (devs !! d);
      match uparent dev with
      | Some up => if bool_decide (speed dev = HS) then Ok (dev, port) else tt_hub fuel devs up (uloc dev)
      | None => Ok (dev, port)
      end
  end.
Definition route (devs : list usbdev) (d : usbdev) : res (Z * Z * Z) :=
  match uparent d with
  | Some up =>
      if bool_decide (speed d = HS) then Ok (0, 0, 2)
      else
        assert_ (negb (bool_decide (speed d = SS))) "speed != UsbSpeed::SS";;
        '(hub, port) ← tt_hub (S (length devs)) devs up (uloc d);
        Ok (addr hub, u8 port, speed_code (speed d))
  | None => assert_ (bool_decide (speed d = HS)) "speed == UsbSpeed::HS";; Ok (0, 0, 2)
  end.

(** [ehci_send] up to the point where it waits: the status descriptor and the queue head. *)
Definition ehci_build (devs : list usbdev) (d : usbdev) (endp request databuf : Z) (s : ehci) : res (Z * Z * ehci) :=
  '(setup, s) ← ehci_alloc s;
  '(status, s) ← ehci_alloc s;
  let bmRequestType := ld (eram s) (PHYSICAL request) 1 in
  let wLength := ld (eram s) (PHYSICAL request + 6) 2 in
  let datapid := if Z.testbit bmRequestType 7 then PID_IN else PID_OUT in
  let size := if wLength =? 0 then 0 else Z.max wLength (mps d) in
  let statuspid := if size =? 0 then PID_IN else if datapid =? PID_OUT then PID_IN else PID_OUT in
  p ← elookup request s;
  let s := with_eram s (fill_token setup SETUP 8 0 0 (set_fields (setup + 4) [((0, 1), 1)] (set_buffers setup p (eram s)))) in
  if mps d =? 0 then Fault else
  let stages := (size + (mps d - 1)) / mps d in
  s ← (if stages =? 0 then q ← elookup status s; Ok (with_eram s (set_word setup q (eram s))) else Ok s);
  '(_, s) ← for_rounds (data_stage setup status databuf datapid wLength (mps d) stages) 1 1 (Z.to_nat stages) (0, s);
  let s := with_eram s (fill_token status statuspid 0 1 1 (set_word status 1 (set_word (status + 4) 1 (eram s)))) in
  '(qh, s) ← ehci_alloc s;
  q ← elookup setup s;
  let s := with_eram s (set_word (qh + 16) q (set_word (qh + 12) 0 (eram s))) in
  '(hub, port, sp) ← route devs d;
  let m := set_fields (qh + 8) [(cp_high_bw_pipe_multiplier, 1); (cp_int_sched_mask, 0); (cp_split_completion_mask, 0); (cp_hub_addr, hub); (cp_port_num, port)] (eram s) in
  let m := set_fields (qh + 4) [(ec_endpoint_speed, sp); (ec_ctl_endpoint, 0); (ec_endpoint, endp); (ec_addr, addr d); (ec_data_toggle_ctl, 1);
    (ec_inactive_on_success, 0); (ec_mps, mps d); (ec_nak_reload_counter, 4)] m in
  s ← insert_qh qh (with_eram s m);
  Ok (status, qh, s).

Section Waiting.
Context (hw : ehci → ehci) (poke : Z → Z → ehci → ehci) (fuel : nat) (is_emu : bool).

Definition reg_write (g : ehci_reg) (v : Z) (s : ehci) : res ehci :=
  if (rlength g =? 4) || (rlength g =? 2) || (rlength g =? 1) then Ok (poke (reg_addr g s) (uN (8 * rlength g) v) s)
  else Fatal "Invalid EHCI register length".

(** A transfer that does not end stops the processor; a bad status is only reported. *)
Definition ehci_send (devs : list usbdev) (d : usbdev) (endp request databuf : Z) (s : ehci) : res ehci :=
  '(status, _, s) ← ehci_build devs d endp request databuf s;
  spin hw (timed etm (λ s, getf (get_word (status + 8) (eram s)) 0 8 =? 0x80) 500 (λ _, Hang) Ok) fuel
    (with_etm s (arch_start_timer (etm s))).

(** ** Ports and addresses *)

Definition sleep (ms : Z) (s : ehci) : res ehci := arch_sleep etm hw fuel is_emu ms true s.
Definition fld (l : list member) (n : string) : Z * Z := (default 0 (offset_of [n] 0 l), 1).
Definition portsc (n : string) : Z * Z := fld PORTSC_t n.

Definition ehci_send_reset0 (portnum : Z) (s : ehci) : res (bool * ehci) :=
  sts ← reg_read USBSTS s;
  if negb (get sts (fld USBSTS_t "hchalted") =? 0) then Fatal "USBSTS" else
  let reg := port_reg portnum in
  port ← reg_read reg s;
  s ← reg_write reg (puts port [(portsc "port_enabled_change", 1); (portsc "overcurrent_change", 1); (portsc "connect_sts_change", 1); (portsc "port_pwr", 1)]) s;
  port ← reg_read reg s;
  s ← sleep 10 s;
  s ← reg_write reg (puts port [(portsc "reset", 1); (portsc "port_enabled", 0); (portsc "port_pwr", 1)]) s;
  s ← sleep 50 s;
  port ← reg_read reg s;
  s ← reg_write reg (put port (portsc "reset") 0) s;
  s ← sleep 3 s;
  port ← reg_read reg s;
  assert_ (get port (portsc "reset") =? 0) "!port.reset";;
  Ok (negb (get port (portsc "connect_sts") =? 0) && negb (get port (portsc "port_enabled") =? 0), s).

(** A port with a device gets a place in the list of devices. *)
Definition init_port (portnum : Z) (x : list usbdev * ehci) : res (list usbdev * ehci) :=
  '(ok, s) ← ehci_send_reset0 (u8 portnum) x.2;
  Ok (if (ok : bool) then devs (usb_device_add_skeleton None (u8 portnum) HS (mkUsb x.1 tt)).2 else x.1, s).
Definition ehci_send_reset (d : usbdev) (s : ehci) : res ehci := '(_, s) ← ehci_send_reset0 (u8 (uloc d)) s; Ok s.
(** The result has eight bits. *)
Definition ehci_make_address (s : ehci) : res (Z * ehci) :=
  '(a, b) ← find_and_set (addresses s) 0; Ok (u8 a, with_addresses s b).

(** [mod_main] once the registers are mapped; [legacy] is the exchange with the firmware in the configuration space. *)
Definition mod_main (legacy : ehci → res ehci) (s : ehci) : res (list usbdev * ehci) :=
  b ← init [0; 0] 128 false;
  b ← set b 0 true;
  let s := with_addresses s b in
  hcsp ← reg_read HCSPARAMS s; hccp ← reg_read HCCPARAMS s;
  s ← (if getf hccp 8 8 =? 0 then Ok s else legacy s);
  cmd ← reg_read USBCMD s;
  s ← reg_write USBCMD (put cmd (fld USBCMD_t "running") 0) s;
  cmd ← reg_read USBCMD s;
  s ← reg_write USBCMD (put cmd (fld USBCMD_t "hcreset") 1) s;
  let bit g f s := match reg_read g s with Ok v => negb (get v f =? 0) | _ => false end in
  s ← spin hw (timed etm (bit USBCMD (fld USBCMD_t "hcreset")) 100 (λ _, Fatal "hcreset not working") Ok) fuel (with_etm s (arch_start_timer (etm s)));
  s ← reg_write USBINTR 7 s; s ← reg_write FRINDEX 0 s; s ← reg_write CTRL4GSEGMENT 0 s; s ← reg_write CONFIGFLAG 1 s;
  '(h, s) ← ehci_alloc s;
  let s := with_head s h in
  let s := with_eram s (set_fields (h + 4) [(ec_head_of_reclamation_list, 1)] (eram s)) in
  '(dummy, s) ← ehci_alloc s;
  let s := with_eram s (set_fields (dummy + 4) [((0, 1), 1)] (set_fields dummy [((0, 1), 1)] (set_fields (dummy + 8) [((7, 1), 0)] (eram s)))) in
  q ← elookup dummy s;
  let s := with_eram s (set_word (h + 16) q (set_word (h + 12) 0 (eram s))) in
  p ← elookup h s;
  let s := with_eram s (set_fields h [(hl_type, QH)] (set_word h p (eram s))) in
  p ← elookup h s;
  s ← reg_write ASYNCLISTBASE p s;
  intr ← reg_read USBINTR s;
  s ← reg_write USBINTR (puts intr [(fld USBINTR_t "intr", 0); (fld USBINTR_t "portchange", 1); (fld USBINTR_t "errointr", 0)]) s;
  cmd ← reg_read USBCMD s;
  s ← reg_write USBCMD (puts cmd [(fld USBCMD_t "async_schedule_enable", 1); (fld USBCMD_t "running", 1)]) s;
  s ← spin hw (timed etm (λ s, negb (bit USBSTS (fld USBSTS_t "async_schedule") s)) 100 (λ _, Fatal "HC refused to start async schedule!") Ok) fuel
    (with_etm s (arch_start_timer (etm s)));
  s ← spin hw (timed etm (bit USBSTS (fld USBSTS_t "hchalted")) 100 (λ _, Fatal "HC refused to clear HCHalted!") Ok) fuel s;
  for_rounds init_port 0 1 (Z.to_nat (getf hcsp 0 4)) ([], s).
End Waiting.
End Driver.
