(* ===== verification/EhciSpec.v ===== *)
(** What the EHCI driver leaves for the controller: the chain of descriptors of a control transfer and the ring of
    queue heads; and the addresses it hands out. *)
From S2P Require Import Prelude Arith Mem Msd MsdSpec Elf Bitmap Pmm Paging PagingArea Module ModuleSpec Descriptors Dma AhciSpec Ata Machine Usb UsbSpec Ehci.

(** ** Words and fields at virtual addresses *)

Lemma set_fields_only a l : ∀ m, only (PHYSICAL a) 4 m (set_fields a l m).
Proof.
  induction l as [|f l IH]; intros m; [apply only_refl|]. cbn [set_fields foldl]. eapply only_trans; [|apply IH]. apply (put_bits_only _ _ 4).
Qed.
Lemma set_fields_bytes a l : ∀ m, bytes m → bytes (set_fields a l m).
Proof. induction l as [|f l IH]; intros m H; [done|]. cbn [set_fields foldl]. apply IH. by apply put_bits_bytes. Qed.
Definition fits (f : (Z * Z) * Z) : Prop := 0 ≤ f.1.1 ∧ 0 ≤ f.1.2 ∧ f.1.1 + f.1.2 ≤ 32.
Lemma ld_set_fields a l : ∀ m, bytes m → Forall fits l → ld (set_fields a l m) (PHYSICAL a) 4 = puts (ld m (PHYSICAL a) 4) l.
Proof.
  induction l as [|f l IH]; intros m Hm Hl; [done|]. apply Forall_cons in Hl as [(H1 & H2 & H3) Hl].
  change (set_fields a (f :: l) m) with (set_fields a l (put_bits m (PHYSICAL a) 4 f.1.1 f.1.2 f.2)). rewrite (IH (put_bits m (PHYSICAL a) 4 f.1.1 f.1.2 f.2)) by (done || by apply put_bits_bytes). rewrite ld_put_bits by (done || lia). reflexivity.
Qed.
Lemma set_word_only a v m : only (PHYSICAL a) 4 m (set_word a v m).
Proof. apply (sto_only _ _ 4). Qed.
Lemma set_word_bytes a v m : bytes m → bytes (set_word a v m).
Proof. apply sto_bytes. Qed.
Lemma ld_set_word a v m : is_u32 v → ld (set_word a v m) (PHYSICAL a) 4 = v.
Proof. intros H. apply ld_sto_small. exact H. Qed.

(** ** Pages *)

(** The virtual address of byte [o] of page [p] of the direct map. *)
Definition page_at (p o : Z) : Z := VIRTUAL (4096 * p) + o.
Lemma phys_page p o : 0 ≤ p < 2 ^ 20 → 0 ≤ o < 4096 → PHYSICAL (page_at p o) = 4096 * p + o.
Proof. intros Hp Ho. unfold page_at. rewrite VIRTUAL_add by lia. replace (4096 * p + HHDM + o) with (4096 * p + o + HHDM) by lia. apply phys_of_virtual. lia. Qed.

Section Direct.
Context (pml4 : Z).

(** Memory below 4 GiB is mapped directly, and pages come from there. *)
Record good (s : ehci) : Prop := {
  gd_pmm : pmm_ok (mem (epg s));
  gd_low : sz (pmm_bm (mem (epg s))) ≤ 2 ^ 20;
  gd_map : ∀ a, 0 ≤ a < 4096 * sz (pmm_bm (mem (epg s))) → paging_lookup (epg s) pml4 (VIRTUAL a) = Ok a;
  gd_bytes : bytes (eram s) }.
Definition taken (s : ehci) (p : Z) : Prop := 0 ≤ p < sz (pmm_bm (mem (epg s))) ∧ bit (pmm_bm (mem (epg s))) p = true.

Lemma good_ram s m : good s → bytes m → good (with_eram s m).
Proof. intros [A B D E] H. by split. Qed.
Lemma taken_low s p : good s → taken s p → 0 ≤ p < 2 ^ 20.
Proof. intros [A B D E] [H _]. lia. Qed.

Lemma elookup_page s p o : good s → taken s p → 0 ≤ o < 4096 → elookup pml4 (page_at p o) s = Ok (4096 * p + o).
Proof.
  intros Hg Ht Ho. pose proof (taken_low s p Hg Ht) as Hp. destruct Hg as [A B D E], Ht as [Hr _]. unfold elookup.
  assert (page_at p o = VIRTUAL (4096 * p + o)) as -> by (unfold page_at; rewrite !VIRTUAL_add by lia; lia).
  rewrite D by lia. cbn [mbind res_bind]. rewrite Z.shiftr_div_pow2, Z.div_small by lia. cbn [Z.eqb assert_ mbind res_bind].
  change 0xffffffff with (Z.ones 32). rewrite Z.land_ones, Z.mod_small by lia. done.
Qed.

(** A fresh page, cleared where the structure goes. *)
Lemma alloc_page s : good s → ehci_alloc s = Fatal "PMM failed to allocate" ∨
  ∃ p s', ehci_alloc s = Ok (page_at p 0, s') ∧ good s' ∧ ¬ taken s p ∧ taken s' p ∧ (∀ q, taken s q → taken s' q) ∧
    (∀ x, eram s' x = if bool_decide (4096 * p ≤ x < 4096 * p + 64) then 0 else eram s x) ∧ head s' = head s ∧ addresses s' = addresses s.
Proof.
  intros [A B D E]. unfold ehci_alloc, pmm_alloc4g. destruct (alloc_from_0 (mem (epg s)) 64 A ltac:(lia)) as [(p & pm & -> & H0 & Hp & Hf & _ & Hm & Hok & _)|[-> _]]; [|by left].
  right. change (pages 64) with 1 in *. cbn [mbind res_bind]. exists p. eexists. split; [unfold page_at; rewrite Z.add_0_r; reflexivity|].
  pose proof (marks_sz _ _ _ _ Hm) as Hsz. pose proof (marks_bit _ _ _ _ Hm) as Hb.
  assert (PHYSICAL (VIRTUAL (4096 * p)) = 4096 * p) as Hph by (apply PHYSICAL_VIRTUAL; lia).
  unfold taken. cbn [epg with_eram with_epg mem eram head addresses]. rewrite Hsz. split_and!; try done.
  - split; cbn [epg with_eram with_epg mem eram].
    + done.
    + lia.
    + rewrite Hsz. exact D.
    + intros x. rewrite memset_spec by (unfold is_uN; lia). case_bool_decide; [unfold is_uN; lia|apply E].
  - intros [_ Hbit]. rewrite (Hf p) in Hbit by lia. done.
  - lia.
  - rewrite Hb by lia. by rewrite bool_decide_eq_true_2 by lia.
  - intros q [Hq1 Hq2]. split; [done|]. rewrite Hb by lia. rewrite Hq2. apply orb_true_r.
  - intros x. rewrite memset_spec by (unfold is_uN; lia). by rewrite Hph.
Qed.
End Direct.

(** ** What the controller follows *)

(** A transfer descriptor at a physical address. *)
Record td := mkTd { td_pid : Z; td_bytes : Z; td_toggle : Z; td_status : Z; td_buffer : Z }.
Definition td_at (m : Mem.mem) (a : Z) : td :=
  let w := ld m (a + 8) 4 in mkTd (get w tk_pid) (get w tk_bytes) (get w tk_data) (get w tk_sts) (ld m (a + 12) 4).
(** The chain from a link on, up to the terminating bit. *)
Fixpoint tds (fuel : nat) (m : Mem.mem) (link : Z) : list td :=
  match fuel with
  | O => []
  | S k => if Z.testbit link 0 then [] else td_at m link :: tds k m (ld m link 4)
  end.
(** The ring of queue heads: every head's link is the next one's address with the type of a queue head. *)
Fixpoint ring (m : Mem.mem) (h a : Z) (l : list Z) : Prop :=
  match l with [] => ld m a 4 = h + 2 | x :: l => ld m a 4 = x + 2 ∧ ring m h x l end.

Lemma ring_keep m m' h l : ∀ a, (∀ x, x = a ∨ x ∈ l → ld m' x 4 = ld m x 4) → ring m h a l → ring m' h a l.
Proof.
  induction l as [|y l IH]; intros a Hk Hr; cbn [ring] in *; [by rewrite Hk by (by left)|]. destruct Hr as [H1 H2].
  split; [by rewrite Hk by (by left)|]. apply IH; [|done]. intros x [->|Hx]; apply Hk; right; [by left|by right].
Qed.

(** A page-aligned address with the type bits. *)
Lemma lor_type a : a `mod` 4096 = 0 → Z.lor a (Z.shiftl QH 1) = a + 2.
Proof.
  intros Ha. change (Z.shiftl QH 1) with 2. rewrite Z.lor_comm. pose proof (Z.div_mod a 4096 ltac:(lia)) as E. rewrite Ha, Z.add_0_r in E.
  replace a with (Z.shiftl (a / 4096) 12) at 1 by (rewrite Z.shiftl_mul_pow2 by lia; change (2 ^ 12) with 4096; lia).
  rewrite lor_high by lia. change (2 ^ 12) with 4096. lia.
Qed.

Lemma type_of_link a : a `mod` 4096 = 0 → getf (a + 2) 1 2 = QH.
Proof.
  intros Ha. rewrite getf_mod by lia. pose proof (Z.div_mod a 4096 ltac:(lia)) as E. rewrite Ha, Z.add_0_r in E.
  change (2 ^ 1) with 2. change (2 ^ 2) with 4. rewrite E. replace (4096 * (a / 4096) + 2) with ((2048 * (a / 4096) + 1) * 2) by lia.
  rewrite Z.div_mul by lia. replace (2048 * (a / 4096) + 1) with (1 + 512 * (a / 4096) * 4) by lia. rewrite Z.mod_add by lia. done.
Qed.

Lemma page_mod p : (4096 * p) `mod` 4096 = 0.
Proof. rewrite Z.mul_comm. apply Z.mod_mul. lia. Qed.

Section Ring.
Context (pml4 : Z).

Lemma insert_ring s h q l : good pml4 s → head s = page_at h 0 → taken s h → taken s q → Forall (taken s) l → q ≠ h → q ∉ l → h ∉ l →
  ring (eram s) (4096 * h) (4096 * h) (map (Z.mul 4096) l) →
  ∃ s', insert_qh pml4 (page_at q 0) s = Ok s' ∧ good pml4 s' ∧ epg s' = epg s ∧ head s' = head s ∧ addresses s' = addresses s ∧
    ring (eram s') (4096 * h) (4096 * h) (map (Z.mul 4096) (q :: l)) ∧
    ∀ x, ¬ (4096 * q ≤ x < 4096 * q + 4) → ¬ (4096 * h ≤ x < 4096 * h + 4) → eram s' x = eram s x.
Proof.
  intros Hg Hh Th Tq Tl Hqh Hql Hhl Hr. pose proof (taken_low _ _ _ Hg Th) as Lh. pose proof (taken_low _ _ _ Hg Tq) as Lq.
  assert (∀ y, y ∈ l → 0 ≤ y < 2 ^ 20) as Ll by (intros y Hy; eapply taken_low; [done|]; exact (proj1 (Forall_forall _ _) Tl y Hy)).
  unfold insert_qh. rewrite Hh. pose proof (phys_page h 0 Lh ltac:(lia)) as Ph. pose proof (phys_page q 0 Lq ltac:(lia)) as Pq. rewrite Z.add_0_r in Ph, Pq.
  assert (∃ y, ld (eram s) (4096 * h) 4 = 4096 * y + 2 ∧ 0 ≤ y < 2 ^ 20 ∧ ∀ m, ld m (4096 * q) 4 = 4096 * y + 2 →
    (∀ x, x ∈ l → ld m (4096 * x) 4 = ld (eram s) (4096 * x) 4) → ring m (4096 * h) (4096 * q) (map (Z.mul 4096) l)) as (y & Ey & Hy & Hring).
  { destruct l as [|y l']; cbn [map ring] in Hr.
    - exists h. split_and!; [done|lia|lia|]. intros m Hm _. exact Hm.
    - destruct Hr as [H1 H2]. exists y. split_and!; [done|apply Ll; left|apply Ll; left|]. intros m Hm Hk. cbn [map ring]. split; [exact Hm|].
      eapply ring_keep; [|exact H2]. intros x [->|Hx]; [apply Hk; left|]. apply list_elem_of_In, in_map_iff in Hx as (z & <- & Hz%list_elem_of_In).
      apply Hk. by right. }
  unfold get_word. rewrite Ph, Ey. set (m1 := set_word (page_at q 0) (4096 * y + 2) (eram s)).
  assert (bytes m1) as Hb1 by (apply set_word_bytes, Hg). assert (only (4096 * q) 4 (eram s) m1) as Ho1 by (rewrite <- Pq; apply set_word_only).
  assert (ld m1 (4096 * q) 4 = 4096 * y + 2) as L1 by (rewrite <- Pq; apply ld_set_word; unfold is_uN; lia).
  rewrite Pq, L1, type_of_link by apply page_mod. cbn [Z.eqb Pos.eqb QH assert_ mbind res_bind]. change (QH =? QH) with true. cbn [assert_ mbind res_bind].
  rewrite (elookup_page pml4 (with_eram s m1) q 0) by (by apply good_ram || done || lia). cbn [mbind res_bind]. rewrite Z.add_0_r, lor_type by apply page_mod.
  set (m2 := set_word (page_at h 0) (4096 * q + 2) m1).
  assert (only (4096 * h) 4 m1 m2) as Ho2 by (rewrite <- Ph; apply set_word_only).
  assert (ld m2 (4096 * h) 4 = 4096 * q + 2) as L2 by (rewrite <- Ph; apply ld_set_word; unfold is_uN; lia).
  eexists. split; [done|]. cbn [eram epg head addresses with_eram]. split_and!; try done.
  - apply good_ram; [done|]. by apply set_word_bytes.
  - cbn [map ring]. split; [exact L2|].
    apply Hring.
    + rewrite (ld_keep _ _ _ _ _ _ Ho2) by lia. exact L1.
    + intros x Hx. assert (x ≠ q) by (intros ->; done). assert (x ≠ h) by (intros ->; done).
      rewrite (ld_keep _ _ _ _ _ _ Ho2), (ld_keep _ _ _ _ _ _ Ho1) by lia. done.
  - intros x H1 H2. by rewrite Ho2, Ho1.
Qed.
End Ring.

(** ** Filling descriptors *)

Lemma page_add p o k : page_at p o + k = page_at p (o + k).
Proof. unfold page_at. lia. Qed.

Section Fill.
Context (m : Mem.mem) (p : Z) (Hm : bytes m) (Hp : 0 ≤ p < 2 ^ 20).

Lemma fill_token_spec pid n data ioc : 0 ≤ pid < 4 → 0 ≤ n < 2 ^ 15 → 0 ≤ data < 2 → let m' := fill_token (page_at p 0) pid n data ioc m in
  bytes m' ∧ only (4096 * p + 8) 4 m m' ∧ ∀ m'' b, ld m'' (4096 * p + 8) 4 = ld m' (4096 * p + 8) 4 → ld m'' (4096 * p + 12) 4 = b →
    td_at m'' (4096 * p) = mkTd pid n data 0x80 b.
Proof using Hm Hp.
  intros H1 H2 H3 m'. unfold m', fill_token. rewrite page_add, Z.add_0_l. pose proof (phys_page p 8 Hp ltac:(lia)) as Ph. split_and!.
  - by apply set_fields_bytes.
  - rewrite <- Ph. apply set_fields_only.
  - intros m'' b E Eb. unfold td_at. cbn zeta. rewrite E, Eb. rewrite <- Ph. rewrite ld_set_fields; [|done|repeat constructor; cbn; lia].
    generalize (ld m (PHYSICAL (page_at p 8)) 4). intros w.
    unfold tk_sts, tk_pid, tk_err_counter, tk_current_page, tk_ioc, tk_bytes, tk_data. fields.
    rewrite !getf_small by (unfold is_uN; lia). reflexivity.
Qed.

Lemma set_buffers_spec v : is_u32 v → let m' := set_buffers (page_at p 0) v m in
  bytes m' ∧ only (4096 * p + 12) 20 m m' ∧ ld m' (4096 * p + 12) 4 = v.
Proof using Hm Hp.
  intros Hv m'. unfold m', set_buffers. cbn zeta. rewrite !page_add. change (0 + 12 + 4 * 1) with 16. change (0 + 12 + 4 * 2) with 20.
  change (0 + 12 + 4 * 3) with 24. change (0 + 12 + 4 * 4) with 28. change (0 + 12) with 12.
  assert (∀ o w m1, 0 ≤ o < 64 → only (4096 * p + o) 4 m1 (set_word (page_at p o) w m1)) as Ho.
  { intros o w m1 Ho. rewrite <- phys_page by lia. apply set_word_only. }
  split_and!.
  - repeat apply set_word_bytes. done.
  - repeat first [apply only_refl|eapply only_trans; [|eapply only_wide; [apply Ho; lia|lia|lia]]].
  - assert (∀ o w m1, 16 ≤ o < 64 → ld (set_word (page_at p o) w m1) (4096 * p + 12) 4 = ld m1 (4096 * p + 12) 4) as Hl.
    { intros o w m1 Hr. apply (ld_keep _ _ _ _ _ _ (Ho o w m1 ltac:(lia))). lia. }
    rewrite !Hl by lia. rewrite <- phys_page by lia. by apply ld_set_word.
Qed.

Lemma set_t_spec o : 0 ≤ o < 64 → let m' := set_fields (page_at p o) [((0, 1), 1)] m in bytes m' ∧ only (4096 * p + o) 4 m m'.
Proof using Hm Hp. intros Ho m'. split; [by apply set_fields_bytes|]. unfold m'. rewrite <- phys_page by lia. apply set_fields_only. Qed.
Lemma set_word_spec o v : 0 ≤ o < 64 → is_u32 v → let m' := set_word (page_at p o) v m in
  bytes m' ∧ only (4096 * p + o) 4 m m' ∧ ld m' (4096 * p + o) 4 = v.
Proof using Hm Hp. intros Ho Hv m'. unfold m'. rewrite <- phys_page by lia. split_and!; [by apply set_word_bytes|apply set_word_only|by apply ld_set_word]. Qed.
End Fill.

(** The setup descriptor. *)
Lemma fill_setup m p v : bytes m → 0 ≤ p < 2 ^ 20 → is_u32 v →
  let m' := fill_token (page_at p 0) SETUP 8 0 0 (set_fields (page_at p 0 + 4) [((0, 1), 1)] (set_buffers (page_at p 0) v m)) in
  bytes m' ∧ only (4096 * p + 4) 60 m m' ∧ td_at m' (4096 * p) = mkTd SETUP 8 0 0x80 v.
Proof.
  intros Hm Hp Hv. cbn zeta. rewrite page_add, Z.add_0_l. destruct (set_buffers_spec m p Hm Hp v Hv) as (B1 & O1 & L1).
  set (m1 := set_buffers _ _ _) in *. destruct (set_t_spec m1 p B1 Hp 4 ltac:(lia)) as (B2 & O2). set (m2 := set_fields _ _ m1) in *.
  destruct (fill_token_spec m2 p B2 Hp SETUP 8 0 0) as (B3 & O3 & T3); [unfold SETUP; lia|lia|lia|]. split_and!; [done| |].
  - eapply only_trans; [eapply only_trans; [eapply only_wide; [exact O1|lia..]|eapply only_wide; [exact O2|lia..]]|eapply only_wide; [exact O3|lia..]].
  - apply T3; [done|]. rewrite (ld_keep _ _ _ _ _ _ O3), (ld_keep _ _ _ _ _ _ O2) by lia. exact L1.
Qed.

(** ** One data stage *)

(** The 64 bytes of a page a structure takes. *)
Definition agree (m m' : Mem.mem) (p : Z) : Prop := ∀ x, 4096 * p ≤ x < 4096 * p + 64 → m' x = m x.
Lemma agree_only m m' a n p : only a n m m' → 4096 * p + 64 ≤ a ∨ a + n ≤ 4096 * p → agree m m' p.
Proof. intros H Hd x Hx. apply H. lia. Qed.
Lemma agree_trans m1 m2 m3 p : agree m1 m2 p → agree m2 m3 p → agree m1 m3 p.
Proof. intros H1 H2 x Hx. by rewrite H2, H1. Qed.
Lemma agree_ld m m' p o k : agree m m' p → 0 ≤ o → o + Z.of_nat k ≤ 64 → ld m' (4096 * p + o) k = ld m (4096 * p + o) k.
Proof. intros H Ho Hk. unfold ld. f_equal. apply bytes_at_ext. intros x Hx. apply H. lia. Qed.
Lemma agree_td m m' p : agree m m' p → td_at m' (4096 * p) = td_at m (4096 * p).
Proof. intros H. unfold td_at. by rewrite !(agree_ld m m' p _ _ H) by lia. Qed.
Lemma agree_link m m' p : agree m m' p → ld m' (4096 * p) 4 = ld m (4096 * p) 4.
Proof. intros H. pose proof (agree_ld m m' p 0 4 H ltac:(lia) ltac:(lia)) as E. by rewrite Z.add_0_r in E. Qed.

(** What a step of the driver keeps: pages once taken, the head and the addresses. *)
Definition kept (s s' : ehci) : Prop := (∀ q, taken s q → taken s' q) ∧ head s' = head s ∧ addresses s' = addresses s.
Lemma kept_trans s1 s2 s3 : kept s1 s2 → kept s2 s3 → kept s1 s3.
Proof. intros (A & B & C) (A' & B' & C'). split_and!; [auto|congruence..]. Qed.
Lemma kept_ram s m : kept s (with_eram s m).
Proof. by split_and!. Qed.

Section Stage.
Context (pml4 : Z).

Lemma taken_ne s p q : taken s p → ¬ taken s q → p ≠ q.
Proof. intros H1 H2 ->. done. Qed.

Lemma data_stage_one s su st bp bo pid len mps prev : good pml4 s → taken s su → taken s st → taken s bp → 0 ≤ bo < 4096 → su ≠ st →
  0 ≤ pid < 4 → 0 ≤ len ≤ mps → len < 2 ^ 15 →
  let r := data_stage pml4 (page_at su 0) (page_at st 0) (page_at bp bo) pid len mps 1 1 (prev, s) in
  r = Fatal "PMM failed to allocate" ∨ ∃ t s', r = Ok (page_at t 0, s') ∧ good pml4 s' ∧ kept s s' ∧ ¬ taken s t ∧ taken s' t ∧
    ld (eram s') (4096 * su) 4 = 4096 * t ∧ ld (eram s') (4096 * t) 4 = 4096 * st ∧ td_at (eram s') (4096 * t) = mkTd pid len 1 0x80 (4096 * bp + bo) ∧
    ∀ x, ¬ (4096 * su ≤ x < 4096 * su + 4) → ¬ (4096 * t ≤ x < 4096 * t + 64) → eram s' x = eram s x.
Proof.
  intros Hg Tsu Tst Tbp Hbo Hne Hpid Hlen Hl15. cbn zeta. unfold data_stage.
  destruct (alloc_page pml4 s Hg) as [->|(t & s1 & -> & Hg1 & Nt & Tt & Hmono & Hr1 & Hh1 & Ha1)]; [by left|]. right. cbn [mbind res_bind].
  pose proof (taken_low _ _ _ Hg Tsu) as Lsu. pose proof (taken_low _ _ _ Hg Tst) as Lst. pose proof (taken_low _ _ _ Hg Tbp) as Lbp. pose proof (taken_low _ _ _ Hg1 Tt) as Lt.
  pose proof (taken_ne s su t Tsu Nt) as Nsu. pose proof (taken_ne s st t Tst Nt) as Nst.
  rewrite page_add, Z.add_0_l. destruct (set_t_spec (eram s1) t ltac:(apply Hg1) Lt 4 ltac:(lia)) as (B2 & O2). set (m2 := set_fields _ _ (eram s1)) in *.
  rewrite (elookup_page pml4 (with_eram s1 m2) t 0) by (by apply good_ram || done || lia). cbn [mbind res_bind Z.eqb Pos.eqb]. rewrite Z.add_0_r.
  cbn [eram with_eram]. destruct (set_word_spec m2 su B2 Lsu 0 (4096 * t) ltac:(lia)) as (B3 & O3 & L3); [unfold is_uN; lia|]. set (m3 := set_word _ _ m2) in *.
  rewrite Z.add_0_r in O3, L3.
  rewrite (elookup_page pml4 (with_eram (with_eram s1 m2) m3) bp bo) by ((by repeat apply good_ram) || (by apply Hmono) || lia). cbn [mbind res_bind eram with_eram].
  destruct (set_buffers_spec m3 t B3 Lt (4096 * bp + bo)) as (B4 & O4 & L4); [unfold is_uN; lia|]. set (m4 := set_buffers _ _ m3) in *.
  rewrite (elookup_page pml4 _ st 0) by ((by repeat apply good_ram) || (by apply Hmono) || lia). cbn [mbind res_bind eram with_eram]. rewrite Z.add_0_r.
  destruct (set_word_spec m4 t B4 Lt 0 (4096 * st) ltac:(lia)) as (B5 & O5 & L5); [unfold is_uN; lia|]. set (m5 := set_word _ _ m4) in *. rewrite Z.add_0_r in O5, L5.
  destruct (set_word_spec m5 t B5 Lt 4 (4096 * st) ltac:(lia)) as (B6 & O6 & L6); [unfold is_uN; lia|]. set (m6 := set_word _ _ m5) in *.
  rewrite (Z.min_l len mps) by lia. change (1 `mod` 2) with 1.
  destruct (fill_token_spec m6 t B6 Lt pid len 1 0) as (B7 & O7 & T7); [lia..|]. set (m7 := fill_token _ _ _ _ _ m6) in *.
  eexists t, _. split; [reflexivity|]. cbn [eram with_eram]. clearbody m2 m3 m4 m5 m6 m7.
  split; [by repeat apply good_ram|]. split; [exact (conj Hmono (conj Hh1 Ha1))|]. split; [exact Nt|]. split; [exact Tt|]. split; [|split; [|split]].
  - rewrite (ld_keep _ _ _ _ _ _ O7), (ld_keep _ _ _ _ _ _ O6), (ld_keep _ _ _ _ _ _ O5), (ld_keep _ _ _ _ _ _ O4) by lia. exact L3.
  - rewrite (ld_keep _ _ _ _ _ _ O7), (ld_keep _ _ _ _ _ _ O6) by lia. exact L5.
  - apply T7; [done|]. rewrite (ld_keep _ _ _ _ _ _ O7), (ld_keep _ _ _ _ _ _ O6), (ld_keep _ _ _ _ _ _ O5) by lia. exact L4.
  - intros x H1 H2. rewrite O7, O6, O5, O4, O3, O2 by lia. rewrite Hr1. by rewrite bool_decide_eq_false_2 by lia.
Qed.
End Stage.

(** ** Chains *)

(** The descriptors on the pages of [l], linked in order from [link] to [e]. *)
Fixpoint seg (m : Mem.mem) (link : Z) (l : list (Z * td)) (e : Z) : Prop :=
  match l with
  | [] => link = e
  | (p, d) :: l => link = 4096 * p ∧ td_at m (4096 * p) = d ∧ seg m (ld m (4096 * p) 4) l e
  end.
Lemma seg_agree m m' l : ∀ link e, Forall (λ x, agree m m' x.1) l → seg m link l e → seg m' link l e.
Proof.
  induction l as [|[p d] l IH]; intros link e Ha Hs; [done|]. apply Forall_cons in Ha as [Hp Ha]. destruct Hs as (-> & <- & Hs). cbn [fst] in Hp.
  split_and!; [done|by apply agree_td|]. rewrite (agree_link _ _ _ Hp). by apply IH.
Qed.
Lemma seg_tds m l k : ∀ link e, seg m link l e → tds (length l + k) m link = map snd l ++ tds k m e.
Proof.
  induction l as [|[p d] l IH]; intros link e Hs; [by rewrite Hs|]. destruct Hs as (-> & <- & Hs). cbn [length Nat.add tds map app snd].
  assert (Z.testbit (4096 * p) 0 = false) as -> by (rewrite Z.bit0_odd, Z.odd_mul; done). f_equal. by apply IH.
Qed.
Lemma seg_snoc m l p d : ∀ link e, seg m link l (4096 * p) → td_at m (4096 * p) = d → ld m (4096 * p) 4 = e → seg m link (l ++ [(p, d)]) e.
Proof.
  induction l as [|[q d'] l IH]; intros link e Hs Hd He; cbn [app seg] in *; [by split_and!|]. destruct Hs as (-> & <- & Hs). split_and!; [done|done|]. by apply IH.
Qed.

Section Transfer.
Context (pml4 : Z).

(** From the filled setup descriptor to the link to the status descriptor: no data stage, or one. *)
Lemma stages_Ok s su st databuf pid len mps dsetup (bp bo : Z) : good pml4 s → taken s su → taken s st → su ≠ st → 0 ≤ pid < 4 → 0 ≤ len ≤ mps → 0 < mps < 2 ^ 15 →
  (len ≠ 0 → databuf = page_at bp bo ∧ taken s bp ∧ 0 ≤ bo < 4096) → td_at (eram s) (4096 * su) = dsetup →
  let size := if len =? 0 then 0 else Z.max len mps in let stages := (size + (mps - 1)) / mps in
  let r := s ← (if stages =? 0 then q ← elookup pml4 (page_at st 0) s; Ok (with_eram s (set_word (page_at su 0) q (eram s))) else Ok s);
    for_rounds (data_stage pml4 (page_at su 0) (page_at st 0) databuf pid len mps stages) 1 1 (Z.to_nat stages) (0, s) in
  r = Fatal "PMM failed to allocate" ∨ ∃ x s' l, r = Ok (x, s') ∧ good pml4 s' ∧ kept s s' ∧
    seg (eram s') (4096 * su) ((su, dsetup) :: l) (4096 * st) ∧ Forall (λ y, taken s' y.1 ∧ ¬ taken s y.1) l ∧
    map snd l = (if len =? 0 then [] else [mkTd pid len 1 0x80 (4096 * bp + bo)]) ∧ (∀ q, taken s q → q ≠ su → agree (eram s) (eram s') q).
Proof.
  intros Hg Tsu Tst Hne Hpid Hlen Hmps Hbuf Hds. cbn zeta. pose proof (taken_low _ _ _ Hg Tsu) as Lsu. pose proof (taken_low _ _ _ Hg Tst) as Lst.
  destruct (Z.eqb_spec len 0) as [->|Hl0].
  - assert ((0 + (mps - 1)) / mps = 0) as -> by (apply Z.div_small; lia). cbn [Z.eqb].
    rewrite (elookup_page pml4 s st 0) by (done || lia). cbn [mbind res_bind]. rewrite Z.add_0_r.
    destruct (set_word_spec (eram s) su ltac:(apply Hg) Lsu 0 (4096 * st) ltac:(lia)) as (B & O & L); [unfold is_uN; lia|]. rewrite Z.add_0_r in O, L.
    set (m1 := set_word _ _ _) in *. right. exists 0, (with_eram s m1), []. cbn [Z.to_nat for_rounds map]. cbn [eram with_eram].
    split; [done|]. split; [by apply good_ram|]. split; [apply kept_ram|]. split; [|split; [by constructor|split; [done|]]].
    + cbn [seg]. split; [done|]. split; [|exact L]. rewrite <- Hds. unfold td_at. by rewrite !(ld_keep _ _ _ _ _ _ O) by lia.
    + intros q Hq Hqs. eapply agree_only; [exact O|]. lia.
  - destruct (Hbuf Hl0) as (-> & Tb & Hbo). rewrite (Z.max_r len mps) by lia.
    assert ((mps + (mps - 1)) / mps = 1) as -> by (symmetry; apply Z.div_unique with (mps - 1); lia). cbn [Z.eqb mbind res_bind]. change (Z.to_nat 1) with 1%nat. cbn [for_rounds].
    destruct (data_stage_one pml4 s su st bp bo pid len mps 0) as [->|(t & s1 & -> & Hg1 & Hk & Nt & Tt & L1 & L2 & T1 & Hr)]; try done; try lia; [by left|].
    right. cbn [mbind res_bind]. exists (page_at t 0), s1, [(t, mkTd pid len 1 0x80 (4096 * bp + bo))].
    pose proof (taken_ne s su t Tsu Nt) as Nsu. split; [done|]. split; [done|]. split; [done|]. split; [|split; [|split; [done|]]].
    + cbn [seg]. split; [done|]. split; [|by split_and!]. rewrite <- Hds.
      assert (∀ o k, 4 ≤ o → o + Z.of_nat k ≤ 64 → ld (eram s1) (4096 * su + o) k = ld (eram s) (4096 * su + o) k) as E.
      { intros o k Ho Hk'. unfold ld. f_equal. apply bytes_at_ext. intros x Hx. apply Hr; lia. }
      unfold td_at. by rewrite !E by lia.
    + constructor; [by split|constructor].
    + intros q Hq Hqs x Hx. pose proof (taken_ne s q t Hq Nt). apply Hr; lia.
Qed.

(** The status descriptor ends the chain. *)
Lemma status_Ok s su st pid l : good pml4 s → taken s st → 0 ≤ pid < 4 → seg (eram s) (4096 * su) l (4096 * st) → Forall (λ y, y.1 ≠ st ∧ 0 ≤ y.1) l →
  ld (eram s) (4096 * st + 12) 4 = 0 →
  let m := fill_token (page_at st 0) pid 0 1 1 (set_word (page_at st 0) 1 (set_word (page_at st 0 + 4) 1 (eram s))) in
  bytes m ∧ seg m (4096 * su) (l ++ [(st, mkTd pid 0 1 0x80 0)]) 1 ∧ only (4096 * st) 64 (eram s) m.
Proof.
  intros Hg Tst Hpid Hs Hl Hb. cbn zeta. pose proof (taken_low _ _ _ Hg Tst) as Lst. rewrite page_add, Z.add_0_l.
  destruct (set_word_spec (eram s) st ltac:(apply Hg) Lst 4 1 ltac:(lia)) as (B1 & O1 & _); [unfold is_uN; lia|]. set (m1 := set_word _ _ (eram s)) in *.
  destruct (set_word_spec m1 st B1 Lst 0 1 ltac:(lia)) as (B2 & O2 & L2); [unfold is_uN; lia|]. set (m2 := set_word _ _ m1) in *. rewrite Z.add_0_r in O2, L2.
  destruct (fill_token_spec m2 st B2 Lst pid 0 1 1) as (B3 & O3 & T3); [lia..|]. set (m3 := fill_token _ _ _ _ _ m2) in *. clearbody m1 m2 m3.
  assert (only (4096 * st) 64 (eram s) m3) as Hall.
  { eapply only_trans; [eapply only_trans; [eapply only_wide; [exact O1|lia..]|eapply only_wide; [exact O2|lia..]]|eapply only_wide; [exact O3|lia..]]. }
  split; [done|]. split; [|exact Hall]. apply seg_snoc.
  - eapply seg_agree; [|exact Hs]. eapply Forall_impl; [exact Hl|]. intros [q d] [Hq Hq0]. cbn [fst] in *. eapply agree_only; [exact Hall|]. lia.
  - apply T3; [done|]. rewrite (ld_keep _ _ _ _ _ _ O3), (ld_keep _ _ _ _ _ _ O2), (ld_keep _ _ _ _ _ _ O1) by lia. exact Hb.
  - rewrite (ld_keep _ _ _ _ _ _ O3) by lia. exact L2.
Qed.
End Transfer.

(** ** The queue head *)

Record qh := mkQhv { q_addr : Z; q_endp : Z; q_speed : Z; q_toggle_ctl : Z; q_mps : Z; q_hub : Z; q_port : Z; q_next : Z }.
Definition qh_at (m : Mem.mem) (a : Z) : qh :=
  let c := ld m (a + 4) 4 in let p := ld m (a + 8) 4 in
  mkQhv (get c ec_addr) (get c ec_endpoint) (get c ec_endpoint_speed) (get c ec_data_toggle_ctl) (get c ec_mps) (get p cp_hub_addr) (get p cp_port_num) (ld m (a + 16) 4).

Lemma fill_qh_spec m q a ad endp mp : bytes m → 0 ≤ q < 2 ^ 20 → is_u32 a → 0 ≤ ad < 128 → 0 ≤ endp < 16 → 0 ≤ mp < 2048 →
  let m' := set_fields (page_at q 0 + 4) [(ec_endpoint_speed, 2); (ec_ctl_endpoint, 0); (ec_endpoint, endp); (ec_addr, ad); (ec_data_toggle_ctl, 1);
      (ec_inactive_on_success, 0); (ec_mps, mp); (ec_nak_reload_counter, 4)]
    (set_fields (page_at q 0 + 8) [(cp_high_bw_pipe_multiplier, 1); (cp_int_sched_mask, 0); (cp_split_completion_mask, 0); (cp_hub_addr, 0); (cp_port_num, 0)]
      (set_word (page_at q 0 + 16) a (set_word (page_at q 0 + 12) 0 m))) in
  bytes m' ∧ only (4096 * q + 4) 60 m m' ∧ qh_at m' (4096 * q) = mkQhv ad endp 2 1 mp 0 0 a.
Proof.
  intros Hm Hq Ha H1 H2 H3. cbn zeta. rewrite !page_add, !Z.add_0_l.
  destruct (set_word_spec m q Hm Hq 12 0 ltac:(lia)) as (B1 & O1 & _); [unfold is_uN; lia|]. set (m1 := set_word _ _ m) in *.
  destruct (set_word_spec m1 q B1 Hq 16 a ltac:(lia) Ha) as (B2 & O2 & L2). set (m2 := set_word _ _ m1) in *.
  pose proof (phys_page q 8 Hq ltac:(lia)) as P8. pose proof (phys_page q 4 Hq ltac:(lia)) as P4.
  set (m3 := set_fields (page_at q 8) _ m2). assert (bytes m3) as B3 by by apply set_fields_bytes.
  assert (only (4096 * q + 8) 4 m2 m3) as O3 by (rewrite <- P8; apply set_fields_only).
  assert (∃ w, ld m3 (4096 * q + 8) 4 = puts w [(cp_high_bw_pipe_multiplier, 1); (cp_int_sched_mask, 0); (cp_split_completion_mask, 0); (cp_hub_addr, 0); (cp_port_num, 0)]) as [w3 L3].
  { exists (ld m2 (4096 * q + 8) 4). rewrite <- P8. unfold m3. apply ld_set_fields; [exact B2|repeat constructor; cbn; lia]. }
  clearbody m3. set (m4 := set_fields (page_at q 4) _ m3). assert (bytes m4) as B4 by by apply set_fields_bytes.
  assert (only (4096 * q + 4) 4 m3 m4) as O4 by (rewrite <- P4; apply set_fields_only).
  assert (∃ w, ld m4 (4096 * q + 4) 4 = puts w [(ec_endpoint_speed, 2); (ec_ctl_endpoint, 0); (ec_endpoint, endp); (ec_addr, ad); (ec_data_toggle_ctl, 1);
      (ec_inactive_on_success, 0); (ec_mps, mp); (ec_nak_reload_counter, 4)]) as [w4 L4].
  { exists (ld m3 (4096 * q + 4) 4). rewrite <- P4. unfold m4. apply ld_set_fields; [exact B3|repeat constructor; cbn; lia]. }
  clearbody m4 m2 m1. split; [exact B4|]. split.
  - eapply only_trans; [eapply only_trans; [eapply only_trans; [eapply only_wide; [exact O1|lia..]|eapply only_wide; [exact O2|lia..]]|eapply only_wide; [exact O3|lia..]]|eapply only_wide; [exact O4|lia..]].
  - unfold qh_at. cbn zeta. rewrite (ld_keep _ _ _ _ (4096 * q + 8) 4 O4), (ld_keep _ _ _ _ (4096 * q + 16) 4 O4), (ld_keep _ _ _ _ (4096 * q + 16) 4 O3), L2, L3, L4 by lia.
    unfold ec_addr, ec_endpoint, ec_endpoint_speed, ec_data_toggle_ctl, ec_mps, ec_ctl_endpoint, ec_inactive_on_success, ec_nak_reload_counter,
      cp_hub_addr, cp_port_num, cp_high_bw_pipe_multiplier, cp_int_sched_mask, cp_split_completion_mask. fields.
    rewrite !getf_small by (unfold is_uN; lia). reflexivity.
Qed.

(** ** A whole control transfer *)

(** The loads of a page that [m'] has like [m]. *)
Definition same_page (m m' : Mem.mem) (p : Z) : Prop := ∀ x, 4096 * p ≤ x < 4096 * p + 4096 → m' x = m x.
Lemma same_ld m m' p o k : same_page m m' p → 0 ≤ o → o + Z.of_nat k ≤ 4096 → ld m' (4096 * p + o) k = ld m (4096 * p + o) k.
Proof. intros H Ho Hk. unfold ld. f_equal. apply bytes_at_ext. intros x Hx. apply H. lia. Qed.

(** What the controller has to perform for a request: the setup, the data if there are any, and the status, in
    the other direction. *)
Definition transfer (request_at buffer_at bmRequestType wLength : Z) : list td :=
  let is_in := Z.testbit bmRequestType 7 in
  mkTd SETUP 8 0 0x80 request_at ::
  (if wLength =? 0 then [] else [mkTd (if is_in then PID_IN else PID_OUT) wLength 1 0x80 buffer_at]) ++
  [mkTd (if (wLength =? 0) || negb is_in then PID_IN else PID_OUT) 0 1 0x80 0].

Section Build.
Context (pml4 : Z).

(** Two fresh descriptors, the first one filled for the request at byte [ro] of page [rq]. *)
Lemma setup_Ok s rq ro : good pml4 s → taken s rq → 0 ≤ ro < 4089 →
  ehci_alloc s = Fatal "PMM failed to allocate" ∨ ∃ su s1, ehci_alloc s = Ok (page_at su 0, s1) ∧
  (ehci_alloc s1 = Fatal "PMM failed to allocate" ∨ ∃ st s2, ehci_alloc s1 = Ok (page_at st 0, s2) ∧
    let m := fill_token (page_at su 0) SETUP 8 0 0 (set_fields (page_at su 0 + 4) [((0, 1), 1)] (set_buffers (page_at su 0) (4096 * rq + ro) (eram s2))) in
    good pml4 s2 ∧ kept s s2 ∧ ¬ taken s su ∧ ¬ taken s st ∧ taken s2 su ∧ taken s2 st ∧ su ≠ st ∧ (∀ q, taken s q → same_page (eram s) (eram s2) q) ∧
    bytes m ∧ only (4096 * su + 4) 60 (eram s2) m ∧ td_at m (4096 * su) = mkTd SETUP 8 0 0x80 (4096 * rq + ro) ∧ ld m (4096 * st + 12) 4 = 0).
Proof.
  intros Hg Trq Hro. destruct (alloc_page pml4 s Hg) as [->|(su & s1 & -> & Hg1 & Nsu & Tsu & Hm1 & Hr1 & Hh1 & Ha1)]; [by left|].
  right. exists su, s1. split; [done|]. destruct (alloc_page pml4 s1 Hg1) as [->|(st & s2 & -> & Hg2 & Nst & Tst & Hm2 & Hr2 & Hh2 & Ha2)]; [by left|].
  right. exists st, s2. split; [done|]. cbn zeta. pose proof (taken_low _ _ _ Hg Trq) as Lrq. pose proof (taken_low _ _ _ Hg1 Tsu) as Lsu.
  pose proof (taken_ne s1 su st Tsu Nst) as Hne.
  destruct (fill_setup (eram s2) su (4096 * rq + ro)) as (B & O & T); [apply Hg2|done|unfold is_uN; lia|]. set (m := fill_token _ _ _ _ _ _) in *. clearbody m.
  split; [done|]. split; [split_and!; [auto|congruence|congruence]|]. split; [done|]. split; [by intros ?%Hm1|]. split; [by apply Hm2|]. split; [done|]. split; [done|]. split.
  { intros q Hq x Hx. pose proof (taken_ne s q su Hq Nsu). pose proof (taken_ne s1 q st (Hm1 _ Hq) Nst).
    rewrite Hr2, bool_decide_eq_false_2, Hr1, bool_decide_eq_false_2 by lia. done. }
  split; [done|]. split; [done|]. split; [done|].
  rewrite (ld_keep _ _ _ _ _ _ O) by (pose proof (taken_low _ _ _ Hg2 Tst); lia).
  unfold ld. replace (bytes_at (eram s2) (4096 * st + 12) 4) with [0; 0; 0; 0]; [done|].
  unfold bytes_at. cbn [map seq]. by rewrite !Hr2, !bool_decide_eq_true_2 by lia.
Qed.
(** The queue head at the front of the ring. *)
Lemma queue_Ok s su d endp h l (sta : Z) : good pml4 s → taken s su → head s = page_at h 0 → taken s h → Forall (taken s) l → h ∉ l →
  ring (eram s) (4096 * h) (4096 * h) (map (Z.mul 4096) l) → 0 ≤ addr d < 128 → 0 ≤ endp < 16 → 0 ≤ mps d < 2048 →
  let r := '(qh, s) ← ehci_alloc s;
    q ← elookup pml4 (page_at su 0) s;
    let s := with_eram s (set_word (qh + 16) q (set_word (qh + 12) 0 (eram s))) in
    let m := set_fields (qh + 8) [(cp_high_bw_pipe_multiplier, 1); (cp_int_sched_mask, 0); (cp_split_completion_mask, 0); (cp_hub_addr, 0); (cp_port_num, 0)] (eram s) in
    let m := set_fields (qh + 4) [(ec_endpoint_speed, 2); (ec_ctl_endpoint, 0); (ec_endpoint, endp); (ec_addr, addr d); (ec_data_toggle_ctl, 1);
      (ec_inactive_on_success, 0); (ec_mps, mps d); (ec_nak_reload_counter, 4)] m in
    s ← insert_qh pml4 qh (with_eram s m); Ok (sta, qh, s) in
  r = Fatal "PMM failed to allocate" ∨ ∃ q s', r = Ok (sta, page_at q 0, s') ∧ good pml4 s' ∧ kept s s' ∧ ¬ taken s q ∧ taken s' q ∧
    ring (eram s') (4096 * h) (4096 * h) (map (Z.mul 4096) (q :: l)) ∧ qh_at (eram s') (4096 * q) = mkQhv (addr d) endp 2 1 (mps d) 0 0 (4096 * su) ∧
    (∀ p, taken s p → p ≠ h → same_page (eram s) (eram s') p).
Proof.
  intros Hg Tsu Hh Th Tl Hhl Hr H1 H2 H3. cbn zeta. pose proof (taken_low _ _ _ Hg Tsu) as Lsu. pose proof (taken_low _ _ _ Hg Th) as Lh.
  destruct (alloc_page pml4 s Hg) as [->|(q & s1 & -> & Hg1 & Nq & Tq & Hm1 & Hr1 & Hh1 & Ha1)]; [by left|]. right. cbn [mbind res_bind].
  pose proof (taken_low _ _ _ Hg1 Tq) as Lq. rewrite (elookup_page pml4 s1 su 0) by (auto || lia). cbn [mbind res_bind eram with_eram]. rewrite Z.add_0_r.
  destruct (fill_qh_spec (eram s1) q (4096 * su) (addr d) endp (mps d)) as (B & O & Q); [apply Hg1|done|unfold is_uN; lia|done..|].
  set (m := set_fields (page_at q 0 + 4) _ _) in *. clearbody m.
  assert (∀ y, y ∈ h :: l → taken s y) as Tall by (apply Forall_forall; by constructor).
  assert (∀ y, y ∈ h :: l → y ≠ q) as Nall by (intros y Hy; exact (taken_ne s y q (Tall y Hy) Nq)).
  destruct (insert_ring pml4 (with_eram (with_eram s1 (set_word (page_at q 0 + 16) (4096 * su) (set_word (page_at q 0 + 12) 0 (eram s1)))) m) h q l) as (s' & -> & Hg' & Ep & Eh & Ea & Hring & Hk); cbn [eram with_eram head].
  - apply good_ram; [apply good_ram; [done|repeat apply set_word_bytes; apply Hg1]|done].
  - by rewrite Hh1.
  - by apply Hm1.
  - done.
  - eapply Forall_impl; [exact Tl|]. apply Hm1.
  - intros ->. apply (Nall h); [left|done].
  - intros Hy. apply (Nall q); [by right|done].
  - done.
  - eapply ring_keep; [|exact Hr]. intros z0 Hx. assert (∃ y, z0 = 4096 * y ∧ y ∈ h :: l) as (y & -> & Hy).
    { destruct Hx as [->|Hx]; [exists h; split; [done|left]|]. apply list_elem_of_In, in_map_iff in Hx as (z & <- & Hz%list_elem_of_In). exists z. split; [done|by right]. }
    pose proof (Nall y Hy). pose proof (taken_low _ _ _ Hg (Tall y Hy)). rewrite (ld_keep _ _ _ _ _ _ O) by lia. unfold ld. f_equal. apply bytes_at_ext. intros z Hz.
    by rewrite Hr1, bool_decide_eq_false_2 by lia.
  - exists q, s'. assert (q ≠ h) by (intros ->; by apply (Nall h); [left|]). cbn [mbind res_bind]. split; [done|]. split; [done|]. split; [|split; [done|split; [|split; [done|split]]]].
    + split_and!; [|by rewrite Eh|by rewrite Ea]. intros p Hp. unfold taken. rewrite Ep. by apply Hm1.
    + unfold taken. by rewrite Ep.
    + rewrite <- Q. unfold qh_at. cbn [eram with_eram] in Hk.
      assert (∀ o, 4 ≤ o < 64 → ld (eram s') (4096 * q + o) 4 = ld m (4096 * q + o) 4) as E.
      { intros o Ho. unfold ld. f_equal. apply bytes_at_ext. intros x Hx. apply Hk; lia. }
      by rewrite !E by lia.
    + intros p Hp Hph x Hx. pose proof (taken_ne s p q Hp Nq). cbn [eram with_eram] in Hk. rewrite Hk, O, Hr1, bool_decide_eq_false_2 by lia. done.
Qed.

Lemma same_agree m m' p : same_page m m' p → agree m m' p.
Proof. intros H x Hx. apply H. lia. Qed.
Lemma route_hs devs d : speed d = HS → route devs d = Ok (0, 0, 2).
Proof. intros Hd. unfold route. rewrite Hd. by destruct (uparent d). Qed.

(** C15: [ehci_send] to a high-speed device, for a request of no more data than a packet holds: unless the memory is
    exhausted, a fresh queue head for the device's address, endpoint and packet size stands behind the head of the
    ring with the others behind it, and what the controller finds on following it is the setup of 8 bytes from the
    request, the data (when there are any) of exactly the request's length to or from the buffer, and the status
    stage in the other direction. *)
Theorem ehci_control_transfer devs d endp rq ro bp bo h l s : good pml4 s → head s = page_at h 0 → taken s h → Forall (taken s) l → h ∉ l →
  ring (eram s) (4096 * h) (4096 * h) (map (Z.mul 4096) l) →
  speed d = HS → 0 ≤ addr d < 128 → 0 ≤ endp < 16 → 0 < mps d < 2048 →
  taken s rq → 0 ≤ ro < 4089 → taken s bp → 0 ≤ bo < 4096 →
  let bmRequestType := ld (eram s) (4096 * rq + ro) 1 in let wLength := ld (eram s) (4096 * rq + ro + 6) 2 in
  wLength ≤ mps d →
  let r := ehci_build pml4 devs d endp (page_at rq ro) (page_at bp bo) s in
  r = Fatal "PMM failed to allocate" ∨ ∃ st q s', r = Ok (page_at st 0, page_at q 0, s') ∧ good pml4 s' ∧ kept s s' ∧ ¬ taken s st ∧ ¬ taken s q ∧
    ring (eram s') (4096 * h) (4096 * h) (map (Z.mul 4096) (q :: l)) ∧
    qh_at (eram s') (4096 * q) = mkQhv (addr d) endp 2 1 (mps d) 0 0 (q_next (qh_at (eram s') (4096 * q))) ∧
    tds 4 (eram s') (q_next (qh_at (eram s') (4096 * q))) = transfer (4096 * rq + ro) (4096 * bp + bo) bmRequestType wLength.
Proof.
  intros Hg Hh Th Tl Hhl Hr Hsp H1 H2 H3 Trq Hro Tbp Hbo rt w Hw. cbn zeta. unfold ehci_build. rewrite (route_hs devs d Hsp).
  destruct (setup_Ok s rq ro Hg Trq Hro) as [->|(su & s1 & -> & Hs)]; [by left|]. cbn [mbind res_bind]. destruct Hs as [->|(st & s2 & -> & Hs)]; [by left|].
  cbn [mbind res_bind]. destruct Hs as (Hg2 & K2 & Nsu & Nst & Tsu & Tst & Hne & P2 & B3 & O3 & T3 & Z3). set (m3 := fill_token _ _ _ _ _ _) in *.
  pose proof (taken_low _ _ _ Hg Trq) as Lrq. pose proof (taken_low _ _ _ Hg2 Tsu) as Lsu. pose proof (taken_low _ _ _ Hg2 Tst) as Lst.
  rewrite phys_page by lia. rewrite <- !Z.add_assoc, !(same_ld _ _ _ _ _ (P2 rq Trq)), !Z.add_assoc by lia. fold rt w.
  assert (0 ≤ w) as W0 by (unfold w; pose proof (ld_range (eram s) (4096 * rq + ro + 6) 2 ltac:(apply Hg)); lia). clearbody rt w.
  destruct K2 as (M2 & Hh2 & Ha2). rewrite (elookup_page pml4 s2 rq ro) by (auto || lia). cbn [mbind res_bind eram with_eram]. fold m3. clearbody m3.
  rewrite (proj2 (Z.eqb_neq (mps d) 0)) by lia. rewrite <- res_bind_assoc.
  set (s3 := with_eram s2 m3) in *. assert (good pml4 s3) as Hg3 by by apply good_ram.
  destruct (stages_Ok pml4 s3 su st (page_at bp bo) (if Z.testbit rt 7 then PID_IN else PID_OUT) w (mps d) (mkTd SETUP 8 0 128 (4096 * rq + ro)) bp bo Hg3 Tsu Tst Hne) as [E|(x & s4 & l1 & E & Hg4 & K4 & S4 & F4 & V4 & A4)];
    [by destruct (Z.testbit rt 7)|lia|lia|intros _; exact (conj eq_refl (conj (M2 _ Tbp) Hbo))|exact T3|cbn zeta in E; change (eram s3) with m3 in E; rewrite E; by left|]. cbn zeta in E. change (eram s3) with m3 in E. rewrite E. clear E. cbn [mbind res_bind].
  set (pid := if (if w =? 0 then 0 else _) =? 0 then PID_IN else _).
  assert (pid = if (w =? 0) || negb (Z.testbit rt 7) then PID_IN else PID_OUT) as Hpid.
  { unfold pid. destruct (Z.eqb_spec w 0); [done|]. rewrite (proj2 (Z.eqb_neq (w `max` mps d) 0)) by lia. by destruct (Z.testbit rt 7). }
  destruct K4 as (M4 & Hh4 & Ha4).
  assert (Forall (λ y, taken s4 y.1 ∧ y.1 ≠ st ∧ ¬ taken s y.1) ((su, mkTd SETUP 8 0 128 (4096 * rq + ro)) :: l1)) as F.
  { constructor; [by split_and!; [apply M4| |]|]. eapply Forall_impl; [exact F4|]. intros y [Ty Ny]. split; [done|]. split; intros HH; apply Ny; [by rewrite HH|by apply M2]. }
  destruct (status_Ok pml4 s4 su st pid ((su, mkTd SETUP 8 0 128 (4096 * rq + ro)) :: l1) Hg4 (M4 _ Tst)) as (B5 & S5 & O5).
  { rewrite Hpid. by destruct (_ || _). }
  { exact S4. }
  { eapply Forall_impl; [exact F|]. intros y (Ty & Ny & _). split; [done|]. apply (taken_low _ _ _ Hg4 Ty). }
  { by rewrite (agree_ld _ _ _ 12 4 (A4 st Tst ltac:(done)) ltac:(lia) ltac:(lia)). }
  set (m5 := fill_token _ _ _ _ _ _) in *. clearbody m5. set (s5 := with_eram s4 m5) in *. assert (good pml4 s5) as Hg5 by by apply good_ram.
  assert (∀ y, taken s y → agree (eram s) (eram s5) y) as P5.
  { intros y Hy. pose proof (taken_low _ _ _ Hg Hy). assert (y ≠ su) by (intros ->; done). assert (y ≠ st) by (intros ->; done).
    eapply agree_trans; [apply same_agree, P2, Hy|]. eapply agree_trans; [eapply agree_only; [exact O3|lia]|].
    eapply agree_trans; [apply A4; [by apply M2|done]|]. eapply agree_only; [exact O5|lia]. }
  destruct (queue_Ok s5 su d endp h l (page_at st 0) Hg5) as [E|(q & s6 & E & Hg6 & K6 & Nq & Tq & R6 & Q6 & P6)]; cbn zeta in *.
  { by apply M4. } { etransitivity; [exact Hh4|]. etransitivity; [exact Hh2|exact Hh]. } { by apply M4, M2. } { eapply Forall_impl; [exact Tl|]. intros; by apply M4, M2. } { done. }
  { eapply ring_keep; [|exact Hr]. intros y [->|Hy]; [by apply agree_link, P5|].
    apply list_elem_of_In, in_map_iff in Hy as (z & <- & Hz%list_elem_of_In). apply agree_link, P5. exact (proj1 (Forall_forall _ _) Tl z Hz). }
  { done. } { done. } { lia. } { left. exact E. }
  right. exists st, q, s6. split; [exact E|]. split; [done|]. split; [split_and!; [intros; by apply K6, M4, M2|exact (eq_trans (proj1 (proj2 K6)) (eq_trans Hh4 Hh2))|exact (eq_trans (proj2 (proj2 K6)) (eq_trans Ha4 Ha2))]|].
  split; [done|]. split; [by intros ?%M2%M4|]. split; [done|]. rewrite Q6. split; [done|]. cbn [q_next].
  assert (seg (eram s6) (4096 * su) (((su, mkTd SETUP 8 0 128 (4096 * rq + ro)) :: l1) ++ [(st, mkTd pid 0 1 128 0)]) 1) as S6.
  { eapply seg_agree; [|exact S5]. apply Forall_app. split.
    - eapply Forall_impl; [exact F|]. intros y (Ty & _ & Ny). apply same_agree, P6; [done|]. intros HH. apply Ny. by rewrite HH.
    - constructor; [|constructor]. cbn [fst]. apply same_agree, P6; [by apply M4|by intros ->]. }
  assert (∃ k, 4 = length (((su, mkTd SETUP 8 0 128 (4096 * rq + ro)) :: l1) ++ [(st, mkTd pid 0 1 128 0)]) + S k)%nat as [k Hk].
  { rewrite length_app. cbn [length]. apply (f_equal length) in V4. rewrite length_map in V4. destruct (w =? 0); cbn [length] in V4; [exists 1%nat|exists 0%nat]; lia. }
  rewrite Hk, (seg_tds _ _ _ _ _ S6). cbn [tds Z.testbit Z.odd]. rewrite map_app. cbn [map snd]. rewrite V4, app_nil_r, Hpid. reflexivity.
Qed.
End Build.

(** *** A machine *)

Definition demo_direct : paging := match map_page boot_tables root0 HHDM 0 (Z.lor KDATA s2M) WB with Ok s => s | _ => boot_tables end.
(** The head of the empty ring on page 0, a request for [n] bytes of a descriptor on page 2. *)
Definition demo_request (n : Z) : list Z := [0x80; 6; 0; 1; 0; 0; n; 0].
Definition demo_ehci (n : Z) : ehci :=
  mkEhci (λ _ _, 0) 0x20 (λ x, if x =? 0 then 2 else if bool_decide (0x2000 ≤ x < 0x2008) then u8 (default 0 (zlookup (demo_request n) (x - 0x2000))) else 0)
    demo_direct (mkTimers 0 0) (page_at 0 0) (mkBitmap [1; 0] 128).
Definition demo_dev (m : Z) : usbdev := mkUsbDev None 0 0 0 [] [] [] m 0 5 0 HS.

Lemma demo_direct_map a : 0 ≤ a < 0x80000 → paging_lookup demo_direct root0 (VIRTUAL a) = Ok a.
Proof.
  intros Ha. assert (∃ s, map_page boot_tables root0 HHDM 0 (Z.lor KDATA s2M) WB = Ok s) as [s Es].
  { assert (is_Ok (map_page boot_tables root0 HHDM 0 (Z.lor KDATA s2M) WB) = true) as Hi by (vm_compute; reflexivity).
    destruct (map_page boot_tables root0 HHDM 0 (Z.lor KDATA s2M) WB) as [s| | | |]; try done. by exists s. }
  unfold demo_direct. rewrite Es.
  destruct (map_page_2m boot_tables root0 _ _ HHDM 0 (Z.lor KDATA s2M) WB boot_tree ltac:(unfold is_uN, HHDM; lia) ltac:(lia) eq_refl eq_refl eq_refl (boot_clear _))
    as [E|(s' & path & E & _ & Hl & _)]; rewrite Es in E; [done|]. injection E as <-. rewrite VIRTUAL_add by lia. rewrite Hl.
  - f_equal. change (page_of 21 0) with 0. change HHDM with (2 ^ 21 * (HHDM / 2 ^ 21)). rewrite Z.add_0_l, Z.mul_comm, Z.mod_add by lia. apply Z.mod_small. lia.
  - unfold ixs. cbn [take]. unfold ADDR_PML4I, ADDR_PDPI, ADDR_PDI.
    assert (∀ k, 21 ≤ k ≤ 39 → Z.shiftr (a + HHDM) k = Z.shiftr HHDM k) as Hs; [|by rewrite !Hs by lia].
    intros k Hk. assert (0 < 2 ^ k) by (apply Z.pow_pos_nonneg; lia). pose proof (Z.pow_le_mono_r 2 21 k ltac:(lia) ltac:(lia)).
    assert (HHDM = HHDM / 2 ^ 39 * 2 ^ (39 - k) * 2 ^ k) as Hh by (rewrite <- Z.mul_assoc, <- Z.pow_add_r by lia; replace (39 - k + k) with 39 by lia; reflexivity).
    rewrite !Z.shiftr_div_pow2 by lia. rewrite Hh, Z.div_add, Z.div_mul, Z.div_small by lia. lia.
Qed.

Lemma demo_bitmap n : pmm_bm (mem (epg (demo_ehci n))) = mkBitmap [5; 0] 128 ∧ pmm_mutex (mem (epg (demo_ehci n))) = 0.
Proof. vm_compute. split; reflexivity. Qed.
Lemma demo_good n : good root0 (demo_ehci n).
Proof.
  destruct (demo_bitmap n) as [Eb Em]. split.
  - split; [|by rewrite Eb|exact Em]. rewrite Eb. split; cbn; [|unfold NPOS; lia|lia]. repeat constructor; unfold is_uN; lia.
  - rewrite Eb. cbn. lia.
  - intros a Ha. rewrite Eb in Ha. cbn in Ha. apply demo_direct_map. lia.
  - intros x. cbn [eram demo_ehci]. destruct (x =? 0); [unfold is_uN; lia|]. case_bool_decide; [by apply uN_range|unfold is_uN; lia].
Qed.
Lemma demo_taken n p : p = 0 ∨ p = 2 → taken (demo_ehci n) p.
Proof. unfold taken. destruct (demo_bitmap n) as [-> _]. intros [->| ->]; (split; [cbn; lia|reflexivity]). Qed.

Lemma ehci_control_transfer_witness : ∃ st q s', ehci_build root0 [] (demo_dev 64) 0 (page_at 2 0) (page_at 2 64) (demo_ehci 18) = Ok (st, page_at q 0, s') ∧
  tds 4 (eram s') (q_next (qh_at (eram s') (4096 * q))) = [mkTd SETUP 8 0 0x80 0x2000; mkTd PID_IN 18 1 0x80 0x2040; mkTd PID_OUT 0 1 0x80 0].
Proof.
  destruct (ehci_control_transfer root0 [] (demo_dev 64) 0 2 0 2 64 0 [] (demo_ehci 18)) as [E|(st & q & s' & E & _ & _ & _ & _ & _ & _ & Ht)].
  - apply demo_good.
  - reflexivity.
  - apply demo_taken. by left.
  - constructor.
  - apply not_elem_of_nil.
  - vm_compute. reflexivity.
  - reflexivity.
  - cbn. lia.
  - lia.
  - cbn. lia.
  - apply demo_taken. by right.
  - lia.
  - apply demo_taken. by right.
  - lia.
  - vm_compute. discriminate.
  - exfalso. assert (is_Ok (ehci_build root0 [] (demo_dev 64) 0 (page_at 2 0) (page_at 2 64) (demo_ehci 18)) = true) as Hi by (vm_compute; reflexivity).
    rewrite E in Hi. discriminate.
  - exists (page_at st 0), q, s'. split; [exact E|]. rewrite Ht. vm_compute. reflexivity.
Defined.

(** ** Longer requests *)

(** 18 bytes in packets of 8: the loop makes three descriptors, but the last one is linked from nowhere, and all
    have the first byte of the buffer: the controller fetches 16 bytes, the last 8 over the first 8. *)
Example long_transfer_short :
  (λ r, match r with Ok (_, q, s) => tds 9 (eram s) (q_next (qh_at (eram s) (PHYSICAL q))) | _ => [] end)
    (ehci_build root0 [] (demo_dev 8) 0 (page_at 2 0) (page_at 2 64) (demo_ehci 18)) =
  [mkTd SETUP 8 0 0x80 0x2000; mkTd PID_IN 8 1 0x80 0x2040; mkTd PID_IN 8 0 0x80 0x2040; mkTd PID_OUT 0 1 0x80 0].
Proof. vm_compute. reflexivity. Qed.

(** ** Addresses *)

(** [ehci_make_address] gives an address nobody has and keeps it, or 255 once all 127 are taken: what the core
    relies on ([HciLaws]). *)
Lemma make_address_fresh s : wf (addresses s) → sz (addresses s) = 128 → bit (addresses s) 0 = true →
  ∃ a s', ehci_make_address s = Ok (a, s') ∧ wf (addresses s') ∧ sz (addresses s') = 128 ∧ (∀ b, 0 ≤ b → bit (addresses s) b = true → bit (addresses s') b = true) ∧
    ((0 < a < 128 ∧ bit (addresses s) a = false ∧ bit (addresses s') a = true) ∨ (a = 255 ∧ ∀ b, 0 ≤ b < 128 → bit (addresses s) b = true)).
Proof.
  intros Hw Hs H0. unfold ehci_make_address, find_and_set. destruct (find_and_set_multiple_Ok (addresses s) 1 0 Hw) as ([c b] & -> & Hr); [lia..|].
  cbn [mbind res_bind]. eexists _, _. split; [reflexivity|]. cbn [addresses with_addresses]. rewrite Hs in Hr.
  assert (first_fit (addresses s) 0 128 1 (c, b)) as Hf.
  { destruct Hr as [[_ H]|[Hn [(x & y & _ & H1 & H2 & _)|[E _]]]]; [exact H|lia|]. right. by split. }
  destruct Hf as [(x & y & [= <- <-] & H1 & H2 & Hfree & _ & [W S _ B])|[[= -> ->] Hno]].
  - assert (bit (addresses s) c = false) as Hc by (apply Hfree; lia). assert (c ≠ 0) by congruence. change (u8 c) with (uN 8 c). rewrite uN_small by (unfold is_uN; lia).
    split; [done|]. split; [congruence|]. split; [|left; split; [lia|split; [done|]]].
    + intros k Hk0 Hk. rewrite B by lia. by rewrite Hk, orb_true_r.
    + rewrite B by lia. by rewrite bool_decide_eq_true_2 by lia.
  - split; [done|]. split; [done|]. split; [done|]. right. split; [reflexivity|]. intros k Hk. destruct (bit (addresses s) k) eqn:E; [done|].
    exfalso. apply (Hno k); [lia..|]. intros j Hj. by replace j with k by lia.
Qed.
