(* ===== verification/Containers.v ===== *)
(** The small templates: [Array], [Opt], [Span], [Pair] and the iterator of [util/storage.hh],
    [variant] ([util/variant.hh]) over [index_of] ([util/helpers.hh]), and [unique_ptr]
    ([util/smartptrs.hh]).  A cell of an array holds [None] when its element was destroyed; an owning
    pointer is the number of the object it owns in a store of objects. *)
From S2P Require Import Prelude.

(** ** Array *)

(** [T data[S]] *)
Abbreviation Array A := (list (option A)).

Section Array.
Context {A : Type} (n : nat) (dflt : A).
Abbreviation arr := (list (option A)).

Definition arr_rd (a : arr) (i : Z) : res A := c ← deref (zlookup a i); deref c.
Definition arr_wr (i : Z) (x : A) (a : arr) : res arr := deref (zlookup a i);; Ok (zinsert a i (Some x)).
Definition arr_destroy (i : Z) (a : arr) : res arr := deref (zlookup a i);; Ok (zinsert a i None).

(** [operator[]]: the check lets [S] through. *)
Definition arr_at (a : arr) (idx : Z) : res A :=
  if Z.of_nat n <? idx then Fatal "array<> access out of bounds!" else arr_rd a idx.

(** [Array(std::initializer_list<T>)] *)
Definition Array_of (items : list A) : res arr :=
  assert_ (zlen items <=? Z.of_nat n) "items.__size_ <= size";;
  for_rounds (λ i a, x ← deref (zlookup items i); arr_wr i x a) 0 1 (length items) (replicate n (Some dflt)).
(** [Array(const Array&)]: the elements that were just made are destroyed, and copies take their place. *)
Definition destroy_each (a : arr) : res arr := for_rounds arr_destroy 0 1 n a.
Definition copy_each (o : arr) (a : arr) : res arr := for_rounds (λ i a, x ← arr_at o i; arr_wr i x a) 0 1 n a.
Definition Array_copy (o : arr) : res arr := a ← destroy_each (replicate n (Some dflt)); copy_each o a.
(** [operator=]; [None]: the array is assigned to itself, and the source is what is left of it. *)
Definition Array_assign (a : arr) (o : option arr) : res arr :=
  a ← destroy_each a;
  match o with
  | Some o => copy_each o a
  | None => for_rounds (λ i a, x ← arr_at a i; arr_wr i x a) 0 1 n a
  end.
Definition Array_destroy (a : arr) : res arr := destroy_each a.
(** [operator==] *)
Fixpoint arr_eq_loop (eqb : A → A → bool) (a o : arr) (i : Z) (k : nat) : res bool :=
  match k with
  | O => Ok true
  | Datatypes.S k => x ← arr_rd a i; y ← arr_rd o i; if negb (eqb x y) then Ok false else arr_eq_loop eqb a o (i + 1) k
  end.
Definition arr_eq (eqb : A → A → bool) (a o : arr) : res bool := arr_eq_loop eqb a o 0 n.
End Array.

(** ** Opt *)

(** [storage] is what the union holds besides the dummy. *)
Record Opt (A : Type) := mkOpt { storage : option A; present : bool }.
Arguments mkOpt {_} _ _.
Arguments storage {_} _.
Arguments present {_} _.
Definition Opt_some {A} (x : A) : Opt A := mkOpt (Some x) true.
Definition Opt_none {A} : Opt A := mkOpt None false.
Definition expect {A} (o : Opt A) (error : string) : res A :=
  if present o then deref (storage o) else Fatal ("Optional not present: " ++ error).
(** [emplace_back] assigns: the old element must be there unless assigning over raw storage is harmless for the type. *)
Definition Opt_emplace {A} (trivial : bool) (x : A) (o : Opt A) : res (Opt A) :=
  if trivial || bool_decide (is_Some (storage o)) then Ok (mkOpt (Some x) true) else Fault.
(** [~Opt] *)
Definition Opt_destroy {A} (o : Opt A) : res (Opt A) := if present o then deref (storage o);; Ok (mkOpt None true) else Ok o.

(** ** Iterators and spans *)

(** A place in a buffer. *)
Definition iter := Z.
Definition iter_inc (i : iter) : iter := i + 1.
Definition iter_dec (i : iter) : iter := i - 1.
Definition iter_plus (i : iter) (n : Z) : iter := i + n.
Definition iter_minus (i : iter) (n : Z) : iter := i + n.
Definition iter_add (i : iter) (n : Z) : iter := i + n.
Definition iter_sub (i : iter) (n : Z) : iter := i - n.

Record Span := mkSpan { first : Z; size : Z }.
Section Span.
Context {A : Type} (buf : list A).
Definition Span_at (s : Span) (idx : Z) : res A := assert_ (idx <? size s) "idx < size";; deref (zlookup buf (first s + idx)).
Definition Span_begin (s : Span) : iter := first s.
Definition Span_end (s : Span) : iter := first s + size s.
(** [for (auto& e : span)] *)
Fixpoint iterate (fuel : nat) (i e : iter) : res (list A) :=
  match fuel with
  | O => NoFuel
  | S fuel => if i =? e then Ok [] else x ← deref (zlookup buf i); l ← iterate fuel (iter_inc i) e; Ok (x :: l)
  end.
End Span.
(** [Span(const Array&)] and [Span(const Vector&)]: all of it. *)
Definition Span_all {A} (buf : list A) : Span := mkSpan 0 (zlen buf).

(** ** variant *)

Section Variant.
(** The types are told apart by [kind]; [ts] are the alternatives in order. *)
Context {V : Type} (kind : V → nat) (ts : list nat).

Fixpoint index_of0 (t : nat) (l : list nat) : Z :=
  match l with [] => 0 | f :: l => if bool_decide (t = f) then 0 else u64 (1 + index_of0 t l) end.
Definition index_of (t : nat) : Z := if index_of0 t ts =? zlen ts then u64 (-1) else index_of0 t ts.

Definition inv : Z := u8 (-1).
Record variant := mkVariant { active : Z; value : option V }.
Definition variant_empty : variant := mkVariant inv None.
(** [variant(bool, T&&)]: [active] has eight bits when it is compared. *)
Definition variant_of (x : V) : res variant :=
  let a := u8 (index_of (kind x)) in
  assert_ (negb (a =? u64 (-1))) "active != -1ull";; Ok (mkVariant a (Some x)).
Definition variant_emplace (x : V) (v : variant) : res variant :=
  if negb (active v =? inv) then Fatal "variant already has an active element!" else Ok (mkVariant (u8 (index_of (kind x))) (Some x)).
Definition variant_get (t : nat) (v : variant) : res V :=
  if active v =? inv then Fatal "variant has no active element!"
  else if negb (index_of t =? active v) then Fatal "Type mismatch!"
  else x ← deref (value v); if bool_decide (kind x = t) then Ok x else Fault.
(** [destroy]: the destructor of the active alternative. *)
Definition variant_destroy (v : variant) : res variant :=
  if active v =? inv then Ok v
  else t ← deref (zlookup ts (active v)); x ← deref (value v); if bool_decide (kind x = t) then Ok (mkVariant inv None) else Fault.
End Variant.

(** ** unique_ptr *)

Section Unique.
Context {A : Type}.

(** The live objects, the next number, and the pointers in scope. *)
Record owners := mkOwners { objs : gmap nat A; fresh : nat; ptrs : list (option nat) }.
Definition new_ (x : A) (s : owners) : nat * owners := (fresh s, mkOwners (<[fresh s := x]> (objs s)) (Datatypes.S (fresh s)) (ptrs s)).
(** [delete]: nothing for null, and only a live object once. *)
Definition delete_ (p : option nat) (s : owners) : res owners :=
  match p with
  | None => Ok s
  | Some n => deref (objs s !! n);; Ok (mkOwners (delete n (objs s)) (fresh s) (ptrs s))
  end.
Definition set_ptr (i : nat) (p : option nat) (s : owners) : owners := mkOwners (objs s) (fresh s) (<[i := p]> (ptrs s)).

Inductive uop := Make (x : A) | MoveNew (o : nat) | MoveAssign (i o : nat) | Deref (i : nat) | Destroy (i : nat).
Definition uptr_op (o : uop) (s : owners) : res owners :=
  match o with
  | Make x => let '(n, s) := new_ x s in Ok (mkOwners (objs s) (fresh s) (ptrs s ++ [Some n]))
  | MoveNew j => p ← deref (ptrs s !! j); let s := set_ptr j None s in Ok (mkOwners (objs s) (fresh s) (ptrs s ++ [p]))
  | MoveAssign i j =>
      p ← deref (ptrs s !! i); deref (ptrs s !! j);;
      s ← delete_ p s; q ← deref (ptrs s !! j);
      Ok (set_ptr j None (set_ptr i q s))
  | Deref i => p ← deref (ptrs s !! i); n ← deref p; deref (objs s !! n);; Ok s
  | Destroy i => p ← deref (ptrs s !! i); s ← delete_ p s; Ok (mkOwners (objs s) (fresh s) (delete i (ptrs s)))
  end.
Fixpoint uptr_run (l : list uop) (s : owners) : res owners :=
  match l with [] => Ok s | o :: l => s ← uptr_op o s; uptr_run l s end.
Definition no_owners : owners := mkOwners ∅ 0 [].
End Unique.
Arguments uop : clear implicits.
Arguments owners : clear implicits.

(** ** Properties of arrays *)

Section ArrayLaws.
Context {A : Type} (n : nat) (dflt : A).
Implicit Types a o : Array A.

(** All elements there. *)
Definition arr_repr a (l : list A) : Prop := a = map Some l ∧ length l = n.
Lemma zlookup_somes (l : list A) i : zlookup (map Some l) i = Some <$> zlookup l i.
Proof. unfold zlookup. destruct (0 <=? i); [apply list_lookup_fmap|done]. Qed.
Lemma repr_rd a l i : arr_repr a l → arr_rd a i = deref (zlookup l i).
Proof. intros [-> _]. unfold arr_rd. rewrite zlookup_somes. by destruct (zlookup l i). Qed.

(** The first [i] cells of [l], the others as before. *)
Definition upto (l : list (option A)) (a0 a : Array A) (i : Z) : Prop :=
  length a = n ∧ ∀ j, 0 ≤ j < Z.of_nat n → zlookup a j = if j <? i then zlookup l j else zlookup a0 j.
Lemma upto_wr l a0 a i c : upto l a0 a i → 0 ≤ i < Z.of_nat n → zlookup l i = Some c → upto l a0 (zinsert a i c) (i + 1).
Proof.
  intros [Hl H] Hi Hc. split; [by rewrite zinsert_length|]. intros j Hj. rewrite zlookup_zinsert by (rewrite Hl; exact Hi).
  destruct (Z.eqb_spec i j) as [<-|Hn]; [by rewrite (proj2 (Z.ltb_lt _ _)) by lia|]. rewrite H by done. destruct (Z.ltb_spec j i), (Z.ltb_spec j (i + 1)); try done; lia.
Qed.
Lemma upto_all l a0 a : length l = n → upto l a0 a (Z.of_nat n) → a = l.
Proof.
  intros Hll [Hl H]. apply list_eq_same_length with n; [done|congruence|]. intros i x y Hi Hx Hy. rewrite <- !zlookup_nat in Hx, Hy.
  rewrite H in Hx by lia. rewrite (proj2 (Z.ltb_lt _ _)) in Hx by lia. congruence.
Qed.
Lemma destroy_each_Ok a : length a = n → destroy_each n a = Ok (replicate n None).
Proof.
  intros Hl. destruct (for_rounds_at arr_destroy (λ i b, upto (replicate n None) a b i) n 0 a) as (b & E & Hb).
  - split; [done|]. intros j Hj. by rewrite (proj2 (Z.ltb_ge _ _)) by lia.
  - intros j b Hj Hb. destruct (zlookup_in b j) as [c Hc]; [destruct Hb as [Hlb _]; rewrite Hlb; lia|]. unfold arr_destroy. rewrite Hc. eexists. split; [done|].
    apply upto_wr; [done|lia|]. rewrite zlookup_Z by lia. apply lookup_replicate. split; [done|lia].
  - unfold destroy_each. rewrite E. f_equal. apply (upto_all _ a); [by rewrite length_replicate|]. exact Hb.
Qed.
Lemma copy_each_Ok o l a : arr_repr o l → length a = n → copy_each n o a = Ok o.
Proof.
  intros Ho Hl. destruct (for_rounds_at (λ i a, x ← arr_at n o i; arr_wr i x a) (λ i b, upto o a b i) n 0 a) as (b & E & Hb).
  - split; [done|]. intros j Hj. by rewrite (proj2 (Z.ltb_ge _ _)) by lia.
  - intros j b Hj Hb. destruct (zlookup_in l j) as [c Hc]; [destruct Ho; lia|]. unfold arr_at. rewrite (proj2 (Z.ltb_ge _ _)) by lia.
    rewrite (repr_rd o l j Ho), Hc. cbn [deref mbind res_bind]. destruct (zlookup_in b j) as [d Hd]; [destruct Hb; lia|].
    unfold arr_wr. rewrite Hd. eexists. split; [done|]. apply upto_wr; [done|lia|]. destruct Ho as [-> _]. by rewrite zlookup_somes, Hc.
  - unfold copy_each. rewrite E. f_equal. apply (upto_all _ a); [|exact Hb]. destruct Ho as [-> H]. by rewrite length_map.
Qed.

(** Copies and assignments give the same elements, whatever was there. *)
Lemma Array_copy_same o l : arr_repr o l → Array_copy n dflt o = Ok o.
Proof.
  intros Ho. unfold Array_copy. rewrite destroy_each_Ok by apply length_replicate. cbn [mbind res_bind]. apply (copy_each_Ok o l); [done|apply length_replicate].
Qed.
Lemma Array_assign_same a o l : length a = n → arr_repr o l → Array_assign n a (Some o) = Ok o.
Proof. intros Ha Ho. unfold Array_assign. rewrite destroy_each_Ok by done. cbn [mbind res_bind]. apply (copy_each_Ok o l); [done|apply length_replicate]. Qed.

(** An initializer list fills the front, the rest keeps the default. *)
Lemma Array_of_fills items : (length items ≤ n)%nat → ∃ a, Array_of n dflt items = Ok a ∧ arr_repr a (items ++ replicate (n - length items) dflt).
Proof.
  intros Hlen. unfold Array_of. rewrite (proj2 (Z.leb_le _ _)) by (lia). cbn [assert_ mbind res_bind].
  destruct (for_rounds_at (λ i a, x ← deref (zlookup items i); arr_wr i x a)
    (λ i b, upto (map Some (items ++ replicate (n - length items) dflt)) (replicate n (Some dflt)) b i) (length items) 0 (replicate n (Some dflt))) as (b & E & Hb).
  - split; [apply length_replicate|]. intros j Hj. by rewrite (proj2 (Z.ltb_ge _ _)) by lia.
  - intros j b Hj Hb. destruct (zlookup_in items j) as [c Hc]; [lia|]. rewrite Hc. cbn [deref mbind res_bind].
    destruct (zlookup_in b j) as [d Hd]; [destruct Hb; lia|]. unfold arr_wr. rewrite Hd. eexists. split; [done|].
    apply upto_wr; [done|lia|]. rewrite zlookup_somes, zlookup_Z, lookup_app_l, <- zlookup_Z, Hc by lia. done.
  - exists b. split; [exact E|]. split; [|rewrite length_app, length_replicate; lia]. destruct Hb as [Hl Hb].
    apply (upto_all _ (replicate n (Some dflt))); [by rewrite length_map, length_app, length_replicate; lia|]. split; [done|]. intros j Hj. rewrite Hb by done.
    rewrite (proj2 (Z.ltb_lt j (Z.of_nat n))) by lia. destruct (Z.ltb_spec j (0 + Z.of_nat (length items))); [done|].
    rewrite zlookup_somes, !zlookup_Z, lookup_app_r by lia. rewrite !lookup_replicate_2 by lia. done.
Qed.

(** Equality of the elements. *)
Lemma arr_eq_decides (eqb : A → A → bool) a o l l' : (∀ x y, eqb x y = true ↔ x = y) → arr_repr a l → arr_repr o l' →
  ∃ b, arr_eq n eqb a o = Ok b ∧ (b = true ↔ l = l').
Proof.
  intros Heq Ha Ho. assert (∀ k i, (i + k = n)%nat → ∃ b, arr_eq_loop eqb a o (Z.of_nat i) k = Ok b ∧ (b = true ↔ drop i l = drop i l')) as Hg.
  { pose proof (proj2 Ha) as La. pose proof (proj2 Ho) as Lo. induction k as [|k IH]; intros i Hi; cbn [arr_eq_loop].
    - exists true. rewrite !drop_ge by lia. done.
    - destruct (lookup_lt_is_Some_2 l i ltac:(lia)) as [x Hx]. destruct (lookup_lt_is_Some_2 l' i ltac:(lia)) as [y Hy].
      rewrite (repr_rd a l _ Ha), (repr_rd o l' _ Ho), !zlookup_nat, Hx, Hy. cbn [deref mbind res_bind]. rewrite (drop_S _ _ _ Hx), (drop_S _ _ _ Hy).
      destruct (eqb x y) eqn:E; cbn [negb].
      + apply Heq in E as ->. replace (Z.of_nat i + 1) with (Z.of_nat (Datatypes.S i)) by lia. destruct (IH (Datatypes.S i) ltac:(lia)) as (b & Eb & Hb).
        exists b. split; [done|]. rewrite Hb. split; [intros ->; reflexivity|intros H; by injection H].
      + exists false. split; [done|]. split; [done|]. intros [= H _]. apply Heq in H. congruence. }
  destruct (Hg n 0%nat ltac:(lia)) as (b & E & Hb). exists b. split; [exact E|]. rewrite !drop_0 in Hb. done.
Qed.
End ArrayLaws.

(** Index [S] passes the check; an array assigned to itself reads elements it has destroyed. *)
Example array_size_faults : arr_at 4 (map Some [1; 2; 3; 4]) 4 = Fault.
Proof. reflexivity. Qed.
Lemma array_self_assign {A} (n : nat) (a : Array A) : (0 < n)%nat → length a = n → Array_assign n a None = Fault.
Proof.
  intros HS Hl. unfold Array_assign. rewrite destroy_each_Ok by done. cbn [mbind res_bind]. destruct n as [|n]; [lia|]. reflexivity.
Qed.
(** [operator-(u64)] goes forward. *)
Lemma iter_minus_forward i n : 0 < n → i < iter_minus i n.
Proof. unfold iter_minus. lia. Qed.

(** ** Properties of variants *)

Section VariantLaws.
Context {V : Type} (kind : V → nat) (ts : list nat).
Context (Hts : zlen ts ≤ 255).

Lemma index_of0_spec t l : zlen l ≤ 255 → (t ∈ l ∧ 0 ≤ index_of0 t l < zlen l ∧ zlookup l (index_of0 t l) = Some t) ∨ ((t ∉ l) ∧ index_of0 t l = zlen l).
Proof.
  induction l as [|f l IH]; intros Hl; cbn [index_of0 length] in *; [right; split; [apply not_elem_of_nil|done]|]. case_bool_decide as E.
  - left. subst. split; [left|]. split; [lia|done].
  - destruct IH as [(Hin & Hr & Hk)|[Hn ->]]; [lia|left|right].
    + rewrite uN_small by (unfold is_uN; lia). split; [by right|]. split; [lia|]. rewrite zlookup_Z in Hk by lia. rewrite zlookup_Z by lia. by replace (Z.to_nat (1 + index_of0 t l)) with (S (Z.to_nat (index_of0 t l))) by lia.
    + rewrite uN_small by (unfold is_uN; lia). split; [by apply not_elem_of_cons|lia].
Qed.
Lemma index_of_in t : t ∈ ts → 0 ≤ index_of ts t < zlen ts ∧ zlookup ts (index_of ts t) = Some t.
Proof using Hts.
  intros Hin. destruct (index_of0_spec t ts Hts) as [(_ & Hr & Hk)|[Hn _]]; [|done]. unfold index_of. by rewrite (proj2 (Z.eqb_neq _ _)) by lia.
Qed.
Lemma index_of_absent t : t ∉ ts → index_of ts t = 2 ^ 64 - 1.
Proof using Hts. intros Hn. destruct (index_of0_spec t ts Hts) as [(Hin & _)|[_ E]]; [done|]. unfold index_of. by rewrite E, Z.eqb_refl. Qed.

(** What was stored is read back as its own type and as no other, and destroying it empties the variant. *)
Lemma variant_holds x : kind x ∈ ts → ∃ v, variant_emplace kind ts x variant_empty = Ok v ∧ variant_get kind ts (kind x) v = Ok x ∧
  (∀ t, t ≠ kind x → variant_get kind ts t v = Fatal "Type mismatch!") ∧ variant_destroy kind ts v = Ok variant_empty ∧
  ∀ y, variant_emplace kind ts y v = Fatal "variant already has an active element!".
Proof using Hts.
  intros Hin. destruct (index_of_in _ Hin) as [Hr Hk]. unfold variant_emplace, variant_get, variant_destroy. cbn [active value variant_empty]. change (inv =? inv) with true.
  cbn [negb]. eexists. split; [reflexivity|]. cbn [active value]. rewrite uN_small by (unfold is_uN; lia). change inv with 255.
  rewrite (proj2 (Z.eqb_neq _ 255)), Z.eqb_refl by lia. cbn [negb deref mbind res_bind]. rewrite bool_decide_eq_true_2 by done. split; [done|]. split; [|split; [|done]].
  - intros t Ht. rewrite (proj2 (Z.eqb_neq _ _)); [done|]. intros E. destruct (decide (t ∈ ts)) as [Ht'|Ht'].
    + destruct (index_of_in _ Ht') as [_ Hk']. rewrite E, Hk in Hk'. congruence.
    + rewrite (index_of_absent _ Ht') in E. lia.
  - rewrite Hk. cbn [deref mbind res_bind]. by rewrite bool_decide_eq_true_2.
Qed.
(** A value of a type that is no alternative gets past the assertion, and the variant calls itself empty. *)
Lemma variant_unlisted x : kind x ∉ ts → ∃ v, variant_of kind ts x = Ok v ∧ value v = Some x ∧ ∀ t, variant_get kind ts t v = Fatal "variant has no active element!".
Proof using Hts.
  intros Hn. unfold variant_of. rewrite (index_of_absent _ Hn). change (u8 (2 ^ 64 - 1)) with 255. cbn. eexists. split; [reflexivity|]. split; [done|]. reflexivity.
Qed.
End VariantLaws.

(** ** Properties of owning pointers *)

Section Owning.
Context {A : Type}.
Implicit Types s : owners A.

(** The pointers own the live objects, each exactly once. *)
Record owned s : Prop := {
  ow_perm : omap id (ptrs s) ≡ₚ elements (dom (objs s));
  ow_fresh : ∀ n, n ∈ dom (objs s) → (n < fresh s)%nat }.

(** The operation names pointers in scope, and only follows one that owns something. *)
Definition in_scope (o : uop A) s : Prop :=
  match o with
  | Make _ => True
  | MoveNew j => is_Some (ptrs s !! j)
  | MoveAssign i j => is_Some (ptrs s !! i) ∧ is_Some (ptrs s !! j)
  | Deref i => ∃ n, ptrs s !! i = Some (Some n)
  | Destroy i => is_Some (ptrs s !! i)
  end.

Lemma own_insert (l : list (option nat)) j p q : l !! j = Some p → option_list p ++ omap id (<[j := q]> l) ≡ₚ option_list q ++ omap id l.
Proof.
  intros Hj. pose proof (lookup_lt_Some _ _ _ Hj) as Hl. rewrite <- (take_drop_middle l j p Hj) at 2. rewrite insert_take_drop by done. rewrite !omap_app. cbn [omap list_omap id].
  destruct p as [p|], q as [q|]; cbn [option_list app]; rewrite <- ?Permutation_middle; try reflexivity. apply Permutation_swap.
Qed.
Lemma own_delete (l : list (option nat)) j p : l !! j = Some p → option_list p ++ omap id (delete j l) ≡ₚ omap id l.
Proof.
  intros Hj. rewrite <- (take_drop_middle l j p Hj) at 2. rewrite delete_take_drop, !omap_app. cbn [omap list_omap id].
  destruct p as [p|]; cbn [option_list app]; [by rewrite <- Permutation_middle|done].
Qed.
Lemma perm_delete (m : gmap nat A) n r : n :: r ≡ₚ elements (dom m) → is_Some (m !! n) ∧ r ≡ₚ elements (dom (delete n m)).
Proof.
  intros H. assert (n ∈ dom m) as Hn by (apply elem_of_elements; rewrite <- H; left). split; [by apply elem_of_dom|].
  apply (Permutation_cons_inv (a := n)). rewrite H, dom_delete_L, <- elements_union_singleton by set_solver.
  assert ({[n]} ∪ dom m ∖ {[n]} = dom m) as ->; [|done]. apply set_eq. intros x. destruct (decide (x = n)); set_solver.
Qed.

Lemma delete_owned p s r : option_list p ++ r ≡ₚ elements (dom (objs s)) →
  ∃ s', delete_ p s = Ok s' ∧ ptrs s' = ptrs s ∧ fresh s' = fresh s ∧ r ≡ₚ elements (dom (objs s')) ∧ dom (objs s') ⊆ dom (objs s).
Proof.
  intros H. destruct p as [n|]; cbn [option_list app delete_] in *; [|by exists s]. destruct (perm_delete _ _ _ H) as [[x Hx] Hr]. rewrite Hx. cbn [deref mbind res_bind].
  eexists. split; [reflexivity|]. cbn [objs ptrs fresh]. split_and!; try done. rewrite dom_delete_L. set_solver.
Qed.

(** Every operation on pointers in scope succeeds and keeps it so: nothing is deleted twice, used after it was
    deleted, or left without an owner. *)
Lemma uptr_op_owned o s : owned s → in_scope o s → ∃ s', uptr_op o s = Ok s' ∧ owned s'.
Proof.
  intros [Hp Hf] Hs. destruct o as [x|j|i j|i|i]; cbn [uptr_op in_scope] in *.
  - eexists. split; [reflexivity|]. assert (fresh s ∉ dom (objs s)) as Hn by (intros H; specialize (Hf _ H); lia). split; cbn [objs ptrs fresh].
    + rewrite omap_app, dom_insert_L, elements_union_singleton by done. cbn. rewrite Hp. by rewrite Permutation_app_comm.
    + intros n. rewrite dom_insert_L, elem_of_union, elem_of_singleton. intros [->|H]; [lia|]. specialize (Hf _ H). lia.
  - destruct Hs as [p Ej]. rewrite Ej. eexists. split; [reflexivity|]. split; cbn [objs ptrs fresh set_ptr]; [|done].
    etransitivity; [|exact Hp]. pose proof (own_insert _ _ _ None Ej) as H. cbn [option_list app] in H. rewrite <- H, omap_app.
    destruct p; cbn; [by rewrite Permutation_app_comm|by rewrite app_nil_r].
  - destruct Hs as [[p Ei] Hj]. rewrite Ei. cbn [deref mbind res_bind]. destruct Hj as [q Ej]. rewrite Ej. cbn [deref mbind res_bind].
    destruct (delete_owned p s (omap id (<[i := None]> (ptrs s)))) as (s1 & -> & Ep & Ef & Hr & Hd).
    { rewrite (own_insert _ _ _ None Ei). exact Hp. }
    cbn [mbind res_bind]. rewrite Ep, Ej. cbn [deref mbind res_bind]. eexists. split; [reflexivity|].
    split; cbn [objs ptrs fresh set_ptr]; [|intros n Hn; rewrite Ef; apply Hf, Hd, Hn]. rewrite Ep, <- Hr.
    destruct (decide (i = j)) as [->|Hij]; [by rewrite list_insert_insert_eq|]. rewrite list_insert_insert_ne by done.
    set (l1 := <[i := None]> (ptrs s)). assert (l1 !! j = Some q) as E1 by (unfold l1; by rewrite list_lookup_insert_ne).
    pose proof (own_insert l1 j q None E1) as H1. set (l2 := <[j := None]> l1) in *.
    assert (l2 !! i = Some None) as E2 by (unfold l2, l1; rewrite list_lookup_insert_ne, list_lookup_insert_eq by (done || by eapply lookup_lt_Some); done).
    pose proof (own_insert l2 i None q E2) as H2. cbn [option_list app] in H1, H2. rewrite <- H1, <- H2. unfold l2, l1.
    by rewrite (list_insert_insert_ne _ j i), list_insert_insert_eq by done.
  - destruct Hs as [n En]. rewrite En. cbn [deref mbind res_bind]. assert (is_Some (objs s !! n)) as [x Hx].
    { apply elem_of_dom, elem_of_elements. rewrite <- Hp. apply list_elem_of_omap. exists (Some n). split; [by eapply list_elem_of_lookup_2|done]. }
    rewrite Hx. exists s. split; [reflexivity|by split].
  - destruct Hs as [p Ei]. rewrite Ei. cbn [deref mbind res_bind]. destruct (delete_owned p s (omap id (delete i (ptrs s)))) as (s1 & -> & Ep & Ef & Hr & Hd).
    { by rewrite (own_delete _ _ _ Ei). }
    eexists. split; [reflexivity|]. split; cbn [objs ptrs fresh]; [by rewrite Ep|]. intros n Hn. rewrite Ef. apply Hf, Hd, Hn.
Qed.

Fixpoint all_in_scope (l : list (uop A)) s : Prop :=
  match l with [] => True | o :: l => in_scope o s ∧ ∀ s', uptr_op o s = Ok s' → all_in_scope l s' end.
Lemma uptr_run_owned l : ∀ s, owned s → all_in_scope l s → ∃ s', uptr_run l s = Ok s' ∧ owned s' ∧ (ptrs s' = [] → objs s' = ∅).
Proof.
  induction l as [|o l IH]; intros s Hs Ha; cbn [uptr_run].
  - exists s. split_and!; [done|done|]. intros E. destruct Hs as [Hp _]. rewrite E in Hp. cbn in Hp. symmetry in Hp. apply Permutation_nil_r in Hp. apply dom_empty_inv_L.
    apply elements_empty_inv in Hp. by apply leibniz_equiv.
  - destruct Ha as [Hi Ha]. destruct (uptr_op_owned o s Hs Hi) as (s1 & E & H1). rewrite E. cbn [mbind res_bind]. by apply IH; [|apply Ha].
Qed.
End Owning.

Example uptr_scopes : uptr_run [Make 5; Make 6; MoveAssign 0 1; Deref 0; MoveNew 0; Destroy 0; Destroy 0; Destroy 0] no_owners = Ok (mkOwners (A := Z) ∅ 2 []).
Proof. vm_compute. reflexivity. Qed.
