(* ===== verification/Guarded.v ===== *)
(** [mutex<T>], [lockguard<T>] and [atomic<T>] ([util/async.hh]): data shared by processors.

    A processor's use of a [mutex<T>] is what [lock()] and the guard's destructor make of it: the
    compare-exchange loop, a load of the data, a store of the new value and the store of 0 to
    [lockvar].  Each of these is a step of its own, and the steps of all processors interleave in any
    way.  The history lists the updates in the order of their stores; it is not part of the program. *)
From S2P Require Import Prelude Async.

(** ** Data behind a lock *)

Section Guarded.
Context {T : Type}.

(** Where a processor is: in the code of [MutexSimple::lock], inside the guard's life before and after the
    load, and before the unlock. *)
Inductive stage := Out | Try (expected : Z) | Again (expected : Z) | In | Loaded (x : T) | Done.
(** [todo]: the updates it still has to make. *)
Record proc := mkProc { todo : list (T → T); stg : stage }.
Record gsys := mkG { glock : Z; gdata : T; procs : list proc; hist : list (nat * (T → T)) }.

Inductive gstep : gsys → nat → gsys → Prop :=
| g_call v d ps h (k : nat) f fs : ps !! k = Some (mkProc (f :: fs) Out) → gstep (mkG v d ps h) k (mkG v d (<[k := mkProc (f :: fs) (Try 0)]> ps) h)
| g_acquire v d ps h (k : nat) fs e : ps !! k = Some (mkProc fs (Try e)) → v = e → gstep (mkG v d ps h) k (mkG 1 d (<[k := mkProc fs In]> ps) h)
| g_fail v d ps h (k : nat) fs e : ps !! k = Some (mkProc fs (Try e)) → v ≠ e → gstep (mkG v d ps h) k (mkG v d (<[k := mkProc fs (Again v)]> ps) h)
| g_retry v d ps h (k : nat) fs e : ps !! k = Some (mkProc fs (Again e)) → gstep (mkG v d ps h) k (mkG v d (<[k := mkProc fs (Try 0)]> ps) h)
| g_load v d ps h (k : nat) fs : ps !! k = Some (mkProc fs In) → gstep (mkG v d ps h) k (mkG v d (<[k := mkProc fs (Loaded d)]> ps) h)
| g_store v d ps h (k : nat) f fs x : ps !! k = Some (mkProc (f :: fs) (Loaded x)) → gstep (mkG v d ps h) k (mkG v (f x) (<[k := mkProc fs Done]> ps) (h ++ [(k, f)]))
| g_unlock v d ps h (k : nat) fs : ps !! k = Some (mkProc fs Done) → gstep (mkG v d ps h) k (mkG 0 d (<[k := mkProc fs Out]> ps) h).
Inductive gsteps : gsys → gsys → Prop :=
| gsteps_refl s : gsteps s s
| gsteps_cons s k s' s'' : gstep s k s' → gsteps s' s'' → gsteps s s''.

Definition gstart (d : T) (progs : list (list (T → T))) : gsys := mkG 0 d (map (λ p, mkProc p Out) progs) [].
Definition finished (s : gsys) : Prop := Forall (λ p, todo p = []) (procs s).

(** ** The lock below *)

Definition pc_of (g : stage) : pc :=
  match g with Out => Outside | Try e => Cmpxchg e | Again e => Retry e | In | Loaded _ | Done => Holding end.
Definition lock_of (s : gsys) : sys := mkSys (glock s) (map (pc_of ∘ stg) (procs s)).

Lemma lock_of_lookup s (k : nat) p : procs s !! k = Some p → cpus (lock_of s) !! k = Some (pc_of (stg p)).
Proof. intros H. unfold lock_of. cbn [cpus]. by rewrite list_lookup_fmap, H. Qed.
Lemma lock_of_same (ps : list proc) (k : nat) p q : ps !! k = Some p → pc_of (stg p) = pc_of (stg q) → map (pc_of ∘ stg) (<[k := q]> ps) = map (pc_of ∘ stg) ps.
Proof.
  intros H E. change (map (pc_of ∘ stg)) with (fmap (M := list) (pc_of ∘ stg)). rewrite list_fmap_insert. apply list_insert_id. cbn. by rewrite list_lookup_fmap, H, <- E.
Qed.

(** Every step is a step of the lock or invisible to it. *)
Lemma gstep_lock s k s' : gstep s k s' → step (lock_of s) k (lock_of s') ∨ lock_of s' = lock_of s.
Proof.
  intros H. destruct H as [v d ps h k f fs H|v d ps h k fs e H E|v d ps h k fs e H E|v d ps h k fs e H|v d ps h k fs H|v d ps h k f fs x H|v d ps h k fs H];
    pose proof (f_equal (fmap (pc_of ∘ stg)) H) as Hk; rewrite <- list_lookup_fmap in Hk; unfold lock_of; cbn [glock procs].
  5,6: right; by erewrite lock_of_same by (exact H || done).
  all: left; change (map (pc_of ∘ stg)) with (fmap (M := list) (pc_of ∘ stg)); rewrite list_fmap_insert; cbn [fmap option_fmap option_map pc_of stg compose] in *.
  - by apply step_call.
  - by eapply step_acquire.
  - by eapply step_fail.
  - by eapply step_retry.
  - by apply step_unlock.
Qed.

(** ** Serialization *)

Definition mine (k : nat) (h : list (nat * (T → T))) : list (T → T) := map snd (filter (λ u, u.1 = k) h).
Lemma mine_snoc k j f h : mine k (h ++ [(j, f)]) = mine k h ++ (if decide (j = k) then [f] else []).
Proof. unfold mine. rewrite filter_app, map_app. f_equal. rewrite filter_cons. cbn [fst]. by destruct (decide (j = k)). Qed.

(** The data are the updates so far, a value that was loaded is still the data, and every processor's own
    updates and what it has left make up its program. *)
Record serial (d0 : T) (progs : list (list (T → T))) (s : gsys) : Prop := {
  se_lock : lock_inv (lock_of s);
  se_data : gdata s = foldl (λ d u, u.2 d) d0 (hist s);
  se_loaded : ∀ (k : nat) fs x, procs s !! k = Some (mkProc fs (Loaded x)) → x = gdata s;
  se_mine : ∀ (k : nat) p, procs s !! k = Some p → progs !! k = Some (mine k (hist s) ++ todo p) }.

Lemma serial_start d0 progs : serial d0 progs (gstart d0 progs).
Proof.
  split.
  - unfold lock_of, gstart. cbn [glock procs]. replace (map (pc_of ∘ stg) (map (λ p, mkProc p Out) progs)) with (replicate (length progs) Outside); [apply lock_inv_start|].
    induction progs as [|p l IH]; [done|]. cbn. by f_equal.
  - done.
  - intros k fs x H. cbn in H. rewrite list_lookup_fmap in H. destruct (progs !! k); [|done]. discriminate.
  - intros k p H. cbn in H |- *. rewrite list_lookup_fmap in H. destruct (progs !! k) eqn:E; [|done]. by injection H as <-.
Qed.
(** While one processor is past [lock] no other has loaded anything. *)
Lemma loaded_alone s (j k : nat) p fs x : lock_inv (lock_of s) → procs s !! j = Some p → pc_of (stg p) = Holding → procs s !! k = Some (mkProc fs (Loaded x)) → j = k.
Proof.
  intros [Hc Hb _] Hj Ej Hk. destruct (decide (j = k)) as [|Hne]; [done|exfalso].
  assert (cpus (lock_of s) !! j = Some Holding) as Hj' by (rewrite (lock_of_lookup _ _ _ Hj); by rewrite Ej).
  pose proof (holders_two _ j k Hj' (lock_of_lookup _ _ _ Hk) Hne). lia.
Qed.
Lemma serial_step d0 progs s k s' : serial d0 progs s → gstep s k s' → serial d0 progs s'.
Proof.
  intros [Hl Hd Hx Hm] Hs. assert (lock_inv (lock_of s')) as Hl' by (destruct (gstep_lock _ _ _ Hs) as [H| ->]; [by eapply lock_inv_step|done]).
  destruct Hs as [v d ps h k f fs H|v d ps h k fs e H E|v d ps h k fs e H E|v d ps h k fs e H|v d ps h k fs H|v d ps h k f fs x H|v d ps h k fs H];
    cbn [gdata hist procs] in *; (split; cbn [gdata hist procs]; [done|try done|..]).
  all: try (intros j gs y Hj; apply list_lookup_insert_Some in Hj as [(-> & Ej & _)|[Hne Hj]]; [try discriminate Ej|try by eapply Hx]).
  all: try (intros j q Hj; apply list_lookup_insert_Some in Hj as [(-> & <- & _)|[Hne Hj]]; [try exact (Hm _ _ H)|try exact (Hm _ _ Hj)]).
  - by injection Ej as _ <-.
  - rewrite foldl_app, <- Hd. cbn. f_equal. by eapply Hx.
  - exfalso. apply Hne. eapply (loaded_alone (mkG v d ps h) k j); [done|exact H|done|exact Hj].
  - rewrite mine_snoc, decide_True by done. rewrite <- app_assoc. exact (Hm _ _ H).
  - rewrite mine_snoc, decide_False by done. rewrite app_nil_r. exact (Hm _ _ Hj).
Qed.
Lemma serial_steps d0 progs s s' : gsteps s s' → serial d0 progs s → serial d0 progs s'.
Proof. induction 1; eauto using serial_step. Qed.

(** C9: data reached only through a [mutex<T>]'s guard change as if the updates had been made one after the
    other: in every interleaving of the processors' loads, stores and lock operations the value is what the
    updates give in the order of the history, which holds every processor's updates in its own order, and all
    of them once everyone is finished. *)
Theorem mutex_serializes d0 progs s : gsteps (gstart d0 progs) s →
  gdata s = foldl (λ d u, u.2 d) d0 (hist s) ∧
  (∀ (k : nat) p, procs s !! k = Some p → progs !! k = Some (mine k (hist s) ++ todo p)) ∧
  (finished s → ∀ (k : nat) p, procs s !! k = Some p → progs !! k = Some (mine k (hist s))).
Proof.
  intros Hs. destruct (serial_steps _ _ _ _ Hs (serial_start d0 progs)) as [_ Hd _ Hm]. split; [done|]. split; [done|].
  intros Hf k p Hp. rewrite (Hm k p Hp). rewrite (proj1 (Forall_lookup _ _) Hf k p Hp : todo p = []). by rewrite app_nil_r.
Qed.
End Guarded.
Arguments stage : clear implicits.
Arguments proc : clear implicits.
Arguments gsys : clear implicits.

Lemma mutex_serializes_witness : ∃ s, gsteps (gstart 10 [[λ x, x + 1]; [λ x, x * 2]]) s ∧ finished s ∧ mine 0 (hist s) = [λ x, x + 1] ∧ gdata s = 21.
Proof.
  assert (∃ s, gsteps (gstart 10 [[λ x, x + 1]; [λ x, x * 2]]) s ∧ finished s ∧ hist s = [(1%nat, λ x, x * 2); (0%nat, λ x, x + 1)] ∧ procs s !! 0%nat = Some (mkProc [] Out)) as (s & Hs & Hf & Hh & Hp).
  { eexists. split; [|split; [|split]].
    - eapply gsteps_cons; [eapply (g_call _ _ _ _ 0); reflexivity|]. eapply gsteps_cons; [eapply (g_call _ _ _ _ 1); reflexivity|].
      eapply gsteps_cons; [eapply (g_acquire _ _ _ _ 1); reflexivity|]. eapply gsteps_cons; [eapply (g_load _ _ _ _ 1); reflexivity|].
      eapply gsteps_cons; [eapply (g_fail _ _ _ _ 0); [reflexivity|lia]|]. eapply gsteps_cons; [eapply (g_store _ _ _ _ 1); reflexivity|].
      eapply gsteps_cons; [eapply (g_retry _ _ _ _ 0); reflexivity|]. eapply gsteps_cons; [eapply (g_unlock _ _ _ _ 1); reflexivity|].
      eapply gsteps_cons; [eapply (g_acquire _ _ _ _ 0); reflexivity|]. eapply gsteps_cons; [eapply (g_load _ _ _ _ 0); reflexivity|].
      eapply gsteps_cons; [eapply (g_store _ _ _ _ 0); reflexivity|]. eapply gsteps_cons; [eapply (g_unlock _ _ _ _ 0); reflexivity|]. apply gsteps_refl.
    - repeat constructor.
    - reflexivity.
    - reflexivity. }
  exists s. destruct (mutex_serializes 10 [[λ x, x + 1]; [λ x, x * 2]] s Hs) as (Hd & _ & Hm). split; [exact Hs|]. split; [exact Hf|]. split.
  - specialize (Hm Hf 0%nat _ Hp). cbn in Hm. congruence.
  - rewrite Hd, Hh. reflexivity.
Defined.

(** ** Atomic numbers *)

Section Atomic.
(** [wrap] brings a number into the range of [T]. *)
Context (wrap : Z → Z).

Definition atomic : Type := Z.
Definition a_store (v : Z) (a : atomic) : atomic := v.
Definition a_load (a : atomic) : Z := a.
Definition a_assign (o : atomic) (a : atomic) : atomic := a_store (a_load o) a.
Definition a_plus (a : atomic) (n : Z) : atomic := wrap (a_load a + n).
Definition a_minus (a : atomic) (n : Z) : atomic := wrap (a_load a - n).
(** [__atomic_fetch_add] and [__atomic_fetch_sub]: the old value and what is left there. *)
Definition fetch_add (n : Z) (a : atomic) : Z * atomic := (a, wrap (a + n)).
Definition fetch_sub (n : Z) (a : atomic) : Z * atomic := (a, wrap (a - n)).
Definition a_add (n : Z) (a : atomic) : atomic := (fetch_add n a).2.
Definition a_sub (n : Z) (a : atomic) : atomic := (fetch_sub n a).2.
Definition post_inc (a : atomic) : atomic * atomic := fetch_add 1 a.
Definition post_dec (a : atomic) : atomic * atomic := fetch_sub 1 a.
(** The result is a reference: it is read when it is used. *)
Definition pre_inc (a : atomic) : atomic := (fetch_add 1 a).2.
Definition pre_dec (a : atomic) : atomic := (fetch_sub 1 a).2.

(** Processors sharing one: [a += n] is one step, [a = a + n] a load and a store. *)
Inductive aop := Add (n : Z) | SetPlus (n : Z).
Record aproc := mkA { left : list aop; tmp : option Z }.
Record asys := mkAs { aval : atomic; aprocs : list aproc }.
Inductive astep : asys → asys → Prop :=
| a_rmw v ps (k : nat) n l : ps !! k = Some (mkA (Add n :: l) None) → astep (mkAs v ps) (mkAs (a_add n v) (<[k := mkA l None]> ps))
| a_read v ps (k : nat) n l : ps !! k = Some (mkA (SetPlus n :: l) None) → astep (mkAs v ps) (mkAs v (<[k := mkA (SetPlus n :: l) (Some (a_plus v n))]> ps))
| a_write v ps (k : nat) n l x : ps !! k = Some (mkA (SetPlus n :: l) (Some x)) → astep (mkAs v ps) (mkAs (a_store x v) (<[k := mkA l None]> ps)).
Definition astart (v : Z) (progs : list (list aop)) : asys := mkAs v (map (λ l, mkA l None) progs).

Definition amount (o : aop) : Z := match o with Add n => n | SetPlus n => n end.
Definition total (l : list aop) : Z := foldr (λ o z, amount o + z) 0 l.
Definition pending (ps : list aproc) : Z := foldr (λ p z, total (left p) + z) 0 ps.
Definition only_adds (ps : list aproc) : Prop := Forall (λ p, Forall (λ o, ∃ n, o = Add n) (left p)) ps.

Lemma pending_cons p ps : pending (p :: ps) = total (left p) + pending ps.
Proof. reflexivity. Qed.
Lemma pending_insert (ps : list aproc) q p : ∀ k : nat, ps !! k = Some p → pending (<[k := q]> ps) = pending ps - total (left p) + total (left q).
Proof.
  induction ps as [|r ps IH]; intros [|k] H; cbn in H; [done..| |].
  - injection H as ->. change (<[0%nat := q]> (p :: ps)) with (q :: ps). rewrite !pending_cons. lia.
  - change (<[S k := q]> (r :: ps)) with (r :: <[k := q]> ps). rewrite !pending_cons, (IH k H). lia.
Qed.

Context (wrap_add : ∀ a b, wrap (wrap a + b) = wrap (a + b)).

Lemma adds_step s s' : astep s s' → only_adds (aprocs s) → only_adds (aprocs s') ∧ wrap (aval s' + pending (aprocs s')) = wrap (aval s + pending (aprocs s)).
Proof using wrap_add.
  intros H Hp. destruct H as [v ps k n l H|v ps k n l H|v ps k n l x H]; cbn [aval aprocs] in *; pose proof (proj1 (Forall_lookup _ _) Hp _ _ H) as Ho; cbn [left] in Ho;
    apply Forall_cons in Ho as [[m Em] Ho]; [|discriminate Em..].
  split; [by apply Forall_insert|]. rewrite (pending_insert _ _ _ _ H). cbn [left]. change (total (Add n :: l)) with (n + total l).
  unfold a_add, fetch_add. cbn [snd]. rewrite wrap_add. f_equal. lia.
Qed.
(** Additions in one step are never lost: in every interleaving the value and what is still to be added make
    the starting value and all amounts. *)
Lemma adds_all_count s s' : rtc astep s s' → only_adds (aprocs s) → wrap (aval s' + pending (aprocs s')) = wrap (aval s + pending (aprocs s)).
Proof using wrap_add.
  induction 1 as [|s s1 s' H1 _ IH]; intros Hp; [done|]. destruct (adds_step _ _ H1 Hp) as [Hp' E]. by rewrite <- E, IH.
Qed.
End Atomic.

(** The tick counter ([atomic<u64>]). *)
Lemma ticks_add_up v progs s : rtc (astep u64) (astart v progs) s → Forall (Forall (λ o, ∃ n, o = Add n)) progs → pending (aprocs s) = 0 →
  u64 (aval s) = u64 (v + pending (aprocs (astart v progs))).
Proof.
  intros Hs Hp H0. pose proof (adds_all_count u64 (uN_add_l 64) _ _ Hs ltac:(by apply Forall_map)) as E. rewrite H0, Z.add_0_r in E. exact E.
Qed.
(** [a = a + 1] by two processors at once loses one of them. *)
Example lost_update : ∃ s, rtc (astep u64) (astart 0 [[SetPlus 1]; [SetPlus 1]]) s ∧ aval s = 1 ∧ pending (aprocs s) = 0.
Proof.
  eexists. split; [|split].
  - eapply rtc_l; [eapply (a_read _ _ _ 0); reflexivity|]. eapply rtc_l; [eapply (a_read _ _ _ 1); reflexivity|].
    eapply rtc_l; [eapply (a_write _ _ _ 0); reflexivity|]. eapply rtc_l; [eapply (a_write _ _ _ 1); reflexivity|]. apply rtc_refl.
  - reflexivity.
  - reflexivity.
Qed.
