(* ===== verification/Selftest.v ===== *)
(** The kernel's self-tests ([test.cc]), block by block, on the definitions of this library.

    A block is the sequence of operations and assertions of its source; it is [Ok] when every
    assertion holds.  Whether a buffer can grow in place is an argument, as in [Vector].  That the
    blocks pass is a check of the definitions against what the authors observed of the code. *)
From S2P Require Import Prelude EhciSpec Arith Bitmap Mem Pmm Heap HeapSpec Paging Strings Vector KString LinkedList HashMap Arena Guarded Containers.

Abbreviation check_ c := (assert_ c "assert").
Definition eq_at (r : res Z) (x : Z) : res unit := v ← r; check_ (v =? x).

(** [kmalloc], [memset], [check], [kfree] *)
Definition test_heap (h : MemoryMgr) : res MemoryMgr :=
  '(p, h) ← alloc h 128 1 12;
  let h := Heap.with_ram h (memset (Heap.ram h) p 0xff 128) in
  check (check_fuel h) h p true true;;
  free_ h p.

Section Blocks.
Context (inplace : bool).

Definition same_three (v : Vector Z) (a b c : Z) : res unit :=
  check_ (Vector.size v =? 3);; eq_at (Vector.at_ v 0) a;; eq_at (Vector.at_ v 1) b;; eq_at (Vector.at_ v 2) c.
Definition test_vector : res unit :=
  vec ← Vector.emplace_back 4 inplace new_default 20;
  vec ← Vector.emplace_back 4 inplace vec 30;
  vec ← Vector.emplace_back 4 inplace vec 40;
  vec4 ← of_list 4 [20; 30; 40];
  same_three vec4 20 30 40;;
  check_ (Vector.size vec =? 3);;
  vec2 ← copy_new 4 vec;
  same_three vec2 20 30 40;;
  let '(vec3, _) := move_new vec in
  same_three vec3 20 30 40;;
  vec5 ← of_list 4 [67; 61; 41];
  vec6 ← copy_new 4 vec5;
  e ← Vector.eq Z.eqb vec5 vec6; check_ e;;
  let vec7 := new_cap 4 0 in
  check_ (Vector.size vec7 =? 0);; check_ (capacity vec7 =? 0);; check_ (negb (bool_decide (is_Some (Vector.data vec7))));;
  vec7 ← Vector.push_back 4 inplace vec7 10;
  check_ (Vector.size vec7 =? 1);; check_ (bool_decide (is_Some (Vector.data vec7))).
Definition test_array : res unit :=
  asd ← Array_of 4 0 [1; 2; 3; 4];
  asd2 ← Array_copy 4 0 asd;
  for_rounds (λ i _, x ← arr_at 4 asd i; eq_at (arr_at 4 asd2 i) x) 0 1 4 tt;;
  e ← arr_eq 4 Z.eqb asd asd2; check_ e;; e ← arr_eq 4 Z.eqb asd asd2; check_ (negb (negb e)).

(** The characters of a string, up to its terminator. *)
Definition chars (v : String) : res (list Z) := peek_vec v (Vector.size v + 1).
Definition TESZTSTR : list Z := bytes_of "hello world".
Definition TESZTSTR2 : list Z := bytes_of "hello worldturiip ip".
Definition test_string : res unit :=
  teszt ← String_cstr TESZTSTR;
  c ← chars teszt; check_ (bool_decide (c = TESZTSTR ++ [0]));;
  check_ (Vector.size teszt =? strlen TESZTSTR);;
  teszt ← append_char inplace teszt 116;
  teszt ← append_char inplace teszt 117;
  teszt ← append_char inplace teszt 114;
  teszt ← append_char inplace teszt 105;
  teszt ← append_cstr inplace teszt (bytes_of "ip ip");
  c ← chars teszt; check_ (bool_decide (c = TESZTSTR2 ++ [0]));;
  a ← String_sub TESZTSTR2 11; b ← String_cstr TESZTSTR;
  e ← Vector.eq Z.eqb a b; check_ e.
End Blocks.

(** [variant<u32, char*, String>]: the kinds are numbered in this order. *)
Inductive alternative := AU32 (x : Z) | APtr (p : Z) | AString (s : String).
Definition alt_kind (a : alternative) : nat := match a with AU32 _ => 0 | APtr _ => 1 | AString _ => 2 end.
Definition test_variant : res unit :=
  turi ← String_cstr (bytes_of "turi");
  asd ← variant_emplace alt_kind [0; 1; 2]%nat (AString turi) variant_empty;
  x ← variant_get alt_kind [0; 1; 2]%nat 2 asd;
  (match x with AString s => e ← Vector.eq Z.eqb s turi; check_ e | _ => Fault end);;
  asd ← variant_destroy alt_kind [0; 1; 2]%nat asd;
  asd ← variant_emplace alt_kind [0; 1; 2]%nat (AU32 10) asd;
  x ← variant_get alt_kind [0; 1; 2]%nat 0 asd;
  (match x with AU32 n => check_ (n =? 10) | _ => Fault end);;
  variant_destroy alt_kind [0; 1; 2]%nat asd;; Ok tt.
Definition test_unique : res unit :=
  s ← uptr_op (Make 10) no_owners;
  p ← deref (ptrs s !! 0%nat); n ← deref p;
  eq_at (deref (objs s !! n)) 10;;
  s ← uptr_op (Destroy 0) s; check_ (bool_decide (objs s = ∅)).

(** [kmalloc4g] and [kfree4g], four times; the last one also asks for the alignment. *)
Definition low_page (pml4 : Z) (s : paging) : res (Z * paging) :=
  '(p, m) ← pmm_alloc4g (mem s) 10;
  let s := mkPaging (tabs s) m in
  a ← paging_lookup s pml4 p; check_ (Z.shiftr a 32 =? 0);;
  Ok (p, mkPaging (tabs s) (pmm_free (mem s) p)).
Definition test_low (pml4 : Z) (s : paging) : res paging :=
  '(_, s) ← low_page pml4 s; '(_, s) ← low_page pml4 s; '(_, s) ← low_page pml4 s;
  '(p, s) ← low_page pml4 s; check_ (Z.land p 127 =? 0);; Ok s.

Definition test_list : res unit :=
  l ← LinkedList.push_back LinkedList.empty 10; l ← LinkedList.push_back l 50; l ← LinkedList.push_back l 30; l ← LinkedList.push_back l 40;
  l ← LinkedList.push_front l 88;
  eq_at (LinkedList.at_ l 0) 88;; eq_at (LinkedList.at_ l 1) 10;; eq_at (LinkedList.at_ l 2) 50;; eq_at (LinkedList.at_ l 3) 30;; eq_at (LinkedList.at_ l 4) 40;;
  l ← remove_idx l 0; l ← remove_idx l 3; l ← remove_idx l 1;
  eq_at (LinkedList.at_ l 0) 10;; eq_at (LinkedList.at_ l 1) 30;; check_ (LinkedList.size l =? 2).
Definition test_atomic : res unit :=
  let atom := 10 in
  check_ (a_load atom =? 10);;
  let '(old, atom) := post_inc i32 atom in check_ (old =? 10);;
  let atom := pre_inc i32 atom in check_ (a_load atom =? 12);;
  let '(old, atom) := post_dec i32 atom in check_ (old =? 12);;
  let atom := pre_dec i32 atom in check_ (a_load atom =? 10);;
  check_ (a_plus i32 atom 10 =? 20);; check_ (a_minus i32 atom 10 =? 0);;
  let atom := a_add i32 10 atom in check_ (a_load atom =? 20);;
  let atom := a_sub i32 10 atom in check_ (a_load atom =? 10).
Definition helo : list Z := bytes_of "helo".
Definition test_map : res unit :=
  let hm := HashMap_new (B := LinkedList) (K := list Z) (V := Z) defsize in
  '(hm, v) ← get hash_String 0 hm helo; check_ (v =? 0);;
  hm ← HashMap.assign hash_String 0 hm helo 10;
  '(hm, v) ← get hash_String 0 hm helo; check_ (v =? 10);;
  hm ← HashMap.remove hash_String hm helo;
  '(hm, v) ← get hash_String 0 hm helo; check_ (v =? 0);;
  b ← has hash_String hm helo; check_ b;;
  b ← has hash_String hm (bytes_of "helo2"); check_ (negb b).
(** [index_of<u32, u32, Vector<u8>>] and [index_of<u8, u32, Vector<u8>>] *)
Definition test_index : res unit := check_ (index_of [0; 1]%nat 0 =? 0);; check_ (index_of [0; 1]%nat 2 =? u64 (-1)).
Definition parses (s : string) (base v : Z) : res unit := check_ (str_to_int (bytes_of s) base =? v).
Definition test_numbers : res unit :=
  parses "1010" 10 1010;; parses "01010" 10 1010;; parses "-1010" 10 (-1010);;
  parses "0x1010" 10 0x1010;; parses "0x01010" 10 0x1010;; parses "-0x1010" 10 (-0x1010);;
  parses "1010" 2 10;; parses "1010" 8 520.
Definition test_arena (inplace : bool) : res unit :=
  a ← Arena_new (A := Z) 8 0;
  '(h1, a) ← Arena.push_back 8 inplace a 10; '(h2, a) ← Arena.push_back 8 inplace a 20; '(h3, a) ← Arena.push_back 8 inplace a 30;
  a ← Arena.remove a h2;
  '(h4, a) ← Arena.push_back 8 inplace a 40;
  eq_at (item_at a h1) 10;; eq_at (item_at a h3) 30;; eq_at (item_at a h4) 40.

(** [test_libk], and [test], which counts the allocations before and after. *)
Definition test_libk (inplace : bool) (pml4 : Z) (h : MemoryMgr) (s : paging) : res (MemoryMgr * paging) :=
  h ← test_heap h;
  test_vector inplace;; test_array;; test_string inplace;; test_variant;; test_unique;;
  s ← test_low pml4 s;
  test_list;; test_atomic;; test_map;; test_index;; test_numbers;; test_arena inplace;;
  Ok (h, s).
Definition test (inplace : bool) (pml4 : Z) (h : MemoryMgr) (s : paging) : res (MemoryMgr * paging) :=
  allocs ← count_allocs h;
  '(h, s) ← test_libk inplace pml4 h s;
  n ← count_allocs h;
  if negb (n =? allocs) then Fatal "Mismatch between vmm link count" else Ok (h, s).

(** The blocks without a heap or page tables pass however buffers grow. *)
Lemma blocks_pass inplace : test_vector inplace = Ok tt ∧ test_array = Ok tt ∧ test_string inplace = Ok tt ∧ test_variant = Ok tt ∧ test_unique = Ok tt ∧
  test_list = Ok tt ∧ test_atomic = Ok tt ∧ test_map = Ok tt ∧ test_index = Ok tt ∧ test_numbers = Ok tt ∧ test_arena inplace = Ok tt.
Proof. destruct inplace; vm_compute; split_and!; reflexivity. Qed.
(** All of it, on a fresh heap of 4 KiB and 2 MiB of directly mapped memory. *)
Example selftest_passes inplace : is_Ok (test inplace root0 heap0 demo_direct) = true.
Proof. destruct inplace; vm_compute; reflexivity. Qed.
