(* ===== verification/Boot.v ===== *)
(** The start of the kernel ([main.cc], [arch/amd64/amd64.cc]): the first calls of [kmain] in their order, from the
    serial port to the heap, and what the parts have set up for each other by then.  [exc] are the addresses
    of the interrupt stubs, [garbage] and [page] what the memory of the IDT and of the heap's bitmap held, and
    [memory] what the heap's memory held. *)
From S2P Require Import Prelude Arith Bitmap Pmm Heap HeapInv HeapSpec HeapResize Paging Descriptors Machine.

Definition sizeof_thread_info : Z := 4.
(** [arch_init(true)] *)
Definition arch_init : list (Z * Z) := sinit.
Record late := mkLate { l_gdt : list Z; l_tss : tss_t; l_idt : list Z; l_handlers : list isr; l_ports : list (Z * Z); l_thread : Z }.
(** [arch_late_init(true)] *)
Definition arch_late_init (exc : nat → Z) (garbage : list Z) (s : pmm) : res (late * pmm) :=
  '(_, gdt, s) ← arch_gdt_init s;
  '(gdt, tss, s) ← arch_tss_init gdt s;
  '(idt, hs, s) ← arch_idt_init exc garbage s;
  '(thr, s) ← wm_alloc s sizeof_thread_info 16;
  Ok (mkLate gdt tss idt hs arch_pit_init thr, s).

Record booted := mkBooted { b_serial : list (Z * Z); b_fbs : list framebuffer_t; b_higherhalf : Z; b_late : late; b_heap : MemoryMgr; b_pmm : pmm }.
(** [kmain] up to [vmm_init()] *)
Definition kmain_memory (exc : nat → Z) (garbage page : list Z) (memory : Mem.mem) (fb : option (list framebuffer_t)) (hhdm : option Z) (fbs : list framebuffer_t)
    (r : list memmap_entry) : res booted :=
  let out := arch_init in
  '(fbs, hh) ← arch_read_boot_info fb hhdm fbs;
  s ← pmm_init r;
  '(l, s) ← arch_late_init exc garbage s;
  '(h, s) ← vmm_init s page memory;
  Ok (mkBooted out fbs hh l h s).

(** ** Watermark allocations *)

Lemma wm_alloc_rest s size al p s' : wm_alloc s size al = Ok (p, s') → pmm_bm s' = pmm_bm s ∧ pmm_freemem s' = pmm_freemem s ∧ pmm_mutex s' = pmm_mutex s.
Proof. unfold wm_alloc. intros H. apply bind_Ok in H as (m & _ & H). destruct (_ <? _); [done|]. by injection H as _ <-. Qed.
(** A small block fits while there is room. *)
Lemma wm_room s e size : wm_ok s e → 0 < size ≤ 4096 → wm_cursor s + 8192 ≤ e →
  ∃ p s', wm_alloc s size 16 = Ok (p, s') ∧ wm_ok s' e ∧ wm_cursor s ≤ p ∧ p + size ≤ wm_cursor s' ∧ wm_cursor s' ≤ wm_cursor s + 8192 ∧ pmm_bm s' = pmm_bm s ∧ pmm_freemem s' = pmm_freemem s ∧ pmm_mutex s' = pmm_mutex s.
Proof.
  intros Hw Hs Hr. pose proof (wm_range _ _ Hw) as (R1 & R2 & R3). pose proof (alignN_bounds 64 size 16) as Hn.
  assert (align64 size 16 ≤ 4096) as H4 by (apply alignN_least; done || lia).
  destruct (wm_alloc_spec s e size 16 Hw) as [(p & s' & E & _ & Hp & _ & Hc & _ & Hw' & _)|[_ He]]; [lia..| |].
  - exists p, s'. destruct (wm_alloc_rest _ _ _ _ _ E) as (B & F & M). split_and!; try done; lia.
  - exfalso. pose proof (alignN_bounds 64 (wm_cursor s) (Z.max (align64 size 16) 16)). lia.
Qed.

(** A page allocation leaves the watermark allocator alone. *)
Lemma pmm_alloc_keeps s size p s' e : pmm_alloc s size = Ok (p, s') → wm_ok s e → wm_ok s' e.
Proof.
  unfold pmm_alloc, alloc_from. intros H [A B D]. apply bind_Ok in H as (m & _ & H). apply bind_Ok in H as ([b bm] & _ & H).
  destruct (b =? NPOS); [done|]. injection H as _ <-. by split.
Qed.

(** The free bytes are those of whole pages. *)
Lemma usable_pages r : limine_map r → usable_bytes r `mod` 4096 = 0 ∧ 0 ≤ usable_bytes r.
Proof.
  induction r as [|e r IH]; intros Hm; [done|]. destruct (IH (limine_map_tail _ _ Hm)) as [I1 I2].
  change (usable_bytes (e :: r)) with ((if usable e then length_ e else 0) + usable_bytes r). destruct (usable e) eqn:U; [|by rewrite Z.add_0_l].
  destruct (map_geometry _ Hm e ltac:(left) U) as (_ & _ & G1 & G2 & _). split; [|lia]. rewrite Z.add_mod, G2, I1 by lia. done.
Qed.

(** ** Setting up *)

Lemma pages_stack : pages INTR_STACK_SIZE = 512.
Proof. reflexivity. Qed.

(** The GDT: flat 64-bit segments of the kernel and of programs, in the order of the selectors, and the
    descriptor of a TSS that was allocated between [lo] and [hi]. *)
Definition segments (gdt : list Z) (lo hi : Z) : Prop := ∃ low high t,
  gdt = [0; 0x00A09A0000000000; 0x00A0920000000000; 0x00A0F20000000000; 0x00A0FA0000000000; low; high; 0] ∧
  tss_base low high = t ∧ get low g_access = 0x89 ∧ lo ≤ t ∧ t + 128 ≤ hi.

Lemma tss_segments t lo hi : is_u64 t → lo ≤ t → t + 128 ≤ hi →
  segments [0; kernel_code; kernel_data; user_data; user_code; tss_low 0 t; tss_high 0 t; 0] lo hi.
Proof.
  intros Ht Hlo Hhi. exists (tss_low 0 t), (tss_high 0 t), t. split; [reflexivity|]. split; [by apply tss_descriptor_base|]. split; [|done].
  unfold tss_low, g_base1, g_base2, g_base3, g_access, g_dpl, g_avl, g_long_mode, g_size, g_limit_in_pages, g_limit1, g_limit2, get, puts.
  cbn [foldl fst snd]. unfold put. cbn [fst snd]. repeat (rewrite getf_other by lia).
  apply Z.bits_inj'. intros i Hi. rewrite getf_bit, !setf_bit by lia. destruct (decide (i < 8)) as [H8|H8].
  - rewrite bool_decide_eq_true_2 by done. cbn [andb]. rewrite (bool_decide_eq_true_2 (40 ≤ i + 40 < 40 + 8)) by lia.
    replace (i + 40 - 40) with i by lia. case_bool_decide; [|done]. assert (i = 5 ∨ i = 6) as [->| ->] by lia; reflexivity.
  - rewrite bool_decide_eq_false_2 by done. by rewrite (is_uN_high 8 0x89 i) by (unfold is_uN; lia).
Qed.

Lemma late_Ok exc garbage s e p0 : pmm_ok s → wm_ok s e → wm_cursor s + 5 * 8192 ≤ e → (∀ v, is_u64 (exc v)) → List.length garbage = 256%nat →
  0 ≤ p0 → p0 + 514 ≤ sz (pmm_bm s) → free_run (pmm_bm s) p0 514 →
  ∃ l s' p, arch_late_init exc garbage s = Ok (l, s') ∧ pmm_ok s' ∧ wm_ok s' e ∧ pmm_freemem s' = u64 (pmm_freemem s - 0x200000) ∧
    0 ≤ p ≤ p0 ∧ p + 512 ≤ sz (pmm_bm s) ∧ free_run (pmm_bm s) p 512 ∧ marks (pmm_bm s) (pmm_bm s') p 512 ∧
    ist1 (l_tss l) = u64 (VIRTUAL (4096 * p) + 0x200000 - 144) ∧ l_handlers l = replicate 256 onInterrupt ∧
    segments (l_gdt l) (wm_cursor s) e ∧
    ∀ v, (v < 256)%nat → ∃ g, l_idt l !! v = Some g ∧ gate_ok exc v g.
Proof.
  intros Hp Hw Hr Hx Hg G0 G1 G2. unfold arch_late_init, arch_gdt_init, arch_tss_init.
  destruct (wm_room s e (8 * 8) Hw ltac:(lia) ltac:(lia)) as (q1 & s1 & -> & W1 & A1 & Z1 & C1 & B1 & F1 & M1). cbn [mbind res_bind].
  destruct (wm_room s1 e 128 W1 ltac:(lia) ltac:(lia)) as (q2 & s2 & -> & W2 & A2 & Z2 & C2 & B2 & F2 & M2). cbn [mbind res_bind].
  assert (pmm_ok s2) as P2 by (destruct Hp as [X Y D]; split; rewrite ?B2, ?B1, ?M2, ?M1; done).
  pose proof (alloc_from_0 s2 INTR_STACK_SIZE P2 ltac:(unfold INTR_STACK_SIZE; lia)) as Ha. change (alloc_from 0 s2 INTR_STACK_SIZE) with (pmm_alloc s2 INTR_STACK_SIZE) in Ha.
  unfold page_alloc in Ha. rewrite pages_stack, B2, B1 in Ha. destruct Ha as [(p & s3 & E3 & Hp0 & Hp1 & Hfree & Hlow & Hmark & P3 & _ & F3)|[_ Hno]];
    [|exfalso; apply (Hno p0); [lia..|intros j Hj; apply G2; lia]]. rewrite E3. cbn [mbind res_bind].
  assert (p ≤ p0) as Hpp by (destruct (decide (p ≤ p0)); [done|]; exfalso; apply (Hlow p0); [lia|intros j Hj; apply G2; lia]).
  pose proof (pmm_alloc_keeps _ _ _ _ e E3 W2) as W3. cbn [arch_gdt_add_tss lookup list_lookup deref mbind res_bind].
  assert (wm_cursor s3 = wm_cursor s2) as C3.
  { unfold pmm_alloc, alloc_from in E3. apply bind_Ok in E3 as (m & _ & E3). apply bind_Ok in E3 as ([b bm] & _ & E3). destruct (b =? NPOS); [done|]. by injection E3 as _ <-. }
  destruct (wm_room s3 e 0x1000 W3 ltac:(lia) ltac:(lia)) as (q4 & s4 & E4 & W4 & A4 & Z4 & C4 & B4 & F4 & M4).
  destruct (idt_gates exc garbage s3 q4 s4 E4 Hx Hg) as (idt & E5 & _ & Hidt). rewrite E5. cbn [mbind res_bind].
  destruct (wm_room s4 e sizeof_thread_info W4 ltac:(unfold sizeof_thread_info; lia) ltac:(lia)) as (q6 & s6 & -> & W6 & A6 & Z6 & C6 & B6 & F6 & M6). cbn [mbind res_bind].
  eexists _, s6, p. split; [reflexivity|]. cbn [l_tss l_handlers l_idt l_gdt ist1]. rewrite F6, F4, F3, F2, F1, B6, B4. change (4096 * 512) with 0x200000.
  split_and!; try done.
  - destruct P3 as [X Y D]. split; rewrite ?B6, ?B4, ?M6, ?M4; done.
  - f_equal. unfold INTR_STACK_SIZE. lia.
  - pose proof (wm_range _ _ W2) as (R1 & R2 & R3). pose proof (wm_range _ _ Hw) as (R4 & R5 & R6). apply tss_segments; [unfold is_uN; lia|lia|lia].
Qed.

(** [vmm_init] takes two pages. *)
Lemma two_pages s page memory e p0 : pmm_ok s → wm_ok s e → Forall is_u64 page → zlen page = 512 → 0 < pmm_freemem s < 2 ^ 46 → pmm_freemem s `mod` 16 = 0 →
  0 ≤ p0 → p0 + 2 ≤ sz (pmm_bm s) → free_run (pmm_bm s) p0 2 →
  ∃ h s', vmm_init s page memory = Ok (h, s') ∧ pmm_ok s' ∧ wm_ok s' e ∧ heap_ok h [Node 0 (pmm_freemem s) true] ∧ heap_base h = VMM_HEAP_BASE ∧
    ∀ q, 0 ≤ q → bit (pmm_bm s) q = true → bit (pmm_bm s') q = true.
Proof.
  intros Hp Hw Hpg Hlen Hf Hm G0 G1 G2. assert (∀ t q, pmm_ok t → 0 ≤ q < sz (pmm_bm t) → bit (pmm_bm t) q = false →
    ∃ p t', pmm_alloc t PMM_PAGESIZE = Ok (VIRTUAL (4096 * p), t') ∧ pmm_ok t' ∧ p ≤ q ∧ marks (pmm_bm t) (pmm_bm t') p 1) as Ha.
  { intros t q Ht Hq Hb. assert (free_run (pmm_bm t) q 1) as Hr by (intros j Hj; by replace j with q by lia).
    destruct (alloc_from_0 t PMM_PAGESIZE Ht ltac:(unfold PMM_PAGESIZE, P4K; lia)) as [(p & t' & E & _ & _ & _ & Hlow & M & P & _)|[_ Hno]].
    - exists p, t'. split_and!; try done. destruct (decide (p ≤ q)); [done|]. exfalso. apply (Hlow q); [lia|exact Hr].
    - exfalso. apply (Hno q); [lia|change (pages PMM_PAGESIZE) with 1; lia|exact Hr]. }
  destruct (Ha s p0 Hp ltac:(lia) ltac:(apply G2; lia)) as (p1 & s1 & E1 & P1 & L1 & M1).
  destruct (Ha s1 (p0 + 1) P1) as (p2 & s2 & E2 & P2 & _ & M2); [rewrite (marks_sz _ _ _ _ M1); lia| |].
  { rewrite (marks_bit _ _ _ _ M1), bool_decide_eq_false_2 by lia. apply G2. lia. }
  destruct (vmm_init_ok s page memory _ s1 _ s2 E1 E2 Hpg Hlen Hf Hm) as (h & -> & Hh & Hb & _). exists h, s2.
  split_and!; try done.
  - eapply pmm_alloc_keeps; [exact E2|]. eapply pmm_alloc_keeps; [exact E1|done].
  - intros q Hq Hbit. rewrite (marks_bit _ _ _ _ M2), (marks_bit _ _ _ _ M1), Hbit by lia. by rewrite !orb_true_r.
Qed.

(** C10: the early start of the kernel.  The memory map is one [pmm_init] can work with ([bootable]: sorted, aligned
    and without overlaps, with an entry for the watermark area and the bitmap, and with all usable pages and the reserved
    window among the pages the bitmap, rounded down to whole words, has a bit for), and 514 usable pages in a row are
    outside the reserved window.  Then [kmain] gets to the end of [vmm_init] with a page allocator and a
    watermark allocator ready for use; a heap that is one free block of the usable memory less the interrupt
    stack; a GDT with the flat segments and the descriptor of a TSS in the watermark area; gates for all 256
    vectors to their stubs, with the default handler in every entry of the table of handlers; and an
    interrupt stack whose pages lie in usable memory, apart from the watermark area and the bitmap, and are
    not handed out again. *)
Theorem boot_ready exc garbage page memory fb hhdm fbs fbs' hh r last c bm_size p0 : bootable r last c bm_size →
  (∀ v, is_u64 (exc v)) → List.length garbage = 256%nat → Forall is_u64 page → zlen page = 512 →
  0x200000 < usable_bytes r < 2 ^ 46 → arch_read_boot_info fb hhdm fbs = Ok (fbs', hh) →
  0 < p0 → p0 + 514 ≤ align_down bm_size 64 →
  (∀ q, p0 ≤ q < p0 + 514 → (∃ e, e ∈ r ∧ usable e = true ∧ owns e q) ∧ ¬ reserved c bm_size q) →
  ∃ b p, kmain_memory exc garbage page memory fb hhdm fbs r = Ok b ∧ b_fbs b = fbs' ∧ b_higherhalf b = hh ∧ pmm_ok (b_pmm b) ∧ wm_ok (b_pmm b) (VIRTUAL (base c) + WM_SIZE) ∧
    heap_ok (b_heap b) [Node 0 (usable_bytes r - 0x200000) true] ∧ heap_base (b_heap b) = VMM_HEAP_BASE ∧
    (∀ v, (v < 256)%nat → ∃ g, l_idt (b_late b) !! v = Some g ∧ gate_ok exc v g) ∧
    l_handlers (b_late b) = replicate 256 onInterrupt ∧ segments (l_gdt (b_late b)) (VIRTUAL (base c)) (VIRTUAL (base c) + WM_SIZE) ∧
    ist1 (l_tss (b_late b)) = VIRTUAL (4096 * p) + 0x200000 - 144 ∧
    ∀ q, p ≤ q < p + 512 → bit (pmm_bm (b_pmm b)) q = true ∧ q ≠ 0 ∧ (∃ e, e ∈ r ∧ usable e = true ∧ owns e q) ∧
      (4096 * q + 4096 ≤ base c ∨ base c + WM_SIZE + bm_size / 8 ≤ 4096 * q).
Proof.
  intros B Hx Hg Hpg Hlen Hu Hfb R0 R1 R2. unfold kmain_memory. rewrite Hfb. cbn [mbind res_bind]. pose proof (boot_size _ _ _ _ B) as Hbs.
  destruct (pmm_init_pages r last c bm_size B) as (s & -> & Hw & Hs & Hf & Hm & Hwm & Hc & Hr & Hp). cbn [mbind res_bind].
  destruct (usable_pages r (boot_map _ _ _ _ B)) as [U1 U2]. rewrite uN_small in Hf by (unfold is_uN; lia).
  pose proof (align_down_le bm_size 64 ltac:(lia)) as Had.
  assert (pmm_ok s) as Ps by (split; [done|lia|done]).
  pose proof (boot_window _ _ _ _ B) as Hwin. destruct (candidate_Ok _ _ _ (boot_cand _ _ _ _ B)) as (Hin & Huc & _). destruct (map_geometry _ (boot_map _ _ _ _ B) c Hin Huc) as (G1 & _ & G2 & _ & G3).
  assert (VIRTUAL (base c) = base c + HHDM) as Hv by (apply VIRTUAL_add; lia).
  assert (wm_ok s (VIRTUAL (base c) + WM_SIZE)) as Ws.
  { split; [by rewrite Hc, Hr| |done]. rewrite Hc, Hr, Hv. unfold HHDM. change WM_SIZE with 67108864. lia. }
  assert (free_run (pmm_bm s) p0 514) as Hrun by (intros q Hq; destruct (R2 q ltac:(lia)) as [Q1 Q2]; apply (Hp q); [rewrite Hs; lia|split; [lia|done]]).
  destruct (late_Ok exc garbage s (VIRTUAL (base c) + WM_SIZE) p0 Ps Ws) as (l & s1 & p & -> & P1 & W1 & F1 & Hp0 & Hp1 & Hfree & Hmark & Hist & Hhs & Hseg & Hidt);
    [rewrite Hc; change WM_SIZE with 67108864; lia|done|done|lia|lia|done|]. cbn [mbind res_bind].
  rewrite Hf, uN_small in F1 by (unfold is_uN; lia).
  destruct (two_pages s1 page memory (VIRTUAL (base c) + WM_SIZE) (p0 + 512) P1 W1 Hpg Hlen) as (h & s2 & -> & P2 & W2 & Hh & Hb & Hkeep);
    [lia| |lia|rewrite (marks_sz _ _ _ _ Hmark); lia| |].
  { rewrite F1. pose proof (Z.div_mod (usable_bytes r) 4096 ltac:(lia)) as E. rewrite U1 in E. apply Z.mod_divide; [lia|].
    exists (256 * (usable_bytes r / 4096) - 131072). lia. }
  { intros q Hq. rewrite (marks_bit _ _ _ _ Hmark), bool_decide_eq_false_2 by lia. apply Hrun. lia. }
  cbn [mbind res_bind]. eexists _, p. split; [reflexivity|]. cbn [b_fbs b_higherhalf b_pmm b_heap b_late]. rewrite F1 in Hh. split_and!; try done.
  - rewrite Hc in Hseg. exact Hseg.
  - rewrite Hist. apply uN_small. rewrite VIRTUAL_add by lia. unfold is_uN, HHDM. lia.
  - intros q Hq. destruct (proj1 (Hp q ltac:(lia)) ltac:(by apply Hfree)) as (Hq0 & (e & He & Hue & Ho) & Hnr).
    split_and!; [|done|by exists e|by apply (unreserved_apart r last c bm_size e q)]. apply Hkeep; [lia|]. rewrite (marks_bit _ _ _ _ Hmark) by lia. by rewrite bool_decide_eq_true_2 by lia.
Qed.

Lemma boot_ready_witness : ∃ b, kmain_memory demo_exc (replicate 256 77) (replicate 512 0) (λ _, 0) (Some []) (Some HHDM) [mkFb 0 0 0 0; mkFb 0 0 0 0] map_demo = Ok b ∧
  heap_ok (b_heap b) [Node 0 (usable_bytes map_demo - 0x200000) true].
Proof.
  destruct (boot_ready demo_exc (replicate 256 77) (replicate 512 0) (λ _, 0) (Some []) (Some HHDM) [mkFb 0 0 0 0; mkFb 0 0 0 0] [mkFb 0 0 0 0; mkFb 0 0 0 0] HHDM
    map_demo _ _ _ 20000 map_demo_bootable) as (b & p & E & _ & _ & _ & _ & Hh & _).
  - intros v. pose proof (Nat.mod_upper_bound v 256). unfold is_uN, demo_exc. lia.
  - apply length_replicate.
  - apply Forall_replicate. unfold is_uN. lia.
  - by rewrite length_replicate.
  - vm_compute. split; reflexivity.
  - reflexivity.
  - lia.
  - change (align_down 65536 64) with 65536. lia.
  - intros q Hq. split; [|intros [_ Hr]; cbn in Hr; change WM_SIZE with 67108864 in Hr; lia]. exists (Entry 0x100000 0xff00000 LIMINE_MEMMAP_USABLE).
    split; [apply elem_of_cons; right; constructor|]. split; [reflexivity|]. unfold owns. cbn. lia.
  - exists b. split; [exact E|exact Hh].
Defined.
