(* ===== verification/Layouts.v ===== *)
(** The packed structures the kernel shares with firmware, devices and disks, as their headers declare
    them, and the offsets at which the other files read them.

    The structures of [acpi.hh], [apic.hh], [pci.hh], [gdt.hh], [idt.hh], [tss.hh], [fat.hh], [ustar.hh]
    and [msd.hh] are lists of members as in [Ata]; one alternative of a union is a list of its own.  The models
    of the drivers read numbers at literal offsets; the lemmas derive each of these from the declaration. *)
From S2P Require Import Prelude Arith Mem Strings Ata Pci Msd Fat Ustar Descriptors Apic Acpi.

(** Where the member at [path] lies: its bit offset and its width. *)
Fixpoint find_path (path : list string) (o : Z) (l : list member) : option (Z * Z) :=
  match path with
  | [] => None
  | n :: path =>
      match find_member n o l with
      | Some (o, Sub _ l as m) => if decide (path = []) then Some (o, bits_of m) else find_path path o l
      | Some (o, F _ w) => if decide (path = []) then Some (o, w) else None
      | None => None
      end
  end.
Definition place_of (l : list member) (path : list string) : option (Z * Z) := find_path path 0 l.
(** The number of bytes before a member, and in it. *)
Definition byte_place (l : list member) (path : list string) : option (Z * nat) :=
  '(o, w) ← place_of l path; if (o `mod` 8 =? 0) && (w `mod` 8 =? 0) then Some (o / 8, Z.to_nat (w / 8)) else None.

Definition chars (n : string) (k : Z) : member := F n (8 * k).

(** ** Firmware tables *)

Definition gas_t : list member :=
  [F "addr_space" 8; F "reg_bit_width" 8; F "reg_bit_offset" 8; F "access_size" 8; F "address" 64].
Definition sdt_t : list member :=
  [F "sign" 32; F "length" 32; F "rev" 8; F "checksum" 8; chars "oemid" 6; chars "oemtableid" 8; F "oem_rev" 32; F "creatorid" 32;
   F "creatorrev" 32].
Definition rootptr_t : list member :=
  [chars "sign" 8; F "checksum" 8; chars "oemid" 6; F "rev" 8; F "rsdt" 32; F "length" 32; F "xsdt" 64; F "extchecksum" 8;
   chars "reserved" 3].
Definition roottable_t : list member := [Sub "hdr" sdt_t; F "arraystart" 8].
Definition x86_legacy : list member :=
  [F "legacy_devs" 1; F "i8042" 1; F "novga" 1; F "nomsi" 1; F "noaspm" 1; F "nortc" 1; F "" 10].
Definition fadt_flags : list member :=
  [F "wbinvd" 1; F "wbinvd_flush" 1; F "proc_c1" 1; F "p_lvl2_up" 1; F "power_btn" 1; F "sleep_btn" 1; F "fix_rtc" 1; F "rtc_s4" 1;
   F "tmr_val_ext" 1; F "dck_cap" 1; F "reset_reg_sup" 1; F "sealed_case" 1; F "headless" 1; F "cpu_sw_slp" 1; F "pci_exp_wak" 1].
(** The union [flags] is as wide as its wider alternative [raw]. *)
Definition fadt_t : list member :=
  [Sub "hdr" sdt_t; F "fw_ctl" 32; F "dsdt" 32; F "" 8; F "preferred_pm_prof" 8; F "sci_int" 16; F "smi_cmd_port" 32; F "acpi_enable" 8;
   F "acpi_disable" 8; F "s4bios_req" 8; F "pstate_cnt" 8; F "pm1a_evt_blk" 32; F "pm1b_evt_blk" 32; F "pm1a_ctl_blk" 32;
   F "pm1b_ctl_blk" 32; F "pm2_ctl_blk" 32; F "pm_timer" 32; F "gpe0" 32; F "gpe1" 32; F "" 24; F "pm_timer_bytes" 8; chars "r0" 17;
   Sub "x86_legacy" x86_legacy; chars "r1" 1; Sub "flags" (fadt_flags ++ [F "" 17]); chars "r2" 15; F "fadt_minor" 8; F "x_fw_ctl" 64;
   F "x_dsdt" 64; Sub "x_pm1a_evt_blk" gas_t; Sub "x_pm1b_evt_blk" gas_t; Sub "x_pm1a_ctl_blk" gas_t; Sub "x_pm1b_ctl_blk" gas_t;
   Sub "x_pm2_ctl_blk" gas_t; Sub "x_pm_timer" gas_t; Sub "x_gpe0" gas_t; Sub "x_gpe1" gas_t; Sub "sleep_ctl" gas_t; Sub "sleep_sts" gas_t;
   chars "hypervisor_id" 8].

Definition madt_flags_t : list member := [F "" 1; F "active_low" 1; F "" 1; F "lvl_triggered" 1; F "" 12].
(** [madt_entry_t] with each alternative of its union. *)
Definition madt_head : list member := [F "type" 8; F "length" 8].
Definition MADT_LAPIC : list member := madt_head ++ [F "acpi_id" 8; F "apic_id" 8; F "enabled" 1; F "capable" 1; F "" 30].
Definition MADT_IOAPIC : list member := madt_head ++ [F "id" 8; F "" 8; F "addr" 32; F "gsi_base" 32].
Definition MADT_OVERRIDE : list member := madt_head ++ [F "bus" 8; F "irq" 8; F "gsi" 32; Sub "flags" madt_flags_t].
Definition MADT_IOAPIC_NMI : list member := madt_head ++ [F "nmi_src" 8; F "" 8; Sub "flags" madt_flags_t; F "gsi" 32].
Definition MADT_LAPIC_NMI : list member := madt_head ++ [F "acpi_id" 8; Sub "flags" madt_flags_t; F "lint" 8].
Definition MADT_LAPIC_ADDR : list member := madt_head ++ [F "" 16; F "lapic" 64].
Definition MADT_LAPIC_X2APIC : list member :=
  madt_head ++ [F "" 16; F "x2apic_id" 32; F "enabled" 1; F "capable" 1; F "" 30; F "acpi_id" 32].
Definition madt_t : list member := [Sub "sdt" sdt_t; F "stuff" 32; F "stuff2" 32].

(** A number of a structure at [t] in the kernel's memory. *)
Definition member_at (l : list member) (path : list string) (m : Mem.mem) (t : Z) : option Z :=
  '(o, n) ← byte_place l path; Some (ld m (t + o) n).

Lemma acpi_members m t :
  member_at sdt_t ["sign"] m t = Some (sdt_sign m t) ∧ member_at sdt_t ["length"] m t = Some (sdt_length m t) ∧
  member_at rootptr_t ["rsdt"] m t = Some (rsdp_rsdt m t) ∧ member_at rootptr_t ["length"] m t = Some (rsdp_length m t) ∧
  member_at rootptr_t ["xsdt"] m t = Some (rsdp_xsdt m t) ∧ member_at fadt_t ["dsdt"] m t = Some (fadt_dsdt m t) ∧
  member_at fadt_t ["x86_legacy"] m t = Some (fadt_legacy m t) ∧ member_at fadt_t ["x_dsdt"] m t = Some (fadt_x_dsdt m t).
Proof. repeat split. change (member_at sdt_t ["sign"] m t) with (Some (ld m (t + 0) 4)). by rewrite Z.add_0_r. Qed.

(** The entries of the root table and of the MADT follow their headers; the sizes are the standard's. *)
Lemma acpi_sizes :
  place_of roottable_t ["arraystart"] = Some (36 * 8, 8) ∧ size_of madt_t = 44 * 8 ∧ size_of rootptr_t = 36 * 8 ∧ size_of fadt_t = 276 * 8.
Proof. repeat split. Qed.

Lemma madt_members :
  byte_place madt_head ["length"] = Some (1, 1%nat) ∧
  byte_place MADT_LAPIC ["acpi_id"] = Some (2, 1%nat) ∧ byte_place MADT_LAPIC ["apic_id"] = Some (3, 1%nat) ∧
  byte_place MADT_IOAPIC ["addr"] = Some (4, 4%nat) ∧ byte_place MADT_IOAPIC ["gsi_base"] = Some (8, 4%nat) ∧
  byte_place MADT_OVERRIDE ["irq"] = Some (3, 1%nat) ∧ byte_place MADT_OVERRIDE ["gsi"] = Some (4, 4%nat) ∧
  byte_place MADT_OVERRIDE ["flags"] = Some (8, 2%nat) ∧ place_of madt_flags_t ["active_low"] = Some (1, 1) ∧
  place_of madt_flags_t ["lvl_triggered"] = Some (3, 1) ∧ byte_place MADT_LAPIC_ADDR ["lapic"] = Some (4, 8%nat) ∧
  map size_of [MADT_LAPIC; MADT_IOAPIC; MADT_OVERRIDE; MADT_IOAPIC_NMI; MADT_LAPIC_NMI; MADT_LAPIC_ADDR; MADT_LAPIC_X2APIC]
    = map (Z.mul 8) [8; 12; 10; 10; 6; 12; 16].
Proof. repeat split. Qed.

(** ** Descriptors *)

Definition seg_desc : list member :=
  [F "accessed" 1; F "rw" 1; F "conforming" 1; F "exec" 1; F "data_code" 1; F "dpl" 2; F "present" 1].
Definition sys_seg_desc : list member := [F "type" 4; F "data_code" 1; F "dpl" 2; F "present" 1].
(** With the alternative [a] of the access byte. *)
Definition gdt_entry_t (a : list member) : list member :=
  [F "limit1" 16; F "base1" 16; F "base2" 8; Sub "access_byte" a; F "limit2" 4; F "avl" 1; F "long_mode" 1; F "size" 1;
   F "limit_in_pages" 1; F "base3" 8].
Definition idt_entry_t : list member :=
  [F "base0" 16; F "ss" 16; F "ist" 3; F "" 5; F "gate_type" 4; F "" 1; F "dpl" 2; F "present" 1; F "base1" 16; F "base2" 32; F "" 32].
Definition tss_layout : list member :=
  [F "" 32; F "rsp0" 64; F "rsp1" 64; F "rsp2" 64; F "" 64; F "ist1" 64; F "ist2" 64; F "ist3" 64; F "ist4" 64; F "ist5" 64;
   F "ist6" 64; F "ist7" 64; F "" 64; F "" 16; F "io_bm_offset" 16].

Lemma gdt_members :
  map (place_of (gdt_entry_t seg_desc))
    [["limit1"]; ["base1"]; ["base2"]; ["access_byte"]; ["access_byte"; "rw"]; ["access_byte"; "conforming"]; ["access_byte"; "exec"];
     ["access_byte"; "data_code"]; ["access_byte"; "dpl"]; ["access_byte"; "present"]; ["limit2"]; ["avl"]; ["long_mode"]; ["size"];
     ["limit_in_pages"]; ["base3"]]
  = map Some [g_limit1; g_base1; g_base2; g_access; g_rw; g_conforming; g_exec; g_data_code; g_dpl; g_present; g_limit2; g_avl; g_long_mode;
     g_size; g_limit_in_pages; g_base3] ∧
  size_of (gdt_entry_t seg_desc) = 64 ∧ size_of (gdt_entry_t sys_seg_desc) = 64.
Proof. repeat split. Qed.

Lemma idt_members :
  map (place_of idt_entry_t) [["base0"]; ["ss"]; ["ist"]; ["gate_type"]; ["dpl"]; ["present"]; ["base1"]; ["base2"]]
  = map Some [i_base0; i_ss; i_ist; i_gate_type; i_dpl; i_present; i_base1; i_base2] ∧
  size_of idt_entry_t = 128 ∧ place_of tss_layout ["io_bm_offset"] = Some (102 * 8, 16) ∧ size_of tss_layout = 104 * 8.
Proof. repeat split. Qed.

Definition ioapic_entry_t : list member :=
  [F "vector" 8; F "delivmode" 3; F "logicaldest" 1; F "delivered" 1; F "activelow" 1; F "remoteirr" 1; F "lvl_triggered" 1; F "mask" 1;
   F "" 39; F "destination" 8].
Lemma ioapic_members :
  map (place_of ioapic_entry_t)
    [["vector"]; ["delivmode"]; ["logicaldest"]; ["delivered"]; ["activelow"]; ["remoteirr"]; ["lvl_triggered"]; ["mask"]; ["destination"]]
  = map Some [e_vector; e_delivmode; e_logicaldest; e_delivered; e_activelow; e_remoteirr; e_lvl_triggered; e_mask; e_destination] ∧
  size_of ioapic_entry_t = 64.
Proof. repeat split. Qed.

(** ** PCI *)

Definition mcfg_t : list member := [Sub "hdr" sdt_t; F "" 64].
Definition cfg_space : list member := [F "base" 64; F "seggroup" 16; F "busstart" 8; F "busend" 8; F "" 32].
Definition pci_common : list member :=
  [F "vendor" 16; F "product" 16; F "cmd" 16; F "status" 16; F "rev_id" 8; F "prog_if" 8; F "subclass" 8; F "_class" 8; F "cache_size" 8;
   F "latency_timer" 8; F "hdr_type" 8; F "bist" 8].
Definition pci_type0 : list member :=
  pci_common ++ [F "bar0" 32; F "bar1" 32; F "bar2" 32; F "bar3" 32; F "bar4" 32; F "bar5" 32; F "cardbus_cis" 32; F "subsys_vendor" 16;
   F "subsys_id" 16; F "expansion_rom_addr" 32; F "capabilities" 8; F "" 24; F "" 32; F "int_line" 8; F "int_pin" 8; F "min_grant" 8;
   F "max_latency" 8].
Definition pci_type1 : list member :=
  pci_common ++ [F "bar0" 32; F "bar1" 32; F "primary_bus_num" 8; F "secondary_bus_num" 8; F "subordinate_bus_num" 8;
   F "secondary_latency_timer" 8; F "io_base" 8; F "io_limit" 8; F "secondary_status" 16; F "mem_base" 16; F "mem_limit" 16;
   F "prefetch_mem_base" 16; F "prefetch_mem_limit" 16; F "prefetchable_base_upper" 32; F "prefetchable_limit_upper" 32;
   F "io_base_upper" 16; F "io_limit_upper" 16; F "capabilities" 8; F "" 24; F "expansion_rom_addr" 32; F "int_line" 8; F "int_pin" 8;
   F "bridge_ctrl" 16].
Definition pci_msi_addr : list member :=
  [F "xx" 2; F "dest_mode" 1; F "redir_hint" 1; F "z0" 8; F "destination" 8; F "mmio" 12].
Definition pci_msi_data : list member :=
  [F "vector" 8; F "delivery" 3; F "z0" 3; F "active_hi" 1; F "lvl_trig" 1; F "z1" 16; F "z2" 32].
Definition pci_msi_control : list member :=
  [F "enable" 1; F "multi_msg_capable" 3; F "multi_msg_enable" 3; F "bits64" 1; F "per_vector_masking" 1; F "" 7].

(** The registers [PciRegs] names that no other file uses. *)
Definition REVID := Pci.mkReg 0x08 8.
Definition BAR0 := Pci.mkReg 0x10 32.
Definition BAR1 := Pci.mkReg 0x14 32.
Definition BAR2 := Pci.mkReg 0x18 32.
Definition BAR3 := Pci.mkReg 0x1c 32.
Definition BAR4 := Pci.mkReg 0x20 32.
Definition BAR5 := Pci.mkReg 0x24 32.
Definition BAR6 := Pci.mkReg 0x28 32.
Definition INTLINE := Pci.mkReg 0x3c 8.
Definition INTPIN := Pci.mkReg 0x3d 8.
Definition MINGRANT := Pci.mkReg 0x3e 8.
Definition MAXLATEN := Pci.mkReg 0x3f 8.

(** A register is the member of the header it is named after. *)
Definition register_of (l : list member) (n : string) : option pci_register_t :=
  '(o, w) ← place_of l [n]; Some (Pci.mkReg (o / 8) w).

Lemma pci_registers :
  map (register_of pci_type0)
    ["vendor"; "product"; "cmd"; "status"; "rev_id"; "prog_if"; "subclass"; "_class"; "hdr_type"; "bar0"; "bar1"; "bar2"; "bar3"; "bar4";
     "bar5"; "capabilities"; "int_line"; "int_pin"; "min_grant"; "max_latency"]
  = map Some [VENDOR; PRODUCT; PCI_CMD; STS; REVID; PROGIF; SUBCLASS; CLASS; HDRTYPE; BAR0; BAR1; BAR2; BAR3; BAR4; BAR5; CAPSPTR; INTLINE;
     INTPIN; MINGRANT; MAXLATEN] ∧
  map (register_of pci_type1) ["primary_bus_num"; "secondary_bus_num"; "capabilities"; "int_line"] = map Some [PRIMARYBUS; SECONDARYBUS; CAPSPTR; INTLINE] ∧
  size_of pci_type0 = 64 * 8 ∧ size_of pci_type1 = 64 * 8.
Proof. repeat split. Qed.

Lemma bar_registers : map bar_register [0; 1; 2; 3; 4; 5] = [BAR0; BAR1; BAR2; BAR3; BAR4; BAR5].
Proof. done. Qed.

(** There is no seventh base address register: [BAR6] is the pointer to the CardBus information. *)
Example bar6_is_cardbus : register_of pci_type0 "cardbus_cis" = Some BAR6.
Proof. done. Qed.

(** The message data has 32 bits more than the [raw] it shares its place with. *)
Example msi_data_wide : size_of pci_msi_data = 64 ∧ size_of pci_msi_addr = 32 ∧ size_of pci_msi_control = 16.
Proof. done. Qed.

(** ** Disks *)

Definition gpt : list member :=
  [F "magic" 64; F "rev" 32; F "size" 32; F "crc32" 32; F "" 32; F "lba" 64; F "altlba" 64; F "firstlba" 64; F "lastlba" 64; chars "guid" 16;
   F "startlba" 64; F "num_parts" 32; F "entry_size" 32; F "partscrc32" 32].
Definition GPTEntry : list member := [chars "type" 16; chars "guid" 16; F "start" 64; F "end" 64; F "attr" 64; chars "name" 72].

(** A number of a structure that begins a buffer. *)
Definition member_of (l : list member) (path : list string) (e : list Z) : option Z :=
  '(o, n) ← byte_place l path; Some (field e (Z.to_nat o) n).

Lemma gpt_members e :
  byte_place gpt ["startlba"] = Some (72, 8%nat) ∧ byte_place gpt ["num_parts"] = Some (80, 4%nat) ∧
  member_of GPTEntry ["type"] e = Some (entry_type e) ∧ member_of GPTEntry ["start"] e = Some (entry_start e) ∧
  member_of GPTEntry ["end"] e = Some (entry_end e) ∧ byte_place GPTEntry ["name"] = Some (56, 72%nat) ∧ size_of GPTEntry = 128 * 8.
Proof. repeat split. Qed.

Definition bpb_ext : list member :=
  [F "sectorsperfat" 32; F "flags" 16; F "fatver" 16; F "rootdir_cluster" 32; F "fsinfo_cluster" 32; F "bootbak_cluster" 32; chars "zero" 12;
   F "drive_num" 8; F "windows_nt_flags" 8; F "sign" 8; F "volume_id" 32; chars "volume_label" 11; chars "identifier" 8; chars "code" 420;
   F "bootsign" 16].
Definition fat_bpb : list member :=
  [chars "jmp" 3; chars "oem" 8; F "bytespersector" 16; F "sectorspercluster" 8; F "num_reserved_sectors" 16; F "num_fats" 8;
   F "num_root_dir_ents" 16; F "num_sectors" 16; F "media_desc_type" 8; F "sectorsperfat" 16; F "sectorspertrack" 16; F "numheads" 16;
   F "num_hidden_sectors" 32; F "num_sectors_ext" 32; Sub "ext" bpb_ext].
Definition fat_fsinfo : list member :=
  [F "sign" 32; chars "reserved" 480; F "sign2" 32; F "last_known_free" 32; F "last_known_alloc" 32; chars "reserved2" 12; F "bootsign" 32].
Definition fat_time : list member := [F "hour" 5; F "minutes" 6; F "seconds" 5].
Definition fat_date : list member := [F "year" 7; F "month" 4; F "day" 5].
Definition fat_entry_layout : list member :=
  [chars "simplename" 11; F "attrs" 8; F "" 8; F "precisetime" 8; Sub "ctime" fat_time; Sub "cdate" fat_date; Sub "adate" fat_date;
   F "cluster_hi16" 16; Sub "mtime" fat_time; Sub "mdate" fat_date; F "cluster_lo16" 16; F "size" 32].
Definition fat_lfn_entry : list member :=
  [F "order" 5; F "" 2; F "last_lfn_ent" 1; F "no1" (5 * 16); F "attr" 8; F "long_entry_type" 8; F "short_name_checksum" 8; F "no2" (6 * 16);
   F "zero" 16; F "no3" (2 * 16)].

Lemma fat_members e :
  map (byte_place fat_bpb) [["bytespersector"]; ["sectorspercluster"]; ["num_reserved_sectors"]; ["num_fats"]; ["ext"; "sectorsperfat"]]
    = [Some (11, 2%nat); Some (13, 1%nat); Some (14, 2%nat); Some (16, 1%nat); Some (36, 4%nat)] ∧
  member_of fat_entry_layout ["attrs"] e = Some (entry_attrs e) ∧ member_of fat_entry_layout ["cluster_lo16"] e = Some (cluster_lo16 (read_entry e)) ∧
  member_of fat_entry_layout ["cluster_hi16"] e = Some (cluster_hi16 (read_entry e)) ∧
  member_of fat_entry_layout ["size"] e = Some (Fat.size (read_entry e)) ∧
  size_of fat_entry_layout = 32 * 8 ∧ size_of fat_lfn_entry = 32 * 8 ∧ size_of fat_fsinfo = 512 * 8.
Proof. repeat split. Qed.

(** The boot sector's structure is 516 bytes long: its last members lie past the sector that is read for it, in the
    512 bytes that belong to [fat_fsinfo]. *)
Example bpb_too_long : size_of fat_bpb = 516 * 8 ∧ byte_place fat_bpb ["ext"; "bootsign"] = Some (514, 2%nat).
Proof. done. Qed.

Definition ustar_header : list member :=
  [chars "name" 100; F "filemode" 64; F "ownerid" 64; F "groupid" 64; chars "filesize" 12; chars "lastmodif" 12; F "checksum" 64;
   F "typeflags" 8; chars "linkedname" 100; chars "ustarmagic" 6; chars "ustarver" 2; chars "ownername" 32; chars "groupname" 32;
   F "devmajor" 64; F "devminor" 64; chars "prefix" 155; chars "padding" 12].

Lemma ustar_members h :
  ('(o, _) ← byte_place ustar_header ["filesize"]; Some (drop (Z.to_nat o) h)) = Some (header_filesize h) ∧
  ('(o, _) ← byte_place ustar_header ["ustarmagic"]; Some (drop (Z.to_nat o) h)) = Some (header_magic h) ∧
  byte_place ustar_header ["filesize"] = Some (124, 12%nat) ∧ size_of ustar_header = 512 * 8.
Proof. repeat split. Qed.
