(* ===== verification/Smp.v ===== *)
(** Starting the other processors ([arch/amd64/smp.cc], the end of [arch_parse_madt] in [arch/amd64/apic.cc]) and
    assigning interrupts to drivers ([arch/amd64/amd64.cc]).

    The boot processor releases the others, which set themselves up one step at a time while it waits for them
    with a deadline.  A step is a call under a lock or a store to shared memory; a schedule says whose step is
    next, and [Tick] is the timer interrupt.  Of the memory the processors share the bytes of the GDTs are kept. *)
From S2P Require Import Prelude Arith Async Bitmap Mem Pmm Descriptors Apic Dma Machine Boot.

(** ** The processors *)

(** Where a processor is in [ap_init]: waiting for [goto_address]; in [arch_gdt_init], [arch_tss_init],
    [arch_idt_init] and the rest of [arch_late_init(false)]; at the loop that reports it; in [pause()].  [Dead] is
    [fatal()]. *)
Inductive stage :=
| Parked | Gdt | Clear (gdt : Z) | Fill (gdt : Z) | Tss (gdt : Z) | Stack (gdt tss : Z) | Descriptor (gdt tss : Z)
| Idt | Vectors | Thread | Report | Halted | Dead.
#[global] Instance stage_eq_dec : EqDecision stage.
Proof. solve_decision. Defined.
Record ap := mkAp { lapic_id : Z; at_ : stage }.
(** The boot processor: in [smp_init], in the loop over the processors, behind it. *)
Inductive bsp := Starting (i : nat) | Waiting (i : nat) | Through.
(** [late]: the reports of the deadline, with the time; [given]: the blocks the processors have been given, with
    the owner, in order (the latter is not part of the program). *)
Record machine := mkMachine {
  mm : pmm; tables : Mem.mem; handlers : list isr; lapics : list lapic_t; clock : timers; aps : list ap; boot : bsp;
  late : list (Z * Z); given : list (nat * Z * Z) }.

Definition with_mm s m := mkMachine m (tables s) (handlers s) (lapics s) (clock s) (aps s) (boot s) (late s) (given s).
Definition with_tables s t := mkMachine (mm s) t (handlers s) (lapics s) (clock s) (aps s) (boot s) (late s) (given s).
Definition with_handlers s h := mkMachine (mm s) (tables s) h (lapics s) (clock s) (aps s) (boot s) (late s) (given s).
Definition with_lapics s l := mkMachine (mm s) (tables s) (handlers s) l (clock s) (aps s) (boot s) (late s) (given s).
Definition with_clock s c := mkMachine (mm s) (tables s) (handlers s) (lapics s) c (aps s) (boot s) (late s) (given s).
Definition with_boot s b l := mkMachine (mm s) (tables s) (handlers s) (lapics s) (clock s) (aps s) b l (given s).
Definition with_given s g := mkMachine (mm s) (tables s) (handlers s) (lapics s) (clock s) (aps s) (boot s) (late s) g.
Definition goto (k : nat) (a : ap) (x : stage) s :=
  mkMachine (mm s) (tables s) (handlers s) (lapics s) (clock s) (<[k := mkAp (lapic_id a) x]> (aps s)) (boot s) (late s) (given s).

Section Smp.
(** The local APIC of the boot processor, which is in the loader's list as well. *)
Context (bspid : Z).

(** [goto_address] of the [k]-th processor is set. *)
Definition released (s : machine) (k : nat) : bool := match boot s with Starting i => (k <? i)%nat | _ => true end.

(** A block of the watermark allocator.  When there is none, the processor stops inside the allocator and the lock
    stays taken; while it is taken, the others wait. *)
Definition take_wm (k : nat) (a : ap) (size : Z) (next : Z → stage) (s : machine) : machine :=
  match wm_alloc (mm s) size 16 with
  | Ok (p, m) => goto k a (next p) (with_given (with_mm s m) (given s ++ [(k, p, size)]))
  | Fatal _ =>
      let m := mm s in
      goto k a Dead (with_mm s (mkPmm (pmm_bm m) (pmm_buffer m) (pmm_freemem m) (pmm_usedmem m) (pmm_mutex m) (wm_cursor m) (wm_free m) 1))
  | _ => s
  end.
Definition take_stack (k : nat) (a : ap) (next : stage) (s : machine) : machine :=
  match pmm_alloc (mm s) INTR_STACK_SIZE with
  | Ok (_, m) => goto k a next (with_mm s m)
  | Fatal _ =>
      let m := mm s in
      goto k a Dead (with_mm s (mkPmm (pmm_bm m) (pmm_buffer m) (pmm_freemem m) (pmm_usedmem m) 1 (wm_cursor m) (wm_free m) (wm_mutex m)))
  | _ => s
  end.

Definition put_entries (m : Mem.mem) (g : Z) : Mem.mem :=
  sto (sto (sto (sto m (g + 8) 8 kernel_code) (g + 16) 8 kernel_data) (g + 24) 8 user_data) (g + 32) 8 user_code.
Definition put_tss (m : Mem.mem) (g t : Z) : Mem.mem :=
  let m := sto m (g + 40) 8 (tss_low (ld m (g + 40) 8) t) in
  sto m (g + 48) 8 (tss_high (ld m (g + 48) 8) t).

(** [ap_init] *)
Definition ap_step (k : nat) (s : machine) : machine :=
  match aps s !! k with
  | None => s
  | Some a =>
      match at_ a with
      | Parked => if released s k && negb (lapic_id a =? bspid) then goto k a Gdt s else s
      | Gdt => take_wm k a (8 * 8) Clear s
      | Clear g => goto k a (Fill g) (with_tables s (memset (tables s) g 0 0x1000))
      | Fill g => goto k a (Tss g) (with_tables s (put_entries (tables s) g))
      | Tss g => take_wm k a 128 (Stack g) s
      | Stack g t => take_stack k a (Descriptor g t) s
      | Descriptor g t => goto k a Idt (with_tables s (put_tss (tables s) g t))
      | Idt => take_wm k a 0x1000 (λ _, Vectors) s
      | Vectors => goto k a Thread (with_handlers s (replicate 256 onInterrupt))
      | Thread => take_wm k a sizeof_thread_info (λ _, Report) s
      | Report => goto k a Halted (with_lapics s (ap_up (lapic_id a) (lapics s)))
      | Halted | Dead => s
      end
  end.

(** [smp_init], [arch_start_timer], and the loop that waits. *)
Definition bsp_step (s : machine) : machine :=
  match boot s with
  | Starting i =>
      if (i <? length (aps s))%nat then with_boot s (Starting (S i)) (late s)
      else with_boot (with_clock s (arch_start_timer (clock s))) (Waiting 0) (late s)
  | Waiting i =>
      match lapics s !! i with
      | None => with_boot s Through (late s)
      | Some c =>
          if up c then with_boot s (Waiting (S i)) (late s)
          else if arch_elapsed (clock s) 300 then with_boot s (Waiting (S i)) (late s ++ [(apic_id c, tmr_counter (clock s))])
          else s
      end
  | Through => s
  end.

Inductive label := Bsp | Ap (k : nat) | Tick.
#[global] Instance label_eq_dec : EqDecision label.
Proof. solve_decision. Defined.
Definition mstep (s : machine) (l : label) : machine :=
  match l with
  | Bsp => bsp_step s
  | Ap k => ap_step k s
  | Tick => with_clock s (mkTimers (u64 (tmr_counter (clock s) + 1)) (timer (clock s)))
  end.
Definition run (ls : list label) (s : machine) : machine := foldl mstep s ls.
End Smp.

(** ** Interrupts of drivers *)

Definition arch_alloc_isr (handler : list isr) (h : isr) : res (nat * list isr) := idt_allocate_vector handler h.
Definition arch_assign_irq (bspid : Z) (s : apic) (irq : Z) (h : isr) (handler : list isr) (c : chips) : res (list isr * chips) :=
  '(v, handler) ← idt_allocate_vector handler h;
  c ← arch_ioapic_initialize_irq s irq (Z.of_nat v) FIXED bspid c;
  c ← arch_ioapic_mask_irq s irq false c;
  Ok (handler, c).

(** ** What a step changes *)

Section Steps.
Context (bspid : Z).
Implicit Types s : machine.

(** Entries keep their place and name, and a processor that is up stays up. *)
Definition ups (l l' : list lapic_t) : Prop := Forall2 (λ c c', apic_id c' = apic_id c ∧ (up c = true → up c' = true)) l l'.
#[global] Instance ups_po : PreOrder ups.
Proof.
  split.
  - intros l. apply Forall_Forall2_diag, Forall_true. done.
  - intros l1 l2 l3 H12. revert l3. induction H12 as [|a b l1 l2 [H1 H2] _ IH]; intros l3 H23; inversion H23 as [|? c ? l4 [H3 H4] H5]; subst; constructor; [|by apply IH].
    split; [congruence|auto].
Qed.
Lemma ap_up_ups id l : ups l (ap_up id l).
Proof. induction l as [|c l IH]; constructor; [|done]. by destruct (apic_id c =? id). Qed.

Definition halted s (id : Z) : Prop := ∃ (k : nat) a, aps s !! k = Some a ∧ lapic_id a = id ∧ at_ a = Halted.

(** A step of a processor moves only itself: it stays where it is or goes on, keeping its name. *)
Lemma ap_step_moves k s : ap_step bspid k s = s ∨
  ∃ a x, aps s !! k = Some a ∧ at_ a ≠ Halted ∧ aps (ap_step bspid k s) = <[k := mkAp (lapic_id a) x]> (aps s) ∧
    (lapics (ap_step bspid k s) = lapics s ∧ x ≠ Halted ∨ at_ a = Report ∧ x = Halted ∧ lapics (ap_step bspid k s) = ap_up (lapic_id a) (lapics s)).
Proof.
  unfold ap_step, take_wm, take_stack. destruct (aps s !! k) as [a|] eqn:Ea; [|by left].
  destruct (at_ a) eqn:Es; try (by left);
    try (match goal with |- context [if ?b then _ else _] => destruct b end; [|by left]);
    try (destruct (wm_alloc _ _ _) as [[p m]|?| | |]); try (destruct (pmm_alloc _ _) as [[p m]|?| | |]); try (by left);
    right; eexists a, _; (split_and!; [done|congruence|reflexivity|]); first [by left|right; done].
Qed.
Lemma ap_step_rest k s : clock (ap_step bspid k s) = clock s ∧ boot (ap_step bspid k s) = boot s ∧ late (ap_step bspid k s) = late s.
Proof.
  unfold ap_step, take_wm, take_stack. destruct (aps s !! k) as [a|]; [|done]. destruct (at_ a); repeat case_match; done.
Qed.

Lemma mstep_ups s l : ups (lapics s) (lapics (mstep bspid s l)).
Proof.
  destruct l as [|k|]; cbn [mstep].
  - unfold bsp_step. destruct (boot s); repeat case_match; done.
  - destruct (ap_step_moves k s) as [->|(a & x & _ & _ & _ & [[-> _]|(_ & _ & ->)])]; [done..|apply ap_up_ups].
  - done.
Qed.
Lemma bsp_step_aps s : aps (bsp_step s) = aps s ∧ lapics (bsp_step s) = lapics s ∧ given (bsp_step s) = given s ∧ mm (bsp_step s) = mm s ∧ tmr_counter (clock (bsp_step s)) = tmr_counter (clock s).
Proof. unfold bsp_step. destruct (boot s); repeat case_match; done. Qed.

Lemma mstep_halted s l id : halted s id → halted (mstep bspid s l) id.
Proof.
  intros (k & a & Ha & Hid & Hst). destruct l as [|j|]; cbn [mstep].
  - exists k, a. by rewrite (proj1 (bsp_step_aps s)).
  - destruct (ap_step_moves j s) as [->|(b & x & Hb & Hne & E & _)]; [by exists k, a|].
    exists k, a. rewrite E, list_lookup_insert_ne; [done|]. intros ->. congruence.
  - by exists k, a.
Qed.

(** A processor that is up has been up before or has reported itself. *)
Lemma mstep_new s l i c : lapics (mstep bspid s l) !! i = Some c → up c = true →
  (∃ c', lapics s !! i = Some c' ∧ apic_id c' = apic_id c ∧ up c' = true) ∨ halted (mstep bspid s l) (apic_id c).
Proof.
  intros Hc Hu. destruct l as [|k|]; cbn [mstep] in *.
  - left. exists c. by rewrite <- (proj1 (proj2 (bsp_step_aps s))).
  - destruct (ap_step_moves k s) as [E|(a & x & Ha & Hne & E & [[E' _]|(Hr & -> & E')])].
    + rewrite E in *. left. by exists c.
    + left. exists c. by rewrite <- E'.
    + rewrite E' in Hc. unfold ap_up in Hc. rewrite list_lookup_fmap in Hc. destruct (lapics s !! i) as [c'|] eqn:Ec; [|done].
      injection Hc as Hc. destruct (Z.eqb_spec (apic_id c') (lapic_id a)) as [Hid|]; [|left; exists c'; by subst].
      right. exists k, (mkAp (lapic_id a) Halted). rewrite E. split_and!; [apply list_lookup_insert_eq; by eapply lookup_lt_Some|by subst|done].
  - left. by exists c.
Qed.
End Steps.

(** ** What the boot processor finds *)

Section Outcome.
Context (bspid : Z) (l0 : list lapic_t) (t0 : Z).
Implicit Types s : machine.

(** How many processors the loop is done with. *)
Definition seen s : nat := match boot s with Starting _ => 0 | Waiting i => i | Through => length (lapics s) end.
Definition settled s (c : lapic_t) : Prop := up c = true ∨ ∃ t, (apic_id c, t) ∈ late s ∧ timer (clock s) + 300 < t ≤ tmr_counter (clock s).

(** After [n] steps. *)
Record waited (n : nat) s : Prop := {
  w_ups : ups l0 (lapics s);
  w_time : 0 ≤ timer (clock s) ≤ tmr_counter (clock s) ∧ tmr_counter (clock s) ≤ t0 + Z.of_nat n;
  w_start : ∀ i, boot s = Starting i → late s = [];
  w_up : ∀ i c, lapics s !! i = Some c → up c = true → (∃ c0, l0 !! i = Some c0 ∧ up c0 = true) ∨ halted s (apic_id c);
  w_seen : ∀ i c, (i < seen s)%nat → lapics s !! i = Some c → settled s c }.

Lemma settled_step s l c c' : apic_id c' = apic_id c → (up c = true → up c' = true) →
  timer (clock (mstep bspid s l)) = timer (clock s) → tmr_counter (clock s) ≤ tmr_counter (clock (mstep bspid s l)) →
  (∀ x, x ∈ late s → x ∈ late (mstep bspid s l)) → settled s c → settled (mstep bspid s l) c'.
Proof. intros Hid Hup Ht Hc Hl [H|(t & H & Hx)]; [left; auto|right]. exists t. rewrite Hid, Ht. split; [auto|lia]. Qed.

(** The time and the reports under a step. *)
Lemma mstep_time n s l : waited n s → t0 + Z.of_nat n + 1 < 2 ^ 63 → let s' := mstep bspid s l in
  0 ≤ timer (clock s') ≤ tmr_counter (clock s') ∧ tmr_counter (clock s') ≤ t0 + Z.of_nat (S n) ∧ tmr_counter (clock s) ≤ tmr_counter (clock s') ∧
  (late s ≠ [] ∨ seen s ≠ 0%nat → timer (clock s') = timer (clock s)).
Proof.
  intros [_ [T1 T2] Hst _ _] Hb s'. destruct l as [|k|]; cbn [mstep] in s'; subst s'.
  - unfold bsp_step, seen. destruct (boot s) as [i|i|] eqn:Eb; repeat case_match; cbn [clock with_boot with_clock arch_start_timer tmr_counter timer]; try (split_and!; [lia..|done]).
    split_and!; [lia..|]. intros [Hl|Hl]; [|done]. by rewrite (Hst i eq_refl) in Hl.
  - destruct (ap_step_rest bspid k s) as (-> & _). split_and!; [lia..|done].
  - cbn. rewrite uN_small by (unfold is_uN; lia). split_and!; [lia..|done].
Qed.
Lemma mstep_late s l x : x ∈ late s → x ∈ late (mstep bspid s l).
Proof.
  intros H. destruct l as [|k|]; cbn [mstep]; [|by rewrite (proj2 (proj2 (ap_step_rest bspid k s)))|done].
  unfold bsp_step. destruct (boot s); repeat case_match; cbn; try done. apply elem_of_app. by left.
Qed.

(** The loop goes on only when the processor it looks at is settled. *)
Lemma mstep_seen n s l i c : waited n s → t0 + Z.of_nat n + 1 < 2 ^ 63 → (seen s ≤ i)%nat → (i < seen (mstep bspid s l))%nat →
  lapics (mstep bspid s l) !! i = Some c → settled (mstep bspid s l) c.
Proof.
  intros Hw Hb Hlo Hhi Hc. pose proof (Forall2_length _ _ _ (mstep_ups bspid s l)) as Hlen. unfold seen in Hlo, Hhi. destruct l as [|k|]; cbn [mstep] in *.
  - rewrite (proj1 (proj2 (bsp_step_aps s))) in *. unfold bsp_step in *. destruct (boot s) as [j|j|] eqn:Eb; [destruct (j <? _)%nat; cbn in Hhi; lia| |rewrite Eb in Hhi; lia].
    destruct (lapics s !! j) as [d|] eqn:Ej; [|cbn in Hhi; apply lookup_ge_None in Ej; lia].
    assert (i = j) as -> by (destruct (up d), (arch_elapsed (clock s) 300); cbn in Hhi; rewrite ?Eb in Hhi; lia). rewrite Ej in Hc. injection Hc as <-.
    destruct (up d) eqn:Eu; [by left|]. destruct (arch_elapsed (clock s) 300) eqn:El; [|rewrite Eb in Hhi; lia].
    right. exists (tmr_counter (clock s)). cbn. split; [apply elem_of_app; right; by apply list_elem_of_singleton|].
    pose proof (w_time _ _ Hw). unfold arch_elapsed in El. apply Z.ltb_lt in El. rewrite uN_small in El by (unfold is_uN; lia). lia.
  - destruct (ap_step_rest bspid k s) as (_ & Eb & _). rewrite Eb in Hhi. destruct (boot s); lia.
  - cbn in Hhi; destruct (boot s); lia.
Qed.

Lemma waited_step n s l : waited n s → t0 + Z.of_nat n + 1 < 2 ^ 63 → waited (S n) (mstep bspid s l).
Proof.
  intros Hw Hb. pose proof (mstep_time n s l Hw Hb) as (T1 & T2 & T3 & T4). cbn zeta in T1, T2, T3, T4. pose proof (mstep_ups bspid s l) as Hu. split.
  - by rewrite (w_ups _ _ Hw).
  - lia.
  - intros i Hi. destruct l as [|k|]; cbn [mstep] in *.
    + unfold bsp_step in *. destruct (boot s) as [j|j|] eqn:Eb; [|repeat case_match; cbn in Hi; congruence|congruence].
      destruct (j <? _)%nat; cbn in *; [|done]. by apply (w_start _ _ Hw j).
    + destruct (ap_step_rest bspid k s) as (_ & Eb & ->). apply (w_start _ _ Hw i). congruence.
    + by apply (w_start _ _ Hw i).
  - intros i c Hc Hup. destruct (mstep_new bspid s l i c Hc Hup) as [(c' & Hc' & Hid & Hup')|?]; [|by right].
    destruct (w_up _ _ Hw i c' Hc' Hup') as [?|Hh]; [by left|right]. rewrite <- Hid. by apply mstep_halted.
  - intros i c Hi Hc. destruct (decide (seen s ≤ i)%nat) as [Hge|Hlt]; [by eapply mstep_seen|].
    destruct (Forall2_lookup_r _ _ _ _ _ Hu Hc) as (c1 & Hc1 & Hid & Hup). pose proof (w_seen _ _ Hw i c1 ltac:(lia) Hc1) as Hset.
    eapply settled_step; [done|done|apply T4; right; lia|done|apply mstep_late|done].
Qed.
End Outcome.

(** ** The blocks that are handed out *)

(** In order and one behind the other, between [lo] and [hi]. *)
Definition separated (lo hi : Z) (l : list (nat * Z * Z)) : Prop :=
  Forall (λ b, lo ≤ b.1.2 ∧ b.1.2 + b.2 ≤ hi) l ∧
  ∀ i j a b, (i < j)%nat → l !! i = Some a → l !! j = Some b → a.1.2 + a.2 ≤ b.1.2.
Lemma separated_snoc lo hi hi' l k p n : separated lo hi l → lo ≤ hi → hi ≤ p → p + n ≤ hi' → 0 ≤ n → separated lo hi' (l ++ [(k, p, n)]).
Proof.
  intros [H1 H2] Hlo Hp Hn Hn0. split.
  - apply Forall_app. split; [|apply Forall_singleton; cbn; lia]. eapply Forall_impl; [exact H1|]. cbn. intros b Hb. lia.
  - intros i j a b Hij Ha Hb. pose proof (lookup_lt_Some _ _ _ Hb) as Hj. rewrite length_app in Hj. cbn in Hj.
    rewrite lookup_app_l in Ha by lia. destruct (decide (j < length l)%nat).
    + rewrite lookup_app_l in Hb by done. by apply (H2 i j).
    + rewrite lookup_app_r in Hb by lia. replace (j - length l)%nat with 0%nat in Hb by lia. injection Hb as <-.
      apply (Forall_lookup_1 _ _ _ _ H1) in Ha. cbn. lia.
Qed.

(** The watermark allocator, whether or not somebody has died in it. *)
Definition wm_area (m : pmm) (e : Z) : Prop :=
  wm_cursor m + wm_free m = e ∧ 0 < wm_cursor m ∧ 0 ≤ wm_free m ∧ e < 2 ^ 64 - 2 ^ 32.
Definition handed (lo e : Z) (s : machine) : Prop := wm_area (mm s) e ∧ lo ≤ wm_cursor (mm s) ∧ separated lo (wm_cursor (mm s)) (given s).

Lemma take_wm_handed lo e k a size next s : handed lo e s → 0 < size ≤ 4096 → handed lo e (take_wm k a size next s).
Proof.
  intros (Ha & Hlo & Hs) Hn. unfold take_wm. destruct (wm_alloc (mm s) size 16) as [[p m]|?| | |] eqn:E; [|done..].
  assert (wm_ok (mm s) e) as Hok.
  { destruct Ha as (A1 & A2 & A3 & A4). split; [done|done|]. unfold wm_alloc, lock in E. destruct (Z.eqb_spec (wm_mutex (mm s)) 0); [done|discriminate E]. }
  destruct (wm_alloc_spec (mm s) e size 16 Hok) as [(p' & m' & E' & _ & Hp & Hsz & Hc & He & Hok' & _)|[E' _]]; [lia|lia| |congruence].
  rewrite E in E'. injection E' as <- <-. unfold handed. cbn [mm given goto with_given with_mm]. destruct Hok' as [B1 B2 _].
  split_and!; [by split|lia|]. rewrite Hc. apply (separated_snoc lo (wm_cursor (mm s))); [done|lia|lia|lia|lia].
Qed.
Lemma take_stack_handed lo e k a next s : handed lo e s → handed lo e (take_stack k a next s).
Proof.
  intros H. unfold take_stack. destruct (pmm_alloc (mm s) INTR_STACK_SIZE) as [[p m]|?| | |] eqn:E; [|done..].
  unfold pmm_alloc, alloc_from in E. apply bind_Ok in E as (x & _ & E). apply bind_Ok in E as ([b bm] & _ & E).
  destruct (b =? NPOS); [done|]. by injection E as _ <-.
Qed.
Lemma handed_step bspid lo e s l : handed lo e s → handed lo e (mstep bspid s l).
Proof.
  intros H. destruct l as [|k|]; cbn [mstep].
  - unfold handed. destruct (bsp_step_aps s) as (_ & _ & -> & -> & _). done.
  - unfold ap_step. destruct (aps s !! k) as [a|]; [|done].
    destruct (at_ a); try done; try (case_match; done); try (apply take_wm_handed; [done|unfold sizeof_thread_info; lia]). by apply take_stack_handed.
  - done.
Qed.

(** ** Room for everybody *)









(** ** Schedules *)


(** What every step keeps, every schedule keeps. *)
Lemma run_keeps bspid (P : machine → Prop) ls : (∀ s l, P s → P (mstep bspid s l)) → ∀ s, P s → P (run bspid ls s).
Proof. intros HP. induction ls as [|l ls IH]; intros s Hs; [done|]. apply IH. by apply HP. Qed.
Lemma waited_run bspid l0 t0 ls : ∀ n s, waited l0 t0 n s → t0 + Z.of_nat (n + length ls) < 2 ^ 63 → waited l0 t0 (n + length ls) (run bspid ls s).
Proof.
  induction ls as [|l ls IH]; intros n s Hw Hb; cbn [length] in *; [by rewrite Nat.add_0_r|]. rewrite Nat.add_succ_r, <- Nat.add_succ_l in *.
  apply IH; [|lia]. apply waited_step; [done|lia].
Qed.

(** Before [smp_init]. *)
Record fresh (s : machine) : Prop := {
  f_boot : boot s = Starting 0; f_late : late s = []; f_given : given s = []; f_parked : Forall (λ a, at_ a = Parked) (aps s);
  f_time : 0 ≤ timer (clock s) ≤ tmr_counter (clock s) }.

(** C11: however the steps of the processors and the timer interleave, when the boot processor goes on, every processor of the
    MADT has come up or has been reported after more than 300 ticks; a processor counts as up only if it was up before
    or has finished setting itself up; and the blocks the processors set up their tables in are disjoint. *)
Theorem smp_outcome bspid e s ls : fresh s → wm_area (mm s) e → tmr_counter (clock s) + Z.of_nat (length ls) < 2 ^ 63 → let s' := run bspid ls s in
  ups (lapics s) (lapics s') ∧ (boot s' = Through → Forall (settled s') (lapics s')) ∧
  (∀ i c, lapics s' !! i = Some c → up c = true → (∃ c0, lapics s !! i = Some c0 ∧ up c0 = true) ∨ halted s' (apic_id c)) ∧
  separated (wm_cursor (mm s)) (wm_cursor (mm s')) (given s').
Proof.
  intros [F1 F2 F3 F4 F5] Ha Hb s'.
  assert (waited (lapics s) (tmr_counter (clock s)) 0 s) as W0.
  { split; [done|lia|by intros|by left; eexists|]. intros i c Hi. unfold seen in Hi. rewrite F1 in Hi. lia. }
  pose proof (waited_run bspid _ _ ls 0 s W0 Hb) as [W1 _ _ W4 W5]. fold s' in W1, W4, W5.
  assert (handed (wm_cursor (mm s)) e s') as (_ & _ & Hs).
  { apply run_keeps; [apply handed_step|]. split_and!; [done|done|]. rewrite F3. split; [done|]. by intros i j a b _ H. }
  split_and!; [done| |done|done]. intros Ht. apply Forall_lookup. intros i c Hc. apply (W5 i c); [|done].
  unfold seen. rewrite Ht. by eapply lookup_lt_Some.
Qed.

(** ** Progress *)

Section Progress.
Context (bspid : Z).
Implicit Types s : machine.




End Progress.

Section Deadline.
Context (bspid : Z).
Implicit Types s : machine.




End Deadline.


(** ** A run *)

Definition demo_pmm : pmm := mkPmm (mkBitmap (replicate 24 0) 1536) 0 0x600000 0 0 (VIRTUAL 0x10000000) WM_SIZE 0.
Definition demo_machine : machine :=
  mkMachine demo_pmm (λ _, 0xff) (replicate 256 onInterrupt) [mkLapic 1 1 false; mkLapic 2 2 false] (mkTimers 1000 900)
    [mkAp 0 Parked; mkAp 1 Parked; mkAp 2 Parked] (Starting 0) [] [].
Definition both (n : nat) : list label := concat (replicate n [Ap 1; Ap 2; Tick]).


Lemma smp_outcome_witness : let s := run 0 (replicate 4 Bsp ++ both 11 ++ replicate 3 Bsp) demo_machine in
  boot s = Through ∧ Forall (settled s) (lapics s) ∧ separated (VIRTUAL 0x10000000) (wm_cursor (mm s)) (given s) ∧ zlen (given s) = 8.
Proof.
  assert (fresh demo_machine) as Hf by (split; [reflexivity..|repeat constructor|cbn; lia]).
  assert (wm_area (mm demo_machine) (VIRTUAL 0x10000000 + WM_SIZE)) as Ha by (vm_compute; split_and!; (done || discriminate)).
  destruct (smp_outcome 0 _ demo_machine (replicate 4 Bsp ++ both 11 ++ replicate 3 Bsp) Hf Ha) as (_ & H1 & _ & H2); [cbn; lia|].
  cbn zeta. split; [vm_compute; reflexivity|]. split; [apply H1; vm_compute; reflexivity|]. split; [exact H2|vm_compute; reflexivity].
Defined.


(** ** Interference *)

(** A processor clears 4 KiB for its GDT of 64 bytes: a table of another processor that begins behind it is gone. *)
Lemma clear_wipes bspid s (k : nat) a g h j : aps s !! k = Some a → at_ a = Clear g → g ≤ h → h + 64 ≤ g + 0x1000 → 0 ≤ j < 8 →
  ld (tables (ap_step bspid k s)) (h + 8 * j) 8 = 0.
Proof.
  intros Ha Hc H1 H2 Hj. unfold ap_step. rewrite Ha, Hc. cbn [tables goto with_tables].
  unfold ld. rewrite (bytes_at_ext _ (λ _, 0)); [reflexivity|]. intros x Hx. rewrite memset_spec by (unfold is_uN; lia). by rewrite bool_decide_eq_true_2 by lia.
Qed.

Lemma fill_step bspid s (k : nat) a g : aps s !! k = Some a → at_ a = Fill g → tables (ap_step bspid k s) = put_entries (tables s) g.
Proof. intros Ha Hf. unfold ap_step. by rewrite Ha, Hf. Qed.

Definition race : list label := replicate 4 Bsp ++ [Ap 1; Ap 1; Ap 2; Ap 2; Ap 2].
Example gdt_race : let s := mstep 0 (run 0 race demo_machine) (Ap 2) in let g := VIRTUAL 0x10000040 in
  aps s !! 2%nat = Some (mkAp 2 (Tss g)) ∧ ld (tables s) (g + 8) 8 = kernel_code ∧ ld (tables (mstep 0 s (Ap 1))) (g + 8) 8 = 0.
Proof.
  cbn zeta. set (g := VIRTUAL 0x10000040). split; [vm_compute; reflexivity|]. split.
  - cbn [mstep]. rewrite (fill_step 0 _ 2 (mkAp 2 (Fill g)) g) by (vm_compute; reflexivity).
    unfold put_entries. rewrite !ld_sto_other by lia. apply ld_sto_small. vm_compute. split; [discriminate|reflexivity].
  - apply (clear_wipes 0 _ 1 (mkAp 1 (Clear (VIRTUAL 0x10000000))) (VIRTUAL 0x10000000) g 1); [vm_compute; reflexivity|reflexivity|vm_compute; discriminate|vm_compute; discriminate|lia].
Qed.

(** A processor that sets itself up after the deadline takes the vectors of the drivers away. *)
Lemma late_ap_drops bspid s (k : nat) a h v hs : aps s !! k = Some a → at_ a = Vectors → length (handlers s) = 256%nat → h ≠ onInterrupt →
  arch_alloc_isr (handlers s) h = Ok (v, hs) → hs !! v = Some h ∧ handlers (ap_step bspid k (with_handlers s hs)) !! v = Some onInterrupt.
Proof.
  intros Ha Hv Hl Hh E. destruct (vector_roundtrip (handlers s) h Hl Hh) as [(v' & hs' & E' & Hr & _ & _ & H1 & _)|[E' _]]; [|unfold arch_alloc_isr in E; congruence].
  unfold arch_alloc_isr in E. rewrite E in E'. injection E' as <- <-. split; [done|].
  unfold ap_step. cbn [aps with_handlers]. rewrite Ha, Hv. cbn [handlers goto with_handlers]. apply lookup_replicate_2. lia.
Qed.
Example late_ap : let s := run 0 (replicate 4 Bsp ++ concat (replicate 301 [Ap 1; Tick]) ++ replicate 3 Bsp) demo_machine in
  boot s = Through ∧ late s = [(2, 1301)] ∧ aps s !! 2%nat = Some (mkAp 2 Parked) ∧
  aps (run 0 (replicate 8 (Ap 2)) s) !! 2%nat = Some (mkAp 2 Vectors).
Proof. vm_compute. done. Qed.

(** ** Interrupts of drivers *)

(** An interrupt that is assigned to a driver arrives at a vector nobody else has, and the driver's handler is there. *)
Lemma assign_irq_routes bspid s irq h handler c r i : length handler = 256%nat → h ≠ onInterrupt → redir_at (redirection_table s) irq = Ok r →
  bestmatch (ioapics s) (gsi r) = Ok i → 0 ≤ gsi r < 120 → is_u8 bspid →
  (∃ v handler' c', arch_assign_irq bspid s irq h handler c = Ok (handler', c') ∧ handler !! v = Some onInterrupt ∧ handler' = <[v := h]> handler ∧ (0x21 ≤ v < 256)%nat ∧
     (let q := (io_read i (irq_register (gsi r)) c').1 in
      get q e_vector = Z.of_nat v ∧ get q e_destination = bspid ∧ get q e_activelow = Z.b2z (activelow r) ∧ get q e_lvl_triggered = Z.b2z (lvltrig r) ∧ get q e_mask = 0) ∧
     ∀ a x, a ≠ addr i ∨ (x ≠ 0x10 + 2 * gsi r ∧ x ≠ 0x11 + 2 * gsi r) → reg c' a x = reg c a x) ∨
  (arch_assign_irq bspid s irq h handler c = Fatal "No free interrupt vector left" ∧ ∀ u, (0x21 ≤ u < 256)%nat → handler !! u ≠ Some onInterrupt).
Proof.
  intros Hl Hh Hr Hb Hg Hid. unfold arch_assign_irq, arch_ioapic_initialize_irq, arch_ioapic_mask_irq.
  destruct (alloc_from_spec h handler (256 - 0x21) 0x21 ltac:(lia)) as [(v & E & Hv & Hf & _)|[E Hno]]; unfold idt_allocate_vector; rewrite E; cbn [mbind res_bind]; [left|right; split; [done|intros u Hu; apply Hno; lia]].
  rewrite Hr. cbn [mbind res_bind].
  destruct (ioapic_route (ioapics s) (gsi r) i (Z.of_nat v) FIXED bspid (activelow r) (lvltrig r) c Hb Hg) as (c1 & c2 & E1 & E2 & (Q1 & _ & Q3 & Q4 & Q5 & Q6 & _) & Hrest);
    [unfold is_uN; lia|unfold FIXED; lia|done|]. rewrite E1. cbn [mbind res_bind]. rewrite E2. cbn [mbind res_bind].
  exists v, (<[v := h]> handler), c2. split_and!; try done; lia.
Qed.
