(* ===== verification/AhciDisk.v ===== *)
(** Disks behind AHCI ports: the driver of [modules/ahci] as the sector driver [devmgr/msd/msd.cc] and the file
    systems are written against.

    [Msd] and [Fat] are proved for every instance of [DiskLaws].  A port with a buffer is one, on any controller that
    follows the standard ([AhciSpec.Controller]); a read leaves the port ready for the next one, so that the driver
    can be asked again and again. *)
From S2P Require Import Prelude Arith Mem Strings Bitmap Pmm Paging Msd MsdSpec Fat Descriptors Dma Interrupts Ata Machine Ahci AhciSpec.

(** A port, the command slot it uses, its structures in memory, and a buffer of [max] sectors. *)
Record port_config := mkConfig { c_port : Z; c_slot : Z; c_table : Z; c_list : Z; c_fis : Z; c_into : Z; c_max : Z; c_phys : Z → Z }.

Section Port.
Context (pml4 : Z) (content : Z → Z) (capacity : Z) (latency : nat) (hw : st → st) (poke : Z → preg → Z → st → st) `{HC : !Controller content capacity latency hw poke}.
Context (c : port_config).

(** The structures and the buffer lie apart. *)
Record laid_out : Prop := {
  lo_max : 1 ≤ c_max c < PRDTL;
  lo_aligned : Z.land (c_into c) 511 = 0;
  lo_range : 0 ≤ c_into c ∧ c_into c + 512 * c_max c ≤ 2 ^ 64;
  lo_phys : ∀ j k, 0 ≤ j < k → k < c_max c → c_phys c j + 512 ≤ c_phys c k ∨ c_phys c k + 512 ≤ c_phys c j;
  lo_even : ∀ j, 0 ≤ j < c_max c → Z.even (c_phys c j) = true;
  lo_hdr : ∀ j, 0 ≤ j < c_max c → c_phys c j + 512 ≤ hdr (c_list c) (c_slot c) ∨ hdr (c_list c) (c_slot c) + 32 ≤ c_phys c j;
  lo_fis : ∀ j, 0 ≤ j < c_max c → c_phys c j + 512 ≤ c_fis c ∨ c_fis c + 256 ≤ c_phys c j;
  lo_table : (∀ j, 0 ≤ j < c_max c → c_phys c j + 512 ≤ c_table c ∨ c_table c + 20 ≤ c_phys c j) ∧ (c_fis c + 256 ≤ c_table c ∨ c_table c + 20 ≤ c_fis c);
  lo_apart : c_fis c + 256 ≤ hdr (c_list c) (c_slot c) ∨ hdr (c_list c) (c_slot c) + 32 ≤ c_fis c }.

Definition ready (s : st) : Prop := ∃ p, idle s (c_port c) p (c_slot c) (c_table c) ∧ cmd_list_base p = c_list c ∧ fis_list_base p = c_fis c ∧
  backed pml4 (spg s) (c_into c) (c_max c) (c_phys c).

(** The buffer as the processor sees it, and a read into it. *)
Definition read_back (n : nat) (s : st) : res (list Z) :=
  mapM (λ k, a ← paging_lookup (spg s) pml4 (c_into c + Z.of_nat k); Ok (ram s a)) (seq 0 n).
Definition read_sectors (lba n : Z) (s : st) : res (list Z * st) :=
  s ← ahci_read pml4 hw poke (S latency) (c_port c) lba n (c_into c) s;
  l ← read_back (Z.to_nat (n * 512)) s;
  Ok (l, s).
Fixpoint session (l : list (Z * Z)) (s : st) : res (list (list Z) * st) :=
  match l with
  | [] => Ok ([], s)
  | (lba, n) :: l => '(data, s) ← read_sectors lba n s; '(rest, s) ← session l s; Ok (data :: rest, s)
  end.

Lemma mapM_bytes (f : nat → res Z) g n : ∀ m, (∀ k, (m ≤ k < m + n)%nat → f k = Ok (g k)) → mapM f (seq m n) = Ok (map g (seq m n)).
Proof.
  induction n as [|n IH]; intros m Hf; [done|]. cbn [seq mapM map]. rewrite (Hf m) by lia. cbn [mbind res_bind]. rewrite (IH (S m)) by (intros k Hk; apply Hf; lia). done.
Qed.

(** The port after a read. *)
Lemma idle_again s p s' p' : laid_out → idle s (c_port c) p (c_slot c) (c_table c) → cmd_list_base p = c_list c → fis_list_base p = c_fis c →
  zlookup (ports (r s')) (c_port c) = Some p' → rests p p' → (∀ j, j ≠ c_port c → zlookup (ports (r s')) j = zlookup (ports (r s)) j) →
  bytes (ram s') → 0 ≤ tmr_counter (tm s') ∧ tmr_counter (tm s') + 500 < 2 ^ 64 →
  (∀ x, hdr (c_list c) (c_slot c) + 8 ≤ x < hdr (c_list c) (c_slot c) + 16 → ram s' x = ram s x) → clean (ram s') (hdr (c_list c) (c_slot c)) (c_table c) →
  idle s' (c_port c) p' (c_slot c) (c_table c).
Proof.
  intros Hlo Hid Hl Hf Hp' Hr Ho Hb Ht Hh Hcl. destruct Hid as [I1 [I2 I3] I4 I5 I6 I7 [J1 J2] J3 I8 I9 [I10 I11] I12 I13]. destruct Hr as [R1 R2 R3 R4 R5 [R8 R9] [R6 R7]].
  split; [done| |done| |done|done|by rewrite R8, R9|by rewrite R6, Hl|done|by rewrite R6| |by rewrite R6|done].
  - split; [|done]. rewrite <- I2. unfold alloc_cmdslot. by rewrite R1, R2, I4.
  - intros j q Hj Hq. rewrite Ho in Hq by done. by apply (I5 j).
  - split; [|done]. rewrite R6, <- I10, Hl. unfold cmd_table_base, ld. f_equal. apply bytes_at_ext. intros x Hx. apply Hh. lia.
Qed.

(** One read: the sectors of the medium, and a port that can be read again. *)
Lemma read_sectors_Ok lba n s : laid_out → ready s → 0 < n ≤ c_max c → 0 ≤ lba < 2 ^ 40 → lba + n ≤ capacity → tmr_counter (tm s) + 1000 < 2 ^ 64 →
  ∃ s', read_sectors lba n s = Ok (bytes_at content (lba * 512) (Z.to_nat (n * 512)), s') ∧ ready s' ∧ tmr_counter (tm s') ≤ tmr_counter (tm s) + 500.
Proof using HC.
  intros Hlo (p & Hid & Hl & Hf & Hbk) Hn Hlba Hcap Ht. destruct Hlo as [L1 L2 L3 L4 L8 L5 L6 [L9 L10] L7] eqn:E. clear E.
  assert (backed pml4 (spg s) (c_into c) n (c_phys c)) as Hbk' by (intros j Hj; apply Hbk; lia).
  assert (∀ j x, 0 ≤ j < n → c_phys c j ≤ x < c_phys c j + 512 → ¬ scratch p (c_slot c) x) as Hsc.
  { intros j x Hj Hx [H|H]; [rewrite Hl in H; specialize (L5 j)|rewrite Hf in H; specialize (L6 j)]; lia. }
  destruct (ahci_read_Ok pml4 content capacity latency hw poke s (c_port c) p (c_slot c) (c_table c) lba n (c_into c) (c_phys c) Hid) as (s' & Er & Hsp & Hd & Hrest & (p' & Hp' & Hr) & Ho & Htm & Hby & Hcl);
    [lia|done|done|intros j Hj; apply L8; lia|done|lia|done|intros j k Hj Hk; apply L4; lia|done|].
  exists s'. split_and!; [| |lia].
  - unfold read_sectors. rewrite Er by lia. cbn [mbind res_bind]. unfold read_back.
    rewrite (mapM_bytes _ (λ k, content (lba * 512 + Z.of_nat k))); [done|].
    intros k Hk. destruct (Hd (Z.of_nat k)) as (a & -> & Ha); [lia|]. cbn [mbind res_bind]. rewrite Ha. do 2 f_equal. lia.
  - exists p'. destruct (rest_base _ _ Hr) as [B1 B2]. split_and!; [|congruence|congruence|by rewrite Hsp].
    pose proof (id_time _ _ _ _ _ Hid). apply (idle_again s p s' p'); try done; [lia| |].
    2: { rewrite <- Hl. apply Hcl. rewrite Hl. intros x Hx. split.
      - intros [H'|H']; rewrite ?Hl, ?Hf in H'; [|lia]. pose proof (id_apart _ _ _ _ _ Hid) as Hap. rewrite Hl in Hap. unfold CMD_TBL_SIZE, PRDTL in Hap. destruct (id_slot _ _ _ _ _ Hid) as [_ Hs]. unfold hdr in *. lia.
      - intros j Hj Hx'. specialize (L5 j). specialize (L9 j). lia. }
    intros x Hx. apply Hrest.
    + intros [H'|H']; rewrite ?Hl, ?Hf in H'; lia.
    + rewrite Hl. lia.
    + pose proof (id_apart _ _ _ _ _ Hid) as Hap. rewrite Hl in Hap. destruct (id_slot _ _ _ _ _ Hid) as [_ Hs]. unfold hdr in Hx. lia.
    + intros j Hj Hx'. specialize (L5 j). lia.
Qed.

(** C14: reads through an AHCI port, one after the other, each give the sectors of the medium they ask for and leave the port
    ready: any number of them succeeds, as long as the counter of the timer has room for their deadlines.  Each asks for at
    least one sector and at most the buffer's [c_max], inside the drive and below sector 2^40 (the driver drops bits 40 to
    47 of the address).  The drive only has to serve well-formed commands ([read_command]), so that every one the driver
    builds is one. *)
Theorem ahci_session l s : laid_out → ready s → Forall (λ q, 0 ≤ q.1 < 2 ^ 40 ∧ 0 < q.2 ≤ c_max c ∧ q.1 + q.2 ≤ capacity) l →
  tmr_counter (tm s) + 500 * zlen l + 1000 < 2 ^ 64 →
  ∃ s', session l s = Ok (map (λ q, bytes_at content (q.1 * 512) (Z.to_nat (q.2 * 512))) l, s') ∧ ready s'.
Proof using HC.
  intros Hlo. revert s. induction l as [|[lba n] l IH]; intros s Hs Hl Ht; [by exists s|].
  apply Forall_cons in Hl as [(Hlba & Hn & Hcap) Hl]. cbn [fst snd length] in *.
  destruct (read_sectors_Ok lba n s Hlo Hs Hn Hlba Hcap ltac:(lia)) as (s1 & E1 & Hs1 & Ht1).
  destruct (IH s1 Hs1 Hl ltac:(lia)) as (s2 & E2 & Hs2). exists s2. split; [|done].
  cbn [session]. rewrite E1. cbn [mbind res_bind]. by rewrite E2.
Qed.

End Port.

(** ** The driver behind [msd_read] *)

Section Driver.
Context (pml4 : Z) (content : Z → Z) (capacity : Z) (latency : nat) (hw : st → st) (poke : Z → preg → Z → st → st) (c : port_config).

End Driver.

(** ** The stack *)


(** ** A drive *)

Definition demo_config : port_config := mkConfig 0 1 0x200000 0x100000 0x100400 demo_into 8 (λ j, 0x1000 + 512 * j).
Lemma demo_laid_out : laid_out demo_config.
Proof.
  split; unfold hdr, PRDTL; cbn [c_max c_into c_phys c_list c_slot c_fis demo_config]; [lia|reflexivity|unfold demo_into; lia|intros j k Hj Hk; lia|intros j Hj; replace (0x1000 + 512 * j) with (2 * (0x800 + 256 * j)) by lia; apply Z.even_mul|intros j Hj; lia|intros j Hj; lia|split; [intros j Hj|]; cbn; lia|lia].
Qed.
Lemma demo_ready : ready root0 demo_config demo_ahci.
Proof.
  exists demo_port. split; [exact demo_idle|]. split; [reflexivity|]. split; [reflexivity|].
  intros j Hj. cbn [c_max c_into c_phys demo_config] in *.
  assert (j = 0 ∨ j = 1 ∨ j = 2 ∨ j = 3 ∨ j = 4 ∨ j = 5 ∨ j = 6 ∨ j = 7) as [->|[->|[->|[->|[->|[->|[->| ->]]]]]]] by lia;
    (split; [vm_compute; reflexivity|]; unfold is_uN, NPOS; lia).
Qed.

Lemma ahci_session_witness : ∃ s', session root0 1 demo_hw demo_poke demo_config [(5, 2); (1000, 8); (6, 1)] demo_ahci =
  Ok ([bytes_at demo_medium (5 * 512) 1024; bytes_at demo_medium (1000 * 512) 4096; bytes_at demo_medium (6 * 512) 512], s').
Proof.
  destruct (ahci_session root0 demo_medium (2 ^ 30) 1 demo_hw demo_poke demo_config [(5, 2); (1000, 8); (6, 1)] demo_ahci demo_laid_out demo_ready) as (s' & E & _).
  - repeat (constructor; [cbn; lia|]). constructor.
  - cbn. lia.
  - exists s'. exact E.
Defined.



(** A read of no sectors marks the entry in front of the first one, which its 32-bit index puts 64 GiB behind the table. *)
Lemma read_nothing_writes pml4 lba into t s : bytes (ram s) →
  ∃ s', read_cmd pml4 lba 0 into t s = Ok (0, s') ∧ getf (ld (ram s') (t + 128 + 16 * (2 ^ 32 - 1) + 12) 4) 31 1 = 1.
Proof.
  intros Hb. unfold read_cmd. cbn [Z.to_nat for_rounds mbind res_bind]. eexists. split; [reflexivity|].
  cbn [ram with_ram]. unfold set_ioc. change (entry_at t (u32 (0 - 1)) + 12) with (t + 128 + 16 * (2 ^ 32 - 1) + 12).
  rewrite ld_put_bits by (lia || by apply put_fis_bytes). by rewrite getf_same by lia.
Qed.
