(* ===== verification/Switch.v ===== *)
(** Entering and leaving the kernel: the interrupt stubs ([arch/amd64/int.s]), [arch_cpu_state_load]
    ([arch/amd64/amd64.s]) and the task switch they make together with the scheduler.

    The assembly is transcribed instruction by instruction and run on a machine with registers, flags and a
    memory of 64-bit words, which is accessed at multiples of eight only.  The instruction pointer is that of the interrupted code: the
    straight-line code of the stubs does not need one of its own, [iretq] sets it.  The checks of [iretq] on
    selectors and the reserved bits of the flags are left out. *)
From S2P Require Import Prelude Async LinkedList Sched.

(** ** The machine *)

Inductive reg :=
| RAX | RBX | RCX | RDX | RDI | RSI | RBP | RSP | R8 | R9 | R10 | R11 | R12 | R13 | R14 | R15.
#[global] Instance reg_eq_dec : EqDecision reg.
Proof. solve_decision. Defined.
Inductive seg := DS | ES | SS.

Record machine := mkMachine {
  regs : reg → Z;
  m_rip : Z; m_cs : Z; m_ss : Z; m_ds : Z; m_es : Z;
  m_flags : Z; m_cr2 : Z; m_cr3 : Z;
  xmm : list Z;                  (* what [fxsave64] saves *)
  sse_area : list Z;             (* [sse_state], the only one in the kernel *)
  words : gmap Z Z }.

Definition with_reg (m : machine) (r : reg) (v : Z) : machine :=
  mkMachine (λ r', if decide (r = r') then v else regs m r') (m_rip m) (m_cs m) (m_ss m) (m_ds m) (m_es m)
    (m_flags m) (m_cr2 m) (m_cr3 m) (xmm m) (sse_area m) (words m).
Definition with_seg (m : machine) (s : seg) (v : Z) : machine :=
  mkMachine (regs m) (m_rip m) (m_cs m) (match s with SS => v | _ => m_ss m end)
    (match s with DS => v | _ => m_ds m end) (match s with ES => v | _ => m_es m end)
    (m_flags m) (m_cr2 m) (m_cr3 m) (xmm m) (sse_area m) (words m).
Definition with_code (m : machine) (rip cs : Z) : machine :=
  mkMachine (regs m) rip cs (m_ss m) (m_ds m) (m_es m)
    (m_flags m) (m_cr2 m) (m_cr3 m) (xmm m) (sse_area m) (words m).
Definition with_flags (m : machine) (v : Z) : machine :=
  mkMachine (regs m) (m_rip m) (m_cs m) (m_ss m) (m_ds m) (m_es m)
    v (m_cr2 m) (m_cr3 m) (xmm m) (sse_area m) (words m).
Definition with_cr3 (m : machine) (v : Z) : machine :=
  mkMachine (regs m) (m_rip m) (m_cs m) (m_ss m) (m_ds m) (m_es m)
    (m_flags m) (m_cr2 m) v (xmm m) (sse_area m) (words m).
Definition with_sse (m : machine) (x a : list Z) : machine :=
  mkMachine (regs m) (m_rip m) (m_cs m) (m_ss m) (m_ds m) (m_es m)
    (m_flags m) (m_cr2 m) (m_cr3 m) x a (words m).
Definition with_words (m : machine) (w : gmap Z Z) : machine :=
  mkMachine (regs m) (m_rip m) (m_cs m) (m_ss m) (m_ds m) (m_es m)
    (m_flags m) (m_cr2 m) (m_cr3 m) (xmm m) (sse_area m) w.

Definition push (m : machine) (w : Z) : machine :=
  let a := u64 (regs m RSP - 8) in with_reg (with_words m (<[a := w]> (words m))) RSP a.
Definition pop (m : machine) : res (Z * machine) :=
  w ← deref (words m !! regs m RSP); Ok (w, with_reg m RSP (u64 (regs m RSP + 8))).

Inductive instr :=
| Pushq (r : reg) | Pushi (n : Z) | Pushfq | Popq (r : reg) | Popfq
| Cli | Cld
| MovCr2 (r : reg) | MovCr3 (r : reg) | SetCr3 (r : reg)
| Movq (src dst : reg) | Loadq (disp : Z) (base dst : reg)
| MovAx (n : Z) | MovSeg (s : seg)
| AddRsp (n : Z) | Fxsave64 | Fxrstor64 | Iretq.

Definition FLAG_IF : Z := 0x200.
Definition FLAG_DF : Z := 0x400.
Definition clear (x bits : Z) : Z := Z.land x (Z.lnot bits).

Definition exec (i : instr) (m : machine) : res machine :=
  match i with
  | Pushq r => Ok (push m (regs m r))
  | Pushi n => Ok (push m n)
  | Pushfq => Ok (push m (m_flags m))
  | Popq r => '(w, m) ← pop m; Ok (with_reg m r w)
  | Popfq => '(w, m) ← pop m; Ok (with_flags m w)
  | Cli => Ok (with_flags m (clear (m_flags m) FLAG_IF))
  | Cld => Ok (with_flags m (clear (m_flags m) FLAG_DF))
  | MovCr2 r => Ok (with_reg m r (m_cr2 m))
  | MovCr3 r => Ok (with_reg m r (m_cr3 m))
  | SetCr3 r => Ok (with_cr3 m (regs m r))
  | Movq src dst => Ok (with_reg m dst (regs m src))
  | Loadq disp base dst => w ← deref (words m !! u64 (regs m base + disp)); Ok (with_reg m dst w)
  | MovAx n => Ok (with_reg m RAX (Z.lor (clear (regs m RAX) 0xffff) n))
  | MovSeg s => Ok (with_seg m s (Z.land (regs m RAX) 0xffff))
  | AddRsp n => Ok (with_reg m RSP (u64 (regs m RSP + n)))
  | Fxsave64 => Ok (with_sse m (xmm m) (xmm m))
  | Fxrstor64 => Ok (with_sse m (sse_area m) (sse_area m))
  | Iretq =>
      '(ip, m) ← pop m; '(cs, m) ← pop m; '(fl, m) ← pop m; '(sp, m) ← pop m; '(ss, m) ← pop m;
      Ok (with_reg (with_seg (with_flags (with_code m ip cs) fl) SS ss) RSP sp)
  end.

Fixpoint run (l : list instr) (m : machine) : res machine :=
  match l with [] => Ok m | i :: l => m ← exec i m; run l m end.

(** ** The code of the kernel *)

(** The vectors declared by [DECLRISR_NOFLAG]: the processor leaves an error code. *)
Definition noflag (v : Z) : bool := (v =? 8) || (10 <=? v) && (v <=? 14).
(** [exc\f] *)
Definition exc_stub (v : Z) : list instr :=
  if noflag v then [Pushfq; Cli; Pushi v] else [Pushfq; Cli; Pushi 0; Pushi v].
(** [pushall] up to the call of the handler, which gets the frame in [%rdi]; its address is entry [%rsi]
    of the table. *)
Definition pushall : list instr :=
  [Fxsave64] ++ (Pushq <$> [RAX; RBX; RCX; RDX; RDI; RSI; RBP]) ++ [MovCr2 RAX; Pushq RAX] ++
  (Pushq <$> [R8; R9; R10; R11; R12; R13; R14; R15]) ++ [MovCr3 RAX; Pushq RAX] ++
  [MovAx 0x10; MovSeg DS; MovSeg ES; MovSeg SS; Movq RSP RDI; Loadq 136 RSP RSI; Cld].
(** [pushall] from the return of the handler. *)
Definition popall : list instr :=
  (Popq <$> [R15; R15; R14; R13; R12; R11; R10; R9; R8; RAX; RBP; RSI; RDI; RDX; RCX; RBX; RAX]) ++
  [Fxrstor64; AddRsp 0x18; Iretq].
Definition arch_cpu_state_load : list instr :=
  [Movq RDI RSP; Popq RAX; SetCr3 RAX] ++
  (Popq <$> [R15; R14; R13; R12; R11; R10; R9; R8; RAX; RBP; RSI; RDI; RDX; RCX; RBX; RAX]) ++
  [Fxrstor64; AddRsp 0x10; Popfq; Iretq].

(** What the processor does on vector [v] when the gate is one of [arch_idt_init]: an interrupt gate into
    the kernel's code segment, on the stack [ist1] of the TSS.  IF, TF, NT and RF are cleared. *)
Definition align16 (a : Z) : Z := a - a `mod` 16.
Definition gate_flags (fl : Z) : Z := clear fl 0x14300.
Definition deliver (ist1 : Z) (err : option Z) (m : machine) : machine :=
  let sp := regs m RSP in
  let m1 := with_reg m RSP (align16 ist1) in
  let m1 := push (push (push (push (push m1 (m_ss m)) sp) (m_flags m)) (m_cs m)) (m_rip m) in
  let m1 := match err with Some e => push m1 e | None => m1 end in
  with_seg (with_flags (with_code m1 (m_rip m) 0x08) (gate_flags (m_flags m)))
    SS (if Z.land (m_cs m) 3 =? 0 then m_ss m else 0).

(** From the interrupt to the handler. *)
Definition enter (ist1 v : Z) (err : option Z) (m : machine) : res machine :=
  run (exc_stub v ++ pushall) (deliver ist1 err m).

(** A [cpu_state_amd64_t] in memory. *)
Definition frame_words (st : cpu_state) : list Z :=
  [cr3 st; r15 st; r14 st; r13 st; r12 st; r11 st; r10 st; r9 st; r8 st; cr2 st; rbp st; rsi st; rdi st;
   rdx st; rcx st; rbx st; rax st; exc st; rflexc st; err st; rip st; cs st; rfl st; rsp st; ss st].
Fixpoint read_words (mem : gmap Z Z) (a : Z) (n : nat) : res (list Z) :=
  match n with
  | O => Ok []
  | S n => w ← deref (mem !! a); l ← read_words mem (a + 8) n; Ok (w :: l)
  end.
Definition frame_of (l : list Z) : res cpu_state :=
  match l with
  | [a; b; c; d; e; f; g; h; i; j; k; l; m; n; o; p; q; r; s; t; u; v; w; x; y] =>
      Ok (mkCpu a b c d e f g h i j k l m n o p q r s t u v w x y)
  | _ => Fault
  end.
Definition read_frame (mem : gmap Z Z) (a : Z) : res cpu_state := l ← read_words mem a 25; frame_of l.
Fixpoint store_words (mem : gmap Z Z) (a : Z) (l : list Z) : gmap Z Z :=
  match l with [] => mem | w :: l => <[a := w]> (store_words mem (a + 8) l) end.

(** What the compiled handler does to the machine: [before] up to the point where [sched_tick] looks at the frame, [after]
    from there to the call of [arch_cpu_state_load] or the return. *)
Record handler := mkHandler { before : machine → machine; after : machine → machine }.

(** The timer interrupt whose handler calls [sched_tick].  The frame is read where it lies when [sched_tick] copies it; a
    returning handler leaves the stack pointer as it was, and whatever it has made of the frame.  [at_] is where the
    record of the chosen task lies. *)
Definition leave (at_ fp : Z) (s : sched) (o : option cpu_state) (c : machine) : res machine :=
  match o with
  | Some st => run arch_cpu_state_load (with_reg (with_words (with_sse c (xmm c) (sse_state s)) (store_words (words c) at_ (frame_words st))) RDI at_)
  | None => run popall (with_reg c RSP fp)
  end.
Definition timer_switch (ist1 at_ : Z) (code : handler) (s : sched) (cpu : nat) (m : machine)
    : res (sched * machine) :=
  m ← enter ist1 0x40 None m;
  frame ← read_frame (words (before code m)) (regs m RDI);
  '(s, o) ← sched_tick (with_sse_state s (sse_area (before code m))) cpu frame false;
  c ← leave at_ (regs m RDI) s o (after code (before code m));
  Ok (s, c).

(** The processor in turns: the running task does its work, the timer switches.  Every turn is logged with
    the machine that was interrupted and the one that was resumed. *)
Fixpoint turns (ist1 : Z) (code : handler) (s : sched) (cpu : nat) (m : machine)
    (works : list ((machine → machine) * Z)) : res (sched * list (machine * machine)) :=
  match works with
  | [] => Ok (s, [])
  | (work, at_) :: works =>
      '(s, m') ← timer_switch ist1 at_ code s cpu (work m);
      '(s, log) ← turns ist1 code s cpu m' works;
      Ok (s, (work m, m') :: log)
  end.

(** ** Words in memory *)

Fixpoint holds (mem : gmap Z Z) (a : Z) (l : list Z) : Prop :=
  match l with [] => True | w :: l => mem !! a = Some w ∧ holds mem (a + 8) l end.

Lemma holds_insert_below mem a b w l : b < a → holds mem a l → holds (<[b := w]> mem) a l.
Proof.
  revert a. induction l as [|x l IH]; intros a Hb; [done|]. intros [Hx Hl]. split.
  - by rewrite lookup_insert_ne by lia.
  - apply IH; [lia|done].
Qed.

Lemma holds_app mem l1 l2 : ∀ a, holds mem a (l1 ++ l2) ↔ holds mem a l1 ∧ holds mem (a + 8 * zlen l1) l2.
Proof.
  induction l1 as [|x l1 IH]; intros a; simpl.
  - rewrite Z.add_0_r. naive_solver.
  - rewrite IH. replace (a + 8 + 8 * zlen l1) with (a + 8 * Z.of_nat (S (length l1))) by lia. tauto.
Qed.

Lemma store_holds mem l : ∀ a, holds (store_words mem a l) a l.
Proof.
  induction l as [|x l IH]; intros a; [done|]. simpl. split; [by rewrite lookup_insert_eq|].
  apply holds_insert_below; [lia|apply IH].
Qed.

Lemma read_words_Ok mem l : ∀ a, holds mem a l → read_words mem a (length l) = Ok l.
Proof.
  induction l as [|x l IH]; intros a; [done|]. intros [Hx Hl]. simpl. rewrite Hx. cbn [deref mbind res_bind].
  by rewrite (IH _ Hl).
Qed.

Lemma read_frame_Ok mem a st : holds mem a (frame_words st) → read_frame mem a = Ok st.
Proof.
  intros H. unfold read_frame. change 25%nat with (length (frame_words st)). rewrite (read_words_Ok _ _ _ H).
  by destruct st.
Qed.

(** ** Runs of pushes and pops *)

Lemma run_app l1 l2 m : run (l1 ++ l2) m = (m ← run l1 m; run l2 m).
Proof.
  revert m. induction l1 as [|i l1 IH]; intros m; [done|]. simpl. destruct (exec i m); [apply IH|done..].
Qed.

(** Everything but the general registers and the memory. *)
Definition rest (m : machine) :=
  (m_rip m, m_cs m, m_ss m, (m_ds m, m_es m), (m_flags m, m_cr2 m, m_cr3 m), (xmm m, sse_area m)).

(** The stack of [m'] is that of [m] with the words [l] pushed. *)
Record pushed (m : machine) (l : list Z) (m' : machine) : Prop := mkPushed {
  pushed_rsp : regs m' RSP = regs m RSP - 8 * zlen l;
  pushed_holds : ∀ ws, holds (words m) (regs m RSP) ws → holds (words m') (regs m' RSP) (l ++ ws);
  pushed_outside : ∀ a, a < regs m' RSP ∨ regs m RSP ≤ a → words m' !! a = words m !! a }.

Lemma push_Ok m w : 8 ≤ regs m RSP < 2 ^ 64 → pushed m [w] (push m w).
Proof.
  intros Hr. unfold push. u_small. split; simpl.
  - done.
  - intros ws Hw. split; [by rewrite lookup_insert_eq|]. replace (regs m RSP - 8 + 8) with (regs m RSP) by lia.
    apply holds_insert_below; [lia|done].
  - intros a Ha. rewrite lookup_insert_ne; [done|]. lia.
Qed.
Lemma push_regs m w r : r ≠ RSP → regs (push m w) r = regs m r.
Proof. intros H. simpl. by rewrite decide_False by done. Qed.

Lemma pushed_nil m : pushed m [] m.
Proof. split; try done. simpl. lia. Qed.

Lemma pushed_trans m l m' l' m'' : pushed m l m' → pushed m' l' m'' → pushed m (l' ++ l) m''.
Proof.
  intros [A1 A2 A3] [B1 B2 B3]. split.
  - rewrite length_app. lia.
  - intros ws Hw. rewrite <- app_assoc. auto.
  - intros a Ha. rewrite B3 by lia. apply A3. lia.
Qed.

(** One more word on the stack. *)
Lemma pushed_push m l m' w : 8 ≤ regs m RSP - 8 * zlen l → regs m RSP < 2 ^ 64 → pushed m l m' →
  pushed m (w :: l) (push m' w).
Proof.
  intros Hl Hr H. apply (pushed_trans _ _ _ [w] _ H), push_Ok. rewrite (pushed_rsp _ _ _ H). lia.
Qed.

Lemma pushes_Ok rs : ∀ m, RSP ∉ rs → 8 * zlen rs ≤ regs m RSP < 2 ^ 64 →
  ∃ m', run (Pushq <$> rs) m = Ok m' ∧ pushed m (reverse (regs m <$> rs)) m' ∧
    (∀ r, r ≠ RSP → regs m' r = regs m r) ∧ rest m' = rest m.
Proof.
  induction rs as [|r rs IH]; intros m Hn Hr.
  { exists m. split_and!; [done|apply pushed_nil|done..]. }
  apply not_elem_of_cons in Hn as [Hne Hn]. cbn [length] in Hr.
  assert (pushed m [regs m r] (push m (regs m r))) as Hp by (apply push_Ok; lia).
  destruct (IH (push m (regs m r)) Hn) as (m' & E & H & Hregs & Hrest).
  { rewrite (pushed_rsp _ _ _ Hp). simpl length. lia. }
  exists m'. split_and!; [exact E| |intros x Hx; by rewrite Hregs, push_regs by done|done].
  rewrite fmap_cons, reverse_cons.
  erewrite (list_fmap_ext _ (regs m) rs) in H; [exact (pushed_trans _ _ _ _ _ Hp H)|].
  intros i x Hx. apply push_regs. intros ->. apply Hn. by eapply list_elem_of_lookup_2.
Qed.

(** The registers after popping the values into them, one after the other. *)
Fixpoint assign (f : reg → Z) (rs : list reg) (vs : list Z) : reg → Z :=
  match rs, vs with
  | r :: rs, v :: vs => assign (λ r', if decide (r = r') then v else f r') rs vs
  | _, _ => f
  end.

Lemma assign_ext rs : ∀ vs f g r, f r = g r → assign f rs vs r = assign g rs vs r.
Proof.
  induction rs as [|x rs IH]; intros [|v vs] f g r H; [done..|]. simpl. apply IH. by case_decide.
Qed.

Lemma pops_Ok rs : ∀ m vs, RSP ∉ rs → length vs = length rs → 0 ≤ regs m RSP → regs m RSP + 8 * zlen rs < 2 ^ 64 →
  holds (words m) (regs m RSP) vs →
  ∃ m', run (Popq <$> rs) m = Ok m' ∧ regs m' RSP = regs m RSP + 8 * zlen rs ∧ words m' = words m ∧
    rest m' = rest m ∧ ∀ r, r ≠ RSP → regs m' r = assign (regs m) rs vs r.
Proof.
  induction rs as [|r rs IH]; intros m [|v vs] Hn Hl Hp Hr Hh; try done.
  { exists m. split_and!; try done. simpl. lia. }
  apply not_elem_of_cons in Hn as [Hne Hn]. cbn [length] in Hr. destruct Hh as [Hv Hh].
  cbn [fmap list_fmap run exec]. unfold pop. rewrite Hv. cbn [deref mbind res_bind]. u_small.
  match goal with |- context [run _ ?x] => set (m1 := x) end.
  assert (regs m1 RSP = regs m RSP + 8) as E1 by (simpl; by rewrite decide_False by done).
  destruct (IH m1 vs Hn) as (m' & E & Hsp & Hw & Hre & Hrs); [by injection Hl|lia|lia|by rewrite E1|].
  exists m'. split_and!; [exact E|cbn [length]; lia|by rewrite Hw|by rewrite Hre|].
  intros r' Hr'. rewrite (Hrs _ Hr'). cbn [assign]. apply assign_ext. simpl. case_decide; [done|].
  by rewrite decide_False by done.
Qed.

(** ** Entering the kernel *)

(** Membership in a list of registers, refuted one by one. *)
Ltac not_in := repeat (apply not_elem_of_cons; split; [done|]); apply not_elem_of_nil.

(** What the processor pushes, what the stub adds, and the registers above. *)
Definition hw_words (err : option Z) (m : machine) : list Z :=
  option_list err ++ [m_rip m; m_cs m; m_flags m; regs m RSP; m_ss m].
Definition stub_words (v fl : Z) : list Z := v :: (if noflag v then [fl] else [0; fl]).
Definition reg_words (m : machine) : list Z :=
  m_cr3 m :: (regs m <$> [R15; R14; R13; R12; R11; R10; R9; R8]) ++ m_cr2 m ::
  (regs m <$> [RBP; RSI; RDI; RDX; RCX; RBX; RAX]).

Lemma deliver_Ok ist1 err m : 48 ≤ align16 ist1 < 2 ^ 64 →
  let m' := deliver ist1 err m in
  pushed (with_reg m RSP (align16 ist1)) (hw_words err m) m' ∧ (∀ r, r ≠ RSP → regs m' r = regs m r) ∧
  m_flags m' = gate_flags (m_flags m) ∧ m_cr2 m' = m_cr2 m ∧ m_cr3 m' = m_cr3 m ∧ xmm m' = xmm m.
Proof.
  intros Hb m'. set (m0 := with_reg m RSP (align16 ist1)).
  assert (∀ l, length l = 5%nat → ∀ x, pushed m0 l x → pushed m0 (option_list err ++ l) (match err with Some e => push x e | None => x end)) as Herr.
  { intros l Hl x Hx. destruct err; [|done]. apply pushed_push; [simpl; lia|simpl; lia|done]. }
  split; [|split].
  - assert (pushed m0 [m_rip m; m_cs m; m_flags m; regs m RSP; m_ss m]
      (push (push (push (push (push m0 (m_ss m)) (regs m RSP)) (m_flags m)) (m_cs m)) (m_rip m))) as H5.
    { repeat (apply pushed_push; [simpl; lia|simpl; lia|]). apply pushed_nil. }
    destruct (Herr [_; _; _; _; _] eq_refl _ H5) as [E1 E2 E3]. by split.
  - intros r Hr. unfold m', deliver. destruct err; simpl; by rewrite ?decide_False by done.
  - unfold m', deliver. by destruct err.
Qed.

Lemma stub_Ok v m : 24 ≤ regs m RSP < 2 ^ 64 →
  ∃ m', run (exc_stub v) m = Ok m' ∧ pushed m (stub_words v (m_flags m)) m' ∧ (∀ r, r ≠ RSP → regs m' r = regs m r) ∧
    m_cr2 m' = m_cr2 m ∧ m_cr3 m' = m_cr3 m ∧ xmm m' = xmm m.
Proof.
  intros Hr. assert (pushed m [m_flags m] (with_flags (push m (m_flags m)) (clear (m_flags m) FLAG_IF))) as H1.
  { destruct (push_Ok m (m_flags m)) as [E1 E2 E3]; [lia|]. by split. }
  unfold exc_stub, stub_words. destruct (noflag v); cbn [run exec mbind res_bind]; eexists; split_and!; try done.
  - apply pushed_push; [simpl; lia|lia|done].
  - intros r Hne. simpl. by rewrite !decide_False by done.
  - apply pushed_push; [simpl; lia|lia|]. apply pushed_push; [simpl; lia|lia|done].
  - intros r Hne. simpl. by rewrite !decide_False by done.
Qed.

(** A register loaded from elsewhere and pushed. *)
Lemma pushed_via m v : 8 ≤ regs m RSP < 2 ^ 64 →
  ∃ m', run [Pushq RAX] (with_reg m RAX v) = Ok m' ∧ pushed m [v] m' ∧
    (∀ r, r ≠ RSP → r ≠ RAX → regs m' r = regs m r) ∧ rest m' = rest m.
Proof.
  intros Hr. eexists. split_and!; [reflexivity| | |done].
  - destruct (push_Ok (with_reg m RAX v) v Hr) as [A1 A2 A3]. by split.
  - intros r H1 H2. rewrite push_regs by done. simpl. by rewrite decide_False by done.
Qed.

Lemma run_cr2 m : run [MovCr2 RAX; Pushq RAX] m = run [Pushq RAX] (with_reg m RAX (m_cr2 m)).
Proof. done. Qed.
Lemma run_cr3 m : run [MovCr3 RAX; Pushq RAX] m = run [Pushq RAX] (with_reg m RAX (m_cr3 m)).
Proof. done. Qed.

Definition reg_pushes : list instr :=
  (Pushq <$> [RAX; RBX; RCX; RDX; RDI; RSI; RBP]) ++ [MovCr2 RAX; Pushq RAX] ++
  (Pushq <$> [R8; R9; R10; R11; R12; R13; R14; R15]) ++ [MovCr3 RAX; Pushq RAX].

Lemma reg_pushes_Ok m : 136 ≤ regs m RSP < 2 ^ 64 →
  ∃ m', run reg_pushes m = Ok m' ∧ pushed m (reg_words m) m' ∧ rest m' = rest m.
Proof.
  intros Hr. unfold reg_pushes. rewrite run_app.
  destruct (pushes_Ok [RAX; RBX; RCX; RDX; RDI; RSI; RBP] m) as (m1 & E1 & P1 & G1 & T1); [not_in|simpl; lia|].
  rewrite E1. cbn [mbind res_bind]. rewrite run_app. pose proof (pushed_rsp _ _ _ P1) as Q1. cbn in Q1.
  destruct (pushed_via m1 (m_cr2 m1)) as (m2 & E2 & P2 & G2 & T2); [lia|].
  rewrite run_cr2, E2. cbn [mbind res_bind]. rewrite run_app.
  pose proof (pushed_rsp _ _ _ P2) as Q2. cbn in Q2.
  destruct (pushes_Ok [R8; R9; R10; R11; R12; R13; R14; R15] m2) as (m3 & E3 & P3 & G3 & T3); [not_in|simpl; lia|].
  rewrite E3. cbn [mbind res_bind]. pose proof (pushed_rsp _ _ _ P3) as Q3. cbn in Q3.
  destruct (pushed_via m3 (m_cr3 m3)) as (m4 & E4 & P4 & G4 & T4); [lia|].
  exists m4. rewrite run_cr3. split_and!; [exact E4| |congruence].
  assert (reg_words m = [m_cr3 m3] ++ reverse (regs m2 <$> [R8; R9; R10; R11; R12; R13; R14; R15]) ++ [m_cr2 m1] ++
    reverse (regs m <$> [RAX; RBX; RCX; RDX; RDI; RSI; RBP])) as ->.
  { assert (m_cr3 m3 = m_cr3 m ∧ m_cr2 m1 = m_cr2 m) as [-> ->] by (unfold rest in T1, T2, T3; split; congruence).
    cbn. by rewrite !G2, !G1 by done. }
  exact (pushed_trans _ _ _ _ _ (pushed_trans _ _ _ _ _ (pushed_trans _ _ _ _ _ P1 P2) P3) P4).
Qed.

Lemma pushall_Ok m v : 136 ≤ regs m RSP < 2 ^ 64 → words m !! regs m RSP = Some v →
  ∃ m', run pushall m = Ok m' ∧ pushed m (reg_words m) m' ∧ regs m' RDI = regs m' RSP ∧ regs m' RSI = v ∧
    m_cr3 m' = m_cr3 m ∧ xmm m' = xmm m ∧ sse_area m' = xmm m.
Proof.
  intros Hr Hv. set (m0 := with_sse m (xmm m) (xmm m)).
  destruct (reg_pushes_Ok m0) as (m1 & E1 & P1 & T1); [done|].
  assert (pushall = [Fxsave64] ++ reg_pushes ++
    [MovAx 0x10; MovSeg DS; MovSeg ES; MovSeg SS; Movq RSP RDI; Loadq 136 RSP RSI; Cld]) as -> by done.
  rewrite run_app. assert (run [Fxsave64] m = Ok m0) as -> by done. cbn [mbind res_bind]. rewrite run_app.
  rewrite E1. cbn [mbind res_bind]. pose proof (pushed_rsp _ _ _ P1) as Q1. cbn in Q1.
  assert (words m1 !! u64 (regs m1 RSP + 136) = Some v) as Hl.
  { change (8 * Z.of_nat 17) with 136 in Q1. assert (regs m1 RSP + 136 = regs m RSP) as -> by lia. u_small.
    rewrite (pushed_outside _ _ _ P1); [exact Hv|]. right. cbn. lia. }
  cbn [run exec mbind res_bind regs with_reg with_seg words]. rewrite (decide_False (P := RDI = RSP)), (decide_False (P := RAX = RSP)) by done. rewrite Hl.
  cbn [deref mbind res_bind]. eexists. split; [reflexivity|]. unfold rest in T1. simplify_eq.
  split_and!; try done. by destruct P1; split.
Qed.

(** The frame the handler sees. *)
Definition captured (v : Z) (e : option Z) (m : machine) : cpu_state :=
  let fl := gate_flags (m_flags m) in let g := regs m in
  mkCpu (m_cr3 m) (g R15) (g R14) (g R13) (g R12) (g R11) (g R10) (g R9) (g R8) (m_cr2 m) (g RBP) (g RSI)
    (g RDI) (g RDX) (g RCX) (g RBX) (g RAX) v (match e with Some _ => fl | None => 0 end)
    (match e with Some c => c | None => fl end) (m_rip m) (m_cs m) (m_flags m) (g RSP) (m_ss m).

(** With the words the processor left: 26 at most. *)
Lemma enter_words ist1 v e m : 208 ≤ align16 ist1 < 2 ^ 64 →
  ∃ m', enter ist1 v e m = Ok m' ∧
    let l := reg_words m ++ stub_words v (gate_flags (m_flags m)) ++ hw_words e m in
    regs m' RSP = align16 ist1 - 8 * zlen l ∧ holds (words m') (regs m' RSP) l ∧
    (∀ a, a < regs m' RSP ∨ align16 ist1 ≤ a → words m' !! a = words m !! a) ∧
    regs m' RDI = regs m' RSP ∧ regs m' RSI = v ∧ m_cr3 m' = m_cr3 m ∧ xmm m' = xmm m ∧ sse_area m' = xmm m.
Proof.
  intros Hb. unfold enter. rewrite run_app.
  destruct (deliver_Ok ist1 e m) as (P1 & G1 & F1 & A1 & B1 & X1); [lia|]. set (m1 := deliver ist1 e m) in *.
  assert (zlen (hw_words e m) ≤ 6) as Hh by (destruct e; simpl; lia).
  pose proof (pushed_rsp _ _ _ P1) as Q1. cbn [regs with_reg] in Q1. rewrite decide_True in Q1 by done.
  destruct (stub_Ok v m1) as (m2 & E2 & P2 & G2 & A2 & B2 & X2); [lia|]. rewrite E2. cbn [mbind res_bind].
  assert (zlen (stub_words v (m_flags m1)) ≤ 3) as Hs by (unfold stub_words; destruct (noflag v); simpl; lia).
  pose proof (pushed_rsp _ _ _ P2) as Q2. pose proof (pushed_trans _ _ _ _ _ P1 P2) as P12.
  pose proof (pushed_holds _ _ _ P12 [] I) as [Hv _].
  destruct (pushall_Ok m2 v) as (m3 & E3 & P3 & D3 & S3 & B3 & X3 & Y3); [lia|exact Hv|]. exists m3. split; [exact E3|].
  assert (reg_words m2 = reg_words m) as Er.
  { unfold reg_words. cbn. rewrite A2, B2, A1, B1, !G2, !G1 by done. done. }
  rewrite Er, F1 in *. pose proof (pushed_trans _ _ _ _ _ P12 P3) as [R1 R2 R3]. cbn zeta.
  cbn [regs words with_reg] in R1, R2, R3. rewrite decide_True in R1, R2, R3 by done.
  split_and!; try congruence; [specialize (R2 [] I); by rewrite app_nil_r in R2|exact R3].
Qed.

Definition frame_at (ist1 : Z) : Z := align16 ist1 - 200.

(** The processor's error code is where the stub expects one. *)
Lemma enter_Ok ist1 v e m : 208 ≤ align16 ist1 < 2 ^ 64 → noflag v = bool_decide (is_Some e) →
  ∃ m', enter ist1 v e m = Ok m' ∧ regs m' RSP = frame_at ist1 ∧ regs m' RDI = frame_at ist1 ∧ regs m' RSI = v ∧
    holds (words m') (frame_at ist1) (frame_words (captured v e m)) ∧
    (∀ a, a < frame_at ist1 ∨ align16 ist1 ≤ a → words m' !! a = words m !! a) ∧
    m_cr3 m' = m_cr3 m ∧ xmm m' = xmm m ∧ sse_area m' = xmm m.
Proof.
  intros Hb He. destruct (enter_words ist1 v e m Hb) as (m' & E & R & H & O & D & S & C & X & Y).
  assert (reg_words m ++ stub_words v (gate_flags (m_flags m)) ++ hw_words e m = frame_words (captured v e m)) as El.
  { unfold stub_words, hw_words. rewrite He. by destruct e. }
  rewrite El in R, H. assert (regs m' RSP = frame_at ist1) as Er by (rewrite R; done).
  exists m'. rewrite D, Er in *. by split_and!.
Qed.

(** ** Leaving the kernel *)

Definition st_reg (st : cpu_state) (r : reg) : Z :=
  match r with
  | RAX => rax st | RBX => rbx st | RCX => rcx st | RDX => rdx st | RDI => rdi st | RSI => rsi st
  | RBP => rbp st | RSP => rsp st | R8 => r8 st | R9 => r9 st | R10 => r10 st | R11 => r11 st
  | R12 => r12 st | R13 => r13 st | R14 => r14 st | R15 => r15 st
  end.

(** The machine continues with the registers of [st] and the SSE image [x]. *)
Record continues (m : machine) (st : cpu_state) (x : list Z) : Prop := mkContinues {
  cont_regs : ∀ r, regs m r = st_reg st r;
  cont_rip : m_rip m = rip st;
  cont_cs : m_cs m = cs st;
  cont_ss : m_ss m = ss st;
  cont_flags : m_flags m = rfl st;
  cont_xmm : xmm m = x }.

Lemma popq_Ok m w l : holds (words m) (regs m RSP) (w :: l) → 0 ≤ regs m RSP → regs m RSP + 8 < 2 ^ 64 →
  ∃ m', pop m = Ok (w, m') ∧ regs m' RSP = regs m RSP + 8 ∧ holds (words m') (regs m' RSP) l ∧
    words m' = words m ∧ (∀ r, r ≠ RSP → regs m' r = regs m r) ∧ rest m' = rest m.
Proof.
  intros [Hw Hl] H0 Hr. unfold pop. rewrite Hw. cbn [deref mbind res_bind]. u_small. eexists. split; [done|].
  split_and!; try done. intros r Hne. simpl. by rewrite decide_False by done.
Qed.

(** [iretq] after [add $n, %rsp], with the general registers already restored. *)
Lemma iretq_Ok m st : holds (words m) (regs m RSP) [rip st; cs st; rfl st; rsp st; ss st] →
  0 ≤ regs m RSP → regs m RSP + 40 < 2 ^ 64 → (∀ r, r ≠ RSP → regs m r = st_reg st r) →
  ∃ m', run [Iretq] m = Ok m' ∧ continues m' st (xmm m) ∧ m_cr3 m' = m_cr3 m ∧ words m' = words m.
Proof.
  intros H H0 Hr Hregs. cbn [run exec].
  destruct (popq_Ok _ _ _ H) as (m1 & E1 & S1 & H1 & W1 & G1 & T1); [lia..|]. rewrite E1. cbn [mbind res_bind].
  destruct (popq_Ok _ _ _ H1) as (m2 & E2 & S2 & H2 & W2 & G2 & T2); [lia..|]. rewrite E2. cbn [mbind res_bind].
  destruct (popq_Ok _ _ _ H2) as (m3 & E3 & S3 & H3 & W3 & G3 & T3); [lia..|]. rewrite E3. cbn [mbind res_bind].
  destruct (popq_Ok _ _ _ H3) as (m4 & E4 & S4 & H4 & W4 & G4 & T4); [lia..|]. rewrite E4. cbn [mbind res_bind].
  destruct (popq_Ok _ _ _ H4) as (m5 & E5 & S5 & H5 & W5 & G5 & T5); [lia..|]. rewrite E5. cbn [mbind res_bind].
  eexists. split; [done|]. unfold rest in T1, T2, T3, T4, T5. simplify_eq. split_and!; [split; try done|..].
  - intros r. simpl. case_decide as Hd; [by subst r|]. by rewrite G5, G4, G3, G2, G1, Hregs by done.
  - simpl. congruence.
  - simpl. congruence.
  - simpl. congruence.
Qed.

(** Popping the sixteen registers above the page table leaves those of the frame. *)
Definition pop_order : list reg := [R15; R14; R13; R12; R11; R10; R9; R8; RAX; RBP; RSI; RDI; RDX; RCX; RBX; RAX].
Definition popped (st : cpu_state) : list Z :=
  [r15 st; r14 st; r13 st; r12 st; r11 st; r10 st; r9 st; r8 st; cr2 st; rbp st; rsi st; rdi st; rdx st; rcx st;
   rbx st; rax st].

Lemma popped_assign st f r : r ≠ RSP → assign f pop_order (popped st) r = st_reg st r.
Proof. intros H. by destruct r. Qed.

(** What both ways out share: the registers from [r15] on are popped. *)
Lemma unwind_Ok m st : holds (words m) (regs m RSP) (tail (frame_words st)) → 0 ≤ regs m RSP →
  regs m RSP + 192 < 2 ^ 64 →
  ∃ m', run (Popq <$> pop_order) m = Ok m' ∧
    regs m' RSP = regs m RSP + 128 ∧ words m' = words m ∧ rest m' = rest m ∧
    (∀ r, r ≠ RSP → regs m' r = st_reg st r) ∧ holds (words m') (regs m' RSP) (drop 17 (frame_words st)).
Proof.
  intros H H0 Hr. change (tail (frame_words st)) with (popped st ++ drop 17 (frame_words st)) in H.
  apply holds_app in H as [H1 H2].
  destruct (pops_Ok pop_order m (popped st)) as (m' & E & S & W & T & G); [unfold pop_order; not_in|done|done|simpl; lia|done|].
  exists m'. split; [exact E|]. split_and!; [exact S|done|done| |by rewrite S, W].
  intros r Hr'. rewrite (G _ Hr'). by apply popped_assign.
Qed.

(** Returning from the handler. *)
Lemma popall_Ok m st : holds (words m) (regs m RSP) (frame_words st) → 0 ≤ regs m RSP → regs m RSP + 200 < 2 ^ 64 →
  ∃ m', run popall m = Ok m' ∧ continues m' st (sse_area m) ∧ m_cr3 m' = m_cr3 m ∧ words m' = words m.
Proof.
  intros [Hc H] H0 Hr.
  assert (popall = [Popq R15] ++ (Popq <$> pop_order) ++ [Fxrstor64; AddRsp 0x18] ++ [Iretq]) as -> by done.
  rewrite run_app. destruct (popq_Ok m (cr3 st) (tail (frame_words st)) (conj Hc H)) as (m1 & E1 & S1 & H1 & W1 & G1 & T1); [lia..|].
  set (m2 := with_reg m1 R15 (cr3 st)).
  assert (run [Popq R15] m = Ok m2) as -> by (cbn [run exec]; by rewrite E1). cbn [mbind res_bind]. rewrite run_app.
  destruct (unwind_Ok m2 st) as (m3 & E3 & S3 & W3 & T3 & G3 & H3); [exact H1|simpl; lia|simpl; lia|].
  rewrite E3. cbn [mbind res_bind]. rewrite run_app.
  set (m4 := with_reg (with_sse m3 (sse_area m3) (sse_area m3)) RSP (u64 (regs m3 RSP + 0x18))).
  assert (run [Fxrstor64; AddRsp 0x18] m3 = Ok m4) as -> by done. cbn [mbind res_bind].
  assert (regs m4 RSP = regs m3 RSP + 24) as S4. { cbn. simpl in S3. u_small. done. }
  destruct (iretq_Ok m4 st) as (m5 & E5 & C5 & R5 & W5).
  { rewrite S4. change (words m4) with (words m3). by destruct H3 as (_ & _ & _ & H3); rewrite <- !Z.add_assoc in H3. }
  { rewrite S4, S3. simpl. lia. }
  { rewrite S4, S3. simpl. lia. }
  { intros r Hne. simpl. rewrite decide_False by done. by apply G3. }
  exists m5. split; [exact E5|]. unfold rest in T1, T3. simpl in T3. simplify_eq. split_and!.
  - replace (sse_area m) with (xmm m4) by (simpl; congruence). done.
  - rewrite R5. simpl. congruence.
  - rewrite W5. simpl. by rewrite W3.
Qed.

(** [arch_cpu_state_load]: the whole context, the page table included. *)
Lemma load_Ok m st : holds (words m) (regs m RDI) (frame_words st) → 0 ≤ regs m RDI → regs m RDI + 200 < 2 ^ 64 →
  ∃ m', run arch_cpu_state_load m = Ok m' ∧ continues m' st (sse_area m) ∧ m_cr3 m' = cr3 st ∧ words m' = words m.
Proof.
  intros [Hc H] H0 Hr.
  assert (arch_cpu_state_load = [Movq RDI RSP] ++ [Popq RAX] ++ [SetCr3 RAX] ++ (Popq <$> pop_order) ++
    [Fxrstor64; AddRsp 0x10] ++ [Popfq] ++ [Iretq]) as -> by done.
  rewrite run_app. set (m0 := with_reg m RSP (regs m RDI)).
  assert (run [Movq RDI RSP] m = Ok m0) as -> by done. cbn [mbind res_bind]. assert (regs m0 RSP = regs m RDI) as S0 by done.
  rewrite run_app. destruct (popq_Ok m0 (cr3 st) (tail (frame_words st))) as (m1 & E1 & S1 & H1 & W1 & G1 & T1);
    [split; done|lia|lia|].
  assert (run [Popq RAX] m0 = Ok (with_reg m1 RAX (cr3 st))) as -> by (cbn [run exec]; by rewrite E1).
  cbn [mbind res_bind]. rewrite run_app.
  set (m2 := with_cr3 (with_reg m1 RAX (cr3 st)) (cr3 st)).
  assert (run [SetCr3 RAX] (with_reg m1 RAX (cr3 st)) = Ok m2) as -> by done. cbn [mbind res_bind]. rewrite run_app.
  assert (regs m2 RSP = regs m1 RSP) as S2 by done.
  destruct (unwind_Ok m2 st) as (m3 & E3 & S3 & W3 & T3 & G3 & H3); [exact H1|rewrite S2; lia|rewrite S2; lia|].
  rewrite E3. cbn [mbind res_bind]. rewrite run_app.
  set (m4 := with_reg (with_sse m3 (sse_area m3) (sse_area m3)) RSP (u64 (regs m3 RSP + 0x10))).
  assert (run [Fxrstor64; AddRsp 0x10] m3 = Ok m4) as -> by done. cbn [mbind res_bind].
  assert (regs m4 RSP = regs m3 RSP + 16) as S4 by (cbn; u_small; done).
  rewrite run_app. destruct (popq_Ok m4 (err st) [rip st; cs st; rfl st; rsp st; ss st]) as (m5 & E5 & S5 & H5 & W5 & G5 & T5).
  { rewrite S4. change (words m4) with (words m3). by destruct H3 as (_ & _ & H3); rewrite <- !Z.add_assoc in H3. }
  { lia. }
  { lia. }
  assert (run [Popfq] m4 = Ok (with_flags m5 (err st))) as -> by (cbn [run exec]; by rewrite E5). cbn [mbind res_bind].
  destruct (iretq_Ok (with_flags m5 (err st)) st) as (m6 & E6 & C6 & R6 & W6); [exact H5|cbn; lia|cbn; lia| |].
  { intros r Hne. simpl. rewrite G5 by done. simpl. rewrite decide_False by done. by apply G3. }
  exists m6. split; [exact E6|]. unfold rest in T1, T3, T5. simpl in T1, T3, T5. simplify_eq. split_and!.
  - replace (sse_area m) with (xmm (with_flags m5 (err st))) by (simpl; congruence). done.
  - rewrite R6. simpl. congruence.
  - rewrite W6. simpl. rewrite W5. simpl. rewrite W3. simpl. by rewrite W1.
Qed.

(** ** Task switches *)

(** What a task finds again of the machine besides memory: not [%ds] and [%es], which [pushall] overwrites
    ([data_segments_lost]). *)
Record same_task (m m' : machine) : Prop := mkSameTask {
  same_regs : ∀ r, regs m' r = regs m r;
  same_code : m_rip m' = m_rip m ∧ m_cs m' = m_cs m ∧ m_ss m' = m_ss m;
  same_flags : m_flags m' = m_flags m;
  same_cr3 : m_cr3 m' = m_cr3 m;
  same_xmm : xmm m' = xmm m }.

(** The context a timer interrupt saves, and a machine that has been given a context. *)
Definition ctx (m : machine) : context := (captured 0x40 None m, xmm m).
Definition resumes (m : machine) (c : context) : Prop := continues m c.1 c.2 ∧ m_cr3 m = cr3 c.1.

Lemma continues_captured v e m m' : continues m' (captured v e m) (xmm m) → m_cr3 m' = m_cr3 m → same_task m m'.
Proof. intros [H1 H2 H3 H4 H5 H6] Hc. split; try done. intros r. rewrite H1. by destruct r. Qed.
Lemma resumes_ctx m m' : resumes m' (ctx m) → same_task m m'.
Proof. intros [H Hc]. exact (continues_captured 0x40 None m m' H Hc). Qed.

(** No exception comes while the handler works up to the copy of the context: every gate uses the same interrupt stack, and
    [pushall] the same SSE area, so that a nested one would overwrite both ([nested_loses_frame]). *)
Record quiet (ist1 : Z) (code : handler) : Prop := {
  quiet_frame : ∀ m a, frame_at ist1 ≤ a < align16 ist1 → words (before code m) !! a = words m !! a;
  quiet_sse : ∀ m, sse_area (before code m) = sse_area m }.

Lemma holds_agree mem mem' l : ∀ a, (∀ b, a ≤ b < a + 8 * zlen l → mem' !! b = mem !! b) → holds mem a l → holds mem' a l.
Proof.
  induction l as [|x l IH]; intros a Hb; [done|]. cbn [length] in Hb. intros [Hx Hl]. split.
  - rewrite Hb; [done|lia].
  - apply IH; [|done]. intros b Hr. apply Hb. lia.
Qed.

Section Switching.
Context (ist1 : Z) (code : handler) (Hist : 208 ≤ align16 ist1 < 2 ^ 64) (Hquiet : quiet ist1 code).

Lemma switch_Ok at_ s cpu c q m : runs s cpu (c :: q) → sched_running s = true → 0 ≤ at_ → at_ + 200 < 2 ^ 64 →
  ∃ s' m' c', timer_switch ist1 at_ code s cpu m = Ok (s', m') ∧ runs s' cpu (q ++ [ctx m]) ∧
    sched_running s' = true ∧ hd_error (q ++ [ctx m]) = Some c' ∧ resumes m' c'.
Proof.
  intros Hr Hrun Ha0 Ha. unfold timer_switch.
  destruct (enter_Ok ist1 0x40 None m Hist eq_refl) as (m1 & E & _ & D & _ & H & _ & _ & _ & Y). rewrite E.
  cbn [mbind res_bind]. rewrite D, (quiet_sse _ _ Hquiet), Y.
  assert (holds (words (before code m1)) (frame_at ist1) (frame_words (captured 0x40 None m))) as H'.
  { eapply holds_agree; [|exact H]. intros b Hb. apply (quiet_frame _ _ Hquiet). unfold frame_at in *. simpl in Hb. lia. }
  rewrite (read_frame_Ok _ _ _ H'). cbn [mbind res_bind].
  destruct (tick_Ok s cpu c q (captured 0x40 None m) (xmm m) false Hr) as (s' & c' & Et & Hr' & Hh & Hs & Hrun');
    [by rewrite Hrun|]. rewrite Et. cbn [mbind res_bind leave].
  match goal with |- context [run arch_cpu_state_load ?x] => set (m2 := x) end.
  destruct (load_Ok m2 c'.1) as (m3 & E3 & C3 & R3 & _); [apply store_holds|done|done|]. rewrite E3. cbn [mbind res_bind].
  exists s', m3, c'. split_and!; [done|done|by rewrite Hrun'|done|]. split; [|done]. by rewrite <- Hs.
Qed.

Definition fits (w : (machine → machine) * Z) : Prop := 0 ≤ w.2 ∧ w.2 + 200 < 2 ^ 64.

(** The contexts that are loaded come off the queue in order, and every interrupted one joins it. *)
Lemma turns_Ok cpu works : ∀ s m c q, runs s cpu (c :: q) → sched_running s = true → Forall fits works →
  ∃ s' log, turns ist1 code s cpu m works = Ok (s', log) ∧ length log = length works ∧
    Forall2 (λ x c, resumes x.2 c) log (take (length works) (q ++ (ctx ∘ fst <$> log))).
Proof.
  induction works as [|[work at_] works IH]; intros s m c q Hr Hrun Hf.
  { exists s, []. split_and!; [done|done|constructor]. }
  apply Forall_cons in Hf as [[Ha0 Ha] Hf].
  destruct (switch_Ok at_ s cpu c q (work m) Hr Hrun Ha0 Ha) as (s1 & m1 & c1 & E & Hr1 & Hrun1 & Hh & Hres).
  cbn [turns]. rewrite E. cbn [mbind res_bind].
  destruct (q ++ [ctx (work m)]) as [|c' q'] eqn:Eq; [done|]. injection Hh as ->.
  destruct (IH s1 m1 c1 q' Hr1 Hrun1 Hf) as (s2 & log & E2 & Hlen & H2). rewrite E2. cbn [mbind res_bind].
  exists s2, ((work m, m1) :: log). split_and!; [done|simpl; lia|].
  assert (q ++ (ctx ∘ fst <$> (work m, m1) :: log) = c1 :: q' ++ (ctx ∘ fst <$> log)) as ->.
  { rewrite fmap_cons. transitivity ((q ++ [ctx (work m)]) ++ (ctx ∘ fst <$> log)); [by rewrite <- app_assoc|by rewrite Eq]. }
  cbn [length take]. constructor; done.
Qed.
End Switching.

(** The handler may do what it likes as long as the frame and the stack pointer are what they were: the
    interrupted code continues as if nothing had happened, with the page table the handler leaves. *)
Lemma interrupt_returns ist1 v e m m1 m2 : 208 ≤ align16 ist1 < 2 ^ 64 → noflag v = bool_decide (is_Some e) →
  enter ist1 v e m = Ok m1 → regs m2 RSP = regs m1 RSP → sse_area m2 = sse_area m1 → m_cr3 m2 = m_cr3 m1 →
  holds (words m2) (frame_at ist1) (frame_words (captured v e m)) →
  ∃ m3, run popall m2 = Ok m3 ∧ same_task m m3.
Proof.
  intros Hi He E Hsp Ha Hc H.
  destruct (enter_Ok ist1 v e m Hi He) as (m1' & E' & R & _ & _ & _ & _ & C & _ & Y). rewrite E in E'. injection E' as <-.
  destruct (popall_Ok m2 (captured v e m)) as (m3 & E3 & C3 & R3 & _).
  { by rewrite Hsp, R. }
  { rewrite Hsp, R. unfold frame_at. lia. }
  { rewrite Hsp, R. unfold frame_at. lia. }
  exists m3. split; [done|]. eapply (continues_captured v e); [by rewrite <- Y, <- Ha|congruence].
Qed.

(** C24: several tasks share a processor; between two timer interrupts the running one does any work at all.  Every interrupt
    is taken, the contexts that wait are resumed in ring order, and a task that is interrupted in turn [i] is resumed
    exactly one round of the ring later with its general registers, instruction pointer, [%cs], [%ss], flags, page table
    and SSE state as they were when it was interrupted, whatever the other tasks did meanwhile and the kernel's own code
    -- as long as no exception is taken in the handler before the context is copied ([quiet]).  [%ds] and [%es] are not
    restored. *)
Theorem task_resumes ist1 code s cpu c q m works :
  208 ≤ align16 ist1 < 2 ^ 64 → quiet ist1 code → runs s cpu (c :: q) → sched_running s = true → Forall fits works →
  ∃ s' log, turns ist1 code s cpu m works = Ok (s', log) ∧ length log = length works ∧
    (∀ i c' x, q !! i = Some c' → log !! i = Some x → resumes x.2 c') ∧
    (∀ i x y, log !! i = Some x → log !! (i + length q)%nat = Some y → same_task x.1 y.2).
Proof.
  intros Hi Hq Hr Hrun Hf. destruct (turns_Ok ist1 code Hi Hq cpu works s m c q Hr Hrun Hf) as (s' & log & E & Hlen & H).
  exists s', log. split_and!; [done|done|..].
  - intros i c' x Hqi Hx. destruct (Forall2_lookup_l _ _ _ _ _ H Hx) as (c2 & Hc2 & Hres).
    apply lookup_take_Some in Hc2 as [Hc2 _]. rewrite (lookup_app_l_Some _ _ _ _ Hqi) in Hc2. by injection Hc2 as <-.
  - intros i x y Hx Hy. destruct (Forall2_lookup_l _ _ _ _ _ H Hy) as (c2 & Hc2 & Hres).
    apply lookup_take_Some in Hc2 as [Hc2 _]. rewrite lookup_app_r in Hc2 by lia.
    replace (i + length q - length q)%nat with i in Hc2 by lia. rewrite list_lookup_fmap, Hx in Hc2.
    injection Hc2 as <-. by apply resumes_ctx.
Qed.

Definition demo_machine : machine :=
  mkMachine (λ r, match r with RSP => 0x9000 | RAX => 7 | _ => 0 end) 0x1234 0x23 0x1b 0x1b 0x1b 0x246 0 0x1000 [5] [] ∅.
(** A task that counts in [rax] and moves on. *)
Definition demo_work (m : machine) : machine := with_code (with_reg m RAX (regs m RAX + 1)) (m_rip m + 3) (m_cs m).
Definition demo_works : list ((machine → machine) * Z) := [(demo_work, 0x5000); (demo_work, 0x6000); (demo_work, 0x5000)].

(** A handler that changes registers and writes below the frame. *)
Definition demo_below (m : machine) : machine := with_words (demo_work m) (<[0x100 := 77]> (words m)).
Definition demo_code : handler := mkHandler demo_below demo_below.
Lemma demo_quiet : quiet 0x20000 demo_code.
Proof.
  split; [|done]. intros m a Ha. assert (frame_at 0x20000 = 130872) as E by (vm_compute; reflexivity). rewrite E in Ha. cbn. by rewrite lookup_insert_ne by lia.
Qed.

Lemma task_resumes_witness : ∃ s' log, turns 0x20000 demo_code (demo_sched 0) 0 demo_machine demo_works = Ok (s', log) ∧
  length log = 3%nat ∧ ∀ x y, log !! 0%nat = Some x → log !! 1%nat = Some y → same_task x.1 y.2.
Proof.
  destruct (task_resumes 0x20000 demo_code (demo_sched 0) 0 (demo_ctx 1 [10]) [demo_ctx 2 [20]] demo_machine demo_works)
    as (s' & log & E & Hlen & _ & H).
  - split; vm_compute; congruence.
  - exact demo_quiet.
  - exact demo_runs.
  - reflexivity.
  - repeat (apply Forall_cons_2; [unfold fits; simpl; lia|]). apply Forall_nil_2.
  - exists s', log. split; [exact E|]. split; [exact Hlen|]. exact (H 0%nat).
Defined.

(** A run of the code itself: the task is interrupted, the handler returns, the task goes on. *)
Example demo_interrupt :
  (m1 ← enter 0x20000 0x40 None demo_machine; m2 ← run popall m1;
   Ok (regs m2 RAX, regs m2 RSP, m_rip m2, m_cs m2, m_flags m2, xmm m2)) =
  Ok (7, 0x9000, 0x1234, 0x23, 0x246, [5]).
Proof. vm_compute. reflexivity. Qed.

(** ** What goes wrong *)

(** On vectors without an error code the stub pushes its zero above the flags and not below: the field [err],
    which the handler prints as the error code, holds the flags, and [rflexc] holds 0. *)
Lemma err_holds_flags ist1 v m : 208 ≤ align16 ist1 < 2 ^ 64 → noflag v = false →
  ∃ m' st, enter ist1 v None m = Ok m' ∧ read_frame (words m') (regs m' RDI) = Ok st ∧
    err st = gate_flags (m_flags m) ∧ rflexc st = 0.
Proof.
  intros Hi Hv. destruct (enter_Ok ist1 v None m Hi Hv) as (m' & E & _ & D & _ & H & _).
  exists m', (captured v None m). rewrite D. split_and!; [done|by apply read_frame_Ok|done|done].
Qed.

(** The alignment check (vector 17) has an error code, but its stub is declared among those without: the frame is
    off by one word, and what should be the instruction pointer is the error code. *)
Lemma alignment_check_shifted ist1 c m : 208 ≤ align16 ist1 < 2 ^ 64 →
  ∃ m' st, enter ist1 17 (Some c) m = Ok m' ∧ read_frame (words m') (regs m' RDI) = Ok st ∧
    rip st = c ∧ cs st = m_rip m ∧ rfl st = m_cs m.
Proof.
  intros Hi. destruct (enter_words ist1 17 (Some c) m Hi) as (m' & E & _ & H & _ & D & _).
  rewrite <- (take_drop 25 (reg_words m ++ _)) in H. apply holds_app in H as [H _].
  set (g := regs m) in *.
  set (st := mkCpu (m_cr3 m) (g R15) (g R14) (g R13) (g R12) (g R11) (g R10) (g R9) (g R8) (m_cr2 m) (g RBP) (g RSI)
    (g RDI) (g RDX) (g RCX) (g RBX) (g RAX) 17 0 (gate_flags (m_flags m)) c (m_rip m) (m_cs m) (m_flags m) (g RSP)).
  exists m', st. rewrite D. split_and!; [done| |done..]. by apply read_frame_Ok.
Qed.

(** Every gate uses the same interrupt stack, so an exception inside a handler builds its frame on top of
    the first one.  The handler [m1] was running in is finished afterwards, but its own return resumes the
    handler again and not the code it had interrupted, wherever that was. *)
Lemma nested_loses_frame ist1 v e m1 : 208 ≤ align16 ist1 < 2 ^ 64 → noflag v = bool_decide (is_Some e) →
  ∃ m2, enter ist1 v e m1 = Ok m2 ∧
    ∀ m3, regs m3 RSP = frame_at ist1 → (∀ a, frame_at ist1 ≤ a < align16 ist1 → words m3 !! a = words m2 !! a) →
      ∃ m4, run popall m3 = Ok m4 ∧ m_rip m4 = m_rip m1 ∧ regs m4 RSP = regs m1 RSP.
Proof.
  intros Hi He. destruct (enter_Ok ist1 v e m1 Hi He) as (m2 & E & _ & _ & _ & H & _). exists m2. split; [done|].
  intros m3 Hsp Hw. destruct (popall_Ok m3 (captured v e m1)) as (m4 & E4 & C4 & _).
  { rewrite Hsp. eapply holds_agree; [|exact H]. intros b Hb. apply Hw. unfold frame_at in *. simpl in Hb. lia. }
  { rewrite Hsp. unfold frame_at. lia. }
  { rewrite Hsp. unfold frame_at. lia. }
  exists m4. split_and!; [done|exact (cont_rip _ _ _ C4)|exact (cont_regs _ _ _ C4 RSP)].
Qed.

(** [pushall] loads the kernel's selector into [%ds] and [%es], and neither way out loads another one: whatever a task had in
    them, it is resumed with 0x10. *)
Definition data_segs (m : machine) : Z * Z := (m_ds m, m_es m).
Definition loads_data (i : instr) : bool := match i with MovSeg DS | MovSeg ES => true | _ => false end.

Lemma pop_segs m w m' : pop m = Ok (w, m') → data_segs m' = data_segs m.
Proof. unfold pop. intros E. apply bind_Ok in E as (x & _ & E). by injection E as _ <-. Qed.
Lemma exec_segs i m m' : loads_data i = false → exec i m = Ok m' → data_segs m' = data_segs m.
Proof.
  assert (∀ {A} (x y : A), Ok x = Ok y → x = y) as Hinj by (by intros A x y [= ->]).
  destruct i as [| | | | | | | | | | | | |[]| | | |]; intros Hi E; try discriminate Hi; cbn [exec] in E; try (apply Hinj in E; by subst m').
  - apply bind_Ok in E as ([w m1] & Ep & E). apply Hinj in E. subst m'. exact (pop_segs _ _ _ Ep).
  - apply bind_Ok in E as ([w m1] & Ep & E). apply Hinj in E. subst m'. exact (pop_segs _ _ _ Ep).
  - apply bind_Ok in E as (w & _ & E). apply Hinj in E. by subst m'.
  - do 5 (apply bind_Ok in E as ([? ?] & ?%pop_segs & E)). apply Hinj in E. subst m'. unfold data_segs in *. cbn. congruence.
Qed.
Lemma run_segs l : ∀ m m', run l m = Ok m' → forallb (negb ∘ loads_data) l = true → data_segs m' = data_segs m.
Proof.
  induction l as [|i l IH]; intros m m' E Hl; [by injection E as <-|]. cbn in Hl. apply andb_true_iff in Hl as [Hi Hl].
  cbn [run] in E. apply bind_Ok in E as (m1 & E1 & E). rewrite (IH _ _ E Hl). apply (exec_segs i); [by apply negb_true_iff|done].
Qed.
Lemma enter_segs ist1 v e m m' : enter ist1 v e m = Ok m' → data_segs m' = (0x10, 0x10).
Proof.
  unfold enter. assert (∃ l, exc_stub v ++ pushall = l ++ [MovAx 0x10; MovSeg DS; MovSeg ES] ++ [MovSeg SS; Movq RSP RDI; Loadq 136 RSP RSI; Cld]) as (l & ->).
  { exists (exc_stub v ++ take 20 pushall). by rewrite <- app_assoc. }
  rewrite run_app. intros E. apply bind_Ok in E as (m1 & _ & E). rewrite run_app in E. apply bind_Ok in E as (m2 & E2 & E). rewrite (run_segs _ _ _ E) by reflexivity.
  injection E2 as <-. unfold data_segs. cbn [m_ds m_es with_seg with_reg regs].
  change (decide (RAX = RAX)) with (left (B := RAX ≠ RAX) (eq_refl RAX)). cbn iota.
  assert (Z.land (Z.lor (clear (regs m1 RAX) 0xffff) 0x10) 0xffff = 0x10) as ->; [|done].
  unfold clear. rewrite Z.land_lor_distr_l, <- Z.land_assoc. change (Z.land (Z.lnot 0xffff) 0xffff) with 0. by rewrite Z.land_0_r.
Qed.
Lemma load_segs m m' : run arch_cpu_state_load m = Ok m' → data_segs m' = data_segs m.
Proof. intros E. by apply (run_segs _ _ _ E). Qed.
Lemma popall_segs m m' : run popall m = Ok m' → data_segs m' = data_segs m.
Proof. intros E. by apply (run_segs _ _ _ E). Qed.
Lemma segs_with c r v w x a : data_segs (with_reg (with_words (with_sse c x a) w) r v) = data_segs c.
Proof. done. Qed.
Lemma segs_with_reg c r v : data_segs (with_reg c r v) = data_segs c.
Proof. done. Qed.
Lemma leave_segs at_ fp s o c m' : leave at_ fp s o c = Ok m' → data_segs m' = data_segs c.
Proof. destruct o; cbn [leave]; intros E; [by rewrite (load_segs _ _ E), segs_with|by rewrite (popall_segs _ _ E), segs_with_reg]. Qed.
#[local] Opaque enter leave read_frame sched_tick.
Lemma data_segments_lost ist1 at_ code s cpu m s' m' : (∀ x, data_segs (before code x) = data_segs x) → (∀ x, data_segs (after code x) = data_segs x) →
  timer_switch ist1 at_ code s cpu m = Ok (s', m') → data_segs m' = (0x10, 0x10).
Proof.
  intros Hb Ha E. unfold timer_switch in E. apply bind_Ok in E as (m1 & E1 & E). apply bind_Ok in E as (fr & _ & E).
  apply bind_Ok in E as ([s1 o] & _ & E). apply bind_Ok in E as (m2 & E2 & E).
  assert (m2 = m') as <- by congruence. rewrite (leave_segs _ _ _ _ _ _ E2), Ha, Hb. exact (enter_segs _ _ _ _ _ E1).
Qed.
